(* ===== verification/_CoqProject ===== *)
-Q . S2P
Prelude.v
Monad.v
Memory.v
Sv48.v
Machine.v
Layout.v
Samples.v
Stdio.v
Uart.v
PhysAlloc.v
Paging.v
AddressSpace.v
BootTables.v
Heap.v
KAlloc.v
Allocator.v
Client.v
Dma.v
LinearHeap.v
UserSpace.v
FrameGap.v
Process.v
Ext2.v
Ext2Walk.v
Ext2Mount.v
Ext2Files.v
Loader.v
Programs.v
ProgramsSample.v
Vfs.v
Syscall.v
Exception.v
TrapEntry.v
System.v
FirstProcess.v
Tlibc.v
TlibcSample.v
Shell.v
Virtio.v
VirtioDevice.v
VirtioInit.v
VirtioBlk.v
VirtioSample.v
DiskDriver.v
Console.v
ShellRun.v
Boot.v
BootSample.v
