(* ===== verification/Prelude.v ===== *)
(** A verification library for tetraOS, a small kernel for 64-bit RISC-V (src/kernel), the
    C library of its programs (src/tlibc) and its shell (src/userspace).

    * The program and its parts

    boot.s builds first page tables, which map the kernel's image and the UART at
    VIRTUAL_OFFSET, and enters os_start (kernel/os.cpp).  os_start brings up, one on the other, the frame
    allocator, the Sv48 page tables and the kernel heap, finds the VirtIO block device,
    mounts the ext2 file system on its partition, creates the VFS and the scheduler, and
    loads and enters the first process.  From then on the kernel runs when a program
    traps: the exception handler dispatches system calls to the console and the VFS.

    * How it is modelled

    A C++ function is a computation of the monad [K] (Monad.v, Machine.v) on one record
    [kstate]: physical memory, the satp register, the file-scope variables, what was
    printed and what was typed.  Every access goes through [resolve], the translation of
    the pointer (the window of 4 GiB at VIRTUAL_OFFSET, which paging_init maps, and the
    Sv48 tables for the rest), and faults where nothing is mapped; objects, pointers and aliasing are
    those of the source, since an object is its address and a field is the bytes at its
    offset.  Integers are [Z] with the wrap of their type written out (Prelude.v).  A
    loop is [loop] with 2^64 rounds; that they are enough is part of every theorem,
    because [wp m Q s] says that [m] ends and its outcome satisfies [Q].

    File by file, with the sources (under src/kernel if not said otherwise):

    - Prelude, Monad, Memory, Sv48, Machine, Layout (linker.ld, mem.s), Samples: the
      machine; integers, byte memory, the hardware's address translation, the link
      layout.
    - Stdio (libk/printf.cpp, logging.cpp, read.cpp, kstdio.h), Uart (UART.cpp):
      formatted output against a renderer, log levels, line input; the polling driver of
      the serial line implements the console of [kstate].
    - PhysAlloc (memory/physical_allocator.cpp): the frame allocator as a set of frames.
    - Paging, AddressSpace (memory/paging.cpp, memory.cpp, memory.h, paging.s): page table
      entries, map_page, paging_init and the kernel's own walk, against Sv48.
    - BootTables (boot.s, the start of the machine): the first page tables, and that what
      the kernel changes before paging_init switches them is translated as [resolve] says.
    - Heap, KAlloc (memory/virtual_allocator.cpp, libk/list.cpp): the heap's invariant,
      kalloc, memcpy, memset, new and delete.
    - Process (process/process.cpp, scheduler.cpp, process.s), Loader and Programs
      (scheduler.cpp, elf.h): the process list, and from an ELF file to user memory.
    - Ext2, Ext2Walk, Ext2Mount, Ext2Files (drivers/ext2.cpp, ext2.h): mounting, lookup
      of paths, file sizes and contents, against a reference on the bytes of the disk.
    - Virtio, VirtioDevice, VirtioInit, VirtioBlk, DiskDriver (drivers/virtio/): device
      discovery, initialisation, and requests served by a device of the VirtIO 1.1
      specification.
    - Vfs (vfs.cpp), Syscall (syscalls/syscall.cpp), Exception (exception.cpp,
      exception.s, arch/riscv64/processor.cpp): descriptors, system calls, traps as the
      handler in C++ sees them.
    - TrapEntry (the trap entry in boot.s, exception.s, process.s): the registers on the
      way into the handler and back.
    - System: any number of system calls of one program, as a step relation on the C++
      side.
    - FirstProcess: the first process runs in such a session.
    - Tlibc (src/tlibc: init.c, malloc.c, printf.c, string.c, syscalls/), Shell (crt0.s,
      src/userspace/shell): user programs, up to the ecall of their system calls.
    - ShellRun: the shell from its first instruction: behind the trap entry as it is, and
      in an environment that serves its calls.
    - Console, Boot (os.cpp): os_start, composed of all of it.  FrameGap: what
      submit_new_process does to the physical layout the driver relies on.
    - ProgramsSample, TlibcSample, VirtioSample, BootSample: concrete inputs.

    * Interfaces

    - [Allocator] (Allocator.v): an invariant with a budget of bytes, memory that keeps
      its contents and memory a client owns.  The clients are proved against it with the
      rules of Client.v.  Instances: [kernel_heap], the heap; [user_heap] (UserSpace.v),
      with user pages as further client memory; [linear_heap] (LinearHeap.v), the heap as
      long as nobody else takes frames.
    - [DeviceMemory] (Dma.v): which changes of a device the heap tolerates.
      [ContiguousHeap] (LinearHeap.v): new blocks are contiguous in physical memory.
    - [BlockDevice] and [DiskLaws] (Ext2.v): what the file system expects of its driver.
      [driver_laws] (DiskDriver.v) proves it of VirtIOBlockDevice::read.
    - [Mmio], [VirtioRegisters], [VirtioDisk] (Virtio.v to VirtioBlk.v), [Uart] and
      [UartSpec] (Uart.v): the devices, which are not code of the kernel; the classes
      state what their specifications say, and VirtioSample.v and Uart.v implement them.
    - [UserProgram] (Tlibc.v): where the linker put the library's variables.
      [Environment]: what an ecall of a program does.  Two are used: [trap_path]
      (ShellRun.v), the way through boot.s into the handler as the code has it, and any
      one with [ServedCalls], in which handle_syscall serves the call and the program
      goes on with its registers.

    * What the theorems show

    - Memory: frame allocation refines choosing the least free frame; map_page and
      paging_init give the hardware's translation what they promise; kalloc returns
      blocks that are mapped, new and apart, and keeps all others.
    - Files: mounting establishes [mounted]; the walk over a path is the component-wise
      lookup; get_file_size and read_file deliver the bytes of the disk.
    - Devices: initialisation leaves a live device or says why not; a request ends with
      the sectors in the buffer; read delivers the bytes of the partition.
    - Programs: a simple executable is in memory as its headers say and starts at its
      entry; what is not loaded faults.  The C++ code of the system calls does what the
      theorems of Syscall.v say on every state of a session, and no sequence of calls of
      handle_syscall and computations of a program within the budget of the heap breaks
      the kernel's objects ([system_calls_safe]); the first process enters user mode in a
      state where this holds ([first_process_in_session]).  printf of the C library has
      its text in the buffer when it makes its ecall ([user_printf_formats]).  The shell
      comes to its first ecall and stops in the trap entry ([shell_stops_at_first_call]);
      in an environment with [ServedCalls] it prints what its source says, in order
      ([shell_runs]).
    - The start: on tables that were zero boot.s maps the image and the UART and nothing
      else, and [boot_tables_support_init] justifies [resolve] until paging_init.
    - The whole: [Boot.os_start_boots] runs os_start from zeroed RAM to the submission of
      the first process and discharges the assumptions of the parts one by one.
    - Where the code differs from its intention the theorem says what it does (for
      instance [management_overlaps_frames], [multi_page_segment_faults],
      [taken_frame_breaks_contiguity], [open_file_returns_3], [syscall_getcwd_copies],
      [boot_tables_alias]).  One such theorem bears on others: at this commit the first
      instruction of the trap entry that stores a register uses a virtual address as a
      physical one and faults ([trap_entry_faults]), so that no program gets a system
      call served.  The theorems about system calls are about handle_syscall and what it
      calls, from the state in which it is entered to the state in which it returns; the
      stack of the kernel and the registers of the program are not part of them, and
      TrapEntry.v has what happens to these.

    * Assumptions and bounds

    RAM behind the kernel image is zero at the start: no code clears the frames that
    become page tables.  The frame invariant speaks of the frames whose flags fit in the
    eight management frames, at most 32768.  [boot_budget] is what the heap of
    [linear_heap] can give out before it needs another page table, 511 pages.  The
    driver reads a disk of at least 2^34 bytes behind its first MiB, which covers every
    32-bit offset the file system computes; an ext2 group has at most 2^25 inodes.

    * Not modelled

    - Page permissions, accessed and dirty bits, the SUM bit's effect, TLBs and fences:
      an access to a mapped page succeeds.  Interrupts and concurrency: the kernel enables
      no interrupt source and runs on one hart; a device acts when it is polled.
    - Compiled code: stacks, and the registers of C and C++ functions.  The frame the
      compiler gives the handler is a parameter of TrapEntry.v, where s0 to s11 of the
      program are followed; of crt0.s the global pointer is not.
    - A program's memory is a set of addresses in a session: what the loader has mapped
      (FirstProcess.v), or one page of heap and the variables for the shell.
    - What a write request does to the disk (nothing in the kernel writes).
    - os_start is composed up to the first process; that process is proved to start, and
      to start a session, over [user_heap] and any driver with [DiskLaws], because
      submit_new_process takes a frame itself and so ends the contiguous phase that the
      VirtIO driver needs.
    - elf.cpp, String.cpp (empty), context.c (class Context, which nothing creates), the
      toolchain patches, scripts, tests of the host and the files of the disk image. *)

From stdpp Require Export base tactics list gmap strings.
From Stdlib Require Export ZArith Lia.

#[export] Set Default Goal Selector "!".

Open Scope Z_scope.

(** * Machine integers

    A [uintN_t] value is a [Z] in [0, 2^N); an operation of the source that can
    leave that range is followed by the wrap of the type it is computed in. *)

Definition u8 (z : Z) : Z := z mod 0x100.
Definition u16 (z : Z) : Z := z mod 0x10000.
Definition u32 (z : Z) : Z := z mod 0x100000000.
Definition u64 (z : Z) : Z := z mod 0x10000000000000000.

(** Conversion of a 64-bit register value to a C [int] (low 32 bits, two's
    complement), as [va_arg(args, int)] reads it. *)
Definition s32 (z : Z) : Z :=
  let w := u32 z in if w <? 0x80000000 then w else w - 0x100000000.

(** The conversion to a plain [char] of the riscv64 ABI, where [char] is
    unsigned. *)
Definition to_char (z : Z) : Z := u8 z.

Declare Scope kernel_scope.
Delimit Scope kernel_scope with kernel.
Notation "a ⊞ b" := (u64 (a + b)) (at level 50, left associativity) : kernel_scope.
Notation "a ⊟ b" := (u64 (a - b)) (at level 50, left associativity) : kernel_scope.
Open Scope kernel_scope.

Create HintDb kernel.
Create Rewrite HintDb kernel_rw.

(** Range facts of the wraps, and the tactic that discharges the side conditions
    of address arithmetic. *)
Lemma u8_range z : 0 ≤ u8 z < 0x100.
Proof. by apply Z.mod_pos_bound. Qed.
Lemma u16_range z : 0 ≤ u16 z < 0x10000.
Proof. by apply Z.mod_pos_bound. Qed.
Lemma u32_range z : 0 ≤ u32 z < 0x100000000.
Proof. by apply Z.mod_pos_bound. Qed.
Lemma u64_range z : 0 ≤ u64 z < 0x10000000000000000.
Proof. by apply Z.mod_pos_bound. Qed.
#[export] Hint Resolve u8_range u16_range u32_range u64_range : kernel.

Lemma u8_small z : 0 ≤ z < 0x100 → u8 z = z.
Proof. apply Z.mod_small. Qed.
Lemma u16_small z : 0 ≤ z < 0x10000 → u16 z = z.
Proof. apply Z.mod_small. Qed.
Lemma u32_small z : 0 ≤ z < 0x100000000 → u32 z = z.
Proof. apply Z.mod_small. Qed.
Lemma u64_small z : 0 ≤ z < 0x10000000000000000 → u64 z = z.
Proof. apply Z.mod_small. Qed.
#[export] Hint Rewrite u8_small u16_small u32_small u64_small using lia : kernel_rw.

Lemma u64_u64 z : u64 (u64 z) = u64 z.
Proof. apply Zmod_mod. Qed.
Lemma u8_u8 z : u8 (u8 z) = u8 z.
Proof. apply Zmod_mod. Qed.
#[export] Hint Rewrite u64_u64 u8_u8 : kernel_rw.

(** [zlia] is [lia] after the quotients and remainders of the context have been
    replaced by their equations. *)
Ltac zlia := Z.div_mod_to_equations; lia.

(** * Lists of consecutive integers *)

Definition zseq (start : Z) (len : nat) : list Z :=
  (λ i, start + Z.of_nat i) <$> seq 0 len.

Lemma elem_of_zseq start len x :
  x ∈ zseq start len ↔ start ≤ x < start + Z.of_nat len.
Proof.
  unfold zseq. rewrite list_elem_of_fmap. split.
  - intros (i & -> & Hi). apply elem_of_seq in Hi. lia.
  - intros Hx. exists (Z.to_nat (x - start)). split; [lia|].
    apply elem_of_seq. lia.
Qed.

Lemma zseq_S start len : zseq start (S len) = start :: zseq (start + 1) len.
Proof.
  unfold zseq. cbn [seq fmap list_fmap]. f_equal; [lia|]. rewrite <- fmap_S_seq, <- list_fmap_compose.
  apply list_fmap_ext. intros i x _. cbn. lia.
Qed.

Lemma zseq_app start n m : zseq start (n + m) = zseq start n ++ zseq (start + Z.of_nat n) m.
Proof.
  revert start. induction n as [|n IH]; intros start; [by rewrite Z.add_0_r|].
  cbn [Nat.add]. rewrite !zseq_S, IH. cbn. do 3 f_equal. lia.
Qed.

Lemma zseq_NoDup start len : NoDup (zseq start len).
Proof. apply NoDup_fmap_2; [intros ?? ?; lia | apply NoDup_seq]. Qed.

Lemma list_filter_ext_in {A} (P Q : A → Prop) `{∀ x, Decision (P x)}
    `{∀ x, Decision (Q x)} (l : list A) :
  (∀ y, y ∈ l → P y ↔ Q y) → filter P l = filter Q l.
Proof.
  induction l as [|y l IH]; intros Hext; [done|].
  assert (P y ↔ Q y) by (apply Hext; set_solver).
  rewrite !filter_cons, IH by set_solver.
  repeat case_decide; tauto.
Qed.

(** Counting the elements of a duplicate-free list that satisfy a decidable
    property: turning one element off lowers the count by one. *)
Lemma length_filter_flip {A} (P Q : A → Prop) `{∀ x, Decision (P x)}
    `{∀ x, Decision (Q x)} (l : list A) (x : A) :
  NoDup l → x ∈ l → P x → ¬ Q x → (∀ y, y ∈ l → y ≠ x → P y ↔ Q y) →
  length (filter P l) = S (length (filter Q l)).
Proof.
  induction 1 as [|y l Hy Hl IH]; intros Hx HP HQ Hext; [by apply elem_of_nil in Hx|].
  apply elem_of_cons in Hx as [->|Hx].
  - rewrite filter_cons_True, filter_cons_False by done. simpl. do 2 f_equal.
    apply list_filter_ext_in. set_solver.
  - assert (y ≠ x) by (intros ->; done).
    assert (P y ↔ Q y) as Hy' by (apply Hext; set_solver).
    assert (length (filter P l) = S (length (filter Q l))) as IH'
      by (apply IH; set_solver).
    rewrite !filter_cons. repeat case_decide; simpl; tauto || lia.
Qed.

Lemma length_filter_impl {A} (P Q : A → Prop) `{∀ x, Decision (P x)}
    `{∀ x, Decision (Q x)} (l : list A) :
  (∀ y, y ∈ l → P y → Q y) → (length (filter P l) ≤ length (filter Q l))%nat.
Proof.
  induction l as [|y l IH]; intros Hext; [done|].
  assert (P y → Q y) by (apply Hext; set_solver).
  assert (length (filter P l) ≤ length (filter Q l))%nat by (apply IH; set_solver).
  rewrite !filter_cons. repeat case_decide; simpl; tauto || lia.
Qed.
