(* ===== verification/Monad.v ===== *)
(** The effect monad of the model: a state, and an outcome that is either a
    result or the reason why the code does not get past a point.

    [M S A] is a computation on states [S] with a result [A].  [loop] runs the
    body of a C++ loop; it gives it 2^64 iterations, more than any loop whose
    variant is a 64-bit quantity can make, and evaluates only the ones that are
    made.  [wp m Q s] is total correctness: [m] started in [s] ends with a
    result, and the result and the final state satisfy [Q]. *)

From S2P Require Import Prelude.

(** Why a computation stops without a result. *)
Inductive fault :=
  | PageFault (va : Z)      (** access to an address that is not mapped *)
  | AccessFault (pa : Z)    (** physical access where there is no memory *)
  | OutOfFuel               (** more than 2^64 iterations of one loop *)
  | NoInput                 (** [get_char] polls and no character arrives *)
  | OutOfBounds             (** a local array is indexed past its end *)
  | MissingVarArg           (** [va_arg] past the last variadic argument *)
  | NeverReturns.           (** the code does not return to its caller *)

#[export] Instance fault_eq_dec : EqDecision fault.
Proof. solve_decision. Defined.

Inductive outcome (S A : Type) :=
  | Done (a : A) (s : S)
  | Fault (f : fault) (s : S).
Arguments Done {S A}.
Arguments Fault {S A}.

Definition M (S A : Type) : Type := S → outcome S A.

#[export] Instance M_ret {S} : MRet (M S) := λ A a s, Done a s.
#[export] Instance M_bind {S} : MBind (M S) := λ A B f m s,
  match m s with
  | Done a s' => f a s'
  | Fault e s' => Fault e s'
  end.

Definition fail {S A} (f : fault) : M S A := λ s, Fault f s.
Definition gets {S A} (f : S → A) : M S A := λ s, Done (f s) s.
Definition modify {S} (f : S → S) : M S () := λ s, Done () (f s).

(** [iterate n body a]: at most 2^n rounds of [body].  A round ends with the
    locals of the next round ([inl]) or with the result of the loop ([inr]). *)
Fixpoint iterate {S A B} (n : nat) (body : A → M S (A + B)) (a : A) : M S (A + B) :=
  match n with
  | O => body a
  | Datatypes.S n' =>
      r ← iterate n' body a;
      match r with
      | inl a' => iterate n' body a'
      | inr b => mret (inr b)
      end
  end.

Definition loop {S A B} (body : A → M S (A + B)) (a : A) : M S B :=
  r ← iterate 64 body a;
  match r with
  | inl _ => fail OutOfFuel
  | inr b => mret b
  end.

(** [for_each l body] is the C++ [for] over the values [l] of its variable. *)
Fixpoint for_each {S A} (l : list A) (body : A → M S ()) : M S () :=
  match l with
  | [] => mret ()
  | a :: l' => body a;; for_each l' body
  end.

Definition wp {S A} (m : M S A) (Q : A → S → Prop) (s : S) : Prop :=
  match m s with
  | Done a s' => Q a s'
  | Fault _ _ => False
  end.

(** * Equations *)

Section equations.
Context {S : Type}.

Lemma bind_done {A B} (m : M S A) (f : A → M S B) s a s' :
  m s = Done a s' → (m ≫= f) s = f a s'.
Proof. intros E. unfold mbind, M_bind. by rewrite E. Qed.

Lemma bind_fault {A B} (m : M S A) (f : A → M S B) s e s' :
  m s = Fault e s' → (m ≫= f) s = Fault e s'.
Proof. intros E. unfold mbind, M_bind. by rewrite E. Qed.

Lemma bind_assoc {A B C} (m : M S A) (f : A → M S B) (g : B → M S C) s :
  ((m ≫= f) ≫= g) s = (m ≫= λ a, f a ≫= g) s.
Proof. unfold mbind, M_bind. by destruct (m s). Qed.

Lemma bind_ret_l {A B} (a : A) (f : A → M S B) s : (mret a ≫= f) s = f a s.
Proof. done. Qed.

Lemma bind_ext {A B} (m : M S A) (f g : A → M S B) s :
  (∀ a s', f a s' = g a s') → (m ≫= f) s = (m ≫= g) s.
Proof. intros E. unfold mbind, M_bind. destruct (m s); auto. Qed.
End equations.

(** * Weakest preconditions *)

Section wp.
Context {S : Type}.

Lemma wp_ret {A} (a : A) (Q : A → S → Prop) s : Q a s → wp (mret a) Q s.
Proof. done. Qed.
Lemma wp_gets {A} (f : S → A) (Q : A → S → Prop) s : Q (f s) s → wp (gets f) Q s.
Proof. done. Qed.
Lemma wp_modify (f : S → S) (Q : () → S → Prop) s : Q () (f s) → wp (modify f) Q s.
Proof. done. Qed.
Lemma wp_bind {A B} (m : M S A) (f : A → M S B) (Q : B → S → Prop) s :
  wp m (λ a s', wp (f a) Q s') s → wp (m ≫= f) Q s.
Proof. unfold wp, mbind, M_bind. by destruct (m s). Qed.
Lemma wp_mono {A} (m : M S A) (P Q : A → S → Prop) s :
  wp m P s → (∀ a s', P a s' → Q a s') → wp m Q s.
Proof. unfold wp. destruct (m s); auto. Qed.
Lemma wp_done {A} (m : M S A) (Q : A → S → Prop) s a s' :
  m s = Done a s' → Q a s' → wp m Q s.
Proof. unfold wp. by intros ->. Qed.
(** A run that ends has both properties. *)
Lemma wp_conj {A} (m : M S A) (Q R : A → S → Prop) s :
  wp m Q s → wp m R s → wp m (λ a s', Q a s' ∧ R a s') s.
Proof. unfold wp. by destruct (m s). Qed.

Lemma wp_inv {A} (m : M S A) (Q : A → S → Prop) s :
  wp m Q s → ∃ a s', m s = Done a s' ∧ Q a s'.
Proof. unfold wp. destruct (m s) as [a s'|]; [eauto|done]. Qed.
Lemma wp_bind_done {A B} (m : M S A) (f : A → M S B) (Q : B → S → Prop) s a s' :
  m s = Done a s' → wp (f a) Q s' → wp (m ≫= f) Q s.
Proof. intros E H. unfold wp. by rewrite (bind_done _ _ _ _ _ E). Qed.

Lemma wp_for_each {A} (I : nat → S → Prop) (l : list A) (body : A → M S ()) s :
  I 0%nat s →
  (∀ i a s', l !! i = Some a → I i s' → wp (body a) (λ _, I (Datatypes.S i)) s') →
  wp (for_each l body) (λ _, I (length l)) s.
Proof.
  revert I s. induction l as [|a l IH]; intros I s HI Hstep; [done|].
  cbn [for_each length]. apply wp_bind.
  eapply wp_mono; [by apply (Hstep 0%nat)|]. intros [] s' HI'.
  apply (IH (λ i, I (Datatypes.S i))); [done|].
  intros i b s'' Hi. by apply (Hstep (Datatypes.S i)).
Qed.
End wp.

(** * Loops

    [rounds k body a] makes exactly up to [k] rounds, one at a time; [iterate]
    is [rounds] with 2^n, and [loop] ends as soon as [rounds] does. *)

Fixpoint rounds {S A B} (k : nat) (body : A → M S (A + B)) (a : A) : M S (A + B) :=
  match k with
  | O => mret (inl a)
  | Datatypes.S k' =>
      r ← body a;
      match r with
      | inl a' => rounds k' body a'
      | inr b => mret (inr b)
      end
  end.

Section loops.
Context {S A B : Type} (body : A → M S (A + B)).

Lemma rounds_add j k a s :
  rounds (j + k) body a s =
  (rounds j body a ≫= λ r,
     match r with inl a' => rounds k body a' | inr b => mret (inr b) end) s.
Proof.
  revert a s. induction j as [|j IH]; intros a s; [done|].
  cbn [rounds Nat.add]. rewrite bind_assoc. apply bind_ext.
  intros [a'|b] s'; [apply IH|done].
Qed.

Lemma iterate_rounds n a s : iterate n body a s = rounds (2 ^ n) body a s.
Proof.
  revert a s. induction n as [|n IH]; intros a s.
  - cbn [iterate Nat.pow rounds]. unfold mbind, M_bind.
    by destruct (body a s) as [[]|].
  - cbn [iterate]. replace (2 ^ Datatypes.S n)%nat with (2 ^ n + 2 ^ n)%nat
      by (simpl; lia).
    rewrite rounds_add. unfold mbind, M_bind. rewrite IH.
    destruct (rounds _ _ _ _) as [[a'|b] s'|]; [apply IH|done|done].
Qed.

Lemma rounds_more j k a s b s' :
  rounds j body a s = Done (inr b) s' → (j ≤ k)%nat →
  rounds k body a s = Done (inr b) s'.
Proof.
  intros E Hle. replace k with (j + (k - j))%nat by lia.
  rewrite rounds_add. unfold mbind, M_bind. by rewrite E.
Qed.

Lemma loop_rounds (k : nat) a s b s' :
  rounds k body a s = Done (inr b) s' → Z.of_nat k ≤ 2 ^ 64 →
  loop body a s = Done b s'.
Proof.
  intros E Hk. unfold loop.
  rewrite (bind_done _ _ s (inr b) s'); [done|].
  rewrite iterate_rounds. apply (rounds_more k); [done|].
  apply Nat2Z.inj_le. rewrite Nat2Z.inj_pow. exact Hk.
Qed.

(** One more round of a loop that ends. *)
Lemma rounds_step k a s a' s' :
  body a s = Done (inl a') s' →
  rounds (Datatypes.S k) body a s = rounds k body a' s'.
Proof. intros E. cbn [rounds]. by rewrite (bind_done _ _ _ _ _ E). Qed.

Lemma rounds_stop k a s b s' :
  body a s = Done (inr b) s' →
  rounds (Datatypes.S k) body a s = Done (inr b) s'.
Proof. intros E. cbn [rounds]. by rewrite (bind_done _ _ _ _ _ E). Qed.
(** The total-correctness rule: an invariant and a variant below 2^64 that
    every round that does not leave the loop decreases. *)
Lemma wp_loop (I : A → S → Prop) (V : A → S → Z) (Q : B → S → Prop) a s :
  (∀ a s, I a s →
     0 ≤ V a s ∧
     wp (body a) (λ r s', match r with
                          | inl a' => I a' s' ∧ V a' s' < V a s
                          | inr b => Q b s'
                          end) s) →
  I a s → V a s < 2 ^ 64 → wp (loop body a) Q s.
Proof.
  intros Hbody HI HV.
  assert (∀ n a s, I a s → V a s < Z.of_nat n →
    ∃ b s', rounds n body a s = Done (inr b) s' ∧ Q b s') as Hrun.
  { intros n. induction n as [|n IH]; intros a' s' HI' HV'.
    - destruct (Hbody a' s' HI'). lia.
    - destruct (Hbody a' s' HI') as [Hpos Hwp].
      apply wp_inv in Hwp as ([a''|b] & s'' & E & Hr).
      + destruct Hr as [HI'' Hlt].
        destruct (IH a'' s'' HI'') as (b & s3 & E' & HQ); [lia|].
        exists b, s3. split; [|done]. cbn [rounds].
        by rewrite (bind_done _ _ _ _ _ E).
      + exists b, s''. split; [|done]. cbn [rounds].
        by rewrite (bind_done _ _ _ _ _ E). }
  destruct (Hbody a s HI) as [Hpos _].
  destruct (Hrun (Z.to_nat (V a s) + 1)%nat a s HI) as (b & s' & E & HQ); [lia|].
  eapply wp_done; [|exact HQ]. eapply loop_rounds; [exact E|lia].
Qed.

(** A loop that every round either goes on, decreasing a variant, or fails. *)
Lemma loop_fails (I : A → S → Prop) (V : A → S → Z) (Q : fault → S → Prop) a s :
  (∀ a s, I a s → 0 ≤ V a s ∧
     ((∃ a' s', body a s = Done (inl a') s' ∧ I a' s' ∧ V a' s' < V a s) ∨
      (∃ e s', body a s = Fault e s' ∧ Q e s'))) →
  I a s → V a s < 2 ^ 64 → ∃ e s', loop body a s = Fault e s' ∧ Q e s'.
Proof.
  intros Hbody HI HV.
  assert (∀ n a s, I a s → V a s < Z.of_nat n → ∃ e s', rounds n body a s = Fault e s' ∧ Q e s') as Hrun.
  { intros n. induction n as [|n IH]; intros a' s' HI' HV'; destruct (Hbody a' s' HI') as [Hpos Hr]; [lia|].
    destruct Hr as [(a2 & s2 & E & HI2 & Hlt)|(e & s2 & E & HQ)].
    - destruct (IH a2 s2 HI2) as (e & s3 & E3 & HQ); [lia|]. exists e, s3. split; [|done].
      by rewrite (rounds_step _ _ _ _ _ E).
    - exists e, s2. split; [|done]. cbn [rounds]. by rewrite (bind_fault _ _ _ _ _ E). }
  destruct (Hrun (2 ^ 64)%nat a s HI) as (e & s' & E & HQ); [by rewrite Nat2Z.inj_pow|].
  exists e, s'. split; [|done]. unfold loop. apply bind_fault. by rewrite iterate_rounds.
Qed.

(** The same with the number of rounds left as an index of the invariant. *)
Lemma wp_loop_left (I : nat → A → S → Prop) (Q : B → S → Prop) n a s :
  (∀ n a s, I n a s →
     wp (body a) (λ r s', match r with
                          | inl a' => ∃ m, n = Datatypes.S m ∧ I m a' s'
                          | inr b => Q b s'
                          end) s) →
  I n a s → Z.of_nat n < 2 ^ 64 → wp (loop body a) Q s.
Proof.
  intros Hbody HI Hn.
  assert (∃ b s', rounds (Datatypes.S n) body a s = Done (inr b) s' ∧ Q b s')
    as (b & s' & E & HQ).
  { clear Hn. revert a s HI. induction n as [|n IH]; intros a' s' HI';
      destruct (wp_inv _ _ _ (Hbody _ a' s' HI')) as ([a''|b] & s'' & E & Hr).
    - by destruct Hr as (m & ? & _).
    - exists b, s''. split; [by apply rounds_stop|done].
    - destruct Hr as (m & [= <-] & HI''). destruct (IH a'' s'' HI'') as (b & s3 & E' & HQ).
      exists b, s3. split; [|done]. by rewrite (rounds_step _ _ _ _ _ E).
    - exists b, s''. split; [by apply rounds_stop|done]. }
  eapply wp_done; [|exact HQ]. eapply loop_rounds; [exact E|lia].
Qed.
End loops.

(** Symbolic execution of a straight-line prefix: [wp_step] handles one
    primitive, [wp_steps] as many as it can. *)
Ltac wp_step :=
  lazymatch goal with
  | |- wp (mret _) _ _ => apply wp_ret
  | |- wp (gets _) _ _ => apply wp_gets
  | |- wp (modify _) _ _ => apply wp_modify
  | |- wp (_ ≫= _) _ _ => apply wp_bind
  end.
Ltac wp_steps := repeat wp_step.
