(* ===== verification/Memory.v ===== *)
(** Byte-addressed memory and the little-endian multi-byte accesses of rv64.

    A memory is a finite map from addresses to bytes; an address that was never
    written reads as 0 (RAM as the machine hands it over, see the header of
    Prelude.v).  [load n m a] and [store n m a v] are the n-byte accesses. *)

From S2P Require Import Prelude.

Abbreviation mem := (gmap Z Z).

Definition rd8 (m : mem) (a : Z) : Z := u8 (default 0 (m !! a)).
Definition wr8 (m : mem) (a b : Z) : mem := <[a := u8 b]> m.

Fixpoint load (n : nat) (m : mem) (a : Z) : Z :=
  match n with
  | O => 0
  | S n' => rd8 m a + 0x100 * load n' m (a + 1)
  end.

Fixpoint store (n : nat) (m : mem) (a v : Z) : mem :=
  match n with
  | O => m
  | S n' => store n' (wr8 m a v) (a + 1) (v / 0x100)
  end.

(** The bytes [a .. a + n) in order. *)
Definition bytes (m : mem) (a : Z) (n : nat) : list Z := rd8 m <$> zseq a n.

(** [m] and [m'] hold the same bytes at the addresses satisfying [P]. *)
Definition agree (P : Z → Prop) (m m' : mem) : Prop := ∀ a, P a → rd8 m' a = rd8 m a.

Lemma rd8_range m a : 0 ≤ rd8 m a < 0x100.
Proof. apply u8_range. Qed.
#[export] Hint Resolve rd8_range : kernel.

Lemma rd8_wr8 m a b x :
  rd8 (wr8 m a b) x = if decide (x = a) then u8 b else rd8 m x.
Proof.
  unfold rd8, wr8. case_decide as Hx.
  - subst. rewrite lookup_insert_eq. apply u8_u8.
  - by rewrite lookup_insert_ne.
Qed.
Lemma rd8_wr8_eq m a b : rd8 (wr8 m a b) a = u8 b.
Proof. rewrite rd8_wr8. by rewrite decide_True. Qed.
Lemma rd8_wr8_ne m a b x : x ≠ a → rd8 (wr8 m a b) x = rd8 m x.
Proof. intros. rewrite rd8_wr8. by rewrite decide_False. Qed.

Lemma load_range n m a : 0 ≤ load n m a < 0x100 ^ Z.of_nat n.
Proof.
  revert a. induction n as [|n IH]; intros a; cbn [load]; [lia|].
  rewrite Nat2Z.inj_succ, Z.pow_succ_r by lia.
  pose proof (rd8_range m a). specialize (IH (a + 1)). lia.
Qed.
Lemma load8_range m a : 0 ≤ load 8 m a < 0x10000000000000000.
Proof. exact (load_range 8 m a). Qed.
#[export] Hint Resolve load_range load8_range : kernel.

Lemma load_ext n m m' a :
  agree (λ x, a ≤ x < a + Z.of_nat n) m m' → load n m' a = load n m a.
Proof.
  revert a. induction n as [|n IH]; intros a H; cbn [load]; [done|].
  rewrite (H a), IH by lia || (intros x Hx; apply H; lia). done.
Qed.

Lemma rd8_store n m a v x :
  rd8 (store n m a v) x =
  if decide (a ≤ x < a + Z.of_nat n) then u8 (v / 0x100 ^ (x - a)) else rd8 m x.
Proof.
  revert m a v. induction n as [|n IH]; intros m a v; cbn [store].
  - rewrite decide_False; [done|lia].
  - rewrite IH, rd8_wr8. repeat case_decide; subst; try lia; try done.
    + replace (x - a) with (Z.succ (x - (a + 1))) by lia.
      rewrite Z.pow_succ_r, Z.div_div by lia. done.
    + by rewrite Z.sub_diag, Z.div_1_r.
Qed.

Lemma rd8_store_out n m a v x :
  ¬ a ≤ x < a + Z.of_nat n → rd8 (store n m a v) x = rd8 m x.
Proof. intros. rewrite rd8_store. by rewrite decide_False. Qed.

Lemma load_store_eq n m a v : load n (store n m a v) a = v mod 0x100 ^ Z.of_nat n.
Proof.
  revert m a v. induction n as [|n IH]; intros m a v.
  - by rewrite Z.mod_1_r.
  - cbn [load]. cbn [store]. rewrite IH, rd8_store_out, rd8_wr8_eq by lia.
    rewrite Nat2Z.inj_succ, Z.pow_succ_r, Z.rem_mul_r by lia. done.
Qed.

Lemma load_store_ne n k m a v x :
  x + Z.of_nat k ≤ a ∨ a + Z.of_nat n ≤ x → load k (store n m a v) x = load k m x.
Proof. intros H. apply load_ext. intros y Hy. apply rd8_store_out. lia. Qed.

Lemma load_wr8_ne k m a b x :
  a < x ∨ x + Z.of_nat k ≤ a → load k (wr8 m a b) x = load k m x.
Proof. intros H. apply load_ext. intros y Hy. apply rd8_wr8_ne. lia. Qed.

Lemma load_store8_eq m a v :
  0 ≤ v < 0x10000000000000000 → load 8 (store 8 m a v) a = v.
Proof. intros. rewrite load_store_eq. by apply Z.mod_small. Qed.

Lemma load_zero n m a :
  (∀ x, a ≤ x < a + Z.of_nat n → rd8 m x = 0) → load n m a = 0.
Proof.
  revert a. induction n as [|n IH]; intros a H; cbn [load]; [done|].
  rewrite (H a), IH by lia || (intros x Hx; apply H; lia). done.
Qed.

(** * Agreement outside a set of addresses *)

#[export] Instance agree_refl P : Reflexive (agree P).
Proof. by intros m a. Qed.
#[export] Instance agree_trans P : Transitive (agree P).
Proof. intros m1 m2 m3 H1 H2 a Ha. by rewrite H2, H1. Qed.
#[export] Instance agree_sym P : Symmetric (agree P).
Proof. intros m1 m2 H a Ha. by rewrite H. Qed.

Lemma agree_mono (P Q : Z → Prop) m m' :
  (∀ a, Q a → P a) → agree P m m' → agree Q m m'.
Proof. intros HPQ H a Ha. auto. Qed.

Lemma agree_wr8 (P : Z → Prop) m a b : ¬ P a → agree P m (wr8 m a b).
Proof. intros Ha x Hx. apply rd8_wr8_ne. by intros ->. Qed.

Lemma agree_store (P : Z → Prop) n m a v :
  (∀ x, a ≤ x < a + Z.of_nat n → ¬ P x) → agree P m (store n m a v).
Proof. intros Ha x Hx. apply rd8_store_out. intros H. by apply (Ha x). Qed.
