(* ===== verification/Sv48.v ===== *)
(** The architecture's side of paging: the Sv48 address translation of the
    RISC-V privileged specification (section "Sv48"), which is what the hardware
    does with the tables kernel/memory/paging.cpp builds once
    switch_to_new_page_table (kernel/memory/paging.s) has written satp with
    MODE = 9.  Nothing here is code of the kernel; Paging.v proves that the
    kernel's tables make this translation what map_page promises. *)

From S2P Require Import Prelude Memory.

Definition PAGE_SIZE : Z := 4096.

(** Page-table entry number [i] of the table in the frame at [t]. *)
Definition pte (m : mem) (t i : Z) : Z := load 8 m (t + 8 * i).

Definition pte_V (e : Z) : bool := Z.testbit e 0.
Definition pte_R (e : Z) : bool := Z.testbit e 1.
Definition pte_W (e : Z) : bool := Z.testbit e 2.
Definition pte_X (e : Z) : bool := Z.testbit e 3.

(** Bits 53..10 of an entry, as the address of the frame they name. *)
Definition pte_frame (e : Z) : Z := Z.land (Z.shiftr e 10) (Z.ones 44) * PAGE_SIZE.

(** Step 3 of the translation: V = 0, or the reserved encoding W without R. *)
Definition pte_bad (e : Z) : bool := negb (pte_V e) || (negb (pte_R e) && pte_W e).
(** Step 4: an entry with R or X is a leaf. *)
Definition pte_leaf (e : Z) : bool := pte_R e || pte_X e.

Inductive walk :=
  | WalkFault
  | WalkLeaf (e : Z) (level : nat).

(** The walk over the indices that are left, from the table at [t]. *)
Fixpoint pt_walk (m : mem) (t : Z) (ix : list Z) : walk :=
  match ix with
  | [] => WalkFault
  | i :: rest =>
      let e := pte m t i in
      if pte_bad e then WalkFault
      else if pte_leaf e then WalkLeaf e (length rest)
      else pt_walk m (pte_frame e) rest
  end.

(** VPN[level] of a virtual address. *)
Definition vpn (level : Z) (va : Z) : Z := Z.land (Z.shiftr va (12 + 9 * level)) 511.
Definition vpns (va : Z) : list Z := [vpn 3 va; vpn 2 va; vpn 1 va; vpn 0 va].

(** Bits 63..48 of an address must all equal bit 47. *)
Definition canonical (va : Z) : bool :=
  (va <? 0x800000000000) || (0xFFFF800000000000 <=? va).

(** A leaf at level [l > 0] is a superpage, whose low PPN fields must be 0. *)
Definition translate_leaf (w : walk) (va : Z) : option Z :=
  match w with
  | WalkFault => None
  | WalkLeaf e l =>
      let size := 2 ^ (12 + 9 * Z.of_nat l) in
      if Z.eqb (pte_frame e mod size) 0 then Some (pte_frame e + va mod size) else None
  end.

Definition sv48 (m : mem) (root va : Z) : option Z :=
  if canonical va then translate_leaf (pt_walk m root (vpns va)) va else None.

(** The table that satp names; MODE 9 in bits 63..60 selects Sv48. *)
Definition satp_root (satp : Z) : Z := Z.land satp (Z.ones 44) * PAGE_SIZE.

(** * Addresses and their indices *)

Lemma vpn_div level va :
  0 ≤ level → vpn level va = (va / 2 ^ (12 + 9 * level)) mod 512.
Proof.
  intros. unfold vpn. rewrite Z.shiftr_div_pow2 by lia.
  change 511 with (Z.ones 9). by rewrite Z.land_ones.
Qed.

Lemma vpn_range level va : 0 ≤ level → 0 ≤ vpn level va < 512.
Proof. intros. rewrite vpn_div by done. by apply Z.mod_pos_bound. Qed.
#[export] Hint Resolve vpn_range : kernel.

Lemma vpns_range va i : i ∈ vpns va → 0 ≤ i < 512.
Proof.
  unfold vpns. rewrite !elem_of_cons, elem_of_nil.
  intros [->|[->|[->|[->|[]]]]]; by apply vpn_range.
Qed.

(** The four indices and the page offset determine a canonical address. *)
Lemma vpns_inj va va' :
  0 ≤ va < 2 ^ 64 → 0 ≤ va' < 2 ^ 64 → canonical va = true → canonical va' = true →
  vpns va = vpns va' → va / 4096 = va' / 4096.
Proof.
  unfold canonical, vpns. intros H H' C C' E. injection E as E3 E2 E1 E0.
  apply orb_true_iff in C, C'. rewrite Z.ltb_lt, Z.leb_le in C, C'.
  rewrite !vpn_div in * by lia.
  change (2 ^ (12 + 9 * 3)) with (4096 * 512 * 512 * 512) in *.
  change (2 ^ (12 + 9 * 2)) with (4096 * 512 * 512) in *.
  change (2 ^ (12 + 9 * 1)) with (4096 * 512) in *.
  change (2 ^ (12 + 9 * 0)) with 4096 in *.
  change (2 ^ 64) with 0x10000000000000000 in *.
  rewrite <- !Z.div_div in * by lia.
  zlia.
Qed.

(** * Entries *)

Lemma pte_V_0 : pte_V 0 = false.
Proof. done. Qed.
Lemma pte_bad_invalid e : pte_V e = false → pte_bad e = true.
Proof. unfold pte_bad. by intros ->. Qed.

Lemma testbit_low c k : 0 ≤ k < 10 → Z.testbit (Z.shiftl c 10) k = false.
Proof. intros. apply Z.shiftl_spec_low. lia. Qed.

(** An entry made of a frame number and ten flag bits. *)
Lemma pte_bits c f k :
  0 ≤ k < 10 → Z.testbit (Z.lor (Z.shiftl c 10) f) k = Z.testbit f k.
Proof. intros. by rewrite Z.lor_spec, testbit_low. Qed.

Lemma pte_frame_lor c f :
  0 ≤ c < 2 ^ 44 → 0 ≤ f < 1024 → pte_frame (Z.lor (Z.shiftl c 10) f) = c * PAGE_SIZE.
Proof.
  intros Hc Hf. unfold pte_frame. f_equal.
  rewrite Z.shiftr_lor, Z.shiftr_shiftl_l by lia.
  rewrite (Z.shiftr_div_pow2 f) by lia. rewrite (Z.div_small f) by (simpl; lia).
  rewrite Z.lor_0_r, Z.sub_diag, Z.shiftl_0_r, Z.land_ones by lia.
  by apply Z.mod_small.
Qed.

(** * Walks in changed memory *)

Lemma pt_walk_cons m t i rest :
  pt_walk m t (i :: rest) =
  (let e := pte m t i in
   if pte_bad e then WalkFault
   else if pte_leaf e then WalkLeaf e (length rest)
   else pt_walk m (pte_frame e) rest).
Proof. done. Qed.

Lemma sv48_ext m m' root root' va :
  pt_walk m root (vpns va) = pt_walk m' root' (vpns va) → sv48 m root va = sv48 m' root' va.
Proof. intros E. unfold sv48. by rewrite E. Qed.
