(* ===== verification/Machine.v ===== *)
(** The state of the kernel and the primitive accesses its code is made of.

    [kstate] holds physical memory, the satp register, the console, and the
    file-scope variables of the kernel, one field per variable.  A pointer is a
    64-bit virtual address; [resolve] is what an access through it reaches:
    the identity window of the first 4 GiB at VIRTUAL_OFFSET, and outside the window
    whatever the Sv48 tables under satp say.  paging_init maps the whole window
    (AddressSpace.v); before that boot.s maps the part of it the kernel touches
    (BootTables.v). *)

From S2P Require Import Prelude Monad Memory Sv48.

Definition VIRTUAL_OFFSET : Z := 0xFFFF800000000000.
Definition WINDOW_SIZE : Z := 0x100000000.

(** The static pointers of the object-oriented parts, and the register that only the
    scheduler touches. *)
Record statics := Statics {
  created : bool;             (* process/scheduler.cpp *)
  scheduler_instance : Z;
  ext2_instance : Z;          (* drivers/ext2.cpp *)
  vfs_instance : Z;           (* vfs.cpp *)
  block_device : Z;           (* drivers/virtio/blk.cpp *)
  console_device : Z;         (* drivers/virtio/console.cpp *)
  sstatus : Z                 (* the supervisor status register *)
}.
Definition no_statics : statics := Statics false 0 0 0 0 0 0.

Definition set_scheduler_instance (p : Z) (v : statics) : statics :=
  Statics true p (ext2_instance v) (vfs_instance v) (block_device v) (console_device v) (sstatus v).
Definition set_ext2_instance (p : Z) (v : statics) : statics :=
  Statics (created v) (scheduler_instance v) p (vfs_instance v) (block_device v) (console_device v) (sstatus v).
Definition set_vfs_instance (p : Z) (v : statics) : statics :=
  Statics (created v) (scheduler_instance v) (ext2_instance v) p (block_device v) (console_device v) (sstatus v).
Definition set_block_device (p : Z) (v : statics) : statics :=
  Statics (created v) (scheduler_instance v) (ext2_instance v) (vfs_instance v) p (console_device v) (sstatus v).
Definition set_console_device (p : Z) (v : statics) : statics :=
  Statics (created v) (scheduler_instance v) (ext2_instance v) (vfs_instance v) (block_device v) p (sstatus v).
Definition set_sstatus (x : Z) (v : statics) : statics :=
  Statics (created v) (scheduler_instance v) (ext2_instance v) (vfs_instance v) (block_device v)
    (console_device v) x.

Record kstate := KState {
  pmem : mem;
  satp : Z;
  (* memory/physical_allocator.cpp *)
  managed_frames_address_start : Z;
  first_frame_address : Z;
  (* memory/paging.cpp *)
  first_level_table : Z;
  (* memory/virtual_allocator.cpp *)
  free_list : Z;
  virtual_alloc_end : Z;
  (* libk/logging.cpp *)
  logLevel : Z;
  (* the serial line behind put_char and get_char *)
  console_out : list Z;
  console_in : list Z;
  vars : statics
}.

Definition set_pmem (m : mem) (s : kstate) : kstate :=
  KState m (satp s) (managed_frames_address_start s) (first_frame_address s)
    (first_level_table s) (free_list s) (virtual_alloc_end s) (logLevel s)
    (console_out s) (console_in s) (vars s).
Definition set_satp (v : Z) (s : kstate) : kstate :=
  KState (pmem s) v (managed_frames_address_start s) (first_frame_address s)
    (first_level_table s) (free_list s) (virtual_alloc_end s) (logLevel s)
    (console_out s) (console_in s) (vars s).
Definition set_frames (managed first : Z) (s : kstate) : kstate :=
  KState (pmem s) (satp s) managed first
    (first_level_table s) (free_list s) (virtual_alloc_end s) (logLevel s)
    (console_out s) (console_in s) (vars s).
Definition set_first_level_table (v : Z) (s : kstate) : kstate :=
  KState (pmem s) (satp s) (managed_frames_address_start s) (first_frame_address s)
    v (free_list s) (virtual_alloc_end s) (logLevel s)
    (console_out s) (console_in s) (vars s).
Definition set_free_list (v : Z) (s : kstate) : kstate :=
  KState (pmem s) (satp s) (managed_frames_address_start s) (first_frame_address s)
    (first_level_table s) v (virtual_alloc_end s) (logLevel s)
    (console_out s) (console_in s) (vars s).
Definition set_virtual_alloc_end (v : Z) (s : kstate) : kstate :=
  KState (pmem s) (satp s) (managed_frames_address_start s) (first_frame_address s)
    (first_level_table s) (free_list s) v (logLevel s)
    (console_out s) (console_in s) (vars s).
Definition set_logLevel (v : Z) (s : kstate) : kstate :=
  KState (pmem s) (satp s) (managed_frames_address_start s) (first_frame_address s)
    (first_level_table s) (free_list s) (virtual_alloc_end s) v
    (console_out s) (console_in s) (vars s).
Definition set_console (o i : list Z) (s : kstate) : kstate :=
  KState (pmem s) (satp s) (managed_frames_address_start s) (first_frame_address s)
    (first_level_table s) (free_list s) (virtual_alloc_end s) (logLevel s)
    o i (vars s).
Definition set_vars (v : statics) (s : kstate) : kstate :=
  KState (pmem s) (satp s) (managed_frames_address_start s) (first_frame_address s)
    (first_level_table s) (free_list s) (virtual_alloc_end s) (logLevel s)
    (console_out s) (console_in s) v.

(** Characters [l] sent to the serial line. *)
Definition emit (l : list Z) (s : kstate) : kstate :=
  set_console (console_out s ++ l) (console_in s) s.

Abbreviation K := (M kstate).

(** * Accesses through pointers *)

Definition in_window (va : Z) : bool :=
  (VIRTUAL_OFFSET <=? va) && (va <? VIRTUAL_OFFSET + WINDOW_SIZE).

Definition resolve (s : kstate) (va : Z) : option Z :=
  let a := u64 va in
  if in_window a then Some (a - VIRTUAL_OFFSET)
  else sv48 (pmem s) (satp_root (satp s)) a.

Definition load8 (va : Z) : K Z := λ s,
  match resolve s va with
  | Some pa => Done (rd8 (pmem s) pa) s
  | None => Fault (PageFault va) s
  end.

Definition store8 (va b : Z) : K () := λ s,
  match resolve s va with
  | Some pa => Done () (set_pmem (wr8 (pmem s) pa b) s)
  | None => Fault (PageFault va) s
  end.

(** Little-endian access to [n] consecutive bytes; every byte is translated, so
    an access may straddle two pages. *)
Fixpoint loadv (n : nat) (va : Z) : K Z :=
  match n with
  | O => mret 0
  | S n' => b ← load8 va; r ← loadv n' (va ⊞ 1); mret (b + 0x100 * r)
  end.

Fixpoint storev (n : nat) (va v : Z) : K () :=
  match n with
  | O => mret ()
  | S n' => store8 va v;; storev n' (va ⊞ 1) (v / 0x100)
  end.

Definition load16 : Z → K Z := loadv 2.
Definition load32 : Z → K Z := loadv 4.
Definition load64 : Z → K Z := loadv 8.
Definition store16 : Z → Z → K () := storev 2.
Definition store32 : Z → Z → K () := storev 4.
Definition store64 : Z → Z → K () := storev 8.

(** * Characters *)

(** The characters of a C string literal, without the terminating NUL. *)
Fixpoint chars (str : string) : list Z :=
  match str with
  | EmptyString => []
  | String c rest => Z.of_nat (Ascii.nat_of_ascii c) :: chars rest
  end.

(** What the rest of the kernel needs from put_char and get_char of UART.cpp;
    Uart.v proves that the polling routines implement it. *)
Definition console_put (c : Z) : K () := modify (emit [to_char c]).
Definition console_get : K Z := λ s,
  match console_in s with
  | [] => Fault NoInput s
  | c :: rest => Done (to_char c) (set_console (console_out s) rest s)
  end.

(** * States that differ in memory and output only *)

Definition only_mem (s s' : kstate) : Prop :=
  ∃ out m, s' = emit out (set_pmem m s).

#[export] Instance only_mem_refl : Reflexive only_mem.
Proof.
  intros s. exists [], (pmem s). destruct s. unfold emit, set_console, set_pmem. simpl.
  by rewrite app_nil_r.
Qed.
#[export] Instance only_mem_trans : Transitive only_mem.
Proof.
  intros s1 s2 s3 (o & m & ->) (o' & m' & ->). exists (o ++ o'), m'.
  unfold emit, set_console, set_pmem. simpl. by rewrite app_assoc.
Qed.

Lemma only_mem_emit out s : only_mem s (emit out s).
Proof. exists out, (pmem s). by destruct s. Qed.
Lemma only_mem_set_pmem m s : only_mem s (set_pmem m s).
Proof.
  exists [], m. unfold emit, set_console, set_pmem. simpl. by rewrite app_nil_r.
Qed.
Lemma only_mem_both out m s : only_mem s (emit out (set_pmem m s)).
Proof. by exists out, m. Qed.
#[export] Hint Resolve only_mem_emit only_mem_set_pmem only_mem_both : kernel.

(** The fields such a step leaves alone. *)
Lemma only_mem_fields s s' :
  only_mem s s' →
  satp s' = satp s ∧
  managed_frames_address_start s' = managed_frames_address_start s ∧
  first_frame_address s' = first_frame_address s ∧
  first_level_table s' = first_level_table s ∧
  free_list s' = free_list s ∧
  virtual_alloc_end s' = virtual_alloc_end s ∧
  logLevel s' = logLevel s ∧
  console_in s' = console_in s ∧
  vars s' = vars s.
Proof. intros (o & m & ->). repeat split. Qed.

Lemma emit_emit o o' s : emit o' (emit o s) = emit (o ++ o') s.
Proof. unfold emit, set_console. simpl. by rewrite app_assoc. Qed.
Lemma emit_nil s : emit [] s = s.
Proof. destruct s. unfold emit, set_console. simpl. by rewrite app_nil_r. Qed.

(** * The window *)

Lemma resolve_window s va :
  VIRTUAL_OFFSET ≤ va < VIRTUAL_OFFSET + WINDOW_SIZE →
  resolve s va = Some (va - VIRTUAL_OFFSET).
Proof.
  unfold resolve, in_window, VIRTUAL_OFFSET, WINDOW_SIZE. intros H.
  rewrite u64_small by lia.
  by rewrite (proj2 (Z.leb_le _ _)), (proj2 (Z.ltb_lt _ _)) by lia.
Qed.

Lemma resolve_heap s va :
  VIRTUAL_OFFSET + WINDOW_SIZE ≤ va < 2 ^ 64 →
  resolve s va = sv48 (pmem s) (satp_root (satp s)) va.
Proof.
  unfold resolve, in_window, VIRTUAL_OFFSET, WINDOW_SIZE. intros H.
  rewrite u64_small by lia.
  by rewrite (proj2 (Z.ltb_ge _ _)), andb_false_r by lia.
Qed.

Section window.
Context (s : kstate) (pa : Z).

Lemma load8_window :
  0 ≤ pa < WINDOW_SIZE → load8 (pa + VIRTUAL_OFFSET) s = Done (rd8 (pmem s) pa) s.
Proof.
  intros H. unfold load8. rewrite resolve_window by lia.
  by replace (pa + VIRTUAL_OFFSET - VIRTUAL_OFFSET) with pa by lia.
Qed.

Lemma store8_window b :
  0 ≤ pa < WINDOW_SIZE →
  store8 (pa + VIRTUAL_OFFSET) b s = Done () (set_pmem (wr8 (pmem s) pa b) s).
Proof.
  intros H. unfold store8. rewrite resolve_window by lia.
  by replace (pa + VIRTUAL_OFFSET - VIRTUAL_OFFSET) with pa by lia.
Qed.
End window.

Lemma window_succ pa :
  0 ≤ pa < WINDOW_SIZE → (pa + VIRTUAL_OFFSET) ⊞ 1 = (pa + 1) + VIRTUAL_OFFSET.
Proof. unfold VIRTUAL_OFFSET, WINDOW_SIZE. intros. rewrite u64_small; lia. Qed.

Lemma loadv_window n s pa :
  0 ≤ pa → pa + Z.of_nat n ≤ WINDOW_SIZE →
  loadv n (pa + VIRTUAL_OFFSET) s = Done (load n (pmem s) pa) s.
Proof.
  revert pa. induction n as [|n IH]; intros pa H1 H2; [done|]. cbn [loadv load].
  rewrite (bind_done _ _ _ _ _ (load8_window s pa ltac:(lia))).
  rewrite window_succ by lia.
  by rewrite (bind_done _ _ _ _ _ (IH (pa + 1) ltac:(lia) ltac:(lia))).
Qed.

Lemma set_pmem_set_pmem m m' s : set_pmem m (set_pmem m' s) = set_pmem m s.
Proof. done. Qed.
Lemma set_pmem_id s : set_pmem (pmem s) s = s.
Proof. by destruct s. Qed.

Lemma storev_window n s pa v :
  0 ≤ pa → pa + Z.of_nat n ≤ WINDOW_SIZE →
  storev n (pa + VIRTUAL_OFFSET) v s = Done () (set_pmem (store n (pmem s) pa v) s).
Proof.
  revert s pa v. induction n as [|n IH]; intros s pa v H1 H2; cbn [storev store].
  - by rewrite set_pmem_id.
  - rewrite (bind_done _ _ _ _ _ (store8_window s pa v ltac:(lia))).
    by rewrite window_succ, IH by lia.
Qed.

(** * Buffers

    [buffer s p n f]: the [n] bytes behind the pointer [p] are mapped, byte [i] to
    the physical address [f i], different bytes to different addresses, and they
    stay mapped there as long as memory changes in these addresses only (the
    buffer does not hold the page tables that map it). *)

Definition in_range (n : Z) (f : Z → Z) (a : Z) : Prop := ∃ i, 0 ≤ i < n ∧ a = f i.

Record buffer (s : kstate) (p n : Z) (f : Z → Z) : Prop := Buffer {
  buffer_inj : ∀ i j, 0 ≤ i < n → 0 ≤ j < n → f i = f j → i = j;
  buffer_map : ∀ s', satp s' = satp s →
    agree (λ a, ¬ in_range n f a) (pmem s) (pmem s') →
    ∀ i, 0 ≤ i < n → resolve s' (p ⊞ i) = Some (f i)
}.

Lemma buffer_step s s' p n f :
  satp s' = satp s → agree (λ a, ¬ in_range n f a) (pmem s) (pmem s') →
  buffer s p n f → buffer s' p n f.
Proof.
  intros Hsatp Hagree [Hinj Hmap]. split; [done|].
  intros s'' Hs Ha. apply Hmap; [congruence|]. by etrans.
Qed.

Lemma buffer_resolve s p n f i :
  buffer s p n f → 0 ≤ i < n → resolve s (p ⊞ i) = Some (f i).
Proof. intros [_ Hmap]. by apply Hmap. Qed.

Lemma buffer_load8 s p n f i :
  buffer s p n f → 0 ≤ i < n → load8 (p ⊞ i) s = Done (rd8 (pmem s) (f i)) s.
Proof. intros H Hi. unfold load8. by rewrite (buffer_resolve _ _ _ _ _ H Hi). Qed.

Lemma buffer_store8 s p n f i b :
  buffer s p n f → 0 ≤ i < n →
  store8 (p ⊞ i) b s = Done () (set_pmem (wr8 (pmem s) (f i) b) s).
Proof. intros H Hi. unfold store8. by rewrite (buffer_resolve _ _ _ _ _ H Hi). Qed.

Lemma buffer_wr8 s p n f i b :
  buffer s p n f → 0 ≤ i < n → buffer (set_pmem (wr8 (pmem s) (f i) b) s) p n f.
Proof.
  intros H Hi. apply (buffer_step s); [done| |done].
  apply agree_wr8. intros Hn. apply Hn. by exists i.
Qed.

Lemma buffer_emit o s p n f : buffer s p n f → buffer (emit o s) p n f.
Proof. by apply buffer_step. Qed.
#[export] Hint Resolve buffer_wr8 buffer_emit : kernel.

(** Buffers in the identity window. *)
Lemma buffer_window s pa n :
  0 ≤ pa → 0 ≤ n → pa + n ≤ WINDOW_SIZE →
  buffer s (pa + VIRTUAL_OFFSET) n (λ i, pa + i).
Proof.
  intros H1 H2 H3. split; [lia|]. intros s' _ _ i Hi.
  replace (u64 (pa + VIRTUAL_OFFSET + i)) with (pa + i + VIRTUAL_OFFSET).
  - rewrite resolve_window by (unfold VIRTUAL_OFFSET in *; lia). f_equal. lia.
  - unfold VIRTUAL_OFFSET, WINDOW_SIZE in *. rewrite u64_small; lia.
Qed.
