(* ===== verification/Layout.v ===== *)
(** The link-time layout: the symbols of kernel/mem.s, with the values
    kernel/linker.ld gives them.

    [BSS_END] is the location counter behind .bss; linker.ld derives the heap
    symbols from it, and so do the definitions below. *)

From S2P Require Import Prelude Memory Sv48 Machine.

Class Layout := {
  TEXT_START : Z; TEXT_END : Z;
  RODATA_START : Z; RODATA_END : Z;
  DATA_START : Z; DATA_END : Z;
  BSS_START : Z; BSS_END : Z
}.

(** MEMORY { ram : ORIGIN = 0x80000000, LENGTH = 2048M } *)
Definition RAM_ORIGIN : Z := 0x80000000.
Definition RAM_LENGTH : Z := 0x80000000.

Section symbols.
Context {L : Layout}.

Definition PHYSICAL_MEMORY_START : Z := RAM_ORIGIN.
Definition PHYSICAL_MEMORY_END : Z := RAM_ORIGIN + RAM_LENGTH.
Definition PHYSICAL_HEAP_START : Z := BSS_END - VIRTUAL_OFFSET.
Definition PHYSICAL_HEAP_SIZE : Z := PHYSICAL_MEMORY_END - PHYSICAL_HEAP_START.
Definition VIRTUAL_HEAP_START : Z := RAM_ORIGIN + RAM_LENGTH + VIRTUAL_OFFSET.
End symbols.

(** The kernel image ends inside RAM, with room for the management frames and one
    more. *)
Class LayoutOk (L : Layout) : Prop := {
  bss_end_low : VIRTUAL_OFFSET + RAM_ORIGIN ≤ BSS_END;
  bss_end_high : BSS_END + 10 * 4096 ≤ VIRTUAL_OFFSET + RAM_ORIGIN + RAM_LENGTH
}.
