(* ===== verification/Samples.v ===== *)
(** Concrete layouts and states the witnesses of the other files evaluate the
    theorems at. *)

From S2P Require Import Prelude Monad Memory Sv48 Machine Layout.

(** A kernel image that ends at 2 MiB of RAM. *)
Definition link : Layout := {|
  TEXT_START := VIRTUAL_OFFSET + 0x80000000; TEXT_END := VIRTUAL_OFFSET + 0x80040000;
  RODATA_START := VIRTUAL_OFFSET + 0x80040000; RODATA_END := VIRTUAL_OFFSET + 0x80050000;
  DATA_START := VIRTUAL_OFFSET + 0x80050000; DATA_END := VIRTUAL_OFFSET + 0x80060000;
  BSS_START := VIRTUAL_OFFSET + 0x80060000; BSS_END := VIRTUAL_OFFSET + 0x80200000
|}.

(** One that ends ten pages below the end of RAM. *)
Definition full_link : Layout := {|
  TEXT_START := VIRTUAL_OFFSET + 0x80000000; TEXT_END := VIRTUAL_OFFSET + 0x80040000;
  RODATA_START := VIRTUAL_OFFSET + 0x80040000; RODATA_END := VIRTUAL_OFFSET + 0x80050000;
  DATA_START := VIRTUAL_OFFSET + 0x80050000; DATA_END := VIRTUAL_OFFSET + 0x80060000;
  BSS_START := VIRTUAL_OFFSET + 0x80060000; BSS_END := VIRTUAL_OFFSET + 0xFFFF6000
|}.

#[export] Instance link_ok : LayoutOk link.
Proof. by split. Qed.
#[export] Instance full_link_ok : LayoutOk full_link.
Proof. by split. Qed.

(** Zero memory, the allocator's variables as physical_allocator_init sets them for
    [link], and nothing else initialised. *)
Definition start : kstate :=
  KState ∅ 0 (VIRTUAL_OFFSET + 0x80200000) 0x80208000 0 0 0 0 [] [] no_statics.

(** RAM with the flags of both frames of [full_link] set. *)
Definition full : kstate :=
  KState (wr8 (wr8 ∅ 0xFFFF6000 1) 0xFFFF6001 1) 0 (VIRTUAL_OFFSET + 0xFFFF6000) 0xFFFFE000
    0 0 0 0 [] [] no_statics.

Lemma rd8_empty a : rd8 ∅ a = 0.
Proof. done. Qed.
