(* ===== verification/Stdio.v ===== *)
(** Formatted output, logging and line input: kernel/libk/printf.cpp,
    kernel/libk/logging.cpp, kernel/libk/read.cpp and the enumeration of
    kernel/libk/kstdio.h. *)

From S2P Require Import Prelude Monad Memory Sv48 Machine Layout Samples.

(** enum LogLevel of kstdio.h. *)
Module LogLevel.
Inductive t :=
  | DEBUG | PAGING | VIRTUAL_MEMORY | PHYSICAL_MEMORY | SYSTEM | ERROR
  | VIRTIO | WARNING | FS | PROCESS | EXCEPTION | SYSCALL.

Definition bits (l : t) : Z :=
  match l with
  | DEBUG => 1
  | PAGING => 2
  | VIRTUAL_MEMORY => 4
  | PHYSICAL_MEMORY => 8
  | SYSTEM => 16
  | ERROR => 32
  | VIRTIO => 64
  | WARNING => 128
  | FS => 256
  | PROCESS => 512
  | EXCEPTION => 1024
  | SYSCALL => 2048
  end.

#[export] Instance eq_dec : EqDecision t.
Proof. solve_decision. Defined.
End LogLevel.

(** * vprintf *)

(** The [while (i >= 10)] loop of %d: [room] is what is left of [char chars[40]],
    [buf] the digits stored so far, the last one first.  The result is the
    remaining [i] and the stored digits; [None] is a store past the array. *)
Fixpoint dec_digits (room : nat) (i : Z) (buf : list Z) : option (Z * list Z) :=
  if i >=? 10 then
    match room with
    | O => None
    | S room' => dec_digits room' (i / 10) (to_char (i mod 10 + 48) :: buf)
    end
  else Some (i, buf).

(** The [while (i >= 16)] loop of %x and the store after it, in [char chars[200]]. *)
Fixpoint hex_digits (room : nat) (i : Z) (buf : list Z) : option (list Z) :=
  match room with
  | O => None
  | S room' =>
      if i >=? 16 then hex_digits room' (i / 16) (to_char (i mod 16) :: buf)
      else Some (to_char i :: buf)
  end.

(** [int offset = 48; if (chars[index] > 9) offset = 65 - 10; ... + offset]. *)
Definition hex_char (d : Z) : Z := d + (if d >? 9 then 65 - 10 else 48).

Definition print_dec (i : Z) : K () :=
  match dec_digits 40 i [] with
  | None => fail OutOfBounds
  | Some (i', buf) => console_put (i' + 48);; for_each buf console_put
  end.

Definition print_hex (i : Z) : K () :=
  match hex_digits 200 i [] with
  | None => fail OutOfBounds
  | Some buf => for_each buf (λ d, console_put (hex_char d))
  end.

(** The %s loop over the characters at [p].  Its index is an int: behind 2^31 characters,
    more than RAM holds, the increment would be undefined. *)
Definition print_str (p : Z) : K () :=
  loop (λ current : Z,
    c ← load8 (p ⊞ current);
    if c =? 0 then mret (inr ())
    else console_put c;; mret (inl (current + 1))) 0.

(** A va_list holds the 64-bit argument slots that are left. *)
Definition va_arg (args : list Z) : K (Z * list Z) :=
  match args with
  | [] => fail MissingVarArg
  | a :: args' => mret (a, args')
  end.

Definition c_percent : Z := 37.
Definition c_c : Z := 99.
Definition c_d : Z := 100.
Definition c_i : Z := 105.
Definition c_s : Z := 115.
Definition c_x : Z := 120.

(** [fmt] is the text of the format string.  After a '%' that starts no known
    conversion the code goes on with the character behind it. *)
Fixpoint vprintf (fmt args : list Z) {struct fmt} : K () :=
  match fmt with
  | [] => mret ()
  | c :: fmt1 =>
      if c =? c_percent then
        match fmt1 with
        | [] => mret ()
        | d :: fmt2 =>
            if (d =? c_d) || (d =? c_i) then
              '(a, args') ← va_arg args;
              print_dec (s32 a);;
              vprintf fmt2 args'
            else if d =? c_x then
              '(a, args') ← va_arg args;
              print_hex (u64 a);;
              vprintf fmt2 args'
            else if d =? c_s then
              '(a, args') ← va_arg args;
              print_str a;;
              vprintf fmt2 args'
            else if d =? c_c then
              '(a, args') ← va_arg args;
              console_put (to_char (s32 a));;
              vprintf fmt2 args'
            else vprintf fmt1 args
        end
      else console_put c;; vprintf fmt1 args
  end.

Definition printf (fmt : list Z) (args : list Z) : K () := vprintf fmt args.

(** * log *)

Definition esc : string := String (Ascii.ascii_of_nat 27) EmptyString.
Definition newline : list Z := [10].

Definition log_prefix (level : LogLevel.t) : list Z :=
  match level with
  | LogLevel.DEBUG => chars "[DEBUG]"
  | LogLevel.PAGING => chars "[PAGING]"
  | LogLevel.VIRTUAL_MEMORY => chars "[VMEM]"
  | LogLevel.PHYSICAL_MEMORY => chars "[PMEM]"
  | LogLevel.SYSTEM => chars "[SYSTEM]"
  | LogLevel.ERROR => chars (esc +:+ "[31m[ERROR]" +:+ esc +:+ "[37m")
  | LogLevel.VIRTIO => chars "[VIRTIO]"
  | LogLevel.WARNING => chars (esc +:+ "[33m[WARN]" +:+ esc +:+ "[37m")
  | LogLevel.FS => chars "[FS]"
  | LogLevel.PROCESS => chars "[PROCESS]"
  | LogLevel.EXCEPTION => chars (esc +:+ "[31m[EXCEPTION]" +:+ esc +:+ "[37m")
  | LogLevel.SYSCALL => chars "[SYSCALL]"
  end.

Definition log (level : LogLevel.t) (fmt : list Z) (args : list Z) : K () :=
  enabled ← gets logLevel;
  if Z.land enabled (LogLevel.bits level) =? 0 then mret ()
  else
    printf (log_prefix level) [];;
    printf (chars " ") [];;
    vprintf fmt args;;
    printf newline [].

Definition set_log_level (level : Z) : K () := modify (set_logLevel level).

(** * read *)

Definition c_cr : Z := 13.
Definition c_nl : Z := 10.

Definition read_body (buffer size : Z) : Z → K (Z + Z) := λ counter : Z,
  if counter <? size then
    c ← console_get;
    if c =? c_cr then
      store8 (buffer ⊞ counter) 0;;
      console_put c_nl;;
      mret (inr counter)
    else
      console_put c;;
      store8 (buffer ⊞ counter) c;;
      mret (inl (counter ⊞ 1))
  else mret (inr counter).

Definition read (buffer size : Z) : K Z := loop (read_body buffer size) 0.

(** * What vprintf prints

    [render str fmt args] is the text of a format, the strings behind %s being
    given by [str]; [None] when the arguments do not fit the format. *)

Fixpoint render (str : Z → option (list Z)) (fmt args : list Z) {struct fmt}
    : option (list Z) :=
  match fmt with
  | [] => Some []
  | c :: fmt1 =>
      if c =? c_percent then
        match fmt1 with
        | [] => Some []
        | d :: fmt2 =>
            let conv (out : Z → option (list Z)) :=
              match args with
              | [] => None
              | a :: args' => o ← out a; r ← render str fmt2 args'; Some (o ++ r)
              end in
            if (d =? c_d) || (d =? c_i) then
              conv (λ a, '(i, buf) ← dec_digits 40 (s32 a) [];
                         Some (to_char (i + 48) :: map to_char buf))
            else if d =? c_x then
              conv (λ a, buf ← hex_digits 200 (u64 a) [];
                         Some (map (λ d, to_char (hex_char d)) buf))
            else if d =? c_s then conv (λ a, map to_char <$> str a)
            else if d =? c_c then conv (λ a, Some [to_char (s32 a)])
            else render str fmt1 args
        end
      else r ← render str fmt1 args; Some (to_char c :: r)
  end.

(** The NUL-terminated string [l] lies at [p]. *)
Fixpoint cstring (s : kstate) (p : Z) (l : list Z) : Prop :=
  match l with
  | [] => load8 p s = Done 0 s
  | c :: l' => c ≠ 0 ∧ load8 p s = Done c s ∧ cstring s (p ⊞ 1) l'
  end.

Definition strings_at (s : kstate) (str : Z → option (list Z)) : Prop :=
  ∀ p l, str p = Some l → cstring s (u64 p) l ∧ Z.of_nat (length l) < 2 ^ 64 - 1.

(** * Digits *)

(** The number that a list of decimal digit characters spells. *)
Definition dec_value (l : list Z) : Z := fold_left (λ acc c, acc * 10 + (c - 48)) l 0.
(** Likewise for hexadecimal, with the upper-case letters. *)
Definition hex_digit_value (c : Z) : Z := if c <? 65 then c - 48 else c - 55.
Definition hex_value (l : list Z) : Z :=
  fold_left (λ acc c, acc * 16 + hex_digit_value c) l 0.

Lemma fold_digits_app (f : Z → Z) base l acc :
  fold_left (λ a c, a * base + f c) l acc =
  acc * base ^ Z.of_nat (length l) + fold_left (λ a c, a * base + f c) l 0.
Proof.
  revert acc. induction l as [|c l IH]; intros acc; cbn [fold_left length].
  - simpl (Z.of_nat 0). lia.
  - rewrite IH, (IH (0 * base + f c)), Nat2Z.inj_succ, Z.pow_succ_r by lia. lia.
Qed.

Lemma dec_digits_small room i buf : i < 10 → dec_digits room i buf = Some (i, buf).
Proof.
  intros Hi. destruct room; cbn [dec_digits]; by rewrite Z.geb_leb, (proj2 (Z.leb_gt 10 i)).
Qed.

Lemma dec_digits_length room i buf i' l :
  dec_digits room i buf = Some (i', l) → (length l ≤ room + length buf)%nat.
Proof.
  revert i buf. induction room as [|room IH]; intros i buf; cbn [dec_digits]; destruct (i >=? 10); intros E; try done.
  - injection E as -> ->. lia.
  - apply IH in E. cbn in E. lia.
  - injection E as -> ->. lia.
Qed.

Lemma dec_digits_spec room i buf :
  0 ≤ i < 10 ^ (Z.of_nat room + 1) →
  ∃ i' l, dec_digits room i buf = Some (i', l ++ buf) ∧ 0 ≤ i' < 10 ∧
    Forall (λ c, 48 ≤ c < 58) l ∧ dec_value ((i' + 48) :: l) = i ∧
    (10 ≤ i → 1 ≤ i').
Proof.
  revert i buf. induction room as [|room IH]; intros i buf Hi; cbn [dec_digits].
  - rewrite Z.geb_leb, (proj2 (Z.leb_gt 10 i)) by lia.
    exists i, []. repeat split; try lia; [constructor|].
    unfold dec_value. simpl. lia.
  - rewrite Z.geb_leb. destruct (Z.leb_spec 10 i) as [Hge|Hlt].
    + assert (10 ≤ i → 1 ≤ i / 10) by (intros; zlia).
      destruct (IH (i / 10) (to_char (i mod 10 + 48) :: buf)) as (i' & l & E & R & F & V & L).
      { split; [zlia|]. apply Z.div_lt_upper_bound; [lia|].
        rewrite <- Z.pow_succ_r by lia.
        replace (Z.succ (Z.of_nat room + 1)) with (Z.of_nat (S room) + 1); lia. }
      assert (to_char (i mod 10 + 48) = i mod 10 + 48) as Ec.
      { unfold to_char. apply u8_small. zlia. }
      exists i', (l ++ [i mod 10 + 48]). rewrite E, Ec, <- app_assoc.
      repeat split; try lia; try done.
      * apply Forall_app. split; [done|]. constructor; [zlia|constructor].
      * unfold dec_value in *. rewrite app_comm_cons, fold_left_app, V.
        cbn [fold_left]. zlia.
      * intros _. destruct (Z.leb_spec 10 (i / 10)); [auto|].
        destruct room; cbn [dec_digits] in E;
          rewrite Z.geb_leb, (proj2 (Z.leb_gt 10 (i / 10))) in E by lia;
          injection E as <- _; lia.
    + exists i, []. repeat split; try lia; [constructor|].
      unfold dec_value. simpl. lia.
Qed.

Lemma hex_digits_spec room i buf :
  (0 < room)%nat → 0 ≤ i < 16 ^ Z.of_nat room →
  ∃ l, hex_digits room i buf = Some (l ++ buf) ∧ l ≠ [] ∧
    Forall (λ d, 0 ≤ d < 16) l ∧
    hex_value (map hex_char l) = i ∧
    (hd 0 l = 0 → i = 0 ∧ l = [0]).
Proof.
  assert (∀ d, 0 ≤ d < 16 → hex_digit_value (hex_char d) = d) as Hd.
  { intros d Hd. unfold hex_char, hex_digit_value. rewrite Z.gtb_ltb.
    destruct (Z.ltb_spec 9 d), (Z.ltb_spec (d + 10) 65); try lia;
    destruct (Z.ltb_spec (d + (65 - 10)) 65), (Z.ltb_spec (d + 48) 65); lia. }
  assert (∀ j, 0 ≤ j < 16 → to_char j = j) as Hc.
  { intros j Hj. unfold to_char. apply u8_small. lia. }
  revert i buf. induction room as [|room IH]; intros i buf Hroom Hi; cbn [hex_digits].
  { lia. }
  rewrite Z.geb_leb. destruct (Z.leb_spec 16 i) as [Hge|Hlt].
  - rewrite Nat2Z.inj_succ, Z.pow_succ_r in Hi by lia.
    destruct (IH (i / 16) (to_char (i mod 16) :: buf)) as (l & E & N & F & V & Z0).
    { destruct room; [|lia]. change (16 ^ Z.of_nat 0) with 1 in Hi. lia. }
    { split; [zlia|]. apply Z.div_lt_upper_bound; lia. }
    exists (l ++ [i mod 16]). rewrite E, Hc by (apply Z.mod_pos_bound; lia).
    rewrite <- app_assoc. split; [done|]. split; [by destruct l|]. split.
    { apply Forall_app. split; [done|]. constructor; [|constructor].
      apply Z.mod_pos_bound. lia. }
    split.
    + unfold hex_value in *. rewrite map_app, fold_left_app, V.
      cbn [fold_left map]. rewrite Hd by (apply Z.mod_pos_bound; lia). zlia.
    + destruct l as [|d l]; [done|]. simpl. intros ->.
      destruct (Z0 eq_refl) as [Hz _]. assert (1 ≤ i / 16) by zlia. lia.
  - exists [i]. rewrite Hc by lia. split; [done|]. split; [done|]. split.
    { constructor; [lia|constructor]. }
    split.
    + unfold hex_value. cbn [map fold_left]. rewrite Hd by lia. lia.
    + simpl. by intros ->.
Qed.

Arguments dec_digits : simpl never.
Arguments hex_digits : simpl never.

(** * Symbolic execution of the printing routines *)

Lemma load8_emit p v o s :
  load8 p s = Done v s → load8 p (emit o s) = Done v (emit o s).
Proof.
  unfold load8. change (resolve (emit o s) p) with (resolve s p).
  destruct (resolve s p); [|done]. by intros [= <-].
Qed.

Lemma cstring_emit o s p l : cstring s p l → cstring (emit o s) p l.
Proof.
  revert p. induction l as [|c l IH]; intros p; cbn [cstring].
  - apply load8_emit.
  - intros (Hc & Hl & Hr). auto using load8_emit.
Qed.

Lemma strings_at_emit o s str : strings_at s str → strings_at (emit o s) str.
Proof. intros H p l Hp. destruct (H p l Hp). auto using cstring_emit. Qed.

Lemma strings_at_none s : strings_at s (λ _, None).
Proof. by intros ?. Qed.
#[export] Hint Resolve strings_at_none strings_at_emit : kernel.

Lemma for_each_put (f : Z → Z) l s :
  for_each l (λ c, console_put (f c)) s = Done () (emit (map (λ c, to_char (f c)) l) s).
Proof.
  revert s. induction l as [|c l IH]; intros s; cbn [for_each map].
  - by rewrite emit_nil.
  - rewrite (bind_done _ _ _ () (emit [to_char (f c)] s)) by done.
    by rewrite IH, emit_emit.
Qed.

Lemma print_dec_done i i' buf s :
  dec_digits 40 i [] = Some (i', buf) →
  print_dec i s = Done () (emit (to_char (i' + 48) :: map to_char buf) s).
Proof.
  intros E. unfold print_dec. rewrite E.
  rewrite (bind_done _ _ _ () (emit [to_char (i' + 48)] s)) by done.
  by rewrite (for_each_put (λ c, c)), emit_emit.
Qed.

Lemma print_hex_done i buf s :
  hex_digits 200 i [] = Some buf →
  print_hex i s = Done () (emit (map (λ d, to_char (hex_char d)) buf) s).
Proof. intros E. unfold print_hex. by rewrite E, for_each_put. Qed.

Lemma print_str_done p l s :
  cstring s (u64 p) l → Z.of_nat (length l) < 2 ^ 64 - 1 →
  print_str p s = Done () (emit (map to_char l) s).
Proof.
  intros Hl Hlen. unfold print_str.
  set (body := λ current : Z, _).
  assert (∀ l s k, cstring s (u64 (p + k)) l →
    rounds (S (length l)) body k s = Done (inr ()) (emit (map to_char l) s)) as Hrun.
  { clear. intros l. induction l as [|c l IH]; intros s k H; cbn [length map].
    - apply rounds_stop. unfold body. cbn [cstring] in H.
      rewrite (bind_done _ _ _ _ _ H). by rewrite emit_nil.
    - destruct H as (Hc & Hl & Hr). rewrite (rounds_step _ _ _ _ (k + 1) (emit [to_char c] s)).
      + rewrite IH, emit_emit; [done|]. apply cstring_emit.
        replace (u64 (p + (k + 1))) with (u64 (p + k) ⊞ 1); [done|].
        unfold u64. rewrite Zplus_mod_idemp_l. f_equal. lia.
      + unfold body. rewrite (bind_done _ _ _ _ _ Hl).
        by rewrite (proj2 (Z.eqb_neq _ _) Hc). }
  eapply loop_rounds; [apply (Hrun l s 0); by rewrite Z.add_0_r|lia].
Qed.

(** vprintf prints the text of its format. *)
Lemma vprintf_done str fmt args out s :
  strings_at s str → render str fmt args = Some out →
  vprintf fmt args s = Done () (emit out s).
Proof.
  remember (length fmt) as n eqn:Hn.
  assert (length fmt ≤ n)%nat as Hle by lia. clear Hn. revert fmt args out s Hle.
  induction n as [|n IH]; intros fmt args out s Hle Hstr.
  { destruct fmt; [|simpl in Hle; lia]. cbn. intros [= <-]. by rewrite emit_nil. }
  destruct fmt as [|c fmt1]; [cbn; intros [= <-]; by rewrite emit_nil|].
  simpl in Hle. cbn [render vprintf].
  destruct (c =? c_percent).
  2:{ destruct (render str fmt1 args) as [r|] eqn:Er; [|done]. intros [= <-].
      rewrite (bind_done _ _ _ () (emit [to_char c] s)) by done.
      rewrite (IH fmt1 args r), emit_emit; auto with kernel. lia. }
  destruct fmt1 as [|d fmt2]; [intros [= <-]; by rewrite emit_nil|]. simpl in Hle.
  assert (∀ (f : Z → K ()) (g : Z → option (list Z)),
    (∀ a o s', strings_at s' str → g a = Some o → f a s' = Done () (emit o s')) →
    match args with
    | [] => None
    | a :: args' => o ← g a; r ← render str fmt2 args'; Some (o ++ r)
    end = Some out →
    ('(a, args') ← va_arg args; f a;; vprintf fmt2 args') s = Done () (emit out s))
    as Hconv.
  { intros f g Hf. destruct args as [|a args']; [done|].
    destruct (g a) as [o|] eqn:Eg; [|done]. cbn [mbind option_bind].
    destruct (render str fmt2 args') as [r|] eqn:Er; [|done]. intros [= <-].
    rewrite (bind_done _ _ _ (a, args') s) by done.
    rewrite (bind_done _ _ _ () (emit o s)) by auto.
    rewrite (IH fmt2 args' r), emit_emit; auto with kernel. lia. }
  destruct (_ || _).
  { intros H. eapply (Hconv (λ a, print_dec (s32 a))); [|exact H].
    intros a o s' _. cbn beta. destruct (dec_digits 40 (s32 a) []) as [[i buf]|] eqn:E; cbn [mbind option_bind fmap option_fmap option_map]; [|done].
    intros [= <-]. by apply print_dec_done. }
  destruct (d =? c_x).
  { intros H. eapply (Hconv (λ a, print_hex (u64 a))); [|exact H].
    intros a o s' _. cbn beta. destruct (hex_digits 200 (u64 a) []) as [buf|] eqn:E; cbn [mbind option_bind fmap option_fmap option_map]; [|done].
    intros [= <-]. by apply print_hex_done. }
  destruct (d =? c_s).
  { intros H. eapply (Hconv print_str); [|exact H].
    intros a o s' Hs'. cbn beta. destruct (str a) as [l|] eqn:E; cbn [mbind option_bind fmap option_fmap option_map]; [|done]. intros [= <-].
    destruct (Hs' a l E). by apply print_str_done. }
  destruct (d =? c_c).
  { intros H. eapply (Hconv (λ a, console_put (to_char (s32 a)))); [|exact H].
    intros a o s' _ [= <-]. unfold console_put, modify, to_char. by rewrite u8_u8. }
  intros H. apply (IH (d :: fmt2) args out s); auto with kernel. simpl. lia.
Qed.

(** * log

    [log_text] is what a call prints: nothing when its level is disabled. *)

Definition log_text (str : Z → option (list Z)) (enabled : Z) (level : LogLevel.t)
    (fmt args : list Z) : option (list Z) :=
  if Z.land enabled (LogLevel.bits level) =? 0 then Some []
  else r ← render str fmt args; Some (log_prefix level ++ chars " " ++ r ++ newline).

(** [fmt_ok fmt n]: [n] arguments fit the format, and none of them is a string. *)
Fixpoint fmt_ok (fmt : list Z) (n : nat) {struct fmt} : bool :=
  match fmt with
  | [] => true
  | c :: fmt1 =>
      if c =? c_percent then
        match fmt1 with
        | [] => true
        | d :: fmt2 =>
            if (d =? c_d) || (d =? c_i) || (d =? c_x) || (d =? c_c) then
              match n with O => false | S n' => fmt_ok fmt2 n' end
            else if d =? c_s then false
            else fmt_ok fmt1 n
        end
      else fmt_ok fmt1 n
  end.

Lemma s32_range z : - 2 ^ 31 ≤ s32 z < 2 ^ 31.
Proof.
  unfold s32. pose proof (u32_range z). destruct (Z.ltb_spec (u32 z) 0x80000000); lia.
Qed.

Lemma dec_digits_total i : i < 2 ^ 31 → ∃ r, dec_digits 40 i [] = Some r.
Proof.
  intros Hi. destruct (Z.ltb_spec i 10).
  - exists (i, []). by apply dec_digits_small.
  - destruct (dec_digits_spec 40 i []) as (i' & l & E & _); [|eauto].
    split; [lia|]. etrans; [exact Hi|]. by apply Z.ltb_lt.
Qed.

Lemma hex_digits_total i : 0 ≤ i < 2 ^ 64 → ∃ r, hex_digits 200 i [] = Some r.
Proof.
  intros Hi. destruct (hex_digits_spec 200 i []) as (l & E & _); [lia| |eauto].
  split; [lia|]. etrans; [apply Hi|]. by apply Z.ltb_lt.
Qed.

Lemma render_total str fmt args :
  fmt_ok fmt (length args) = true → is_Some (render str fmt args).
Proof.
  remember (length fmt) as n eqn:Hn.
  assert (length fmt ≤ n)%nat as Hle by lia. clear Hn. revert fmt args Hle.
  induction n as [|n IH]; intros fmt args Hle; (destruct fmt as [|c fmt1];
    [by eexists|simpl in Hle]); [lia|].
  cbn [render fmt_ok]. destruct (c =? c_percent).
  2:{ intros H. destruct (IH fmt1 args) as [r ->]; [lia|done|by eexists]. }
  destruct fmt1 as [|d fmt2]; [by eexists|]. simpl in Hle.
  assert (∀ g : Z → option (list Z), (∀ a, is_Some (g a)) →
    match length args with O => false | S n' => fmt_ok fmt2 n' end = true →
    is_Some match args with
    | [] => None
    | a :: args' => o ← g a; r ← render str fmt2 args'; Some (o ++ r)
    end) as Hconv.
  { intros g Hg. destruct args as [|a args']; [done|]. simpl. intros H.
    destruct (Hg a) as [o ->]. destruct (IH fmt2 args') as [r Hr]; [lia|done|].
    simpl. rewrite Hr. by eexists. }
  destruct (d =? c_d), (d =? c_i); cbn [orb]; intros H;
    try (apply Hconv; [|exact H]; intros a;
         destruct (dec_digits_total (s32 a)) as [[] ->]; [apply s32_range|by eexists]).
  destruct (d =? c_x); cbn [orb] in H.
  { apply Hconv; [|exact H]. intros a. destruct (hex_digits_total (u64 a)) as [r ->];
      [apply u64_range|by eexists]. }
  destruct (d =? c_c) eqn:Ec; cbn [orb] in H.
  { destruct (Z.eqb_spec d c_s) as [->|]; [done|]. apply Hconv; [|exact H].
    intros a. by eexists. }
  destruct (d =? c_s); [done|]. apply IH; [simpl; lia|done].
Qed.

Lemma log_done str level fmt args out s :
  strings_at s str → log_text str (logLevel s) level fmt args = Some out →
  log level fmt args s = Done () (emit out s).
Proof.
  intros Hstr. unfold log_text, log.
  rewrite (bind_done _ _ _ (logLevel s) s) by done.
  destruct (Z.land _ _ =? 0); [intros [= <-]; by rewrite emit_nil|].
  destruct (render str fmt args) as [r|] eqn:Er; [|done]. intros [= <-].
  assert (∀ s', printf (log_prefix level) [] s' = Done () (emit (log_prefix level) s')) as Hp.
  { intros s'. unfold printf.
    apply (vprintf_done (λ _, None)); [auto with kernel|by destruct level]. }
  rewrite (bind_done _ _ _ _ _ (Hp s)).
  rewrite (bind_done _ _ _ () (emit (chars " ") (emit (log_prefix level) s))) by done.
  erewrite bind_done; [|apply (vprintf_done str); [auto with kernel|exact Er]].
  rewrite !emit_emit. unfold printf.
  rewrite (vprintf_done (λ _, None) newline [] newline) by auto with kernel.
  by rewrite emit_emit, <- !app_assoc.
Qed.

(** The form in which the rest of the kernel uses it. *)
Lemma log_ok level fmt args s :
  fmt_ok fmt (length args) = true → ∃ out, log level fmt args s = Done () (emit out s).
Proof.
  intros H. destruct (render_total (λ _, None) fmt args H) as [r Hr].
  destruct (log_text (λ _, None) (logLevel s) level fmt args) as [out|] eqn:E.
  - exists out. by eapply log_done; [apply strings_at_none|].
  - unfold log_text in E. destruct (_ =? 0); [done|]. by rewrite Hr in E.
Qed.

Lemma wp_log level fmt args (Q : () → kstate → Prop) s :
  fmt_ok fmt (length args) = true → (∀ out, Q () (emit out s)) →
  wp (log level fmt args) Q s.
Proof.
  intros H HQ. destruct (log_ok level fmt args s H) as [out E].
  by eapply wp_done.
Qed.

Lemma chars_app x y : chars (x +:+ y) = chars x ++ chars y.
Proof. induction x as [|c x IH]; [done|]. change (Z.of_nat (Ascii.nat_of_ascii c) :: chars (x +:+ y) = Z.of_nat (Ascii.nat_of_ascii c) :: chars x ++ chars y). by rewrite IH. Qed.

(** Characters in front of a conversion. *)
Lemma render_prefix str pre fmt args out :
  c_percent ∉ pre → render str fmt args = Some out →
  render str (pre ++ fmt) args = Some (map to_char pre ++ out).
Proof.
  intros Hp E. induction pre as [|c pre IH]; [done|]. apply not_elem_of_cons in Hp as [Hc Hp].
  cbn [app render]. rewrite (proj2 (Z.eqb_neq c c_percent)) by done. by rewrite (IH Hp).
Qed.

(** ** Numbers *)

Definition is_dec_digit (c : Z) : Prop := 48 ≤ c < 58.
Definition is_hex_digit (c : Z) : Prop := 48 ≤ c < 58 ∨ 65 ≤ c < 71.

(** Digits that spell [n], without a leading zero. *)
Definition spells_dec (n : Z) (l : list Z) : Prop :=
  Forall is_dec_digit l ∧ dec_value l = n ∧ (hd 0 l = 48 → l = [48]).
Definition spells_hex (n : Z) (l : list Z) : Prop :=
  Forall is_hex_digit l ∧ hex_value l = n ∧ (hd 0 l = 48 → l = [48]).

Lemma render_decimal str n : 0 ≤ n < 2 ^ 31 → ∃ out, render str (chars "%i") [n] = Some out ∧ spells_dec n out.
Proof.
  intros Hn. assert (s32 n = n) as Es.
  { unfold s32. rewrite u32_small, (proj2 (Z.ltb_lt _ _)); lia. }
  destruct (dec_digits_spec 40 n []) as (i & l & E & Hi & Hl & HV & Hlead).
  { split; [lia|]. etrans; [apply Hn|]. by apply Z.ltb_lt. }
  exists ((i + 48) :: l). split; [|split; [|split; [done|]]].
  - cbn [chars render]. simpl. rewrite Es, E. simpl.
    rewrite !app_nil_r. unfold to_char at 1. rewrite u8_small by lia. do 2 f_equal.
    rewrite <- (map_id l) at 2. apply map_ext_Forall.
    eapply Forall_impl; [exact Hl|]. intros c Hc. cbn beta in *. apply u8_small. lia.
  - constructor; [unfold is_dec_digit; lia|done].
  - simpl. intros Hz. destruct (Z.ltb_spec n 10).
    + rewrite dec_digits_small in E by done.
      injection E as <- El. destruct l; [|done]. f_equal. lia.
    + lia.
Qed.

Lemma render_hex str n : 0 ≤ n < 2 ^ 64 → ∃ out, render str (chars "%x") [n] = Some out ∧ spells_hex n out.
Proof.
  intros Hn. assert (u64 n = n) as Eu by (by apply u64_small).
  destruct (hex_digits_spec 200 n []) as (l & E & Hne & Hl & HV & Hlead); [lia| |].
  { split; [lia|]. etrans; [apply Hn|]. by apply Z.ltb_lt. }
  assert (Forall (λ d, is_hex_digit (hex_char d) ∧ 0 ≤ hex_char d < 256) l) as Hd.
  { eapply Forall_impl; [exact Hl|]. intros d Hd. cbn beta in *. unfold hex_char, is_hex_digit.
    rewrite Z.gtb_ltb. destruct (Z.ltb_spec 9 d); lia. }
  exists (map hex_char l). split; [|split; [|split; [done|]]].
  - cbn [chars render]. simpl. rewrite Eu, E. simpl. rewrite !app_nil_r. f_equal.
    apply map_ext_Forall. eapply Forall_impl; [exact Hd|]. intros d [_ Hr]. cbn beta in *.
    unfold to_char. by apply u8_small.
  - apply Forall_map. eapply Forall_impl; [exact Hd|]. by intros d [? _].
  - destruct l as [|d l]; [done|]. simpl. intros Hz.
    apply Forall_cons in Hl as [Hd0 _]. simpl in Hlead.
    assert (d = 0) as Hd1.
    { revert Hz. unfold hex_char. rewrite Z.gtb_ltb. destruct (Z.ltb_spec 9 d); lia. }
    destruct (Hlead Hd1) as [_ El]. by injection El as -> ->.
Qed.

(** * Properties *)

(** Printf("%i", n) prints, for every non-negative int, decimal digits that
    spell n, without a leading zero. *)
Theorem printf_decimal (n : Z) (s : kstate) :
  0 ≤ n < 2 ^ 31 →
  ∃ out, printf (chars "%i") [n] s = Done () (emit out s) ∧
    Forall is_dec_digit out ∧ dec_value out = n ∧ (hd 0 out = 48 → out = [48]).
Proof.
  intros Hn. destruct (render_decimal (λ _, None) n Hn) as (out & E & H). exists out. split; [|exact H].
  by apply (vprintf_done (λ _, None)); [auto with kernel|].
Qed.

(** Printf("%x", n) prints, for every 64-bit n, upper-case hexadecimal digits
    that spell n, without a leading zero. *)
Theorem printf_hex (n : Z) (s : kstate) :
  0 ≤ n < 2 ^ 64 →
  ∃ out, printf (chars "%x") [n] s = Done () (emit out s) ∧
    Forall is_hex_digit out ∧ hex_value out = n ∧ (hd 0 out = 48 → out = [48]).
Proof.
  intros Hn. destruct (render_hex (λ _, None) n Hn) as (out & E & H). exists out. split; [|exact H].
  by apply (vprintf_done (λ _, None)); [auto with kernel|].
Qed.

(** A negative int is not printed as a number: printf("%i", n) puts the one
    character with code (n + 48) mod 256. *)
Theorem printf_negative (n : Z) (s : kstate) :
  - 2 ^ 31 ≤ n < 0 →
  printf (chars "%i") [u64 n] s = Done () (emit [(n + 48) mod 256] s).
Proof.
  intros Hn. assert (s32 (u64 n) = n) as Es.
  { unfold s32, u32, u64. rewrite Z.mod_mod_divide by (by exists 0x100000000).
    replace (n mod 0x100000000) with (n + 0x100000000) by zlia.
    rewrite (proj2 (Z.ltb_ge _ _)); lia. }
  apply (vprintf_done (λ _, None)); [auto with kernel|].
  cbn [chars render]. simpl. rewrite Es, dec_digits_small by lia. done.
Qed.

(** Log prints exactly the prefix of its level, the formatted text and a
    newline when the bit of its level is set in the log level, and nothing
    otherwise; %s arguments are the NUL-terminated strings in memory. *)
Theorem log_prints (str : Z → option (list Z)) (level : LogLevel.t)
    (fmt args text : list Z) (s : kstate) :
  strings_at s str → render str fmt args = Some text →
  log level fmt args s =
    Done () (if decide (Z.land (logLevel s) (LogLevel.bits level) = 0) then s
             else emit (log_prefix level ++ chars " " ++ text ++ newline) s).
Proof.
  intros Hs Hr. case_decide as H.
  - rewrite (log_done str level fmt args []) by (done || by unfold log_text; rewrite H).
    by rewrite emit_nil.
  - apply (log_done str); [done|]. unfold log_text.
    by rewrite (proj2 (Z.eqb_neq _ _) H), Hr.
Qed.

(** ** read *)

(** The characters [l] lie in the buffer from index [k] on. *)
Definition holds (s : kstate) (f : Z → Z) (k : Z) (l : list Z) : Prop :=
  ∀ i c, l !! i = Some c → rd8 (pmem s) (f (k + Z.of_nat i)) = c.

(** What one line costs: input consumed, echo, and the bytes stored from [k] on. *)
Record read_post (s s' : kstate) (f : Z → Z) (k : Z) (stored echo rest : list Z) : Prop :=
  ReadPost {
    read_satp : satp s' = satp s;
    read_in : console_in s' = rest;
    read_out : console_out s' = console_out s ++ echo;
    read_mem : holds s' f k stored;
    read_frame :
      agree (λ a, ¬ ∃ j, k ≤ j < k + Z.of_nat (length stored) ∧ a = f j) (pmem s) (pmem s')
  }.

Definition plain_char (c : Z) : Prop := 0 ≤ c < 256 ∧ c ≠ c_cr.

(** One round of the loop: a plain character is echoed and stored. *)
Lemma read_round buf size f k c input s :
  buffer s buf size f → 0 ≤ k < size → size < 2 ^ 64 → plain_char c →
  console_in s = c :: input →
  ∃ s', read_body buf size k s = Done (inl (k + 1)) s' ∧
    buffer s' buf size f ∧ read_post s s' f k [c] [c] input.
Proof.
  intros Hb Hk Hsize [Hc Hcr] Hin. unfold read_body.
  rewrite (proj2 (Z.ltb_lt _ _)) by lia.
  assert (to_char c = c) as Ec by (by apply u8_small).
  set (s1 := set_console (console_out s) input s).
  rewrite (bind_done _ _ _ c s1) by (unfold console_get; by rewrite Hin, Ec).
  rewrite (proj2 (Z.eqb_neq _ _) Hcr).
  rewrite (bind_done _ _ _ () (emit [c] s1))
    by (unfold console_put, modify; by rewrite Ec).
  assert (buffer (emit [c] s1) buf size f) as Hb1
    by (apply buffer_emit; by apply (buffer_step s)).
  rewrite (bind_done _ _ _ _ _ (buffer_store8 _ _ _ _ _ c Hb1 Hk)).
  rewrite u64_small by lia. eexists. split; [done|]. split; [auto with kernel|].
  split; try done.
  - intros i d Hi. destruct i; [|done]. simpl in Hi. injection Hi as <-.
    simpl. rewrite Z.add_0_r, rd8_wr8_eq. by apply u8_small.
  - apply agree_wr8. intros Hn. apply Hn. exists k. simpl. lia.
Qed.

Lemma read_post_cons s1 s2 s3 f k c l echo input rest size :
  (∀ i j, 0 ≤ i < size → 0 ≤ j < size → f i = f j → i = j) →
  0 ≤ k → k + 1 + Z.of_nat (length l) ≤ size →
  read_post s1 s2 f k [c] [c] input → read_post s2 s3 f (k + 1) l echo rest →
  read_post s1 s3 f k (c :: l) (c :: echo) rest.
Proof.
  intros Hinj Hk Hl [S1 I1 O1 M1 F1] [S2 I2 O2 M2 F2]. split.
  - congruence.
  - done.
  - by rewrite O2, O1, <- app_assoc.
  - intros [|i] d Hi.
    + simpl in Hi. injection Hi as <-. simpl (Z.of_nat 0). rewrite F2.
      * by apply (M1 0%nat).
      * intros (j & Hj & E). apply Hinj in E; lia.
    + simpl in Hi. rewrite <- (M2 i d Hi). do 2 f_equal. lia.
  - intros a Ha. rewrite F2, F1; [done| |]; intros (j & Hj & ->); apply Ha; exists j;
      (split; [|done]); simpl in *; lia.
Qed.

Lemma read_line_rounds buf size f line rest k s :
  buffer s buf size f → 0 ≤ k → k + Z.of_nat (length line) < size → size < 2 ^ 64 →
  Forall plain_char line → console_in s = line ++ c_cr :: rest →
  ∃ s', rounds (S (length line)) (read_body buf size) k s =
          Done (inr (k + Z.of_nat (length line))) s' ∧
    read_post s s' f k (line ++ [0]) (line ++ [c_nl]) rest.
Proof.
  intros Hb Hk Hl Hsize HF. revert k s Hb Hk Hl.
  induction HF as [|c line Hc HF IH]; intros k s Hb Hk Hl Hin.
  - cbn [length app] in *. eexists. split.
    + apply rounds_stop. unfold read_body. rewrite (proj2 (Z.ltb_lt _ _)) by lia.
      rewrite (bind_done _ _ _ c_cr (set_console (console_out s) rest s))
        by (unfold console_get; by rewrite Hin).
      rewrite Z.eqb_refl. erewrite bind_done; [|apply (buffer_store8 _ _ size f)].
      * rewrite Z.add_0_r. done.
      * by apply (buffer_step s).
      * lia.
    + split; try done.
      * intros i d Hi. destruct i; [|done]. simpl in Hi. injection Hi as <-.
        simpl. by rewrite Z.add_0_r, rd8_wr8_eq.
      * apply agree_wr8. intros Hn. apply Hn. exists k. simpl. lia.
  - simpl in Hl, Hin.
    destruct (read_round buf size f k c _ s Hb ltac:(lia) Hsize Hc Hin)
      as (s1 & E1 & Hb1 & P1).
    destruct (IH (k + 1) s1 Hb1 ltac:(lia) ltac:(lia) (read_in _ _ _ _ _ _ _ P1))
      as (s2 & E2 & P2).
    exists s2. split.
    + change (length (c :: line)) with (S (length line)).
      rewrite (rounds_step _ _ _ _ _ _ E1), E2. f_equal. f_equal. lia.
    + simpl. eapply read_post_cons; [apply Hb|done| |exact P1|exact P2].
      rewrite length_app. simpl. lia.
Qed.

Lemma read_full_rounds buf size f line rest k s :
  buffer s buf size f → 0 ≤ k → k + Z.of_nat (length line) = size → size < 2 ^ 64 →
  Forall plain_char line → console_in s = line ++ rest →
  ∃ s', rounds (S (length line)) (read_body buf size) k s = Done (inr size) s' ∧
    read_post s s' f k line line rest.
Proof.
  intros Hb Hk Hl Hsize HF. revert k s Hb Hk Hl.
  induction HF as [|c line Hc HF IH]; intros k s Hb Hk Hl Hin.
  - cbn [length app] in *. exists s. split.
    + apply rounds_stop. unfold read_body. rewrite (proj2 (Z.ltb_ge _ _)) by lia.
      by rewrite <- Hl, Z.add_0_r.
    + split; try done. by rewrite app_nil_r.
  - simpl in Hl, Hin.
    destruct (read_round buf size f k c _ s Hb ltac:(lia) Hsize Hc Hin)
      as (s1 & E1 & Hb1 & P1).
    destruct (IH (k + 1) s1 Hb1 ltac:(lia) ltac:(lia) (read_in _ _ _ _ _ _ _ P1))
      as (s2 & E2 & P2).
    exists s2. split.
    + change (length (c :: line)) with (S (length line)).
      by rewrite (rounds_step _ _ _ _ _ _ E1), E2.
    + eapply read_post_cons; [apply Hb|done| |exact P1|exact P2]. lia.
Qed.

(** Read stores a line ended by carriage return, with a NUL behind it, echoes
    it with a newline and returns its length; a line that fills the buffer is
    returned without a NUL, and in both cases no other byte of memory changes. *)
Theorem read_line (buf size : Z) (f : Z → Z) (line rest : list Z) (s : kstate) :
  buffer s buf size f → size < 2 ^ 64 → Forall plain_char line →
  (Z.of_nat (length line) < size → console_in s = line ++ c_cr :: rest →
   ∃ s', read buf size s = Done (Z.of_nat (length line)) s' ∧
     read_post s s' f 0 (line ++ [0]) (line ++ [c_nl]) rest) ∧
  (Z.of_nat (length line) = size → console_in s = line ++ rest →
   ∃ s', read buf size s = Done size s' ∧ read_post s s' f 0 line line rest).
Proof.
  intros Hb Hsize HF. split; intros Hl Hin; unfold read.
  - destruct (read_line_rounds buf size f line rest 0 s) as (s' & E & P); try done.
    exists s'. split; [|done]. eapply loop_rounds; [exact E|lia].
  - destruct (read_full_rounds buf size f line rest 0 s) as (s' & E & P); try done.
    exists s'. split; [|done]. eapply loop_rounds; [exact E|lia].
Qed.

(** * Witnesses *)

Lemma printf_decimal_witness :
  ∃ out, printf (chars "%i") [1234] start = Done () (emit out start) ∧
    Forall is_dec_digit out ∧ dec_value out = 1234 ∧ (hd 0 out = 48 → out = [48]).
Proof. apply (printf_decimal 1234 start). lia. Defined.

Lemma printf_hex_witness :
  ∃ out, printf (chars "%x") [0xFFFF800000001000] start = Done () (emit out start) ∧
    Forall is_hex_digit out ∧ hex_value out = 0xFFFF800000001000 ∧ (hd 0 out = 48 → out = [48]).
Proof. apply (printf_hex 0xFFFF800000001000 start). lia. Defined.

Lemma printf_negative_witness :
  printf (chars "%i") [u64 (-5)] start = Done () (emit [(-5 + 48) mod 256] start).
Proof. apply (printf_negative (-5) start). lia. Defined.

Lemma log_prints_witness :
  log LogLevel.SYSTEM (chars "Booted to OS") [] (set_logLevel 16 start) =
    Done () (if decide (Z.land (logLevel (set_logLevel 16 start)) (LogLevel.bits LogLevel.SYSTEM) = 0)
             then set_logLevel 16 start
             else emit (log_prefix LogLevel.SYSTEM ++ chars " " ++ chars "Booted to OS" ++ newline)
                    (set_logLevel 16 start)).
Proof. by apply (log_prints (λ _, None)). Defined.

Lemma read_line_witness :
  let s := set_console [] (chars "ls" ++ [c_cr]) start in
  ∃ s', read (0x1000 + VIRTUAL_OFFSET) 16 s = Done 2 s' ∧
    read_post s s' (λ i, 0x1000 + i) 0 (chars "ls" ++ [0]) (chars "ls" ++ [c_nl]) [].
Proof.
  intros s. apply (read_line (0x1000 + VIRTUAL_OFFSET) 16 (λ i, 0x1000 + i) (chars "ls") [] s);
    try done.
  - apply buffer_window; unfold WINDOW_SIZE; lia.
  - repeat constructor; discriminate.
Defined.
