(* ===== verification/Uart.v ===== *)
(** The serial driver, kernel/UART.cpp: uart_init, put_char, get_char.

    The driver talks to an NS16550 through its registers.  The device is not code
    of the kernel, so it is a parameter: [Uart] gives the effect of reading and
    writing a register, [UartSpec] states of it what the data sheet says and the
    driver relies on.  The theorems show that the polling routines implement the
    character operations [console_put] and [console_get] of Machine.v.  [Sim]
    at the end is one device with these properties. *)

From S2P Require Import Prelude Monad Machine.

(** Register access: offset, and for a write the byte written. *)
Class Uart (D : Type) := {
  reg_read : Z → D → Z * D;
  reg_write : Z → Z → D → D
}.

(** * The driver *)

Section driver.
Context {D : Type} `{Uart D}.

Definition UART_THR : Z := 0.
Definition UART_RHR : Z := 0.
Definition UART_DLL : Z := 0.
Definition UART_DLM : Z := 1.
Definition UART_IER : Z := 1.
Definition UART_LCR : Z := 3.
Definition UART_LSR : Z := 5.
Definition UART_LSR_EMPTY_MASK : Z := 0x40.
Definition UART_LSR_RX_READY : Z := 0x01.

Definition UART_REGR (reg : Z) : M D Z :=
  λ d, let '(v, d') := reg_read reg d in Done (u8 v) d'.
Definition UART_REGW (reg v : Z) : M D () := modify (reg_write reg (u8 v)).

Definition uart_init : M D () :=
  UART_REGW UART_IER 0x00;;
  lcr ← UART_REGR UART_LCR;
  UART_REGW UART_LCR (Z.lor lcr (Z.shiftl 1 7));;
  UART_REGW UART_DLL 0x03;;
  UART_REGW UART_DLM 0x00;;
  UART_REGW UART_LCR (Z.lor 0 (Z.shiftl 3 0));;
  ier ← UART_REGR UART_IER;
  UART_REGW UART_IER (Z.lor ier (Z.shiftl 1 0)).

(** The empty loop [while ((LSR & mask) == 0)]. *)
Definition poll (mask : Z) : M D () :=
  loop (λ _ : (),
    lsr ← UART_REGR UART_LSR;
    mret (if Z.land lsr mask =? 0 then inl () else inr ())) ().

Definition put_char (c : Z) : M D () :=
  poll UART_LSR_EMPTY_MASK;;
  UART_REGW UART_THR c.

Definition get_char : M D Z :=
  poll UART_LSR_RX_READY;;
  c ← UART_REGR UART_RHR;
  mret (to_char c).
End driver.

(** * What the driver relies on

    The visible state of an NS16550: the line-control, interrupt-enable and
    divisor registers, the characters sent, the characters that will arrive, and
    how many more times the status register is read before the transmitter is
    empty, or before the next character is there. *)

Class UartSpec (D : Type) `{Uart D} := {
  lcr : D → Z;
  ier : D → Z;
  dll : D → Z;
  dlm : D → Z;
  sent : D → list Z;
  pending : D → list Z;
  tx_busy : D → Z;
  rx_wait : D → Z;

  tx_busy_range d : 0 ≤ tx_busy d < 2 ^ 64;
  rx_wait_range d : 0 ≤ rx_wait d < 2 ^ 64;
  pending_chars d : Forall (λ c, 0 ≤ c < 256) (pending d);

  (** Line status: bit 6 is "transmitter empty", bit 0 "data ready". *)
  read_lsr d : let '(v, d') := reg_read 5 d in
    lcr d' = lcr d ∧ ier d' = ier d ∧ dll d' = dll d ∧ dlm d' = dlm d ∧
    sent d' = sent d ∧ pending d' = pending d ∧
    (if Z.testbit v 6 then tx_busy d' = 0 else tx_busy d' < tx_busy d) ∧
    (if Z.testbit v 0 then rx_wait d' = 0 ∧ pending d ≠ []
     else pending d = [] ∨ rx_wait d' < rx_wait d);

  (** Offset 0 is the data register, or DLL while bit 7 of LCR (DLAB) is set.  A
      character is sent when the transmitter is empty; what becomes of one that is
      written while it is busy is not said. *)
  write_thr d v : let d' := reg_write 0 v d in
    lcr d' = lcr d ∧ ier d' = ier d ∧ dlm d' = dlm d ∧ pending d' = pending d ∧
    (if Z.testbit (lcr d) 7 then dll d' = v ∧ sent d' = sent d
     else dll d' = dll d ∧ (tx_busy d = 0 → sent d' = sent d ++ [v]));
  read_rhr d c cs : Z.testbit (lcr d) 7 = false → pending d = c :: cs →
    rx_wait d = 0 →
    let '(v, d') := reg_read 0 d in
    v = c ∧ pending d' = cs ∧ sent d' = sent d ∧ lcr d' = lcr d;

  (** Offset 1 is IER, or DLM while DLAB is set. *)
  write_ier d v : let d' := reg_write 1 v d in
    lcr d' = lcr d ∧ dll d' = dll d ∧ sent d' = sent d ∧ pending d' = pending d ∧
    (if Z.testbit (lcr d) 7 then dlm d' = v ∧ ier d' = ier d
     else dlm d' = dlm d ∧ ier d' = v);
  read_ier d : Z.testbit (lcr d) 7 = false → reg_read 1 d = (ier d, d);

  read_lcr d : reg_read 3 d = (lcr d, d);
  write_lcr d v : let d' := reg_write 3 v d in
    lcr d' = v ∧ ier d' = ier d ∧ dll d' = dll d ∧ dlm d' = dlm d ∧
    sent d' = sent d ∧ pending d' = pending d
}.

Section proofs.
Context {D : Type} {U : Uart D} {US : UartSpec D}.

(** The driver has access to the data registers. *)
Definition dlab (d : D) : bool := Z.testbit (lcr d) 7.

Lemma land_bit v k : 0 ≤ k → (Z.land v (2 ^ k) =? 0) = negb (Z.testbit v k).
Proof.
  intros Hk. destruct (Z.testbit v k) eqn:E; simpl.
  - apply Z.eqb_neq. intros Hz. assert (Z.testbit (Z.land v (2 ^ k)) k = true) as Ht
      by (rewrite Z.land_spec, E, Z.pow2_bits_true; done).
    by rewrite Hz, Z.bits_0 in Ht.
  - apply Z.eqb_eq, Z.bits_inj'. intros i Hi.
    rewrite Z.land_spec, Z.bits_0, Z.pow2_bits_eqb by lia.
    destruct (Z.eqb_spec k i) as [<-|]; [by rewrite E|by rewrite andb_false_r].
Qed.

Lemma u8_testbit v k : 0 ≤ k < 8 → Z.testbit (u8 v) k = Z.testbit v k.
Proof. intros. unfold u8. change 256 with (2 ^ 8). by apply Z.mod_pow2_bits_low; lia. Qed.

(** The configuration a poll leaves alone. *)
Definition same_line (d d' : D) : Prop :=
  lcr d' = lcr d ∧ sent d' = sent d ∧ pending d' = pending d.

Definition poll_body (mask : Z) : () → M D (() + ()) := λ _,
  lsr ← UART_REGR UART_LSR;
  mret (if Z.land lsr mask =? 0 then inl () else inr ()).

Lemma poll_body_step mask k d :
  mask = 2 ^ k → 0 ≤ k < 8 →
  wp (poll_body mask ()) (λ r d',
    ∃ v, reg_read 5 d = (v, d') ∧ r = if Z.testbit v k then inr () else inl ()) d.
Proof.
  intros -> Hk. unfold poll_body, UART_REGR, UART_LSR. unfold wp, mbind, M_bind.
  destruct (reg_read 5 d) as [v d'] eqn:E. exists v. split; [done|].
  rewrite land_bit, u8_testbit by lia. by destruct (Z.testbit v k).
Qed.

Lemma poll_tx d :
  wp (poll UART_LSR_EMPTY_MASK) (λ _ d', same_line d d' ∧ tx_busy d' = 0) d.
Proof.
  unfold poll. fold (poll_body UART_LSR_EMPTY_MASK).
  apply (wp_loop _ (λ _ d', same_line d d') (λ _ d', tx_busy d')).
  - intros [] d1 (H1 & H2 & H3). split; [apply tx_busy_range|].
    eapply wp_mono; [by apply (poll_body_step _ 6)|].
    intros r d2 (v & E & ->). pose proof (read_lsr d1) as Hl. rewrite E in Hl.
    destruct Hl as (L1 & _ & _ & _ & L5 & L6 & L7 & _).
    assert (same_line d d2) by (unfold same_line; repeat split; congruence).
    by destruct (Z.testbit v 6).
  - by repeat split.
  - apply tx_busy_range.
Qed.

Lemma poll_rx d :
  pending d ≠ [] →
  wp (poll UART_LSR_RX_READY) (λ _ d', same_line d d' ∧ rx_wait d' = 0) d.
Proof.
  intros Hp. unfold poll. fold (poll_body UART_LSR_RX_READY).
  apply (wp_loop _ (λ _ d', same_line d d') (λ _ d', rx_wait d')).
  - intros [] d1 (H1 & H2 & H3). split; [apply rx_wait_range|].
    eapply wp_mono; [by apply (poll_body_step _ 0)|].
    intros r d2 (v & E & ->). pose proof (read_lsr d1) as Hl. rewrite E in Hl.
    destruct Hl as (L1 & _ & _ & _ & L5 & L6 & _ & L8).
    assert (same_line d d2) by (unfold same_line; repeat split; congruence).
    destruct (Z.testbit v 0).
    + by destruct L8.
    + destruct L8 as [L8|L8]; [|done]. rewrite H3 in L8. done.
  - by repeat split.
  - apply rx_wait_range.
Qed.

(** The device [d] is the serial line of the kernel state [s]. *)
Definition line_of (d : D) (s : kstate) : Prop :=
  dlab d = false ∧ sent d = console_out s ∧ pending d = console_in s.

(** C40: put_char ends, whatever the transmitter is busy with, and does to the
    serial line what the character output of the kernel model does: the driver
    refines console_put.  Of a device that is busy this needs the polling: a character
    is only known to be sent when it is written to an empty transmitter. *)
Theorem put_char_refines (d : D) (s : kstate) (c : Z) :
  line_of d s →
  ∃ d' s', put_char c d = Done () d' ∧ console_put c s = Done () s' ∧ line_of d' s'.
Proof.
  intros (Hd & Hs & Hp). unfold put_char.
  destruct (wp_inv _ _ _ (poll_tx d)) as ([] & d1 & E & (H1 & H2 & H3) & Hbusy).
  eexists _, _. split; [by rewrite (bind_done _ _ _ _ _ E)|]. split; [done|].
  unfold dlab in *.
  pose proof (write_thr d1 (u8 c)) as (W1 & W2 & W3 & W4 & W5).
  unfold UART_THR. rewrite H1, Hd in W5. destruct W5 as [_ W5]. specialize (W5 Hbusy).
  split; [unfold dlab; by rewrite W1, H1|].
  split; [by rewrite W5, H2, Hs|by rewrite W4, H3].
Qed.

(** When a character is going to arrive, get_char ends and returns it, and the
    serial line it leaves is the one console_get leaves. *)
Theorem get_char_refines (d : D) (s : kstate) :
  line_of d s → console_in s ≠ [] →
  ∃ c d' s', get_char d = Done c d' ∧ console_get s = Done c s' ∧ line_of d' s'.
Proof.
  intros (Hd & Hs & Hp) Hne. unfold get_char.
  destruct (wp_inv _ _ _ (poll_rx d ltac:(congruence)))
    as ([] & d1 & E & (H1 & H2 & H3) & Hw).
  unfold console_get. destruct (console_in s) as [|c cs] eqn:Ein; [done|].
  assert (pending d1 = c :: cs) as Hp1 by congruence.
  pose proof (read_rhr d1 c cs) as Hr. unfold dlab in Hd. rewrite H1, Hd in Hr.
  destruct (reg_read 0 d1) as [v d2] eqn:E2.
  destruct (Hr eq_refl Hp1 Hw) as (-> & R2 & R3 & R4).
  assert (0 ≤ c < 256) as Hc.
  { pose proof (pending_chars d1) as F. rewrite Hp1 in F. by apply Forall_cons in F as [? _]. }
  exists (to_char c), d2. eexists. split; [|split; [done|]].
  - rewrite (bind_done _ _ _ _ _ E).
    rewrite (bind_done _ _ _ (u8 c) d2) by (unfold UART_REGR, UART_RHR; by rewrite E2).
    unfold to_char. by rewrite u8_u8.
  - split; [unfold dlab; by rewrite R4|].
    split; [by rewrite R3, H2|by rewrite R2].
Qed.

(** Uart_init leaves the divisor at 3 (38400 baud), the line at 8 data bits
    with the data registers accessible, only the receive interrupt enabled, and
    sends nothing. *)
Theorem uart_init_configures (d : D) :
  dlab d = false →
  ∃ d', uart_init d = Done () d' ∧
    dll d' = 3 ∧ dlm d' = 0 ∧ lcr d' = 3 ∧ dlab d' = false ∧ ier d' = 1 ∧
    sent d' = sent d ∧ pending d' = pending d.
Proof.
  intros Hd. unfold dlab in *.
  set (d1 := reg_write 1 0 d).
  pose proof (write_ier d 0) as (A1 & A2 & A3 & A4 & A5). rewrite Hd in A5.
  destruct A5 as [A5 A6]. fold d1 in A1, A2, A3, A4, A5, A6.
  set (v := u8 (Z.lor (u8 (lcr d1)) (Z.shiftl 1 7))).
  set (d2 := reg_write 3 v d1).
  pose proof (write_lcr d1 v) as (B1 & B2 & B3 & B4 & B5 & B6).
  fold d2 in B1, B2, B3, B4, B5, B6.
  assert (Z.testbit (lcr d2) 7 = true) as Hb.
  { rewrite B1. unfold v. rewrite u8_testbit, Z.lor_spec by lia.
    simpl (Z.testbit (Z.shiftl 1 7) 7). apply orb_true_r. }
  set (d3 := reg_write 0 3 d2).
  pose proof (write_thr d2 3) as (C1 & C2 & C3 & C4 & C5). rewrite Hb in C5.
  destruct C5 as [C5 C6]. fold d3 in C1, C2, C3, C4, C5, C6.
  set (d4 := reg_write 1 0 d3).
  pose proof (write_ier d3 0) as (E1 & E2 & E3 & E4 & E5). rewrite C1, Hb in E5.
  destruct E5 as [E5 E6]. fold d4 in E1, E2, E3, E4, E5, E6.
  set (d5 := reg_write 3 3 d4).
  pose proof (write_lcr d4 3) as (F1 & F2 & F3 & F4 & F5 & F6).
  fold d5 in F1, F2, F3, F4, F5, F6.
  set (d6 := reg_write 1 1 d5).
  pose proof (write_ier d5 1) as (G1 & G2 & G3 & G4 & G5). rewrite F1 in G5.
  destruct G5 as [G5 G6]. fold d6 in G1, G2, G3, G4, G5, G6.
  exists d6. split.
  - unfold uart_init.
    rewrite (bind_done _ _ _ () d1) by done.
    rewrite (bind_done _ _ _ (u8 (lcr d1)) d1)
      by (unfold UART_REGR, UART_LCR; by rewrite read_lcr).
    rewrite (bind_done _ _ _ () d2) by done.
    rewrite (bind_done _ _ _ () d3) by done.
    rewrite (bind_done _ _ _ () d4) by done.
    rewrite (bind_done _ _ _ () d5) by done.
    rewrite (bind_done _ _ _ (u8 (ier d5)) d5)
      by (unfold UART_REGR, UART_IER; by rewrite read_ier by (by rewrite F1)).
    replace (ier d5) with 0 by congruence. done.
  - repeat split; try congruence. by rewrite G1, F1.
Qed.
End proofs.

(** * A device with these properties *)

Module Sim.
Record dev := Dev {
  d_lcr : Z; d_ier : Z; d_dll : Z; d_dlm : Z;
  d_sent : list Z; d_pending : list Z; d_busy : bool; d_wait : bool
}.

(** Characters leave and arrive one status read late; one written while another has not
    left is lost. *)
Definition lsr_value (d : dev) : Z :=
  (if d_busy d then 0 else 0x40) +
  (if d_wait d then 0 else match d_pending d with [] => 0 | _ :: _ => 1 end).

#[global] Instance uart : Uart dev := {|
  reg_read r d :=
    match r with
    | 5 => (lsr_value d, Dev (d_lcr d) (d_ier d) (d_dll d) (d_dlm d) (d_sent d)
              (d_pending d) false false)
    | 3 => (d_lcr d, d)
    | 1 => (d_ier d, d)
    | _ => match d_pending d with
           | [] => (0, d)
           | c :: cs => (u8 c, Dev (d_lcr d) (d_ier d) (d_dll d) (d_dlm d) (d_sent d)
                                 cs (d_busy d) true)
           end
    end;
  reg_write r v d :=
    match r with
    | 3 => Dev v (d_ier d) (d_dll d) (d_dlm d) (d_sent d) (d_pending d) (d_busy d) (d_wait d)
    | 1 => if Z.testbit (d_lcr d) 7
           then Dev (d_lcr d) (d_ier d) (d_dll d) v (d_sent d) (d_pending d) (d_busy d) (d_wait d)
           else Dev (d_lcr d) v (d_dll d) (d_dlm d) (d_sent d) (d_pending d) (d_busy d) (d_wait d)
    | _ => if Z.testbit (d_lcr d) 7
           then Dev (d_lcr d) (d_ier d) v (d_dlm d) (d_sent d) (d_pending d) (d_busy d) (d_wait d)
           else Dev (d_lcr d) (d_ier d) (d_dll d) (d_dlm d)
                  (if d_busy d then d_sent d else d_sent d ++ [v]) (d_pending d) true (d_wait d)
    end
|}.

#[global] Program Instance uart_spec : UartSpec dev := {|
  lcr := d_lcr; ier := d_ier; dll := d_dll; dlm := d_dlm; sent := d_sent;
  pending d := map u8 (d_pending d);
  tx_busy d := if d_busy d then 1 else 0;
  rx_wait d := if d_wait d then 1 else 0
|}.
Next Obligation. intros d. simpl. destruct (d_busy d); lia. Qed.
Next Obligation. intros d. simpl. destruct (d_wait d); lia. Qed.
Next Obligation.
  intros d. apply Forall_map, Forall_forall. intros c _. apply u8_range.
Qed.
Next Obligation.
  intros [? ? ? ? ? [|c cs] [] []]; simpl; repeat split; try done; lia || (right; lia) ||
    by left.
Qed.
Next Obligation.
  intros d v. unfold reg_write, uart. cbn beta iota zeta.
  destruct (Z.testbit (d_lcr d) 7); [by repeat split|].
  repeat split. cbn. by destruct (d_busy d).
Qed.
Next Obligation.
  intros [? ? ? ? ? [|c' cs'] ? ?] c cs Hd Hp Hw; [done|]. injection Hp as <- <-. done.
Qed.
Next Obligation.
  intros d v. unfold reg_write, uart. cbn beta iota zeta.
  destruct (Z.testbit (d_lcr d) 7); by repeat split.
Qed.
Next Obligation. done. Qed.
Next Obligation. done. Qed.
Next Obligation. by repeat split. Qed.

(** A line at rest whose transmitter is still busy, with one line of input. *)
Definition line0 : dev := Dev 3 1 3 0 [] (chars "ls" ++ [13]) true true.
Definition state0 : kstate :=
  KState ∅ 0 0 0 0 0 0 0 [] (chars "ls" ++ [13]) no_statics.

Lemma line0_of : line_of line0 state0.
Proof. by repeat split. Qed.
End Sim.

(** The hypotheses of the refinements hold for that device. *)
Lemma put_char_refines_witness :
  ∃ d' s', put_char 65 Sim.line0 = Done () d' ∧
    console_put 65 Sim.state0 = Done () s' ∧ line_of d' s'.
Proof. apply put_char_refines, Sim.line0_of. Defined.

Lemma get_char_refines_witness :
  ∃ c d' s', get_char Sim.line0 = Done c d' ∧
    console_get Sim.state0 = Done c s' ∧ line_of d' s'.
Proof. apply get_char_refines; [apply Sim.line0_of|discriminate]. Defined.

Lemma uart_init_configures_witness :
  ∃ d', uart_init Sim.line0 = Done () d' ∧
    dll d' = 3 ∧ dlm d' = 0 ∧ lcr d' = 3 ∧ dlab d' = false ∧ ier d' = 1 ∧
    sent d' = sent Sim.line0 ∧ pending d' = pending Sim.line0.
Proof. apply uart_init_configures. reflexivity. Defined.
