(* ===== verification/PhysAlloc.v ===== *)
(** The physical frame allocator, kernel/memory/physical_allocator.cpp.

    One byte per frame, from [managed_frames_address_start] on, says whether the
    frame is allocated; frame number [i] is the 4096 bytes at
    [first_frame_address + 4096 * i].  The abstract state of the allocator is the
    set of allocated frame numbers ([allocated]); kalloc_frame adds the least
    number that is not in it, kfree_frame removes one. *)

From S2P Require Import Prelude Monad Memory Sv48 Machine Layout Samples Stdio.

Definition FRAME_SIZE : Z := 4096.
Definition FRAMES_FOR_MANAGING : Z := 8.

(** * The code *)

Definition get_frame_number (frame_address : Z) : K Z :=
  first ← gets first_frame_address;
  mret (u32 ((frame_address ⊟ first) / FRAME_SIZE)).

Definition set_pageframe_free (frame : Z) : K () := store8 frame 0x0.
Definition set_pageframe_allocated (frame : Z) : K () := store8 frame 0x1.
Definition is_free (frameFlags : Z) : K bool :=
  flags ← load8 frameFlags; mret (flags =? 0x0).

Definition allign_address (address num : Z) : Z :=
  Z.land (u64 (address + num - 1)) (u64 (Z.lnot (u64 (num - 1)))).

Definition init_num_frames `{Layout} : Z :=
  u32 (Z.quot PHYSICAL_HEAP_SIZE FRAME_SIZE - FRAMES_FOR_MANAGING).

Definition init_loop_body `{Layout} (managed : Z) : Z → K (Z + ()) := λ i : Z,
  if i <? init_num_frames then
    set_pageframe_free (managed ⊞ i);;
    mret (inl (u32 (i + 1)))
  else mret (inr ()).

Definition physical_allocator_init `{Layout} : K () :=
  log LogLevel.PHYSICAL_MEMORY (chars "Initialising physical allocator") [];;
  let num_frames := init_num_frames in
  log LogLevel.SYSTEM (chars "TEXT:            0x%x -> 0x%x") [TEXT_START; TEXT_END];;
  log LogLevel.SYSTEM (chars "RODATA:          0x%x -> 0x%x") [RODATA_START; RODATA_END];;
  log LogLevel.SYSTEM (chars "DATA:            0x%x -> 0x%x") [DATA_START; DATA_END];;
  log LogLevel.SYSTEM (chars "BSS:             0x%x -> 0x%x") [BSS_START; BSS_END];;
  log LogLevel.SYSTEM (chars "PHYSICAL HEAP:   0x%x -> 0x%x")
    [PHYSICAL_HEAP_START; PHYSICAL_HEAP_START + PHYSICAL_HEAP_SIZE];;
  log LogLevel.SYSTEM
    (chars "Amount of frames that can be allocated by the physical allocator: %i")
    [num_frames];;
  modify (set_frames (allign_address BSS_END FRAME_SIZE)
            (allign_address (PHYSICAL_HEAP_START + FRAMES_FOR_MANAGING * FRAME_SIZE)
               FRAME_SIZE));;
  managed ← gets managed_frames_address_start;
  log LogLevel.SYSTEM (chars "Location of frame management: 0x%x") [managed];;
  loop (init_loop_body managed) 0;;
  log LogLevel.PHYSICAL_MEMORY (chars "Initialization of physical allocator done") [].

(** The search loop of kalloc_frame, over currentFrameFlags and currentIndex. *)
Definition kalloc_frame_search : Z * Z → K (Z * Z + Z * Z) :=
  λ '(currentFrameFlags, currentIndex),
    free ← is_free currentFrameFlags;
    mret (if (free : bool) then inr (currentFrameFlags, currentIndex)
          else inl (currentFrameFlags ⊞ 1, u32 (currentIndex + 1))).

Definition kalloc_frame : K Z :=
  start ← gets managed_frames_address_start;
  '(currentFrameFlags, currentIndex) ← loop kalloc_frame_search (start, 0);
  set_pageframe_allocated currentFrameFlags;;
  first ← gets first_frame_address;
  let addr := first ⊞ u32 (currentIndex * FRAME_SIZE) in
  log LogLevel.PHYSICAL_MEMORY (chars "Allocated frame %i at address 0x%x")
    [currentIndex; addr];;
  mret addr.

Definition kfree_frame (frame : Z) : K () :=
  index ← get_frame_number frame;
  start ← gets managed_frames_address_start;
  set_pageframe_free (start ⊞ index).

(** * The view of the allocator's data *)

(** Physical address of the flags. *)
Definition flags_base (s : kstate) : Z := managed_frames_address_start s - VIRTUAL_OFFSET.
Definition frame_flag (s : kstate) (i : Z) : Z := rd8 (pmem s) (flags_base s + i).
Definition frame_at (s : kstate) (i : Z) : Z := first_frame_address s + i * FRAME_SIZE.

Definition frame_free (s : kstate) (i : Z) : Prop := frame_flag s i = 0.
#[export] Instance frame_free_dec s i : Decision (frame_free s i).
Proof. unfold frame_free. apply _. Defined.

(** The abstract state: the allocated ones of the first [N] frames. *)
Definition allocated (N : nat) (s : kstate) : gset Z :=
  list_to_set (filter (λ i, ¬ frame_free s i) (zseq 0 N)).

Definition nfree (N : nat) (s : kstate) : nat :=
  length (filter (frame_free s) (zseq 0 N)).

(** The bytes of frame [i], and of the flags of the first [N] frames. *)
Definition in_frame (s : kstate) (i a : Z) : Prop :=
  frame_at s i ≤ a < frame_at s i + FRAME_SIZE.
Definition in_flags (N : nat) (s : kstate) (a : Z) : Prop :=
  flags_base s ≤ a < flags_base s + Z.of_nat N.

(** Well-formedness for the first [N] frames: flags and frames lie in the window,
    the flags below the frames, and a frame that was never handed out is zero. *)
Record frames_ok (N : nat) (s : kstate) : Prop := FramesOk {
  fo_base : 0 ≤ flags_base s;
  fo_below : flags_base s + Z.of_nat N ≤ first_frame_address s;
  fo_top : frame_at s (Z.of_nat N) ≤ WINDOW_SIZE;
  fo_align : first_frame_address s mod FRAME_SIZE = 0;
  fo_zero : ∀ i a, 0 ≤ i < Z.of_nat N → frame_free s i → in_frame s i a →
    rd8 (pmem s) a = 0
}.

Section basics.
Context (N : nat) (s : kstate) (OK : frames_ok N s).

Lemma fo_bounds :
  0 ≤ flags_base s ∧ flags_base s + Z.of_nat N ≤ first_frame_address s ∧
  first_frame_address s + Z.of_nat N * 4096 ≤ 0x100000000.
Proof using OK.
  pose proof (fo_base _ _ OK). pose proof (fo_below _ _ OK).
  pose proof (fo_top _ _ OK). unfold frame_at, FRAME_SIZE, WINDOW_SIZE in *. lia.
Qed.

Lemma managed_base : managed_frames_address_start s = flags_base s + VIRTUAL_OFFSET.
Proof using. unfold flags_base. lia. Qed.

Lemma frame_flag_range i : 0 ≤ frame_flag s i < 256.
Proof using. apply rd8_range. Qed.
End basics.

Lemma is_free_done s p :
  0 ≤ p < WINDOW_SIZE →
  is_free (p + VIRTUAL_OFFSET) s = Done (rd8 (pmem s) p =? 0) s.
Proof. intros H. unfold is_free. by rewrite (bind_done _ _ _ _ _ (load8_window s p H)). Qed.

(** ** The search of kalloc_frame *)

Lemma search_rounds s j k :
  0 ≤ flags_base s + j → flags_base s + j + Z.of_nat k < WINDOW_SIZE → 0 ≤ j →
  j + Z.of_nat k < 2 ^ 32 →
  (∀ i, j ≤ i < j + Z.of_nat k → ¬ frame_free s i) → frame_free s (j + Z.of_nat k) →
  rounds (S k) kalloc_frame_search (managed_frames_address_start s + j, j) s =
  Done (inr (managed_frames_address_start s + (j + Z.of_nat k), j + Z.of_nat k)) s.
Proof.
  revert j. induction k as [|k IH]; intros j H0 H1 H2 H3 Hn Hf.
  - apply rounds_stop. unfold kalloc_frame_search.
    rewrite managed_base. replace (flags_base s + VIRTUAL_OFFSET + j)
      with (flags_base s + j + VIRTUAL_OFFSET) by lia.
    rewrite (bind_done _ _ _ _ _ (is_free_done s (flags_base s + j) ltac:(lia))).
    rewrite Z.add_0_r in *. unfold frame_free, frame_flag in Hf. rewrite Hf. simpl.
    do 3 f_equal. lia.
  - rewrite (rounds_step _ _ _ _ (managed_frames_address_start s + (j + 1), j + 1) s).
    + rewrite IH; try lia.
      * do 3 f_equal; lia.
      * intros i Hi. apply Hn. lia.
      * by replace (j + 1 + Z.of_nat k) with (j + Z.of_nat (S k)) by lia.
    + unfold kalloc_frame_search. rewrite managed_base.
      replace (flags_base s + VIRTUAL_OFFSET + j)
        with (flags_base s + j + VIRTUAL_OFFSET) by lia.
      rewrite (bind_done _ _ _ _ _ (is_free_done s (flags_base s + j) ltac:(lia))).
      assert (¬ frame_free s j) as Hj by (apply Hn; lia).
      unfold frame_free, frame_flag in Hj. rewrite (proj2 (Z.eqb_neq _ _) Hj).
      rewrite window_succ, u32_small by lia. simpl. do 3 f_equal. lia.
Qed.

(** kalloc_frame takes the first frame whose flag is clear. *)
Lemma kalloc_frame_first s i :
  0 ≤ flags_base s → 0 ≤ i < 2 ^ 20 → flags_base s + i < WINDOW_SIZE →
  0 ≤ first_frame_address s → first_frame_address s + i * 4096 < 2 ^ 64 →
  frame_free s i → (∀ j, 0 ≤ j < i → ¬ frame_free s j) →
  ∃ out, kalloc_frame s =
    Done (frame_at s i) (emit out (set_pmem (wr8 (pmem s) (flags_base s + i) 1) s)).
Proof.
  intros B1 Hi B2 B3 B4 Hf Hn. simpl in Hi. unfold kalloc_frame.
  rewrite (bind_done _ _ _ (managed_frames_address_start s) s) by done.
  rewrite (bind_done _ _ s (managed_frames_address_start s + i, i) s).
  2:{ apply (loop_rounds _ (S (Z.to_nat i))); [|lia].
      replace i with (0 + Z.of_nat (Z.to_nat i)) at 2 3 by lia.
      rewrite <- (search_rounds s 0 (Z.to_nat i)); try lia.
      - by rewrite Z.add_0_r.
      - intros j Hj. apply Hn. lia.
      - by replace (0 + Z.of_nat (Z.to_nat i)) with i by lia. }
  rewrite managed_base. replace (flags_base s + VIRTUAL_OFFSET + i)
    with (flags_base s + i + VIRTUAL_OFFSET) by lia.
  unfold set_pageframe_allocated.
  rewrite (bind_done _ _ _ _ _ (store8_window s (flags_base s + i) 1 ltac:(lia))).
  set (s1 := set_pmem _ s).
  rewrite (bind_done _ _ _ (first_frame_address s) s1) by done.
  replace (first_frame_address s ⊞ u32 (i * FRAME_SIZE)) with (frame_at s i)
    by (unfold frame_at, FRAME_SIZE; rewrite u32_small, u64_small; lia).
  cbv zeta. destruct (log_ok LogLevel.PHYSICAL_MEMORY
    (chars "Allocated frame %i at address 0x%x") [i; frame_at s i] s1) as [out E]; [done|].
  exists out. by rewrite (bind_done _ _ _ _ _ E).
Qed.

Lemma kalloc_frame_at N s i :
  frames_ok N s → 0 ≤ i < Z.of_nat N → frame_free s i →
  (∀ j, 0 ≤ j < i → ¬ frame_free s j) →
  ∃ out, kalloc_frame s =
    Done (frame_at s i) (emit out (set_pmem (wr8 (pmem s) (flags_base s + i) 1) s)).
Proof.
  intros OK Hi. destruct (fo_bounds _ _ OK) as (B1 & B2 & B3).
  apply kalloc_frame_first; unfold WINDOW_SIZE; simpl; lia.
Qed.

(** ** Counting free frames *)

Lemma least_free N s :
  (0 < nfree N s)%nat →
  ∃ i, 0 ≤ i < Z.of_nat N ∧ frame_free s i ∧ ∀ j, 0 ≤ j < i → ¬ frame_free s j.
Proof.
  unfold nfree. intros H.
  assert (∃ i, 0 ≤ i < Z.of_nat N ∧ frame_free s i) as (i & Hi & Hf).
  { destruct (filter (frame_free s) (zseq 0 N)) as [|i l] eqn:E; [simpl in H; lia|].
    assert (i ∈ filter (frame_free s) (zseq 0 N)) as Hin by (rewrite E; left).
    apply list_elem_of_filter in Hin as [Hf Hin]. apply elem_of_zseq in Hin. eauto with lia. }
  assert (∀ k i, 0 ≤ i < Z.of_nat N → frame_free s i → i < Z.of_nat k →
    ∃ i, 0 ≤ i < Z.of_nat N ∧ frame_free s i ∧ ∀ j, 0 ≤ j < i → ¬ frame_free s j) as Hleast.
  { intros k. induction k as [|k IH]; intros i' Hi' Hf' Hk; [lia|].
    destruct (decide (Exists (frame_free s) (zseq 0 (Z.to_nat i')))) as [He|He].
    - apply Exists_exists in He as (j & Hj & Hfj). apply elem_of_zseq in Hj.
      apply (IH j); [lia|done|lia].
    - exists i'. split; [done|]. split; [done|]. intros j Hj Hfj. apply He.
      apply Exists_exists. exists j. split; [|done]. apply elem_of_zseq. lia. }
  apply (Hleast (Z.to_nat i + 1)%nat i); [done|done|lia].
Qed.

(** What happens to the flags when one byte of memory is written. *)
Lemma frame_flag_wr8 s i b j :
  frame_flag (set_pmem (wr8 (pmem s) (flags_base s + i) b) s) j =
  if decide (j = i) then u8 b else frame_flag s j.
Proof.
  unfold frame_flag. cbn [pmem set_pmem].
  change (flags_base (set_pmem _ s)) with (flags_base s). rewrite rd8_wr8.
  repeat case_decide; lia || done.
Qed.

Lemma frame_free_emit o s i : frame_free (emit o s) i ↔ frame_free s i.
Proof. done. Qed.

Lemma nfree_ext N s s' :
  (∀ i, 0 ≤ i < Z.of_nat N → frame_free s i ↔ frame_free s' i) → nfree N s = nfree N s'.
Proof.
  intros H. unfold nfree. f_equal. apply list_filter_ext_in.
  intros i Hi. apply elem_of_zseq in Hi. apply H. lia.
Qed.

Lemma nfree_mono N s s' :
  (∀ i, 0 ≤ i < Z.of_nat N → frame_free s' i → frame_free s i) → (nfree N s' ≤ nfree N s)%nat.
Proof.
  intros H. apply length_filter_impl. intros i Hi. apply elem_of_zseq in Hi. apply H. lia.
Qed.

Lemma nfree_alloc N s i o :
  0 ≤ i < Z.of_nat N → frame_free s i →
  nfree N s = S (nfree N (emit o (set_pmem (wr8 (pmem s) (flags_base s + i) 1) s))).
Proof.
  intros Hi Hf. unfold nfree.
  apply (length_filter_flip _ _ _ i); [apply zseq_NoDup|apply elem_of_zseq; lia|done| |].
  - rewrite frame_free_emit. unfold frame_free. rewrite frame_flag_wr8.
    by rewrite decide_True.
  - intros j _ Hj. rewrite frame_free_emit. unfold frame_free. rewrite frame_flag_wr8.
    by rewrite decide_False.
Qed.

(** ** Frames handed out in order *)

(** The first [k] frames are allocated and the others free. *)
Record in_order (N : nat) (k : Z) (s : kstate) : Prop := InOrder {
  io_range : 0 ≤ k ≤ Z.of_nat N;
  io_used : ∀ j, 0 ≤ j < k → ¬ frame_free s j;
  io_free : ∀ j, k ≤ j < Z.of_nat N → frame_free s j
}.

Definition keeps_order (N : nat) (s s' : kstate) : Prop :=
  ∀ k, in_order N k s → ∃ k', in_order N k' s'.

#[export] Instance keeps_order_refl N : Reflexive (keeps_order N).
Proof. intros s k H. by exists k. Qed.
#[export] Instance keeps_order_trans N : Transitive (keeps_order N).
Proof. intros s1 s2 s3 H1 H2 k H. destruct (H1 k H) as [k' H']. by apply (H2 k'). Qed.

Lemma in_order_same N k s s' :
  (∀ j, 0 ≤ j < Z.of_nat N → frame_free s' j ↔ frame_free s j) → in_order N k s → in_order N k s'.
Proof.
  intros H [R U F]. split; [done| |].
  - intros j Hj. rewrite H by lia. by apply U.
  - intros j Hj. rewrite H by lia. by apply F.
Qed.

Lemma keeps_order_same N s s' :
  (∀ j, 0 ≤ j < Z.of_nat N → frame_free s' j ↔ frame_free s j) → keeps_order N s s'.
Proof. intros H k O. exists k. by apply (in_order_same N k s). Qed.

(** The least free frame is the next one. *)
Lemma in_order_least N k s i :
  in_order N k s → 0 ≤ i < Z.of_nat N → frame_free s i → (∀ j, 0 ≤ j < i → ¬ frame_free s j) → i = k.
Proof.
  intros [R U F] Hi Hf Hl. destruct (Z.lt_trichotomy i k) as [H|[H|H]]; [|done|].
  - by destruct (U i ltac:(lia)).
  - destruct (Hl k ltac:(lia)). apply F. lia.
Qed.

Lemma in_order_alloc N k s s' :
  in_order N k s → k < Z.of_nat N → (∀ j, 0 ≤ j < Z.of_nat N → frame_free s' j ↔ frame_free s j ∧ j ≠ k) →
  in_order N (k + 1) s'.
Proof.
  intros [R U F] Hk H. split; [lia| |].
  - intros j Hj. rewrite H by lia. intros [Hf Hne]. apply (U j); [lia|done].
  - intros j Hj. rewrite H by lia. split; [apply F|]; lia.
Qed.

Lemma keeps_order_alloc N s s' i :
  0 ≤ i < Z.of_nat N → frame_free s i → (∀ j, 0 ≤ j < i → ¬ frame_free s j) →
  (∀ j, 0 ≤ j < Z.of_nat N → frame_free s' j ↔ frame_free s j ∧ j ≠ i) → keeps_order N s s'.
Proof.
  intros Hi Hf Hl H k O. pose proof (in_order_least N k s i O Hi Hf Hl) as ->.
  exists (k + 1). apply (in_order_alloc N k s); [done|lia|done].
Qed.

Lemma in_order_nfree N k s : in_order N k s → Z.of_nat (nfree N s) = Z.of_nat N - k.
Proof.
  intros [R U F]. unfold nfree.
  assert (∀ (n : nat) a, 0 ≤ a → a + Z.of_nat n = Z.of_nat N →
    Z.of_nat (length (filter (frame_free s) (zseq a n))) = Z.of_nat N - Z.max a k) as H.
  { induction n as [|n IH]; intros a Ha En; [cbn; lia|]. rewrite zseq_S, filter_cons.
    specialize (IH (a + 1) ltac:(lia) ltac:(lia)).
    destruct (decide (a < k)).
    - rewrite decide_False by (apply U; lia). lia.
    - rewrite decide_True by (apply F; lia). cbn [length]. lia. }
  rewrite (H N 0); lia.
Qed.

(** ** Steps that keep the allocator well-formed *)

(** Memory may change outside the flags and the free frames. *)
Lemma frames_ok_step N s s' :
  frames_ok N s →
  managed_frames_address_start s' = managed_frames_address_start s →
  first_frame_address s' = first_frame_address s →
  (∀ i, 0 ≤ i < Z.of_nat N → frame_free s' i → frame_free s i) →
  (∀ i a, 0 ≤ i < Z.of_nat N → frame_free s' i → in_frame s i a →
     rd8 (pmem s') a = rd8 (pmem s) a) →
  frames_ok N s'.
Proof.
  intros [H1 H2 H3 H4 H5] Em Ef Hfree Hmem.
  assert (flags_base s' = flags_base s) as Eb by (unfold flags_base; congruence).
  assert (∀ i, frame_at s' i = frame_at s i) as Ea by (intros; unfold frame_at; congruence).
  split; rewrite ?Eb, ?Ef, ?Ea; try done.
  intros i a Hi Hf Ha. unfold in_frame in Ha. rewrite Ea in Ha.
  rewrite (Hmem i); [|done|done|done]. apply (H5 i); [done|by apply Hfree|done].
Qed.

Lemma frames_ok_alloc N s i o :
  frames_ok N s → 0 ≤ i < Z.of_nat N →
  frames_ok N (emit o (set_pmem (wr8 (pmem s) (flags_base s + i) 1) s)).
Proof.
  intros OK Hi. destruct (fo_bounds _ _ OK) as (B1 & B2 & B3).
  apply (frames_ok_step N s); try done.
  - intros j Hj. rewrite frame_free_emit. unfold frame_free. rewrite frame_flag_wr8.
    by case_decide.
  - intros j a Hj _ Ha. cbn [pmem emit set_console set_pmem]. apply rd8_wr8_ne.
    unfold in_frame, frame_at, FRAME_SIZE in Ha. lia.
Qed.

Lemma frame_at_inj s i j : frame_at s i = frame_at s j → i = j.
Proof. unfold frame_at, FRAME_SIZE. lia. Qed.

Lemma in_frame_inj s i j a : in_frame s i a → in_frame s j a → i = j.
Proof. unfold in_frame, frame_at, FRAME_SIZE. lia. Qed.

Lemma frame_at_aligned N s i : frames_ok N s → frame_at s i mod FRAME_SIZE = 0.
Proof.
  intros OK. pose proof (fo_align _ _ OK). unfold frame_at, FRAME_SIZE in *.
  by rewrite Z.mod_add.
Qed.

Lemma frame_at_range N s i :
  frames_ok N s → 0 ≤ i < Z.of_nat N →
  0 ≤ frame_at s i ∧ frame_at s i + FRAME_SIZE ≤ WINDOW_SIZE.
Proof.
  intros OK Hi. destruct (fo_bounds _ _ OK) as (B1 & B2 & B3).
  unfold frame_at, FRAME_SIZE, WINDOW_SIZE. lia.
Qed.

Lemma flags_not_in_frame N s i j :
  frames_ok N s → 0 ≤ i < Z.of_nat N → 0 ≤ j → ¬ in_frame s j (flags_base s + i).
Proof.
  intros OK Hi Hj. destruct (fo_bounds _ _ OK) as (B1 & B2 & B3).
  unfold in_frame, frame_at, FRAME_SIZE. lia.
Qed.

(** The specification of kalloc_frame the rest of the kernel is proved against:
    there is a result when a frame is free; the frame was free, is allocated
    afterwards, and only its flag changes. *)
Lemma kalloc_frame_spec N s :
  frames_ok N s → (0 < nfree N s)%nat →
  ∃ i out s', kalloc_frame s = Done (frame_at s i) s' ∧
    s' = emit out (set_pmem (wr8 (pmem s) (flags_base s + i) 1) s) ∧
    0 ≤ i < Z.of_nat N ∧ frame_free s i ∧ (∀ j, 0 ≤ j < i → ¬ frame_free s j) ∧
    frames_ok N s' ∧ nfree N s = S (nfree N s') ∧
    (∀ j, frame_free s' j ↔ frame_free s j ∧ j ≠ i).
Proof.
  intros OK Hn. destruct (least_free N s Hn) as (i & Hi & Hf & Hl).
  destruct (kalloc_frame_at N s i OK Hi Hf Hl) as [out E].
  exists i, out, (emit out (set_pmem (wr8 (pmem s) (flags_base s + i) 1) s)).
  split_and!; try done; try lia.
  - by apply frames_ok_alloc.
  - by apply nfree_alloc.
  - intros j. rewrite frame_free_emit. unfold frame_free at 1. rewrite frame_flag_wr8.
    case_decide; [|tauto]. change (u8 1) with 1. lia.
Qed.

(** ** Alignment *)

Lemma land_u64 x y : 0 ≤ x < 2 ^ 64 → Z.land x (u64 y) = Z.land x y.
Proof.
  intros Hx. unfold u64. change 0x10000000000000000 with (2 ^ 64).
  rewrite <- (Z.land_ones y) by lia. rewrite (Z.land_comm y), Z.land_assoc.
  rewrite Z.land_ones by lia. by rewrite (Z.mod_small x).
Qed.

Lemma allign_address_pow2 a k :
  0 ≤ k < 64 → 0 ≤ a → a + 2 ^ k - 1 < 2 ^ 64 →
  allign_address a (2 ^ k) = (a + 2 ^ k - 1) / 2 ^ k * 2 ^ k.
Proof.
  intros Hk Ha Hb. assert (0 < 2 ^ k) by (apply Z.pow_pos_nonneg; lia).
  assert (2 ^ k < 2 ^ 64) by (apply Z.pow_lt_mono_r; lia).
  unfold allign_address. rewrite (u64_small (a + 2 ^ k - 1)) by (simpl in *; lia).
  rewrite land_u64 by lia. rewrite (u64_small (2 ^ k - 1)) by (simpl in *; lia).
  replace (2 ^ k - 1) with (Z.ones k) by (rewrite Z.ones_equiv; lia).
  rewrite <- Z.ldiff_land, Z.ldiff_ones_r by lia.
  by rewrite Z.shiftl_mul_pow2, Z.shiftr_div_pow2 by lia.
Qed.

Definition align_up (a : Z) : Z := (a + 4095) / 4096 * 4096.

Lemma align_up_bounds a : a ≤ align_up a < a + 4096 ∧ align_up a mod 4096 = 0.
Proof. unfold align_up. split; [zlia|apply Z.mod_mul; lia]. Qed.

Lemma allign_page a : 0 ≤ a → a + 4095 < 2 ^ 64 → allign_address a FRAME_SIZE = align_up a.
Proof.
  intros. unfold FRAME_SIZE. change 4096 with (2 ^ 12).
  rewrite allign_address_pow2 by (simpl; lia). unfold align_up. do 2 f_equal. simpl. lia.
Qed.

(** ** Initialisation *)

Section init.
Context {L : Layout} {LO : LayoutOk L}.

Lemma heap_start_bounds :
  RAM_ORIGIN ≤ PHYSICAL_HEAP_START ∧ PHYSICAL_HEAP_START + 10 * 4096 ≤ WINDOW_SIZE.
Proof using LO.
  pose proof bss_end_low. pose proof bss_end_high.
  unfold PHYSICAL_HEAP_START, RAM_ORIGIN, RAM_LENGTH, WINDOW_SIZE in *. lia.
Qed.

Lemma align_bss : allign_address BSS_END FRAME_SIZE = align_up PHYSICAL_HEAP_START + VIRTUAL_OFFSET.
Proof using LO.
  pose proof heap_start_bounds. unfold PHYSICAL_HEAP_START, VIRTUAL_OFFSET, WINDOW_SIZE,
    RAM_ORIGIN in *. rewrite allign_page by (simpl; lia). unfold align_up.
  zlia.
Qed.

Lemma align_first :
  allign_address (PHYSICAL_HEAP_START + FRAMES_FOR_MANAGING * FRAME_SIZE) FRAME_SIZE =
  align_up PHYSICAL_HEAP_START + 32768.
Proof using LO.
  pose proof heap_start_bounds. unfold WINDOW_SIZE, RAM_ORIGIN in *.
  unfold FRAMES_FOR_MANAGING. change (8 * FRAME_SIZE) with 32768.
  rewrite allign_page by (simpl; lia). unfold align_up. zlia.
Qed.

Lemma init_num_frames_eq :
  init_num_frames = (WINDOW_SIZE - PHYSICAL_HEAP_START) / 4096 - 8.
Proof using LO.
  pose proof heap_start_bounds as [H1 H2].
  unfold init_num_frames, PHYSICAL_HEAP_SIZE, PHYSICAL_MEMORY_END, FRAMES_FOR_MANAGING,
    FRAME_SIZE. change (RAM_ORIGIN + RAM_LENGTH) with WINDOW_SIZE.
  unfold WINDOW_SIZE, RAM_ORIGIN in *. revert H1 H2. generalize PHYSICAL_HEAP_START.
  intros h H1 H2. rewrite Z.quot_div_nonneg by lia. apply u32_small. zlia.
Qed.

(** Flags and frames as initialisation places them. *)
Lemma init_places :
  0 ≤ align_up PHYSICAL_HEAP_START ∧ 0 ≤ init_num_frames < 2 ^ 20 ∧
  align_up PHYSICAL_HEAP_START + init_num_frames ≤ WINDOW_SIZE ∧
  align_up PHYSICAL_HEAP_START + 32768 + init_num_frames * 4096 ≤ WINDOW_SIZE.
Proof using LO.
  rewrite init_num_frames_eq. pose proof heap_start_bounds as [H1 H2].
  unfold WINDOW_SIZE, RAM_ORIGIN, align_up in *. revert H1 H2.
  generalize PHYSICAL_HEAP_START. intros h H1 H2. simpl (2 ^ 20). zlia.
Qed.

Lemma init_loop s base :
  0 ≤ base → base + init_num_frames ≤ WINDOW_SIZE →
  wp (loop (init_loop_body (base + VIRTUAL_OFFSET)) 0)
    (λ _ s', only_mem s s' ∧
      (∀ a, base ≤ a < base + init_num_frames → rd8 (pmem s') a = 0) ∧
      agree (λ a, ¬ base ≤ a < base + init_num_frames) (pmem s) (pmem s')) s.
Proof using LO.
  intros Hb Ht. pose proof init_places as (_ & Hn & _).
  apply (wp_loop _ (λ i s', 0 ≤ i ≤ init_num_frames ∧ only_mem s s' ∧
      (∀ a, base ≤ a < base + i → rd8 (pmem s') a = 0) ∧
      agree (λ a, ¬ base ≤ a < base + init_num_frames) (pmem s) (pmem s'))
    (λ i _, init_num_frames - i)).
  - intros i s1 (Hi & Hs & Hz & Ha). split; [lia|]. unfold init_loop_body.
    destruct (Z.ltb_spec i init_num_frames).
    + unfold set_pageframe_free.
      replace (base + VIRTUAL_OFFSET ⊞ i) with (base + i + VIRTUAL_OFFSET).
      2:{ unfold VIRTUAL_OFFSET, WINDOW_SIZE in *. rewrite u64_small; lia. }
      eapply wp_bind_done; [apply store8_window; lia|]. apply wp_ret.
      simpl in Hn. rewrite u32_small by lia. split_and!; try lia.
      * etrans; [exact Hs|apply only_mem_set_pmem].
      * intros a Hr. cbn [pmem set_pmem]. rewrite rd8_wr8. case_decide; [done|].
        apply Hz. lia.
      * etrans; [exact Ha|]. apply agree_wr8. lia.
    + apply wp_ret. assert (i = init_num_frames) as -> by lia. done.
  - split_and!; try lia; done.
  - simpl in *. lia.
Qed.
End init.

(** * Properties *)

(** Allign_address rounds up: for a power of two it returns the least multiple
    that is not below the address. *)
Theorem allign_address_least (a k m : Z) :
  0 ≤ k < 64 → 0 ≤ a → a + 2 ^ k - 1 < 2 ^ 64 →
  allign_address a (2 ^ k) mod 2 ^ k = 0 ∧ a ≤ allign_address a (2 ^ k) ∧
  (a ≤ m → m mod 2 ^ k = 0 → allign_address a (2 ^ k) ≤ m).
Proof.
  intros Hk Ha Hb. rewrite allign_address_pow2 by done.
  assert (0 < 2 ^ k) as Hp by (apply Z.pow_pos_nonneg; lia).
  pose proof (Z.div_mod (a + 2 ^ k - 1) (2 ^ k)).
  pose proof (Z.mod_pos_bound (a + 2 ^ k - 1) (2 ^ k) Hp).
  split; [apply Z.mod_mul; lia|]. split; [lia|]. intros Hm Hmod.
  pose proof (Z.div_mod m (2 ^ k)).
  assert ((a + 2 ^ k - 1) / 2 ^ k ≤ m / 2 ^ k); [|nia].
  transitivity ((m + 2 ^ k - 1) / 2 ^ k); [apply Z.div_le_mono; lia|].
  replace (m + 2 ^ k - 1) with (m / 2 ^ k * 2 ^ k + (2 ^ k - 1)) by lia.
  rewrite Z.div_add_l by lia. rewrite (Z.div_small (2 ^ k - 1)) by lia. lia.
Qed.

(** The abstract allocator: [i] is the least number not in [used]. *)
Definition least_unused (used : gset Z) (N : nat) (i : Z) : Prop :=
  0 ≤ i < Z.of_nat N ∧ i ∉ used ∧ ∀ j, 0 ≤ j < i → j ∈ used.

Lemma elem_of_allocated N s i :
  i ∈ allocated N s ↔ 0 ≤ i < Z.of_nat N ∧ ¬ frame_free s i.
Proof.
  unfold allocated. rewrite elem_of_list_to_set, list_elem_of_filter, elem_of_zseq.
  rewrite Z.add_0_l. tauto.
Qed.

Lemma nfree_allocated N s : (0 < nfree N s)%nat ↔ ∃ i, least_unused (allocated N s) N i.
Proof.
  split.
  - intros H. destruct (least_free N s H) as (i & Hi & Hf & Hl). exists i.
    split; [done|]. rewrite elem_of_allocated. split; [tauto|]. intros j Hj.
    rewrite elem_of_allocated. split; [lia|auto].
  - intros (i & Hi & Hf & _). rewrite elem_of_allocated in Hf. unfold nfree.
    assert (i ∈ filter (frame_free s) (zseq 0 N)) as Hin.
    { apply list_elem_of_filter. rewrite elem_of_zseq. split; [|lia].
      destruct (decide (frame_free s i)); tauto. }
    destruct (filter _ _); [by apply elem_of_nil in Hin|simpl; lia].
Qed.

(** C16: kalloc_frame refines the abstract allocator: while a frame is unused it
    returns the address of the least unused one, adds it to the allocated set,
    changes no byte but its flag, and keeps the allocator well-formed; the frame
    it returns is zero. *)
Theorem kalloc_frame_refines (N : nat) (s : kstate) :
  frames_ok N s → (∃ i, least_unused (allocated N s) N i) →
  ∃ i s', kalloc_frame s = Done (frame_at s i) s' ∧
    least_unused (allocated N s) N i ∧
    allocated N s' = {[i]} ∪ allocated N s ∧ frames_ok N s' ∧ only_mem s s' ∧
    agree (λ a, a ≠ flags_base s + i) (pmem s) (pmem s') ∧
    ∀ a, in_frame s i a → rd8 (pmem s') a = 0.
Proof.
  intros OK Hn. apply nfree_allocated in Hn.
  destruct (kalloc_frame_spec N s OK Hn)
    as (i & out & s' & E & Es & Hi & Hf & Hl & OK' & _ & Hfree).
  exists i, s'. split_and!; try done.
  - split; [done|]. rewrite elem_of_allocated. split; [tauto|].
    intros j Hj. rewrite elem_of_allocated. split; [lia|auto].
  - apply set_eq. intros j. rewrite elem_of_union, elem_of_singleton, !elem_of_allocated.
    rewrite Hfree. destruct (decide (frame_free s j)), (decide (j = i)); naive_solver lia.
  - rewrite Es. apply only_mem_both.
  - rewrite Es. apply agree_wr8. tauto.
  - intros a Ha. rewrite Es. cbn [pmem emit set_console set_pmem]. rewrite rd8_wr8_ne.
    + by apply (fo_zero _ _ OK i).
    + intros ->. exact (flags_not_in_frame N s i i OK Hi ltac:(lia) Ha).
Qed.

Lemma get_frame_number_at N s i :
  frames_ok N s → 0 ≤ i < Z.of_nat N → get_frame_number (frame_at s i) s = Done i s.
Proof.
  intros OK Hi. destruct (fo_bounds _ _ OK) as (B1 & B2 & B3). unfold get_frame_number.
  rewrite (bind_done _ _ _ (first_frame_address s) s) by done.
  unfold frame_at, FRAME_SIZE. rewrite u64_small by lia.
  replace (first_frame_address s + i * 4096 - first_frame_address s) with (i * 4096) by lia.
  rewrite Z.div_mul by lia. by rewrite u32_small by lia.
Qed.

(** Kfree_frame refines removal from the allocated set: it clears the flag of
    the frame it is given and no other byte. *)
Theorem kfree_frame_refines (N : nat) (s : kstate) (i : Z) :
  frames_ok N s → 0 ≤ i < Z.of_nat N →
  ∃ s', kfree_frame (frame_at s i) s = Done () s' ∧
    s' = set_pmem (wr8 (pmem s) (flags_base s + i) 0) s ∧
    allocated N s' = (allocated N s ∖ {[i]}) ∧
    ((∀ a, in_frame s i a → rd8 (pmem s) a = 0) → frames_ok N s').
Proof.
  intros OK Hi. destruct (fo_bounds _ _ OK) as (B1 & B2 & B3).
  eexists. split; [|split; [reflexivity|split]].
  - unfold kfree_frame. rewrite (bind_done _ _ _ _ _ (get_frame_number_at N s i OK Hi)).
    rewrite (bind_done _ _ _ (managed_frames_address_start s) s) by done.
    rewrite managed_base. replace (flags_base s + VIRTUAL_OFFSET ⊞ i)
      with (flags_base s + i + VIRTUAL_OFFSET).
    + apply store8_window. unfold WINDOW_SIZE. lia.
    + unfold VIRTUAL_OFFSET. rewrite u64_small; lia.
  - apply set_eq. intros j. rewrite elem_of_difference, elem_of_singleton, !elem_of_allocated.
    unfold frame_free at 1. rewrite frame_flag_wr8. change (u8 0) with 0.
    unfold frame_free. case_decide; naive_solver lia.
  - intros Hz.
    set (s' := set_pmem _ s).
    assert (∀ j a, 0 ≤ j < Z.of_nat N → frame_free s' j → in_frame s j a →
      rd8 (pmem s') a = 0) as Hzero.
    { intros j a Hj Hf Ha. unfold s'. cbn [pmem set_pmem]. rewrite rd8_wr8_ne.
      - unfold frame_free in Hf. unfold s' in Hf. rewrite frame_flag_wr8 in Hf.
        case_decide; [subst; auto|]. by apply (fo_zero _ _ OK j).
      - intros ->. exact (flags_not_in_frame N s i j OK Hi ltac:(lia) Ha). }
    destruct OK. by split.
Qed.

(** A frame that is freed is the one the next kalloc_frame returns when no lower
    frame is free, and freeing it again restores every byte of memory. *)
Theorem kalloc_kfree_roundtrip (N : nat) (s : kstate) :
  frames_ok N s → (∃ i, least_unused (allocated N s) N i) →
  ∃ f s1 s2, kalloc_frame s = Done f s1 ∧ kfree_frame f s1 = Done () s2 ∧
    (∀ a, rd8 (pmem s2) a = rd8 (pmem s) a) ∧ allocated N s2 = allocated N s.
Proof.
  intros OK Hn. apply nfree_allocated in Hn.
  destruct (kalloc_frame_spec N s OK Hn)
    as (i & out & s1 & E & Es & Hi & Hf & Hl & OK1 & _ & Hfree).
  assert (flags_base s1 = flags_base s) as Eb by (by rewrite Es).
  assert (frame_at s1 i = frame_at s i) as Ea by (by rewrite Es).
  exists (frame_at s i), s1, (set_pmem (wr8 (pmem s1) (flags_base s1 + i) 0) s1).
  assert (∀ a, rd8 (pmem (set_pmem (wr8 (pmem s1) (flags_base s1 + i) 0) s1)) a =
               rd8 (pmem s) a) as Hmem.
  { intros a. cbn [pmem set_pmem]. rewrite rd8_wr8, Eb. case_decide as Ha.
    - subst a. symmetry. exact Hf.
    - rewrite Es. cbn [pmem emit set_console set_pmem]. by rewrite rd8_wr8_ne. }
  split_and!; [done| |done|].
  - rewrite <- Ea. unfold kfree_frame.
    rewrite (bind_done _ _ _ _ _ (get_frame_number_at N s1 i OK1 Hi)).
    rewrite (bind_done _ _ _ (managed_frames_address_start s1) s1) by done.
    destruct (fo_bounds _ _ OK1) as (B1 & B2 & B3).
    rewrite managed_base. replace (flags_base s1 + VIRTUAL_OFFSET ⊞ i)
      with (flags_base s1 + i + VIRTUAL_OFFSET).
    + apply store8_window. unfold WINDOW_SIZE. lia.
    + unfold VIRTUAL_OFFSET. rewrite u64_small; lia.
  - apply set_eq. intros j. rewrite !elem_of_allocated. unfold frame_free, frame_flag.
    rewrite Hmem. change (flags_base (set_pmem _ s1)) with (flags_base s1). by rewrite Eb.
Qed.

(** Physical_allocator_init ends; it clears exactly the flags of the frames it
    counts, so that all of them are free, and when RAM was zero it establishes the
    well-formedness of the allocator for as many frames as have their flags in
    front of the first frame. *)
Lemma physical_allocator_init_done `{LO : LayoutOk} (s : kstate) :
  ∃ s', physical_allocator_init s = Done () s' ∧
    flags_base s' = align_up PHYSICAL_HEAP_START ∧
    first_frame_address s' = flags_base s' + 32768 ∧
    satp s' = satp s ∧ logLevel s' = logLevel s ∧ vars s' = vars s ∧
    (∀ i, 0 ≤ i < init_num_frames → frame_free s' i) ∧
    agree (λ a, ¬ flags_base s' ≤ a < flags_base s' + init_num_frames)
      (pmem s) (pmem s') ∧
    ((∀ a, flags_base s' ≤ a < PHYSICAL_MEMORY_END → rd8 (pmem s) a = 0) →
     ∀ N : nat, Z.of_nat N ≤ 32768 → Z.of_nat N ≤ init_num_frames → frames_ok N s').
Proof.
  pose proof init_places as (Hbase & Hn & Ht1 & Ht2).
  assert (wp physical_allocator_init (λ _ s',
    managed_frames_address_start s' = align_up PHYSICAL_HEAP_START + VIRTUAL_OFFSET ∧
    first_frame_address s' = align_up PHYSICAL_HEAP_START + 32768 ∧
    satp s' = satp s ∧ logLevel s' = logLevel s ∧ vars s' = vars s ∧
    (∀ a, align_up PHYSICAL_HEAP_START ≤ a < align_up PHYSICAL_HEAP_START + init_num_frames →
       rd8 (pmem s') a = 0) ∧
    agree (λ a, ¬ align_up PHYSICAL_HEAP_START ≤ a <
                  align_up PHYSICAL_HEAP_START + init_num_frames) (pmem s) (pmem s')) s) as W.
  { unfold physical_allocator_init. rewrite align_bss, align_first.
    do 7 (apply wp_bind, wp_log; [done|intros ?]).
    apply wp_bind, wp_modify, wp_bind, wp_gets, wp_bind, wp_log; [done|intros ?].
    apply wp_bind. eapply wp_mono; [apply init_loop; done|].
    intros [] s' (Hs & Hz & Ha). destruct (only_mem_fields _ _ Hs) as (F1 & F2 & F3 & _ & _ & _ & F7 & _ & F9).
    apply wp_log; [done|]. intros o. cbn in F1, F2, F3, F7, F9, Ha. by split_and!. }
  apply wp_inv in W as ([] & s' & E & F2 & F3 & F1 & F7 & F9 & Hz & Ha).
  assert (flags_base s' = align_up PHYSICAL_HEAP_START) as Eb by (unfold flags_base; lia).
  pose proof F3 as Ef.
  exists s'. rewrite Eb. split_and!; try done; try congruence.
  - intros i Hi. unfold frame_free, frame_flag. rewrite Eb. apply Hz. lia.
  - intros Hzero N HN1 HN2. split; rewrite ?Eb, ?Ef; try lia.
    + unfold frame_at, FRAME_SIZE. rewrite Ef. lia.
    + destruct (align_up_bounds PHYSICAL_HEAP_START) as [_ Hmod].
      unfold FRAME_SIZE. rewrite Zplus_mod, Hmod. done.
    + intros i a Hi _ Hin. unfold in_frame, frame_at, FRAME_SIZE in Hin.
      rewrite Ef in Hin. destruct (decide (a < align_up PHYSICAL_HEAP_START + init_num_frames)).
      * apply Hz. lia.
      * rewrite (Ha a) by lia. apply Hzero. change PHYSICAL_MEMORY_END with WINDOW_SIZE. lia.
Qed.

(** C39: the eight frames reserved for management hold 32768 flags, but
    initialisation counts up to 2^20 frames: the flag of frame 32768 + k, which
    initialisation clears as well, is byte k mod 4096 of frame k / 4096, so that a
    nonzero byte stored there by the owner of that frame marks a frame as allocated
    that nobody allocated. *)
Theorem management_overlaps_frames `{LO : LayoutOk} (s s' : kstate) (k : Z) :
  physical_allocator_init s = Done () s' → 0 ≤ k < init_num_frames - 32768 →
  in_frame s' (k / 4096) (flags_base s' + (32768 + k)) ∧
  0 ≤ k / 4096 < init_num_frames ∧ frame_free s' (32768 + k) ∧
  ∀ b, 0 < b < 256 →
    ∃ s'', store8 (frame_at s' (k / 4096) + k mod 4096 + VIRTUAL_OFFSET) b s' = Done () s'' ∧
      ¬ frame_free s'' (32768 + k).
Proof.
  intros E Hk. pose proof init_places as (Hbase & Hn' & Ht1 & Ht2).
  destruct (physical_allocator_init_done s) as (s0 & E0 & Eb & Ef & _ & _ & _ & Hfree & _).
  assert (s0 = s') as -> by congruence.
  assert (frame_at s' (k / 4096) + k mod 4096 = flags_base s' + (32768 + k)) as Ea
    by (unfold frame_at, FRAME_SIZE; zlia).
  split_and!.
  - unfold in_frame, frame_at, FRAME_SIZE in *. zlia.
  - zlia.
  - zlia.
  - apply Hfree. lia.
  - intros b Hb. eexists. split.
    + apply store8_window. rewrite Ea. unfold frame_at, FRAME_SIZE, WINDOW_SIZE in *. lia.
    + rewrite Ea. unfold frame_free. rewrite frame_flag_wr8, decide_True by done.
      rewrite u8_small; lia.
Qed.

(** Kalloc_frame cannot report that memory is exhausted: when every frame that
    initialisation counted is allocated, it goes on behind the last flag, and if
    the byte there is 0 it returns the address of the first byte behind RAM. *)
Theorem kalloc_frame_exhausted `{LO : LayoutOk} (s : kstate) :
  flags_base s = align_up PHYSICAL_HEAP_START →
  first_frame_address s = flags_base s + 32768 →
  flags_base s + init_num_frames < WINDOW_SIZE →
  (∀ i, 0 ≤ i < init_num_frames → ¬ frame_free s i) → frame_free s init_num_frames →
  ∃ s', kalloc_frame s = Done PHYSICAL_MEMORY_END s'.
Proof.
  intros Eb Ef Hw Hall Hf. pose proof init_places as (Hbase & Hn & Ht1 & Ht2).
  assert (frame_at s init_num_frames = PHYSICAL_MEMORY_END) as Ee.
  { unfold frame_at. rewrite Ef, Eb, init_num_frames_eq. unfold FRAME_SIZE.
    pose proof heap_start_bounds as [H1 H2].
    unfold PHYSICAL_MEMORY_END, RAM_ORIGIN, RAM_LENGTH, WINDOW_SIZE, align_up in *.
    revert H1 H2. generalize PHYSICAL_HEAP_START. intros. zlia. }
  destruct (kalloc_frame_first s init_num_frames) as [out E]; try done; try lia.
  - unfold WINDOW_SIZE in *. simpl. lia.
  - rewrite <- Ee. by eexists.
Qed.

(** * Witnesses *)

Lemma start_frames_ok : frames_ok 64 start.
Proof. by split. Qed.
Lemma start_nfree : nfree 64 start = 64%nat.
Proof. reflexivity. Qed.
Lemma start_unused : ∃ i, least_unused (allocated 64 start) 64 i.
Proof. apply nfree_allocated. rewrite start_nfree. lia. Qed.

Lemma allign_address_least_witness :
  allign_address 0x80000FFF 0x1000 mod 0x1000 = 0 ∧
  0x80000FFF ≤ allign_address 0x80000FFF 0x1000 ∧
  (0x80000FFF ≤ 0x80001000 → 0x80001000 mod 0x1000 = 0 →
   allign_address 0x80000FFF 0x1000 ≤ 0x80001000).
Proof. apply (allign_address_least 0x80000FFF 12 0x80001000); lia. Defined.

Lemma kalloc_frame_refines_witness :
  ∃ i s', kalloc_frame start = Done (frame_at start i) s' ∧
    least_unused (allocated 64 start) 64 i ∧
    allocated 64 s' = {[i]} ∪ allocated 64 start ∧ frames_ok 64 s' ∧ only_mem start s' ∧
    agree (λ a, a ≠ flags_base start + i) (pmem start) (pmem s') ∧
    ∀ a, in_frame start i a → rd8 (pmem s') a = 0.
Proof. apply kalloc_frame_refines; [apply start_frames_ok|apply start_unused]. Defined.

Lemma kfree_frame_refines_witness :
  ∃ s', kfree_frame (frame_at start 3) start = Done () s' ∧
    s' = set_pmem (wr8 (pmem start) (flags_base start + 3) 0) start ∧
    allocated 64 s' = (allocated 64 start ∖ {[3]}) ∧
    ((∀ a, in_frame start 3 a → rd8 (pmem start) a = 0) → frames_ok 64 s').
Proof. apply kfree_frame_refines; [apply start_frames_ok|lia]. Defined.

Lemma kalloc_kfree_roundtrip_witness :
  ∃ f s1 s2, kalloc_frame start = Done f s1 ∧ kfree_frame f s1 = Done () s2 ∧
    (∀ a, rd8 (pmem s2) a = rd8 (pmem start) a) ∧ allocated 64 s2 = allocated 64 start.
Proof. apply kalloc_kfree_roundtrip; [apply start_frames_ok|apply start_unused]. Defined.

(** Frame 40000, whose flag lies in frame 1. *)
Lemma management_overlaps_frames_witness :
  ∃ s', @physical_allocator_init link start = Done () s' ∧
    in_frame s' 1 (flags_base s' + 40000) ∧ frame_free s' 40000 ∧
    ∀ b, 0 < b < 256 →
      ∃ s'', store8 (frame_at s' 1 + 3136 + VIRTUAL_OFFSET) b s' = Done () s'' ∧
        ¬ frame_free s'' 40000.
Proof.
  destruct (physical_allocator_init_done (LO:=link_ok) start) as (s' & E & _). exists s'. split; [exact E|].
  destruct (management_overlaps_frames (LO:=link_ok) start s' 7232 E) as (H1 & _ & H2 & H3).
  - split; [discriminate|reflexivity].
  - split; [exact H1|]. split; [exact H2|exact H3].
Defined.

Lemma kalloc_frame_exhausted_witness :
  ∃ s', kalloc_frame full = Done (@PHYSICAL_MEMORY_END) s'.
Proof.
  apply (@kalloc_frame_exhausted full_link full_link_ok full).
  - reflexivity.
  - reflexivity.
  - reflexivity.
  - change (@init_num_frames full_link) with 2. intros i Hi.
    assert (i = 0 ∨ i = 1) as [->| ->] by lia; discriminate.
  - reflexivity.
Defined.
