(* ===== verification/Paging.v ===== *)
(** Page tables: kernel/memory/memory.cpp, kernel/memory/paging.cpp and
    switch_to_new_page_table of kernel/memory/paging.s.

    A [VirtualPage*], a [PhysicalFrame*] and a [PageTable*] are addresses (the
    classes have no object behind them but what lies at the address), so a method
    is a function of the value of [this].  The tables are read and written through
    the identity window. *)

From S2P Require Import Prelude Monad Memory Sv48 Machine Layout Samples Stdio PhysAlloc.

(** * memory.cpp *)

Definition PhysicalFrame_get_virtual_address (this : Z) : Z := this ⊞ VIRTUAL_OFFSET.
Definition PhysicalFrame_get_address (this : Z) : Z := this.
Definition PhysicalFrame_get_ppn (this : Z) : Z := Z.shiftr this 12.

Definition VirtualPage_get_address (this : Z) : Z := this.
Definition VirtualPage_get_vpn_3 (this : Z) : Z := Z.land (Z.shiftr this 39) 511.
Definition VirtualPage_get_vpn_2 (this : Z) : Z := Z.land (Z.shiftr this 30) 511.
Definition VirtualPage_get_vpn_1 (this : Z) : Z := Z.land (Z.shiftr this 21) 511.
Definition VirtualPage_get_vpn_0 (this : Z) : Z := Z.land (Z.shiftr this 12) 511.
Definition VirtualPage_get_offset (this : Z) : Z := Z.land this 0xFFF.

(** * paging.cpp *)

Definition GIGAYBTE_BYTES : Z := 0x40000000.

Definition createValidPageTableEntry (ppn : Z) : Z :=
  Z.lor (u64 (Z.shiftl (Z.land ppn 0xFFFFFFFFFF) 10)) 1.
Definition isValidPageTableEntry (entry : Z) : bool := negb (Z.land entry 1 =? 0).

Definition PageTable_setEntry (this index entry : Z) : K () :=
  store64 (this ⊞ 8 * index) entry.
Definition PageTable_getEntry (this index : Z) : K Z := load64 (this ⊞ 8 * index).
Definition PageTable_getPhysicalFrame (this index : Z) : K Z :=
  entry ← load64 (this ⊞ 8 * index);
  mret (u64 (Z.shiftl (Z.shiftr entry 10) 12)).
Definition PageTable_get_ppn (this : Z) : Z :=
  Z.land (Z.shiftr (this ⊟ VIRTUAL_OFFSET) 12) 0xFFFFFFFFFFF.
Definition PageTable_isEntryValid (this index : Z) : K bool :=
  entry ← load64 (this ⊞ 8 * index);
  mret (Z.land entry 0x1 =? 0x1).

Definition map_page_for_setup (first_table second_table page_to_map frame : Z) : K () :=
  log LogLevel.PAGING
    (chars "Mapping page for initializion: page: 0x%x, frame: 0x%x") [page_to_map; frame];;
  let vpn_3 := VirtualPage_get_vpn_3 page_to_map in
  let vpn_2 := VirtualPage_get_vpn_2 page_to_map in
  PageTable_setEntry first_table vpn_3
    (createValidPageTableEntry (PageTable_get_ppn second_table));;
  PageTable_setEntry second_table vpn_2
    (Z.lor (createValidPageTableEntry (PhysicalFrame_get_ppn frame)) 0xF).

(** switch_to_new_page_table: satp := a0 | 9 << 60. *)
Definition switch_to_new_page_table (ppn : Z) : K () :=
  modify (set_satp (Z.lor ppn (Z.shiftl 9 60))).

Definition paging_init_loop (first_table second_table : Z) : Z → K (Z + ()) :=
  λ kernel_page : Z,
    if kernel_page <? VIRTUAL_OFFSET + 4 * GIGAYBTE_BYTES then
      map_page_for_setup first_table second_table kernel_page
        (kernel_page ⊟ VIRTUAL_OFFSET);;
      mret (inl (kernel_page ⊞ GIGAYBTE_BYTES))
    else mret (inr ()).

Definition paging_init : K () :=
  log LogLevel.PAGING (chars "Initialising paging") [];;
  first_frame ← kalloc_frame;
  second_frame ← kalloc_frame;
  let first_table := PhysicalFrame_get_address first_frame ⊞ VIRTUAL_OFFSET in
  modify (set_first_level_table first_table);;
  let second_table := PhysicalFrame_get_address second_frame ⊞ VIRTUAL_OFFSET in
  log LogLevel.PAGING (chars "First level table: 0x%x") [first_table];;
  log LogLevel.PAGING (chars "Second level table: 0x%x") [second_table];;
  loop (paging_init_loop first_table second_table) VIRTUAL_OFFSET;;
  switch_to_new_page_table (PhysicalFrame_get_ppn first_frame);;
  log LogLevel.PAGING (chars "Paging initializion done") [].

Definition map_page (virtual_page physical_frame flag : Z) : K () :=
  log LogLevel.PAGING
    (chars "Mapping virtual page 0x%x to physical frame 0x%x with flags 0x%x")
    [VirtualPage_get_address virtual_page; PhysicalFrame_get_address physical_frame; flag];;
  first_level ← gets first_level_table;
  (* check for invalid entry in first table *)
  valid ← PageTable_isEntryValid first_level (VirtualPage_get_vpn_3 virtual_page);
  (if (valid : bool) then mret ()
   else
     frame ← kalloc_frame;
     PageTable_setEntry first_level (VirtualPage_get_vpn_3 virtual_page)
       (createValidPageTableEntry (PhysicalFrame_get_ppn frame)));;
  second_frame ← PageTable_getPhysicalFrame first_level (VirtualPage_get_vpn_3 virtual_page);
  let second_table := second_frame ⊞ VIRTUAL_OFFSET in
  (* check for invalid entry in second table *)
  valid ← PageTable_isEntryValid second_table (VirtualPage_get_vpn_2 virtual_page);
  (if (valid : bool) then mret ()
   else
     frame ← kalloc_frame;
     PageTable_setEntry second_table (VirtualPage_get_vpn_2 virtual_page)
       (createValidPageTableEntry (PhysicalFrame_get_ppn frame)));;
  third_frame ← PageTable_getPhysicalFrame second_table (VirtualPage_get_vpn_2 virtual_page);
  let third_table := third_frame ⊞ VIRTUAL_OFFSET in
  (* check for invalid entry in third table *)
  valid ← PageTable_isEntryValid third_table (VirtualPage_get_vpn_1 virtual_page);
  (if (valid : bool) then mret ()
   else
     frame ← kalloc_frame;
     PageTable_setEntry third_table (VirtualPage_get_vpn_1 virtual_page)
       (createValidPageTableEntry (PhysicalFrame_get_ppn frame)));;
  fourth_frame ← PageTable_getPhysicalFrame third_table (VirtualPage_get_vpn_1 virtual_page);
  let fourth_table := fourth_frame ⊞ VIRTUAL_OFFSET in
  PageTable_setEntry fourth_table (VirtualPage_get_vpn_0 virtual_page)
    (Z.lor (createValidPageTableEntry (PhysicalFrame_get_ppn physical_frame)) flag).

Definition translation_format (level : string) : list Z :=
  chars ("Translating virtual address went wrong: Index in " +:+ level +:+ " level table at 0x%x is invalid.").
Definition translation_error (level : string) (table : Z) : K Z :=
  log LogLevel.ERROR (translation_format level) [table];;
  mret 0.

Definition get_physical_address_of_virtual_address (virtual_address : Z) : K Z :=
  let virtual_page := virtual_address in
  first_level ← gets first_level_table;
  valid ← PageTable_isEntryValid first_level (VirtualPage_get_vpn_3 virtual_page);
  if negb valid then translation_error "first" first_level else
  second_frame ← PageTable_getPhysicalFrame first_level (VirtualPage_get_vpn_3 virtual_page);
  let second_table := second_frame ⊞ VIRTUAL_OFFSET in
  valid ← PageTable_isEntryValid second_table (VirtualPage_get_vpn_2 virtual_page);
  if negb valid then translation_error "second" second_table else
  third_frame ← PageTable_getPhysicalFrame second_table (VirtualPage_get_vpn_2 virtual_page);
  let third_table := third_frame ⊞ VIRTUAL_OFFSET in
  valid ← PageTable_isEntryValid third_table (VirtualPage_get_vpn_1 virtual_page);
  if negb valid then translation_error "third" third_table else
  fourth_frame ← PageTable_getPhysicalFrame third_table (VirtualPage_get_vpn_1 virtual_page);
  let fourth_table := fourth_frame ⊞ VIRTUAL_OFFSET in
  valid ← PageTable_isEntryValid fourth_table (VirtualPage_get_vpn_0 virtual_page);
  if negb valid then translation_error "fourth" fourth_table else
  let offset := VirtualPage_get_offset virtual_page in
  frame ← PageTable_getPhysicalFrame fourth_table (VirtualPage_get_vpn_0 virtual_page);
  mret (Z.lor frame offset).

(** * The table tree

    [node m root q] is the frame of the table reached from the root along the
    indices [q]: every entry on the way is valid and not a leaf. *)

Definition step (m : mem) (t i : Z) : option Z :=
  let e := pte m t i in
  if pte_V e && negb (pte_leaf e) then Some (pte_frame e) else None.

Fixpoint node (m : mem) (t : Z) (q : list Z) : option Z :=
  match q with
  | [] => Some t
  | i :: q' => t' ← step m t i; node m t' q'
  end.

Definition index_ok (i : Z) : Prop := 0 ≤ i < 512.
Definition path_ok (q : list Z) : Prop := Forall index_ok q ∧ (length q ≤ 3)%nat.

(** [t] is the address of one of the first [N] frames, and it is allocated. *)
Definition used_frame (N : nat) (s : kstate) (t : Z) : Prop :=
  ∃ i, 0 ≤ i < Z.of_nat N ∧ t = frame_at s i ∧ ¬ frame_free s i.

Definition in_page (t a : Z) : Prop := t ≤ a < t + PAGE_SIZE.

(** The kernel's tables are a tree: every table lies in an allocated frame of its
    own, and an entry of a table that is not of the last level is invalid, a leaf,
    or a pointer. *)
Record pt_ok (N : nat) (root : Z) (s : kstate) : Prop := PtOk {
  pt_frames : frames_ok N s;
  pt_first : first_level_table s = root + VIRTUAL_OFFSET;
  pt_satp : satp_root (satp s) = root;
  pt_alloc : ∀ q t, path_ok q → node (pmem s) root q = Some t → used_frame N s t;
  pt_inj : ∀ q q' t, path_ok q → path_ok q' →
    node (pmem s) root q = Some t → node (pmem s) root q' = Some t → q = q';
  pt_entry : ∀ q t i, path_ok q → (length q < 3)%nat → index_ok i →
    node (pmem s) root q = Some t → pte_V (pte (pmem s) t i) = true →
    pte_bad (pte (pmem s) t i) = false;
  pt_small : ∀ q t i, path_ok q → index_ok i → node (pmem s) root q = Some t →
    pte (pmem s) t i < 2 ^ 54
}.

(** No superpage lies on the way to [va]. *)
Definition no_superpage (m : mem) (root va : Z) : Prop :=
  ∀ e l, pt_walk m root (vpns va) = WalkLeaf e l → l = O.

(** Memory that belongs to no table and is no flag. *)
Definition outside_tables (N : nat) (root : Z) (s : kstate) (a : Z) : Prop :=
  ¬ in_flags N s a ∧
  ∀ q t, path_ok q → node (pmem s) root q = Some t → ¬ in_page t a.

(** ** Indices and entries *)

Lemma VirtualPage_vpns va :
  VirtualPage_get_vpn_3 va = vpn 3 va ∧ VirtualPage_get_vpn_2 va = vpn 2 va ∧
  VirtualPage_get_vpn_1 va = vpn 1 va ∧ VirtualPage_get_vpn_0 va = vpn 0 va.
Proof. done. Qed.

Lemma create_entry_eq ppn :
  0 ≤ ppn → createValidPageTableEntry ppn = Z.lor (Z.shiftl (ppn mod 2 ^ 40) 10) 1.
Proof.
  intros H. unfold createValidPageTableEntry. change 0xFFFFFFFFFF with (Z.ones 40).
  rewrite Z.land_ones by lia. f_equal. apply u64_small.
  rewrite Z.shiftl_mul_pow2 by lia. pose proof (Z.mod_pos_bound ppn (2 ^ 40)).
  simpl in *. lia.
Qed.

Lemma lor_lt a b k : 0 ≤ a < 2 ^ k → 0 ≤ b < 2 ^ k → 0 ≤ k → 0 ≤ Z.lor a b < 2 ^ k.
Proof.
  intros Ha Hb Hk. assert (0 ≤ Z.lor a b) by (apply Z.lor_nonneg; lia).
  split; [done|]. rewrite <- (Z.mod_small a (2 ^ k)), <- (Z.mod_small b (2 ^ k)) by done.
  rewrite <- !Z.land_ones, <- Z.land_lor_distr_l, Z.land_ones by done.
  by apply Z.mod_pos_bound, Z.pow_pos_nonneg.
Qed.

(** The entry map_page makes for the frame at [p] with the flag bits [f]. *)
Definition entry_for (p f : Z) : Z :=
  Z.lor (createValidPageTableEntry (PhysicalFrame_get_ppn p)) f.

Lemma entry_for_eq p f :
  0 ≤ p < 2 ^ 52 → entry_for p f = Z.lor (Z.shiftl (p / 4096) 10) (Z.lor 1 f).
Proof.
  intros Hp. unfold entry_for, PhysicalFrame_get_ppn. rewrite Z.shiftr_div_pow2 by lia.
  change (2 ^ 12) with 4096. rewrite create_entry_eq by zlia.
  rewrite Z.mod_small, Z.lor_assoc; [done|]. simpl in *. zlia.
Qed.

Lemma entry_for_frame p f :
  0 ≤ p < 2 ^ 52 → p mod 4096 = 0 → 0 ≤ f < 1024 → pte_frame (entry_for p f) = p.
Proof.
  intros Hp Ha Hf. rewrite entry_for_eq by done.
  rewrite pte_frame_lor; [unfold PAGE_SIZE; zlia|simpl in *; zlia|].
  apply (lor_lt 1 f 10); lia.
Qed.

Lemma entry_for_bit p f k :
  0 ≤ p < 2 ^ 52 → 0 ≤ k < 10 → Z.testbit (entry_for p f) k = Z.testbit (Z.lor 1 f) k.
Proof. intros Hp Hk. rewrite entry_for_eq by done. by apply pte_bits. Qed.

Lemma entry_for_range p f :
  0 ≤ p < 2 ^ 52 → 0 ≤ f < 1024 → 0 ≤ entry_for p f < 2 ^ 50.
Proof.
  intros Hp Hf. rewrite entry_for_eq by done. apply lor_lt; [| |lia].
  - rewrite Z.shiftl_mul_pow2 by lia. simpl in *. zlia.
  - pose proof (lor_lt 1 f 10). simpl in *. lia.
Qed.

Lemma entry_for_V p f : 0 ≤ p < 2 ^ 52 → pte_V (entry_for p f) = true.
Proof. intros Hp. unfold pte_V. rewrite entry_for_bit by (done || lia). by rewrite Z.lor_spec. Qed.

(** The entry of a table: valid and not a leaf. *)
Lemma entry_for_table p :
  0 ≤ p < 2 ^ 52 → p mod 4096 = 0 →
  pte_V (entry_for p 0) = true ∧ pte_leaf (entry_for p 0) = false ∧
  pte_bad (entry_for p 0) = false ∧ pte_frame (entry_for p 0) = p ∧ entry_for p 0 < 2 ^ 54.
Proof.
  intros Hp Ha. unfold pte_leaf, pte_bad, pte_R, pte_W, pte_X.
  rewrite entry_for_V, !entry_for_bit by (done || lia).
  split_and!; try done; [by apply entry_for_frame|].
  pose proof (entry_for_range p 0 Hp). simpl in *. lia.
Qed.

Lemma create_is_entry_for p :
  createValidPageTableEntry (PhysicalFrame_get_ppn p) = entry_for p 0.
Proof. unfold entry_for. by rewrite Z.lor_0_r. Qed.

Lemma entry_valid e : (Z.land e 0x1 =? 0x1) = pte_V e.
Proof.
  unfold pte_V. change (Z.land e 0x1) with (Z.land e (Z.ones 1)).
  rewrite Z.land_ones by lia. change (2 ^ 1) with 2. rewrite <- Z.bit0_mod.
  by destruct (Z.testbit e 0).
Qed.

Lemma physical_frame_eq e :
  0 ≤ e < 2 ^ 54 → u64 (Z.shiftl (Z.shiftr e 10) 12) = pte_frame e.
Proof.
  intros He. unfold pte_frame. rewrite Z.land_ones, Z.shiftr_div_pow2, Z.shiftl_mul_pow2 by lia.
  change (2 ^ 10) with 1024. change (2 ^ 12) with PAGE_SIZE. unfold PAGE_SIZE.
  rewrite Z.mod_small by (simpl in *; zlia). apply u64_small. simpl in *. zlia.
Qed.

(** ** Table accesses *)

Section tables.
Context (s : kstate) (t i : Z) (Ht : 0 ≤ t) (Hi : index_ok i)
  (Hw : t + PAGE_SIZE ≤ WINDOW_SIZE).

Lemma slot_address : (t + VIRTUAL_OFFSET) ⊞ 8 * i = t + 8 * i + VIRTUAL_OFFSET.
Proof using Ht Hi Hw.
  unfold index_ok, PAGE_SIZE, WINDOW_SIZE, VIRTUAL_OFFSET in *. rewrite u64_small; lia.
Qed.

Lemma load_slot : load64 ((t + VIRTUAL_OFFSET) ⊞ 8 * i) s = Done (pte (pmem s) t i) s.
Proof using Ht Hi Hw.
  rewrite slot_address. unfold load64.
  apply loadv_window; unfold index_ok, PAGE_SIZE in *; lia.
Qed.

Lemma isEntryValid_done :
  PageTable_isEntryValid (t + VIRTUAL_OFFSET) i s = Done (pte_V (pte (pmem s) t i)) s.
Proof using Ht Hi Hw.
  unfold PageTable_isEntryValid. rewrite (bind_done _ _ _ _ _ load_slot).
  by rewrite entry_valid.
Qed.

Lemma getPhysicalFrame_done :
  pte (pmem s) t i < 2 ^ 54 →
  PageTable_getPhysicalFrame (t + VIRTUAL_OFFSET) i s =
  Done (pte_frame (pte (pmem s) t i)) s.
Proof using Ht Hi Hw.
  intros He. unfold PageTable_getPhysicalFrame. rewrite (bind_done _ _ _ _ _ load_slot).
  rewrite physical_frame_eq; [done|]. pose proof (load8_range (pmem s) (t + 8 * i)).
  unfold pte in *. lia.
Qed.

Lemma setEntry_done e :
  PageTable_setEntry (t + VIRTUAL_OFFSET) i e s =
  Done () (set_pmem (store 8 (pmem s) (t + 8 * i) e) s).
Proof using Ht Hi Hw.
  unfold PageTable_setEntry. rewrite slot_address.
  apply storev_window; unfold index_ok, PAGE_SIZE in *; lia.
Qed.
End tables.

(** ** Changing one slot of the tree *)

Lemma node_snoc m t q i : node m t (q ++ [i]) = (t' ← node m t q; step m t' i).
Proof.
  revert t. induction q as [|j q IH]; intros t; simpl.
  - by destruct (step m t i).
  - destruct (step m t j); [apply IH|done].
Qed.

Lemma path_ok_snoc q i : path_ok (q ++ [i]) ↔ Forall index_ok q ∧ index_ok i ∧ (length q < 3)%nat.
Proof.
  unfold path_ok. rewrite Forall_app, Forall_singleton, length_app. simpl.
  split; intros; destruct_and!; split_and!; try done; lia.
Qed.

Lemma path_ok_prefix q i : path_ok (q ++ [i]) → path_ok q ∧ index_ok i ∧ (length q < 3)%nat.
Proof. rewrite path_ok_snoc. intros (H1 & H2 & H3). unfold path_ok. split_and!; try done. lia. Qed.

Lemma not_bad_V e : pte_bad e = false → pte_V e = true.
Proof. unfold pte_bad. by destruct (pte_V e). Qed.

Lemma step_Some m t i t' :
  step m t i = Some t' ↔
  pte_V (pte m t i) = true ∧ pte_leaf (pte m t i) = false ∧ t' = pte_frame (pte m t i).
Proof.
  unfold step. destruct (pte_V _), (pte_leaf _); simpl; naive_solver.
Qed.

Section slot_change.
Context (m m' : mem) (root : Z) (p : list Z) (i t : Z).
Context (Hp : path_ok p) (Hi : index_ok i) (Ht : node m root p = Some t).
Context (Hsame : ∀ q t' j, path_ok q → node m root q = Some t' → index_ok j →
  (q, j) ≠ (p, i) → pte m' t' j = pte m t' j).

Lemma node_mono q t' :
  step m t i = None → path_ok q → node m root q = Some t' → node m' root q = Some t'.
Proof using Hp Ht Hsame.
  intros Hs. revert t'. induction q as [|j q IH] using rev_ind; intros t' Hq Hn; [done|].
  apply path_ok_prefix in Hq as (Hq & Hj & Hl). rewrite node_snoc in Hn |- *.
  destruct (node m root q) as [t1|] eqn:E; [|done]. rewrite (IH t1 Hq eq_refl).
  cbn [mbind option_bind] in *. destruct (decide ((q, j) = (p, i))) as [[= -> ->]|Hne].
  - rewrite Ht in E. injection E as ->. congruence.
  - unfold step in *. by rewrite (Hsame q t1 j Hq E Hj Hne).
Qed.

Lemma node_fresh f q t' :
  step m' t i = Some f → (∀ k, index_ok k → step m' f k = None) →
  path_ok q → node m' root q = Some t' →
  node m root q = Some t' ∨ (q = p ++ [i] ∧ t' = f).
Proof using Hp Ht Hsame.
  intros Hf Hempty. revert t'. induction q as [|j q IH] using rev_ind; intros t' Hq Hn;
    [by left|].
  apply path_ok_prefix in Hq as (Hq & Hj & Hl). rewrite node_snoc in Hn |- *.
  destruct (node m' root q) as [t1|] eqn:E; [|done]. cbn [mbind option_bind] in *.
  destruct (IH t1 Hq eq_refl) as [E'|[-> ->]].
  - rewrite E'. cbn [mbind option_bind].
    destruct (decide ((q, j) = (p, i))) as [[= -> ->]|Hne].
    + rewrite Ht in E'. injection E' as ->. right. split; [done|]. congruence.
    + left. rewrite <- Hn. unfold step. by rewrite (Hsame q t1 j Hq E' Hj Hne).
  - rewrite Hempty in Hn; done.
Qed.

Lemma node_last q :
  length p = 3%nat → path_ok q → node m' root q = node m root q.
Proof using Hsame.
  intros Hlen. induction q as [|j q IH] using rev_ind; intros Hq; [done|].
  apply path_ok_prefix in Hq as (Hq & Hj & Hl). rewrite !node_snoc, IH by done.
  destruct (node m root q) as [t1|] eqn:E; [|done]. cbn [mbind option_bind].
  unfold step. rewrite (Hsame q t1 j); try done. intros [= -> ->]. lia.
Qed.

(** A walk that does not come through the slot is unchanged. *)
Lemma walk_change (X : list Z → Prop) :
  (∀ rest, X (p ++ i :: rest) → pt_walk m' t (i :: rest) = pt_walk m t (i :: rest)) →
  ∀ ix q t', node m root q = Some t' → Forall index_ok (q ++ ix) →
    length (q ++ ix) = 4%nat → X (q ++ ix) → pt_walk m' t' ix = pt_walk m t' ix.
Proof using Hp Ht Hsame.
  intros Hslot ix. induction ix as [|j rest IH]; intros q t' Hn HF Hl HX; [done|].
  rewrite length_app in Hl. simpl in Hl.
  apply Forall_app in HF as [HFq HFj]. apply Forall_cons in HFj as [Hj HFr].
  destruct (decide ((q, j) = (p, i))) as [[= -> ->]|Hne].
  { rewrite Ht in Hn. injection Hn as <-. by apply Hslot. }
  assert (path_ok q) as Hq by (split; [done|lia]).
  rewrite !pt_walk_cons. cbv zeta. rewrite (Hsame q t' j Hq Hn Hj Hne).
  destruct (pte_bad (pte m t' j)) eqn:Eb; [done|].
  destruct (pte_leaf (pte m t' j)) eqn:El; [done|].
  apply (IH (q ++ [j])).
  - rewrite node_snoc, Hn. cbn [mbind option_bind]. apply step_Some.
    auto using not_bad_V.
  - rewrite <- app_assoc. apply Forall_app. split; [done|]. by constructor.
  - rewrite <- app_assoc, length_app. simpl. lia.
  - by rewrite <- app_assoc.
Qed.
End slot_change.

(** ** Frames *)

Lemma used_frame_facts N s t :
  frames_ok N s → used_frame N s t →
  0 ≤ t ∧ t + PAGE_SIZE ≤ WINDOW_SIZE ∧ t mod 4096 = 0.
Proof.
  intros OK (i & Hi & -> & _). destruct (frame_at_range N s i OK Hi).
  pose proof (frame_at_aligned N s i OK). by split_and!.
Qed.

Lemma in_frame_page s i a : in_frame s i a ↔ in_page (frame_at s i) a.
Proof. done. Qed.

Lemma used_frames_disjoint N s t t' a :
  used_frame N s t → used_frame N s t' → in_page t a → in_page t' a → t = t'.
Proof.
  intros (i & _ & -> & _) (j & _ & -> & _) H1 H2. by rewrite (in_frame_inj s i j a H1 H2).
Qed.

Lemma flag_not_in_used N s t i :
  frames_ok N s → used_frame N s t → 0 ≤ i < Z.of_nat N → ¬ in_page t (flags_base s + i).
Proof.
  intros OK (j & Hj & -> & _) Hi. apply (flags_not_in_frame N s i j OK Hi). lia.
Qed.

Lemma slot_in_page t i x : index_ok i → t + 8 * i ≤ x < t + 8 * i + Z.of_nat 8 → in_page t x.
Proof. unfold index_ok, in_page, PAGE_SIZE. lia. Qed.

Lemma pte_agree m m' t i : index_ok i → agree (in_page t) m m' → pte m' t i = pte m t i.
Proof.
  intros Hi Ha. apply load_ext. apply (agree_mono (in_page t)); [|done].
  intros a H. by apply (slot_in_page t i).
Qed.

(** The slots of the tables do not overlap. *)
Lemma pte_store_other N s t t' i j m e :
  used_frame N s t → used_frame N s t' → index_ok i → index_ok j →
  (t', j) ≠ (t, i) → pte (store 8 m (t + 8 * i) e) t' j = pte m t' j.
Proof.
  intros Hu Hu' Hi Hj Hne. apply load_store_ne. destruct (decide (t' = t)) as [->|Hd].
  - assert (j ≠ i) by congruence. lia.
  - destruct Hu as (a & _ & -> & _), Hu' as (b & _ & -> & _).
    unfold index_ok, frame_at, FRAME_SIZE in *. lia.
Qed.

Lemma vpns_ok va : Forall index_ok (vpns va) ∧ length (vpns va) = 4%nat.
Proof.
  split; [|done]. apply Forall_forall. intros i Hi. by apply (vpns_range va).
Qed.

(** ** Growing the tree

    What getting a table for an empty slot does, and what [k] such steps do. *)
Record grow (N : nat) (root : Z) (k : nat) (s s' : kstate) : Prop := Grow {
  g_ok : pt_ok N root s';
  g_mem : only_mem s s';
  g_free : (nfree N s ≤ nfree N s' + k)%nat;
  g_used : ∀ i, 0 ≤ i < Z.of_nat N → frame_free s' i → frame_free s i;
  g_walk : ∀ ix, Forall index_ok ix → length ix = 4%nat →
    pt_walk (pmem s') root ix = pt_walk (pmem s) root ix;
  g_node : ∀ q t, path_ok q → node (pmem s) root q = Some t →
    node (pmem s') root q = Some t;
  g_new : ∀ q t, path_ok q → node (pmem s') root q = Some t →
    node (pmem s) root q = Some t ∨
    ∃ i, 0 ≤ i < Z.of_nat N ∧ t = frame_at s i ∧ frame_free s i;
  g_out : agree (outside_tables N root s') (pmem s) (pmem s');
  g_order : keeps_order N s s'
}.

Lemma grow_refl N root s : pt_ok N root s → grow N root 0 s s.
Proof. intros H. split; auto; try done. lia. Qed.

Lemma only_mem_frames s s' :
  only_mem s s' → flags_base s' = flags_base s ∧ (∀ i, frame_at s' i = frame_at s i).
Proof.
  intros H. destruct (only_mem_fields _ _ H) as (_ & E1 & E2 & _).
  unfold flags_base, frame_at. by rewrite E1, E2.
Qed.

Lemma outside_grow N root k s s' a :
  grow N root k s s' → outside_tables N root s' a → outside_tables N root s a.
Proof.
  intros G [H1 H2]. destruct (only_mem_frames _ _ (g_mem _ _ _ _ _ G)) as [Eb _].
  split; [unfold in_flags in *; by rewrite <- Eb|].
  intros q t Hq Hn. apply (H2 q t Hq). by apply (g_node _ _ _ _ _ G).
Qed.

Lemma grow_trans N root j k s1 s2 s3 :
  grow N root j s1 s2 → grow N root k s2 s3 → grow N root (j + k) s1 s3.
Proof.
  intros G1 G2. pose proof (g_mem _ _ _ _ _ G1) as M1.
  destruct (only_mem_frames _ _ M1) as [_ Ef]. split.
  - apply G2.
  - by etrans; [apply G1|apply G2].
  - pose proof (g_free _ _ _ _ _ G1). pose proof (g_free _ _ _ _ _ G2). lia.
  - intros i Hi Hf. by apply (g_used _ _ _ _ _ G1), (g_used _ _ _ _ _ G2).
  - intros ix H1 H2. by rewrite (g_walk _ _ _ _ _ G2), (g_walk _ _ _ _ _ G1).
  - intros q t Hq Hn. by apply (g_node _ _ _ _ _ G2), (g_node _ _ _ _ _ G1).
  - intros q t Hq Hn. destruct (g_new _ _ _ _ _ G2 q t Hq Hn) as [Hn2|(i & Hi & -> & Hf)].
    + by apply (g_new _ _ _ _ _ G1).
    + right. exists i. split; [done|]. rewrite Ef. split; [done|].
      by apply (g_used _ _ _ _ _ G1).
  - intros a Ha. rewrite (g_out _ _ _ _ _ G2 a Ha). apply (g_out _ _ _ _ _ G1).
    by apply (outside_grow N root k s2 s3).
  - by etrans; [apply G1|apply G2].
Qed.

(** The memory after an allocation and the store of the new entry. *)
Section new_table.
Context (N : nat) (root : Z) (s : kstate) (OK : pt_ok N root s).
Context (p : list Z) (i t k : Z) (out : list Z).
Context (Hp : path_ok p) (Hl : (length p < 3)%nat) (Hi : index_ok i)
  (Ht : node (pmem s) root p = Some t) (Hinv : pte_V (pte (pmem s) t i) = false)
  (Hk : 0 ≤ k < Z.of_nat N) (Hfree : frame_free s k) (Hleast : ∀ j, 0 ≤ j < k → ¬ frame_free s j).

Let f := frame_at s k.
Let s1 := emit out (set_pmem (wr8 (pmem s) (flags_base s + k) 1) s).
Let s2 := set_pmem (store 8 (pmem s1) (t + 8 * i) (entry_for f 0)) s1.

Lemma nt_used : used_frame N s t.
Proof. by apply (pt_alloc _ _ _ OK p). Qed.

Lemma nt_frames : frames_ok N s.
Proof. apply OK. Qed.

Lemma nt_f : 0 ≤ f < 2 ^ 52 ∧ f mod 4096 = 0.
Proof.
  destruct (frame_at_range N s k nt_frames Hk). pose proof (frame_at_aligned N s k nt_frames).
  unfold f, WINDOW_SIZE, FRAME_SIZE in *. simpl. split; [lia|done].
Qed.

Lemma nt_f_not_used t' : used_frame N s t' → t' ≠ f.
Proof.
  intros (j & Hj & -> & Hu) E. apply frame_at_inj in E. by subst j.
Qed.

(** Bytes that did not change. *)
Lemma nt_same a : a ≠ flags_base s + k → ¬ in_page t a → rd8 (pmem s2) a = rd8 (pmem s) a.
Proof.
  intros H1 H2. unfold s2, s1. cbn [pmem set_pmem emit set_console].
  rewrite rd8_store_out, rd8_wr8_ne; [done|done|].
  intros H. apply H2. by apply (slot_in_page t i).
Qed.

Lemma nt_slots q t' j :
  path_ok q → node (pmem s) root q = Some t' → index_ok j → (q, j) ≠ (p, i) →
  pte (pmem s2) t' j = pte (pmem s) t' j.
Proof.
  intros Hq Hn Hj Hne. pose proof (pt_alloc _ _ _ OK q t' Hq Hn) as Hu.
  unfold s2, s1. cbn [pmem set_pmem emit set_console].
  rewrite (pte_store_other N s t t' i j); [|apply nt_used|done|done|done|].
  - apply pte_agree; [done|]. apply agree_wr8.
    apply (flag_not_in_used N s t' k nt_frames Hu Hk).
  - intros [= -> ->]. apply Hne. f_equal. by apply (pt_inj _ _ _ OK q p t).
Qed.

Lemma nt_entry : pte (pmem s2) t i = entry_for f 0.
Proof.
  unfold s2. cbn [pmem set_pmem]. unfold pte. apply load_store8_eq.
  destruct nt_f as [Hf _]. pose proof (entry_for_range f 0 Hf). simpl in *. lia.
Qed.

Lemma nt_step : step (pmem s2) t i = Some f.
Proof.
  destruct nt_f as [Hf Ha]. destruct (entry_for_table f Hf Ha) as (H1 & H2 & _ & H4 & _).
  apply step_Some. by rewrite nt_entry.
Qed.

Lemma nt_empty j : index_ok j → pte (pmem s2) f j = 0.
Proof.
  intros Hj. apply load_zero. intros a Ha.
  apply (slot_in_page f j) in Ha; [|done].
  rewrite nt_same.
  - apply (fo_zero _ _ nt_frames k); [done|done|]. by apply in_frame_page.
  - intros ->. apply (flags_not_in_frame N s k k nt_frames Hk ltac:(lia)). done.
  - intros Hta. destruct nt_used as (j' & Hj' & E' & Hu'). rewrite E' in Hta.
    apply Hu'. by rewrite (in_frame_inj s j' k a Hta Ha).
Qed.

Lemma nt_step_empty j : index_ok j → step (pmem s2) f j = None.
Proof. intros Hj. unfold step. by rewrite nt_empty. Qed.

Lemma nt_old_step : step (pmem s) t i = None.
Proof. unfold step. by rewrite Hinv. Qed.

Lemma nt_free j : 0 ≤ j < Z.of_nat N → (frame_free s2 j ↔ frame_free s j ∧ j ≠ k).
Proof.
  intros Hj.
  assert (frame_free s2 j ↔ frame_free s1 j) as ->.
  { unfold frame_free, frame_flag, s2. cbn [pmem set_pmem].
    change (flags_base (set_pmem _ s1)) with (flags_base s1).
    rewrite rd8_store_out; [done|]. intros H. apply (slot_in_page t i) in H; [|done].
    by apply (flag_not_in_used N s t j nt_frames nt_used Hj). }
  unfold s1. rewrite frame_free_emit. unfold frame_free at 1. rewrite frame_flag_wr8.
  case_decide; [subst; change (u8 1) with 1|unfold frame_free]; intuition lia.
Qed.

Lemma nt_frames_ok : frames_ok N s2.
Proof.
  pose proof (frames_ok_alloc N s k out nt_frames Hk) as OK1. fold s1 in OK1.
  apply (frames_ok_step N s1); try done.
  - intros j Hj Hf. apply nt_free in Hf as [Hf Hne]; [|done].
    unfold s1. rewrite frame_free_emit. unfold frame_free. rewrite frame_flag_wr8.
    by rewrite decide_False.
  - intros j a Hj Hf Ha. unfold s2. cbn [pmem set_pmem]. apply rd8_store_out.
    intros H. apply (slot_in_page t i) in H; [|done].
    apply nt_free in Hf as [Hf Hne]; [|done].
    destruct nt_used as (j' & Hj' & Ej & Hu). rewrite Ej in H.
    assert (j' = j) as -> by (by apply (in_frame_inj s j' j a)). done.
Qed.

Lemma nt_used_mono t' : used_frame N s t' → used_frame N s2 t'.
Proof.
  intros (j & Hj & -> & Hu). exists j. split; [done|]. split; [done|].
  intros Hf. apply nt_free in Hf as [Hf _]; done.
Qed.

Lemma nt_f_used : used_frame N s2 f.
Proof.
  exists k. split; [done|]. split; [done|]. intros Hf. apply nt_free in Hf as [_ Hf]; done.
Qed.

Lemma nt_node q t' :
  path_ok q → node (pmem s2) root q = Some t' →
  node (pmem s) root q = Some t' ∨ (q = p ++ [i] ∧ t' = f).
Proof.
  apply (node_fresh (pmem s) (pmem s2) root p i t Hp Ht nt_slots); [apply nt_step|].
  intros j Hj. by apply nt_step_empty.
Qed.

Lemma nt_node_mono q t' :
  path_ok q → node (pmem s) root q = Some t' → node (pmem s2) root q = Some t'.
Proof. apply (node_mono _ _ _ p i t Hp Ht nt_slots), nt_old_step. Qed.

Lemma nt_ok : pt_ok N root s2.
Proof.
  split.
  - apply nt_frames_ok.
  - apply (pt_first _ _ _ OK).
  - apply (pt_satp _ _ _ OK).
  - intros q t' Hq Hn. destruct (nt_node q t' Hq Hn) as [Hn'|[_ ->]]; [|apply nt_f_used].
    by apply nt_used_mono, (pt_alloc _ _ _ OK q).
  - intros q q' t' Hq Hq' Hn Hn'.
    destruct (nt_node q t' Hq Hn) as [Ho|[-> ->]], (nt_node q' _ Hq' Hn') as [Ho'|[-> E]];
      try done.
    + by apply (pt_inj _ _ _ OK q q' t').
    + subst t'. apply (pt_alloc _ _ _ OK) in Ho; [|done]. by apply nt_f_not_used in Ho.
    + apply (pt_alloc _ _ _ OK) in Ho'; [|done]. by apply nt_f_not_used in Ho'.
  - intros q t' j Hq Hlq Hj Hn HV. destruct (nt_node q t' Hq Hn) as [Ho|[-> ->]].
    2:{ by rewrite nt_empty in HV. }
    destruct (decide ((q, j) = (p, i))) as [[= -> ->]|Hne].
    + rewrite Ht in Ho. injection Ho as <-. rewrite nt_entry.
      destruct nt_f as [Hf Ha]. by destruct (entry_for_table f Hf Ha) as (_ & _ & ? & _ & _).
    + rewrite (nt_slots q t' j Hq Ho Hj Hne) in HV |- *.
      by apply (pt_entry _ _ _ OK q t' j).
  - intros q t' j Hq Hj Hn. destruct (nt_node q t' Hq Hn) as [Ho|[-> ->]].
    2:{ by rewrite nt_empty. }
    destruct (decide ((q, j) = (p, i))) as [[= -> ->]|Hne].
    + rewrite Ht in Ho. injection Ho as <-. rewrite nt_entry.
      destruct nt_f as [Hf Ha]. by destruct (entry_for_table f Hf Ha) as (_ & _ & _ & _ & ?).
    + rewrite (nt_slots q t' j Hq Ho Hj Hne). by apply (pt_small _ _ _ OK q t' j).
Qed.

(** The new table is where the slot leads now, and nothing else can be told apart
    by a walk. *)
Lemma nt_grow : grow N root 1 s s2 ∧ node (pmem s2) root (p ++ [i]) = Some f.
Proof.
  split; [split|].
  - apply nt_ok.
  - etrans; [apply only_mem_both|apply only_mem_set_pmem].
  - pose proof (nfree_alloc N s k out Hk Hfree) as E. fold s1 in E.
    rewrite (nfree_ext N s2 s1); [lia|]. intros j Hj. rewrite nt_free by lia.
    unfold s1. rewrite frame_free_emit. unfold frame_free at 2. rewrite frame_flag_wr8.
    unfold frame_free. case_decide; [change (u8 1) with 1|]; intuition lia.
  - intros j Hj Hf. apply nt_free in Hf; tauto.
  - intros ix HF Hlen.
    apply (walk_change _ _ root p i t Hp Ht nt_slots (Forall index_ok)) with (q := []);
      try done. intros rest HX.
    apply Forall_app in HX as [_ HX]. apply Forall_cons in HX as [_ HX].
    rewrite !pt_walk_cons. cbv zeta. rewrite (pte_bad_invalid _ Hinv), nt_entry.
    destruct nt_f as [Hf Ha]. destruct (entry_for_table f Hf Ha) as (_ & -> & -> & -> & _).
    destruct rest as [|j rest]; [done|]. apply Forall_cons in HX as [Hj _].
    rewrite pt_walk_cons. cbv zeta. by rewrite (nt_empty j Hj).
  - apply nt_node_mono.
  - intros q t' Hq Hn. destruct (nt_node q t' Hq Hn) as [|[_ ->]]; [by left|right].
    by exists k.
  - intros a [Hnf Ha]. apply nt_same.
    + intros ->. apply Hnf. unfold in_flags. change (flags_base s2) with (flags_base s). lia.
    + apply (Ha p t Hp). by apply nt_node_mono.
  - apply (keeps_order_alloc N s s2 k); [done..|]. exact nt_free.
  - rewrite node_snoc, (nt_node_mono p t Hp Ht). apply nt_step.
Qed.
End new_table.

(** A walk follows the tree. *)
Lemma walk_node N root s q t ix :
  pt_ok N root s → path_ok q → node (pmem s) root q = Some t →
  pt_walk (pmem s) root (q ++ ix) = pt_walk (pmem s) t ix.
Proof.
  intros OK. revert t ix. induction q as [|j q IH] using rev_ind; intros t ix Hq Hn.
  { by injection Hn as <-. }
  apply path_ok_prefix in Hq as (Hq & Hj & Hl). rewrite node_snoc in Hn.
  destruct (node (pmem s) root q) as [t1|] eqn:E; [|done]. cbn [mbind option_bind] in Hn.
  apply step_Some in Hn as (HV & Hleaf & ->).
  rewrite <- app_assoc, (IH t1 ([j] ++ ix)) by done. simpl ([j] ++ ix).
  rewrite pt_walk_cons. cbv zeta.
  rewrite (pt_entry _ _ _ OK q t1 j Hq Hl Hj E HV). by rewrite Hleaf.
Qed.

(** ** Setting an entry of the last level *)

Definition leaf_walk (e : Z) : walk :=
  if pte_bad e then WalkFault else if pte_leaf e then WalkLeaf e 0 else WalkFault.

(** The effect of mapping [va] with entry [e], for at most [k] new tables. *)
Record mapped (N : nat) (root : Z) (k : nat) (va e : Z) (s s' : kstate) : Prop := Mapped {
  mp_ok : pt_ok N root s';
  mp_mem : only_mem s s';
  mp_free : (nfree N s ≤ nfree N s' + k)%nat;
  mp_used : ∀ i, 0 ≤ i < Z.of_nat N → frame_free s' i → frame_free s i;
  mp_walk : ∀ ix, Forall index_ok ix → length ix = 4%nat →
    pt_walk (pmem s') root ix =
    if decide (ix = vpns va) then leaf_walk e else pt_walk (pmem s) root ix;
  mp_node : ∀ q t, path_ok q → node (pmem s) root q = Some t →
    node (pmem s') root q = Some t;
  mp_new : ∀ q t, path_ok q → node (pmem s') root q = Some t →
    node (pmem s) root q = Some t ∨
    ∃ i, 0 ≤ i < Z.of_nat N ∧ t = frame_at s i ∧ frame_free s i;
  mp_out : agree (outside_tables N root s') (pmem s) (pmem s');
  mp_order : keeps_order N s s'
}.

Section set_leaf.
Context (N : nat) (root : Z) (s : kstate) (OK : pt_ok N root s).
Context (va e t : Z) (He : 0 ≤ e < 2 ^ 54).
Let p := [vpn 3 va; vpn 2 va; vpn 1 va].
Let i := vpn 0 va.
Context (Ht : node (pmem s) root p = Some t).
Let s' := set_pmem (store 8 (pmem s) (t + 8 * i) e) s.

Lemma sl_path : path_ok p ∧ index_ok i.
Proof.
  destruct (vpns_ok va) as [HF _]. unfold vpns in HF.
  apply (Forall_app _ p [i]) in HF as [H1 H2]. apply Forall_cons in H2 as [H2 _].
  split; [|done]. split; [done|]. simpl. lia.
Qed.

Lemma sl_used : used_frame N s t.
Proof. apply (pt_alloc _ _ _ OK p t); [apply sl_path|done]. Qed.

Lemma sl_same a : ¬ in_page t a → rd8 (pmem s') a = rd8 (pmem s) a.
Proof.
  intros H. apply rd8_store_out. intros Ha. apply H.
  apply (slot_in_page t i); [apply sl_path|done].
Qed.

Lemma sl_slots q t' j :
  path_ok q → node (pmem s) root q = Some t' → index_ok j → (q, j) ≠ (p, i) →
  pte (pmem s') t' j = pte (pmem s) t' j.
Proof.
  intros Hq Hn Hj Hne. destruct sl_path as [Hp Hi].
  apply (pte_store_other N s); [apply sl_used|by apply (pt_alloc _ _ _ OK q)|done|done|].
  intros [= -> ->]. apply Hne. f_equal. by apply (pt_inj _ _ _ OK q p t).
Qed.

Lemma sl_node q : path_ok q → node (pmem s') root q = node (pmem s) root q.
Proof.
  apply (node_last (pmem s) (pmem s') root p i); [|done]. apply sl_slots.
Qed.

Lemma sl_entry : pte (pmem s') t i = e.
Proof. apply load_store8_eq. simpl in *. lia. Qed.

Lemma sl_free j : 0 ≤ j < Z.of_nat N → (frame_free s' j ↔ frame_free s j).
Proof.
  intros Hj. unfold frame_free, frame_flag. change (flags_base s') with (flags_base s).
  rewrite sl_same; [done|]. apply (flag_not_in_used N s); [apply OK|apply sl_used|done].
Qed.

Lemma sl_frames : frames_ok N s'.
Proof.
  apply (frames_ok_step N s); try done; [apply OK| |].
  - intros j Hj. by apply sl_free.
  - intros j a Hj Hf Ha. apply sl_same. intros H.
    apply sl_free in Hf; [|done]. destruct sl_used as (k & Hk & E & Hu).
    rewrite E in H. by rewrite (in_frame_inj s k j a H Ha) in Hu.
Qed.

Lemma sl_used_mono t' : used_frame N s t' → used_frame N s' t'.
Proof.
  intros (j & Hj & -> & Hu). exists j. split; [done|]. split; [done|]. by rewrite sl_free.
Qed.

Lemma sl_ok : pt_ok N root s'.
Proof.
  split.
  - apply sl_frames.
  - apply (pt_first _ _ _ OK).
  - apply (pt_satp _ _ _ OK).
  - intros q t' Hq Hn. rewrite sl_node in Hn by done.
    by apply sl_used_mono, (pt_alloc _ _ _ OK q).
  - intros q q' t' Hq Hq' Hn Hn'. rewrite sl_node in Hn, Hn' by done.
    by apply (pt_inj _ _ _ OK q q' t').
  - intros q t' j Hq Hl Hj Hn. rewrite sl_node in Hn by done.
    rewrite (sl_slots q t' j Hq Hn Hj); [by apply (pt_entry _ _ _ OK q)|].
    intros [= -> _]. simpl in Hl. lia.
  - intros q t' j Hq Hj Hn. rewrite sl_node in Hn by done.
    destruct (decide ((q, j) = (p, i))) as [[= -> ->]|Hne].
    + rewrite Ht in Hn. injection Hn as <-. rewrite sl_entry. lia.
    + rewrite (sl_slots q t' j Hq Hn Hj Hne). by apply (pt_small _ _ _ OK q t' j).
Qed.

Lemma sl_mapped : mapped N root 0 va e s s'.
Proof.
  destruct sl_path as [Hp Hi]. split.
  - apply sl_ok.
  - apply only_mem_set_pmem.
  - rewrite (nfree_ext N s s'); [lia|]. intros j Hj. by rewrite sl_free.
  - intros j Hj. by apply sl_free.
  - intros ix HF Hlen. case_decide as E.
    + subst ix. unfold vpns. fold i.
      change [vpn 3 va; vpn 2 va; vpn 1 va; i] with (p ++ [i]).
      rewrite (walk_node N root s' p t [i] sl_ok Hp) by (by rewrite sl_node).
      unfold leaf_walk. rewrite pt_walk_cons. cbv zeta.
      by rewrite sl_entry.
    + apply (walk_change _ _ root p i t Hp Ht sl_slots
               (λ l, l ≠ vpns va ∧ length l = 4%nat)) with (q := []); try done.
      intros rest [HX HX']. exfalso. apply HX. destruct rest; [done|]. simpl in HX'. lia.
  - intros q t' Hq Hn. by rewrite sl_node.
  - intros q t' Hq Hn. left. by rewrite sl_node in Hn.
  - intros a [_ Ha]. apply sl_same. apply (Ha p t Hp). by rewrite sl_node.
  - apply keeps_order_same. intros j Hj. by apply sl_free.
Qed.
End set_leaf.

(** * map_page *)

Lemma grow_weaken N root j k s s' : (j ≤ k)%nat → grow N root j s s' → grow N root k s s'.
Proof. intros Hle []. split; try done. lia. Qed.

(** One level of map_page: a valid pointer is followed, an invalid entry gets a
    new table. *)
Lemma wp_ensure_table N root s q i t (k : Z → K ()) (Q : () → kstate → Prop) :
  pt_ok N root s → path_ok q → (length q < 3)%nat → index_ok i →
  node (pmem s) root q = Some t → (1 ≤ nfree N s)%nat →
  (pte_V (pte (pmem s) t i) = true → pte_leaf (pte (pmem s) t i) = false) →
  (∀ s' f, grow N root 1 s s' → node (pmem s') root (q ++ [i]) = Some f → wp (k f) Q s') →
  wp (valid ← PageTable_isEntryValid (t + VIRTUAL_OFFSET) i;
      (if (valid : bool) then mret ()
       else
         frame ← kalloc_frame;
         PageTable_setEntry (t + VIRTUAL_OFFSET) i
           (createValidPageTableEntry (PhysicalFrame_get_ppn frame)));;
      frame ← PageTable_getPhysicalFrame (t + VIRTUAL_OFFSET) i;
      k frame) Q s.
Proof.
  intros OK Hq Hl Hi Hn Hfree Hleaf Hk.
  pose proof (pt_frames _ _ _ OK) as Hfr.
  pose proof (pt_alloc _ _ _ OK q t Hq Hn) as Hu.
  destruct (used_frame_facts N s t Hfr Hu) as (T1 & T2 & _).
  eapply wp_bind_done; [by apply isEntryValid_done|].
  destruct (pte_V (pte (pmem s) t i)) eqn:HV.
  - pose proof (pt_small _ _ _ OK q t i Hq Hi Hn) as He.
    eapply wp_bind_done; [done|].
    eapply wp_bind_done; [apply getPhysicalFrame_done; auto|].
    apply Hk; [by apply (grow_weaken _ _ 0); [lia|apply grow_refl]|].
    rewrite node_snoc, Hn. cbn [mbind option_bind]. apply step_Some. auto.
  - destruct (kalloc_frame_spec N s Hfr ltac:(lia))
      as (j & out & s1 & E & Es & Hj & Hf & Hleast & _).
    destruct (nt_grow N root s OK q i t j out Hq Hl Hi Hn HV Hj Hf Hleast) as [G Hnode].
    rewrite <- Es in G, Hnode. set (s2 := set_pmem _ s1) in *.
    assert (PageTable_setEntry (t + VIRTUAL_OFFSET) i
      (createValidPageTableEntry (PhysicalFrame_get_ppn (frame_at s j))) s1 = Done () s2) as Eset.
    { rewrite create_is_entry_for. by apply setEntry_done. }
    eapply wp_bind_done; [rewrite (bind_done _ _ _ _ _ E); exact Eset|].
    assert (step (pmem s2) t i = Some (frame_at s j)) as Hstep.
    { rewrite node_snoc, (g_node _ _ _ _ _ G q t Hq Hn) in Hnode. done. }
    pose proof Hstep as Hstep'. apply step_Some in Hstep' as (HV2 & HL2 & Ef).
    pose proof (pt_small _ _ _ (g_ok _ _ _ _ _ G) q t i Hq Hi
      (g_node _ _ _ _ _ G q t Hq Hn)) as He.
    eapply wp_bind_done; [apply getPhysicalFrame_done; auto|].
    rewrite <- Ef. by apply Hk.
Qed.

(** Along the walk to an address without superpage the valid entries are pointers. *)
Lemma no_superpage_entry N root s va q i rest t :
  pt_ok N root s → no_superpage (pmem s) root va → vpns va = q ++ i :: rest →
  path_ok q → index_ok i → (length q < 3)%nat → node (pmem s) root q = Some t →
  pte_V (pte (pmem s) t i) = true → pte_leaf (pte (pmem s) t i) = false.
Proof.
  intros OK Hno Ev Hq Hi Hl Hn HV. destruct (pte_leaf _) eqn:E; [|done].
  assert (pt_walk (pmem s) root (vpns va) =
          WalkLeaf (pte (pmem s) t i) (length rest)) as Hw.
  { rewrite Ev, (walk_node N root s q t) by done. rewrite pt_walk_cons. cbv zeta.
    rewrite (pt_entry _ _ _ OK q t i Hq Hl Hi Hn HV). by rewrite E. }
  apply Hno in Hw. destruct (vpns_ok va) as [_ Hlen]. rewrite Ev, length_app in Hlen.
  simpl in Hlen. lia.
Qed.

Lemma grow_no_superpage N root k s s' va :
  grow N root k s s' → no_superpage (pmem s) root va → no_superpage (pmem s') root va.
Proof.
  intros G Hno e l. destruct (vpns_ok va). rewrite (g_walk _ _ _ _ _ G) by done. apply Hno.
Qed.

Lemma mapped_after_grow N root k va e s s1 s2 :
  grow N root k s s1 → mapped N root 0 va e s1 s2 → mapped N root k va e s s2.
Proof.
  intros G Mp. destruct (only_mem_frames _ _ (g_mem _ _ _ _ _ G)) as [Eb Ef]. split.
  - apply Mp.
  - by etrans; [apply G|apply Mp].
  - pose proof (g_free _ _ _ _ _ G). pose proof (mp_free _ _ _ _ _ _ _ Mp). lia.
  - intros i Hi Hf. by apply (g_used _ _ _ _ _ G), (mp_used _ _ _ _ _ _ _ Mp).
  - intros ix H1 H2. rewrite (mp_walk _ _ _ _ _ _ _ Mp), (g_walk _ _ _ _ _ G); done.
  - intros q t Hq Hn. by apply (mp_node _ _ _ _ _ _ _ Mp), (g_node _ _ _ _ _ G).
  - intros q t Hq Hn. destruct (mp_new _ _ _ _ _ _ _ Mp q t Hq Hn) as [Hn1|(i & Hi & -> & Hf)].
    + by apply (g_new _ _ _ _ _ G).
    + right. exists i. split; [done|]. rewrite Ef. split; [done|]. by apply (g_used _ _ _ _ _ G).
  - intros a Ha. rewrite (mp_out _ _ _ _ _ _ _ Mp a Ha). apply (g_out _ _ _ _ _ G).
    destruct Ha as [H1 H2]. destruct (only_mem_frames _ _ (mp_mem _ _ _ _ _ _ _ Mp)) as [Eb2 _].
    split; [unfold in_flags in *; by rewrite <- Eb2|].
    intros q t Hq Hn. apply (H2 q t Hq).
    by apply (mp_node _ _ _ _ _ _ _ Mp).
  - by etrans; [apply G|apply Mp].
Qed.

Lemma frames_ok_emit N o s : frames_ok N s → frames_ok N (emit o s).
Proof. intros []. by split. Qed.

Lemma pt_ok_emit N root o s : pt_ok N root s → pt_ok N root (emit o s).
Proof. intros []. split; try done. by apply frames_ok_emit. Qed.

Lemma grow_emit N root o s : pt_ok N root s → grow N root 0 s (emit o s).
Proof.
  intros OK. split; auto; try done.
  - by apply pt_ok_emit.
  - apply only_mem_emit.
  - change (nfree N (emit o s)) with (nfree N s). lia.
  - by apply keeps_order_same.
Qed.

Lemma table_pointer N s f : frames_ok N s → used_frame N s f → f ⊞ VIRTUAL_OFFSET = f + VIRTUAL_OFFSET.
Proof.
  intros OK Hu. destruct (used_frame_facts N s f OK Hu) as (H1 & H2 & _).
  unfold PAGE_SIZE, WINDOW_SIZE, VIRTUAL_OFFSET in *. rewrite u64_small; lia.
Qed.

Lemma entry_for_small p f : 0 ≤ p < 2 ^ 52 → 0 ≤ f < 2 ^ 16 → 0 ≤ entry_for p f < 2 ^ 54.
Proof.
  intros Hp Hf. unfold entry_for. apply lor_lt; [| |lia].
  - rewrite create_is_entry_for. pose proof (entry_for_range p 0 Hp). simpl in *. lia.
  - simpl in *. lia.
Qed.

Lemma vpn_paths va :
  path_ok [] ∧ path_ok [vpn 3 va] ∧ path_ok [vpn 3 va; vpn 2 va] ∧
  path_ok [vpn 3 va; vpn 2 va; vpn 1 va].
Proof.
  pose proof (vpn_range 3 va ltac:(lia)). pose proof (vpn_range 2 va ltac:(lia)).
  pose proof (vpn_range 1 va ltac:(lia)).
  unfold path_ok. rewrite !Forall_cons, !Forall_nil. unfold index_ok. simpl.
  split_and!; done || lia.
Qed.

Lemma map_page_spec N root s va p flag :
  pt_ok N root s → no_superpage (pmem s) root va → (3 ≤ nfree N s)%nat →
  0 ≤ p < 2 ^ 52 → 0 ≤ flag < 2 ^ 16 →
  ∃ s', map_page va p flag s = Done () s' ∧ mapped N root 3 va (entry_for p flag) s s'.
Proof.
  intros OK Hno Hfree Hp Hflag.
  pose proof (vpn_range 3 va ltac:(lia)) as I3. pose proof (vpn_range 2 va ltac:(lia)) as I2.
  pose proof (vpn_range 1 va ltac:(lia)) as I1. pose proof (vpn_range 0 va ltac:(lia)) as I0.
  assert (wp (map_page va p flag) (λ _, mapped N root 3 va (entry_for p flag) s) s) as W.
  2:{ apply wp_inv in W as ([] & s' & E & Mp). by exists s'. }
  unfold map_page. apply wp_bind, wp_log; [done|]. intros o.
  pose proof (grow_emit N root o s OK) as G0. set (s0 := emit o s) in *.
  apply wp_bind, wp_gets. rewrite (pt_first _ _ _ (g_ok _ _ _ _ _ G0)).
  destruct (vpn_paths va) as (P0 & P1 & P2 & P3).
  (* first level *)
  apply (wp_ensure_table N root s0 [] (vpn 3 va) root (λ frame, _));
    try done; [apply G0|simpl; lia|..].
  { pose proof (g_free _ _ _ _ _ G0). lia. }
  { apply (no_superpage_entry N root s0 va [] (vpn 3 va)
      [vpn 2 va; vpn 1 va; vpn 0 va] root); try done; [apply G0|simpl; lia]. }
  intros s1 f1 G1 N1. pose proof (grow_trans _ _ _ _ _ _ _ G0 G1) as G01.
  pose proof (g_ok _ _ _ _ _ G01) as OK1. simpl app in N1.
  rewrite (table_pointer N s1) by (apply OK1 || by apply (pt_alloc _ _ _ OK1 [vpn 3 va])).
  (* second level *)
  apply (wp_ensure_table N root s1 [vpn 3 va] (vpn 2 va) f1 (λ frame, _));
    try done; [simpl; lia|..].
  { pose proof (g_free _ _ _ _ _ G01). lia. }
  { apply (no_superpage_entry N root s1 va [vpn 3 va] (vpn 2 va) [vpn 1 va; vpn 0 va] f1);
      try done; [|simpl; lia]. by apply (grow_no_superpage _ _ _ _ _ _ G01). }
  intros s2 f2 G2 N2. pose proof (grow_trans _ _ _ _ _ _ _ G01 G2) as G02.
  pose proof (g_ok _ _ _ _ _ G02) as OK2. simpl app in N2.
  rewrite (table_pointer N s2)
    by (apply OK2 || by apply (pt_alloc _ _ _ OK2 [vpn 3 va; vpn 2 va])).
  (* third level *)
  apply (wp_ensure_table N root s2 [vpn 3 va; vpn 2 va] (vpn 1 va) f2 (λ frame, _));
    try done; [simpl; lia|..].
  { pose proof (g_free _ _ _ _ _ G02). lia. }
  { apply (no_superpage_entry N root s2 va [vpn 3 va; vpn 2 va] (vpn 1 va) [vpn 0 va] f2);
      try done; [|simpl; lia]. by apply (grow_no_superpage _ _ _ _ _ _ G02). }
  intros s3 f3 G3 N3. pose proof (grow_trans _ _ _ _ _ _ _ G02 G3) as G03.
  pose proof (g_ok _ _ _ _ _ G03) as OK3. simpl app in N3.
  rewrite (table_pointer N s3)
    by (apply OK3 || by apply (pt_alloc _ _ _ OK3 [vpn 3 va; vpn 2 va; vpn 1 va])).
  (* the entry *)
  destruct (used_frame_facts N s3 f3 (pt_frames _ _ _ OK3)
    (pt_alloc _ _ _ OK3 _ _ P3 N3)) as (T1 & T2 & _).
  eapply wp_done; [by apply setEntry_done|].
  apply (mapped_after_grow N root 3 va _ s s3); [done|].
  apply sl_mapped; [done|by apply entry_for_small|done].
Qed.

(** ** A page whose last-level table exists *)

(** The table that holds the leaf entry of [va]. *)
Definition has_table (root : Z) (s : kstate) (va : Z) : Prop :=
  is_Some (node (pmem s) root [vpn 3 va; vpn 2 va; vpn 1 va]).

(** One level of map_page when the entry is valid. *)
Lemma wp_existing_table N root s q i t f (k : Z → K ()) (Q : () → kstate → Prop) :
  pt_ok N root s → path_ok q → (length q < 3)%nat → index_ok i →
  node (pmem s) root q = Some t → node (pmem s) root (q ++ [i]) = Some f → wp (k f) Q s →
  wp (valid ← PageTable_isEntryValid (t + VIRTUAL_OFFSET) i;
      (if (valid : bool) then mret ()
       else
         frame ← kalloc_frame;
         PageTable_setEntry (t + VIRTUAL_OFFSET) i
           (createValidPageTableEntry (PhysicalFrame_get_ppn frame)));;
      frame ← PageTable_getPhysicalFrame (t + VIRTUAL_OFFSET) i;
      k frame) Q s.
Proof.
  intros OK Hq Hl Hi Hn Hf Hk.
  destruct (used_frame_facts N s t (pt_frames _ _ _ OK) (pt_alloc _ _ _ OK q t Hq Hn)) as (T1 & T2 & _).
  rewrite node_snoc, Hn in Hf. cbn [mbind option_bind] in Hf. apply step_Some in Hf as (HV & _ & ->).
  eapply wp_bind_done; [by apply isEntryValid_done|]. rewrite HV. eapply wp_bind_done; [done|].
  pose proof (pt_small _ _ _ OK q t i Hq Hi Hn) as He.
  eapply wp_bind_done; [apply getPhysicalFrame_done; auto|]. exact Hk.
Qed.

(** map_page then stores the leaf entry and takes no frame. *)
Lemma map_page_in_table N root s va p flag :
  pt_ok N root s → has_table root s va → 0 ≤ p < 2 ^ 52 → 0 ≤ flag < 2 ^ 16 →
  ∃ s', map_page va p flag s = Done () s' ∧ mapped N root 0 va (entry_for p flag) s s' ∧
    (∀ j, 0 ≤ j < Z.of_nat N → frame_free s' j ↔ frame_free s j).
Proof.
  intros OK [t3 N3] Hp Hflag.
  pose proof (vpn_range 3 va ltac:(lia)) as I3. pose proof (vpn_range 2 va ltac:(lia)) as I2.
  pose proof (vpn_range 1 va ltac:(lia)) as I1. pose proof (vpn_range 0 va ltac:(lia)) as I0.
  destruct (vpn_paths va) as (P0 & P1 & P2 & P3).
  assert (∃ t2, node (pmem s) root [vpn 3 va; vpn 2 va] = Some t2) as [t2 N2].
  { change [vpn 3 va; vpn 2 va; vpn 1 va] with ([vpn 3 va; vpn 2 va] ++ [vpn 1 va]) in N3.
    rewrite node_snoc in N3.
    destruct (node (pmem s) root [vpn 3 va; vpn 2 va]) as [t2|]; [by exists t2|done]. }
  assert (∃ t1, node (pmem s) root [vpn 3 va] = Some t1) as [t1 N1].
  { change [vpn 3 va; vpn 2 va] with ([vpn 3 va] ++ [vpn 2 va]) in N2. rewrite node_snoc in N2.
    destruct (node (pmem s) root [vpn 3 va]) as [t1|]; [by exists t1|done]. }
  assert (wp (map_page va p flag) (λ _ s', mapped N root 0 va (entry_for p flag) s s' ∧
    ∀ j, 0 ≤ j < Z.of_nat N → frame_free s' j ↔ frame_free s j) s) as W.
  2:{ apply wp_inv in W as ([] & s' & E & Mp). by exists s'. }
  unfold map_page. apply wp_bind, wp_log; [done|]. intros o.
  pose proof (grow_emit N root o s OK) as G0. set (s0 := emit o s) in *.
  pose proof (g_ok _ _ _ _ _ G0) as OK0.
  apply wp_bind, wp_gets. rewrite (pt_first _ _ _ OK0).
  apply (wp_existing_table N root s0 [] (vpn 3 va) root t1 (λ frame, _)); try done; [simpl; lia|].
  rewrite (table_pointer N s0) by (apply OK0 || by apply (pt_alloc _ _ _ OK0 [vpn 3 va])).
  apply (wp_existing_table N root s0 [vpn 3 va] (vpn 2 va) t1 t2 (λ frame, _)); try done; [simpl; lia|].
  rewrite (table_pointer N s0) by (apply OK0 || by apply (pt_alloc _ _ _ OK0 [vpn 3 va; vpn 2 va])).
  apply (wp_existing_table N root s0 [vpn 3 va; vpn 2 va] (vpn 1 va) t2 t3 (λ frame, _)); try done; [simpl; lia|].
  rewrite (table_pointer N s0) by (apply OK0 || by apply (pt_alloc _ _ _ OK0 [vpn 3 va; vpn 2 va; vpn 1 va])).
  destruct (used_frame_facts N s0 t3 (pt_frames _ _ _ OK0) (pt_alloc _ _ _ OK0 _ _ P3 N3)) as (T1 & T2 & _).
  eapply wp_done; [by apply setEntry_done|].
  split.
  - apply (mapped_after_grow N root 0 va _ s s0); [done|].
    apply sl_mapped; [done|by apply entry_for_small|done].
  - intros j Hj. by apply (sl_free N root s0 OK0 va (entry_for p flag) t3 N3 j).
Qed.

Lemma mapped_weaken N root j k va e s s' : (j ≤ k)%nat → mapped N root j va e s s' → mapped N root k va e s s'.
Proof. intros Hle []. split; try done. lia. Qed.

(** * Properties *)

(** A page-table entry carries the frame number back: what setEntry stores for a
    ppn and ten flag bits, getPhysicalFrame returns as that frame's address, for
    frame numbers below 2^40; createValidPageTableEntry masks with 40 bits where an
    Sv48 ppn has 44, so that the upper four bits of a larger one are lost. *)
Theorem setEntry_getPhysicalFrame_roundtrip (t i ppn flag : Z) (s : kstate) :
  0 ≤ t → t + PAGE_SIZE ≤ WINDOW_SIZE → index_ok i → 0 ≤ ppn < 2 ^ 44 → 0 ≤ flag < 1024 →
  wp (PageTable_setEntry (t + VIRTUAL_OFFSET) i (Z.lor (createValidPageTableEntry ppn) flag);;
      PageTable_getPhysicalFrame (t + VIRTUAL_OFFSET) i)
    (λ frame s', frame = (ppn mod 2 ^ 40) * 4096 ∧
       (frame = ppn * 4096 ↔ ppn < 2 ^ 40) ∧ only_mem s s') s.
Proof.
  intros Ht Hw Hi Hp Hf.
  pose proof (Z.mod_pos_bound ppn (2 ^ 40) ltac:(lia)) as Hm.
  assert (Z.lor (createValidPageTableEntry ppn) flag = entry_for ((ppn mod 2 ^ 40) * 4096) flag) as ->.
  { unfold entry_for, PhysicalFrame_get_ppn. f_equal. rewrite Z.shiftr_div_pow2 by lia.
    change (2 ^ 12) with 4096. rewrite Z.div_mul by lia. rewrite !create_entry_eq by lia.
    by rewrite Zmod_mod. }
  set (p := (ppn mod 2 ^ 40) * 4096) in *.
  assert (0 ≤ p < 2 ^ 52) as Hp' by (unfold p; simpl in *; lia).
  pose proof (entry_for_range p flag Hp' Hf) as He.
  assert (pte (store 8 (pmem s) (t + 8 * i) (entry_for p flag)) t i = entry_for p flag) as E.
  { apply load_store8_eq. simpl in *. lia. }
  eapply wp_bind_done; [by apply setEntry_done|]. eapply wp_done.
  { apply getPhysicalFrame_done; try done. cbn [pmem set_pmem]. rewrite E. simpl in *. lia. }
  cbn [pmem set_pmem]. rewrite E, entry_for_frame; [|done|unfold p; by rewrite Z.mod_mul|done].
  split; [done|]. split; [|apply only_mem_set_pmem]. unfold p. split; intros H.
  - assert (ppn mod 2 ^ 40 = ppn) by lia. lia.
  - rewrite Z.mod_small; lia.
Qed.

Lemma setEntry_getPhysicalFrame_roundtrip_witness :
  wp (PageTable_setEntry (0x80208000 + VIRTUAL_OFFSET) 7
        (Z.lor (createValidPageTableEntry 0xABCDE) 0xF);;
      PageTable_getPhysicalFrame (0x80208000 + VIRTUAL_OFFSET) 7)
    (λ frame s', frame = (0xABCDE mod 2 ^ 40) * 4096 ∧
       (frame = 0xABCDE * 4096 ↔ 0xABCDE < 2 ^ 40) ∧ only_mem start s') start.
Proof.
  apply (setEntry_getPhysicalFrame_roundtrip 0x80208000 7 0xABCDE 0xF start);
    unfold index_ok, PAGE_SIZE, WINDOW_SIZE; lia.
Defined.
