(* ===== verification/AddressSpace.v ===== *)
(** What the page tables of Paging.v mean to the machine: the translation after
    paging_init and after map_page, and the agreement of the kernel's own walk,
    get_physical_address_of_virtual_address, with the hardware's. *)

From S2P Require Import Prelude Monad Memory Sv48 Machine Layout Samples Stdio PhysAlloc Paging.

(** The bits map_page needs in [flag] to make a page: R or X, and not W without R. *)
Definition leaf_flag (flag : Z) : bool :=
  (Z.testbit flag 1 || Z.testbit flag 3) && (Z.testbit flag 1 || negb (Z.testbit flag 2)).

Lemma entry_for_leaf p f :
  0 ≤ p < 2 ^ 52 → leaf_flag f = true → leaf_walk (entry_for p f) = WalkLeaf (entry_for p f) 0.
Proof.
  intros Hp Hf. unfold leaf_walk, pte_bad, pte_leaf, pte_R, pte_W, pte_X, leaf_flag in *.
  rewrite entry_for_V, !entry_for_bit by (done || lia). rewrite !Z.lor_spec.
  change (Z.testbit 1 1) with false. change (Z.testbit 1 2) with false.
  change (Z.testbit 1 3) with false. cbn [orb].
  by destruct (Z.testbit f 1), (Z.testbit f 2), (Z.testbit f 3).
Qed.

Lemma translate_page e va :
  pte_frame e mod 4096 = 0 → translate_leaf (WalkLeaf e 0) va = Some (pte_frame e + va mod 4096).
Proof. intros H. unfold translate_leaf. change (2 ^ _) with 4096. by rewrite H. Qed.

Lemma vpns_page va va' : va / 4096 = va' / 4096 → vpns va = vpns va'.
Proof.
  intros E. unfold vpns. rewrite !vpn_div by lia.
  assert (∀ k, 0 ≤ k → va / 2 ^ (12 + 9 * k) = va' / 2 ^ (12 + 9 * k)) as H.
  { intros k Hk. rewrite !(Z.pow_add_r 2 12) by lia. change (2 ^ 12) with 4096.
    rewrite <- !Z.div_div by lia. by rewrite E. }
  by rewrite !H by lia.
Qed.

Lemma canonical_page va va' : va / 4096 = va' / 4096 → canonical va = canonical va'.
Proof.
  intros E. unfold canonical. f_equal; [apply eq_true_iff_eq|apply eq_true_iff_eq].
  - rewrite !Z.ltb_lt. zlia.
  - rewrite !Z.leb_le. zlia.
Qed.

(** The translation after a page was mapped. *)
Lemma mapped_sv48 N root k va p f s s' va' :
  mapped N root k va (entry_for p f) s s' →
  0 ≤ va < 2 ^ 64 → 0 ≤ va' < 2 ^ 64 → canonical va = true →
  0 ≤ p < 2 ^ 52 → p mod 4096 = 0 → 0 ≤ f < 1024 → leaf_flag f = true →
  sv48 (pmem s') root va' =
  if decide (va' / 4096 = va / 4096) then Some (p + va' mod 4096)
  else sv48 (pmem s) root va'.
Proof.
  intros Mp Hva Hva' C Hp Ha Hf Hleaf. unfold sv48. destruct (vpns_ok va') as [V1 V2].
  rewrite (mp_walk _ _ _ _ _ _ _ Mp _ V1 V2). destruct (decide (va' / _ = _)) as [E|E].
  - rewrite (canonical_page va' va), C by done.
    rewrite decide_True by (by apply vpns_page).
    rewrite entry_for_leaf, translate_page by (done || by rewrite entry_for_frame).
    by rewrite entry_for_frame.
  - destruct (canonical va') eqn:C'; [|done]. rewrite decide_False; [done|].
    intros Ev. apply E. by apply vpns_inj.
Qed.

(** ** The kernel's own walk *)

(** The first level at which the path of [va] has no valid entry, with its table. *)
Definition levels (va : Z) : list (string * Z) :=
  [("first", vpn 3 va); ("second", vpn 2 va); ("third", vpn 1 va); ("fourth", vpn 0 va)].
Fixpoint missing (m : mem) (t : Z) (ls : list (string * Z)) : option (string * Z) :=
  match ls with
  | [] => None
  | (level, i) :: ls' => if pte_V (pte m t i) then missing m (pte_frame (pte m t i)) ls' else Some (level, t)
  end.

(** What is printed: nothing for an address the hardware translates, and for any other
    one, if errors are logged, the line that names this level and its table. *)
Definition explained (s : kstate) (root va : Z) (out : list Z) : Prop :=
  match sv48 (pmem s) root va with
  | Some _ => out = []
  | None => ∃ level t, missing (pmem s) root (levels va) = Some (level, t) ∧
      log_text (λ _, None) (logLevel s) LogLevel.ERROR (translation_format level) [t + VIRTUAL_OFFSET] = Some out
  end.

Lemma explained_mapped s root va out : explained s root va out → sv48 (pmem s) root va ≠ None → out = [].
Proof. unfold explained. by destruct (sv48 _ _ _). Qed.

Lemma translation_text level enabled table : level ∈ (levels 0).*1 →
  ∃ out, log_text (λ _, None) enabled LogLevel.ERROR (translation_format level) [table] = Some out.
Proof.
  intros Hl. unfold log_text. destruct (_ =? 0); [by eexists|].
  destruct (render_total (λ _, None) (translation_format level) [table]) as [r ->]; [|by eexists].
  revert level Hl. by apply Forall_forall; repeat constructor.
Qed.

Section translation.
Context (N : nat) (root : Z) (s : kstate) (va : Z).
Context (OK : pt_ok N root s) (Hno : no_superpage (pmem s) root va).

(** The hardware's answer, 0 for none, and the message that explains it. *)
Definition translated (r : Z) (s' : kstate) : Prop :=
  ∃ out, s' = emit out s ∧ r = default 0 (sv48 (pmem s) root va) ∧ explained s root va out.

Lemma sw_fault level t :
  level ∈ (levels 0).*1 → missing (pmem s) root (levels va) = Some (level, t) →
  pt_walk (pmem s) root (vpns va) = WalkFault →
  wp (translation_error level (t + VIRTUAL_OFFSET)) translated s.
Proof using.
  intros Hl Hm Hw. assert (sv48 (pmem s) root va = None) as E.
  { unfold sv48. rewrite Hw. by destruct (canonical va). }
  destruct (translation_text level (logLevel s) (t + VIRTUAL_OFFSET) Hl) as [out Eo].
  unfold translation_error. eapply wp_bind_done; [by apply (log_done (λ _, None)); [apply strings_at_none|]|].
  apply wp_ret. exists out. unfold explained. rewrite E. split; [done|]. split; [done|]. by exists level, t.
Qed.

(** A level above the last: an invalid entry ends both walks, a valid one is a
    pointer to the table of the next level. *)
Lemma wp_sw_level q i rest t level ls (k : Z → K Z) :
  level ∈ (levels 0).*1 → missing (pmem s) root (levels va) = missing (pmem s) t ((level, i) :: ls) →
  vpns va = q ++ i :: rest → path_ok q → index_ok i → (length q < 3)%nat →
  node (pmem s) root q = Some t →
  (∀ f, node (pmem s) root (q ++ [i]) = Some f → used_frame N s f →
     missing (pmem s) root (levels va) = missing (pmem s) f ls →
     wp (k f) translated s) →
  wp (valid ← PageTable_isEntryValid (t + VIRTUAL_OFFSET) i;
      if negb valid then translation_error level (t + VIRTUAL_OFFSET)
      else f ← PageTable_getPhysicalFrame (t + VIRTUAL_OFFSET) i; k f) translated s.
Proof using OK Hno.
  intros Hlev Hm Ev Hq Hi Hl Hn Hk.
  pose proof (pt_alloc _ _ _ OK q t Hq Hn) as Hu.
  destruct (used_frame_facts N s t (pt_frames _ _ _ OK) Hu) as (T1 & T2 & _).
  eapply wp_bind_done; [by apply isEntryValid_done|]. cbn [missing] in Hm.
  destruct (pte_V (pte (pmem s) t i)) eqn:HV; simpl negb; cbv iota.
  - eapply wp_bind_done; [apply getPhysicalFrame_done; auto;
      by apply (pt_small _ _ _ OK q t i)|].
    assert (node (pmem s) root (q ++ [i]) = Some (pte_frame (pte (pmem s) t i))) as Hf.
    { rewrite node_snoc, Hn. cbn [mbind option_bind]. apply step_Some. split_and!; try done.
      by apply (no_superpage_entry N root s va q i rest t). }
    apply Hk; [done| |done]. apply (pt_alloc _ _ _ OK (q ++ [i])); [|done].
    apply path_ok_snoc. destruct Hq. by split_and!.
  - apply sw_fault; [done|done|].
    rewrite Ev, (walk_node N root s q t) by done. rewrite pt_walk_cons. cbv zeta.
    by rewrite pte_bad_invalid.
Qed.
End translation.

(** Entries of the last level are pages: what map_page makes with a [leaf_flag]. *)
Definition pages_ok (m : mem) (root va : Z) : Prop :=
  ∀ t, node m root [vpn 3 va; vpn 2 va; vpn 1 va] = Some t →
    pte_V (pte m t (vpn 0 va)) = true →
    leaf_walk (pte m t (vpn 0 va)) = WalkLeaf (pte m t (vpn 0 va)) 0.

Lemma pte_frame_aligned e : pte_frame e mod 4096 = 0.
Proof. unfold pte_frame, PAGE_SIZE. by rewrite Z.mod_mul. Qed.

Lemma lor_offset a va : a mod 4096 = 0 → 0 ≤ a → Z.lor a (Z.land va 0xFFF) = a + va mod 4096.
Proof.
  intros Ha Hp. change 0xFFF with (Z.ones 12). rewrite Z.land_ones by lia.
  change (2 ^ 12) with 4096. rewrite <- Z.add_lor_land.
  replace (Z.land a (va mod 4096)) with 0; [lia|]. symmetry.
  apply Z.bits_inj_0. intros k. rewrite Z.land_spec.
  assert (a = Z.shiftl (a / 4096) 12) as ->.
  { rewrite Z.shiftl_mul_pow2 by lia. change (2 ^ 12) with 4096. zlia. }
  destruct (decide (k < 12)) as [Hk|Hk]; [by rewrite Z.shiftl_spec_low|].
  destruct (decide (0 ≤ k)); [|by rewrite !Z.testbit_neg_r by lia].
  rewrite (Z.bits_above_log2 (va mod 4096) k), andb_false_r; [done|zlia|].
  destruct (decide (va mod 4096 = 0)) as [->|]; [simpl; lia|].
  assert (Z.log2 (va mod 4096) < 12); [|lia]. apply Z.log2_lt_pow2; simpl; zlia.
Qed.

Lemma translate_spec N root s va :
  pt_ok N root s → no_superpage (pmem s) root va → pages_ok (pmem s) root va →
  canonical va = true →
  wp (get_physical_address_of_virtual_address va) (translated root s va) s.
Proof.
  intros OK Hno Hpages Hc. unfold get_physical_address_of_virtual_address. cbv zeta.
  apply wp_bind, wp_gets. rewrite (pt_first _ _ _ OK).
  pose proof (vpn_range 3 va ltac:(lia)). pose proof (vpn_range 2 va ltac:(lia)).
  pose proof (vpn_range 1 va ltac:(lia)). pose proof (vpn_range 0 va ltac:(lia)).
  destruct (vpn_paths va) as (P0 & P1 & P2 & P3). pose proof (pt_frames _ _ _ OK) as FR.
  apply (wp_sw_level N root s va OK Hno [] (vpn 3 va) [vpn 2 va; vpn 1 va; vpn 0 va]
    root "first" (drop 1 (levels va)) (λ f, _)); try done; [set_solver|simpl; lia|]. intros f1 N1 U1 M1.
  rewrite (table_pointer N s) by done. simpl app in N1.
  apply (wp_sw_level N root s va OK Hno [vpn 3 va] (vpn 2 va) [vpn 1 va; vpn 0 va]
    f1 "second" (drop 2 (levels va)) (λ f, _)); try done; [set_solver|simpl; lia|]. intros f2 N2 U2 M2.
  rewrite (table_pointer N s) by done. simpl app in N2.
  apply (wp_sw_level N root s va OK Hno [vpn 3 va; vpn 2 va] (vpn 1 va) [vpn 0 va]
    f2 "third" (drop 3 (levels va)) (λ f, _)); try done; [set_solver|simpl; lia|]. intros f3 N3 U3 M3.
  rewrite (table_pointer N s) by done. simpl app in N3.
  destruct (used_frame_facts N s f3 FR U3) as (T1 & T2 & _).
  assert (pt_walk (pmem s) root (vpns va) = leaf_walk (pte (pmem s) f3 (vpn 0 va))) as Hw.
  { change (vpns va) with ([vpn 3 va; vpn 2 va; vpn 1 va] ++ [vpn 0 va]).
    rewrite (walk_node N root s [vpn 3 va; vpn 2 va; vpn 1 va] f3) by done. unfold leaf_walk.
    rewrite pt_walk_cons. cbv zeta. by destruct (pte_bad (pte (pmem s) f3 (vpn 0 va))), (pte_leaf (pte (pmem s) f3 (vpn 0 va))). }
  change (VirtualPage_get_vpn_0 va) with (vpn 0 va).
  eapply wp_bind_done; [by apply isEntryValid_done|].
  destruct (pte_V (pte (pmem s) f3 (vpn 0 va))) eqn:HV; simpl negb; cbv iota.
  - eapply wp_bind_done; [apply getPhysicalFrame_done; auto;
      by apply (pt_small _ _ _ OK _ f3 (vpn 0 va) P3)|].
    apply wp_ret. exists []. rewrite emit_nil. split; [done|].
    unfold explained, sv48. rewrite Hc, Hw, (Hpages f3 N3 HV).
    rewrite translate_page by apply pte_frame_aligned. simpl. split; [|done].
    unfold VirtualPage_get_offset. rewrite lor_offset; [done|apply pte_frame_aligned|].
    unfold pte_frame, PAGE_SIZE. pose proof (Z.land_nonneg (Z.shiftr (pte (pmem s) f3 (vpn 0 va)) 10) (Z.ones 44)).
    assert (0 ≤ Z.ones 44) by done. lia.
  - apply sw_fault; [set_solver| |rewrite Hw; unfold leaf_walk; by rewrite pte_bad_invalid].
    rewrite M3. cbn [drop levels missing]. by rewrite HV.
Qed.

(** ** The tables of paging_init

    One pointer in the first table, four gigabyte pages in the second. *)

Record setup_tables (N : nat) (f1 f2 : Z) (s : kstate) : Prop := SetupTables {
  st_frames : frames_ok N s;
  st_used1 : used_frame N s f1;
  st_used2 : used_frame N s f2;
  st_ne : f1 ≠ f2;
  st_root : ∀ i, index_ok i → pte (pmem s) f1 i = if decide (i = 256) then entry_for f2 0 else 0;
  st_second : ∀ j, index_ok j →
    pte (pmem s) f2 j = if decide (j < 4) then entry_for (j * GIGAYBTE_BYTES) 0xF else 0
}.

Section setup.
Context (N : nat) (f1 f2 : Z) (s : kstate) (ST : setup_tables N f1 f2 s).

Lemma setup_f2 : 0 ≤ f2 < 2 ^ 52 ∧ f2 mod 4096 = 0.
Proof using ST.
  destruct (used_frame_facts N s f2 (st_frames _ _ _ _ ST) (st_used2 _ _ _ _ ST)) as (H1 & H2 & H3).
  unfold PAGE_SIZE, WINDOW_SIZE in *. simpl. split; [lia|done].
Qed.

Lemma setup_giga j : 0 ≤ j < 4 →
  let e := entry_for (j * GIGAYBTE_BYTES) 0xF in
  pte_bad e = false ∧ pte_leaf e = true ∧ pte_frame e = j * GIGAYBTE_BYTES ∧ e < 2 ^ 54.
Proof using.
  intros Hj e. assert (0 ≤ j * GIGAYBTE_BYTES < 2 ^ 52) as Hp
    by (unfold GIGAYBTE_BYTES; simpl; lia).
  split_and!.
  - unfold e, pte_bad, pte_R, pte_W. by rewrite entry_for_V, !entry_for_bit by (done || lia).
  - unfold e, pte_leaf, pte_R, pte_X. by rewrite !entry_for_bit by (done || lia).
  - apply entry_for_frame; [done| |lia]. unfold GIGAYBTE_BYTES.
    replace (j * 0x40000000) with (j * 262144 * 4096) by lia. apply Z.mod_mul. lia.
  - pose proof (entry_for_range _ 0xF Hp). simpl in *. lia.
Qed.

Lemma setup_step1 i : index_ok i →
  step (pmem s) f1 i = if decide (i = 256) then Some f2 else None.
Proof using ST.
  intros Hi. unfold step. rewrite (st_root _ _ _ _ ST i Hi). case_decide; [|done].
  destruct setup_f2 as [H1 H2]. destruct (entry_for_table f2 H1 H2) as (-> & -> & _ & -> & _).
  done.
Qed.

Lemma setup_step2 i : index_ok i → step (pmem s) f2 i = None.
Proof using ST.
  intros Hi. unfold step. rewrite (st_second _ _ _ _ ST i Hi).
  case_decide; [|done]. destruct (setup_giga i) as (_ & -> & _); [unfold index_ok in *; lia|].
  by rewrite andb_false_r.
Qed.

Lemma setup_node q t : path_ok q → node (pmem s) f1 q = Some t →
  (q = [] ∧ t = f1) ∨ (q = [256] ∧ t = f2).
Proof using ST.
  intros [Hq _] Hn. destruct q as [|i q]; simpl in Hn; [left; naive_solver|].
  apply Forall_cons in Hq as [Hi Hq]. rewrite setup_step1 in Hn by done.
  case_decide; [|done]. simpl in Hn. destruct q as [|j q]; simpl in Hn; [right; naive_solver|].
  apply Forall_cons in Hq as [Hj _]. by rewrite setup_step2 in Hn.
Qed.

Lemma setup_pte t i : t = f1 ∨ t = f2 → index_ok i →
  pte (pmem s) t i < 2 ^ 54 ∧
  (pte_V (pte (pmem s) t i) = true → pte_bad (pte (pmem s) t i) = false).
Proof using ST.
  intros [-> | ->] Hi.
  - rewrite (st_root _ _ _ _ ST i Hi). case_decide; [|done].
    destruct setup_f2 as [H1 H2]. by destruct (entry_for_table f2 H1 H2) as (_ & _ & -> & _ & ?).
  - rewrite (st_second _ _ _ _ ST i Hi). case_decide; [|done].
    by destruct (setup_giga i) as (-> & _ & _ & ?); [unfold index_ok in *; lia|].
Qed.

Lemma setup_pt_ok :
  first_level_table s = f1 + VIRTUAL_OFFSET → satp_root (satp s) = f1 → pt_ok N f1 s.
Proof using ST.
  intros Hf Hs. split; try done; [apply ST|..].
  - intros q t Hq Hn. destruct (setup_node q t Hq Hn) as [[_ ->]|[_ ->]]; apply ST.
  - intros q q' t Hq Hq' Hn Hn'. pose proof (st_ne _ _ _ _ ST).
    destruct (setup_node q t Hq Hn) as [[-> ->]|[-> ->]],
      (setup_node q' _ Hq' Hn') as [[-> E]|[-> E]]; congruence.
  - intros q t i Hq _ Hi Hn.
    apply setup_pte; [destruct (setup_node q t Hq Hn) as [[_ ->]|[_ ->]]; auto|done].
  - intros q t i Hq Hi Hn.
    apply setup_pte; [destruct (setup_node q t Hq Hn) as [[_ ->]|[_ ->]]; auto|done].
Qed.

Lemma setup_walk va :
  pt_walk (pmem s) f1 (vpns va) =
  if decide (vpn 3 va = 256 ∧ vpn 2 va < 4)
  then WalkLeaf (entry_for (vpn 2 va * GIGAYBTE_BYTES) 0xF) 2 else WalkFault.
Proof using ST.
  pose proof (vpn_range 3 va ltac:(lia)) as I3. pose proof (vpn_range 2 va ltac:(lia)) as I2.
  unfold vpns. rewrite pt_walk_cons. cbv zeta. rewrite (st_root _ _ _ _ ST _ I3).
  destruct (decide (vpn 3 va = 256)) as [E|E].
  2:{ rewrite decide_False by tauto. done. }
  destruct setup_f2 as [H1 H2]. destruct (entry_for_table f2 H1 H2) as (_ & -> & -> & -> & _).
  rewrite pt_walk_cons. cbv zeta. rewrite (st_second _ _ _ _ ST _ I2).
  destruct (decide (vpn 2 va < 4)) as [Hl|Hl].
  - rewrite decide_True by done. destruct (setup_giga (vpn 2 va)) as (-> & -> & _); [lia|done].
  - rewrite decide_False by tauto. done.
Qed.

Lemma setup_sv48 va : 0 ≤ va < 2 ^ 64 →
  sv48 (pmem s) f1 va = if in_window va then Some (va - VIRTUAL_OFFSET) else None.
Proof using ST.
  intros Hva. unfold sv48. rewrite setup_walk.
  assert (canonical va = true ∧ vpn 3 va = 256 ∧ vpn 2 va < 4 ↔ in_window va = true) as Hiff.
  { rewrite !vpn_div by lia. change (2 ^ (12 + 9 * 3)) with (2 ^ 39).
    change (2 ^ (12 + 9 * 2)) with (2 ^ 30). unfold canonical, in_window, WINDOW_SIZE, VIRTUAL_OFFSET.
    rewrite orb_true_iff, andb_true_iff, !Z.ltb_lt, !Z.leb_le. simpl in *. zlia. }
  destruct (canonical va).
  2:{ destruct (in_window va); [|done]. by destruct (proj2 Hiff eq_refl). }
  destruct (in_window va) eqn:Ew.
  2:{ rewrite decide_False; [done|]. intros [E3 E2].
      by assert (false = true) by (apply Hiff; auto). }
  destruct (proj2 Hiff eq_refl) as (_ & E3 & E2). rewrite decide_True by done.
  clear Hiff.
  destruct (setup_giga (vpn 2 va)) as (_ & _ & Ef & _).
  { pose proof (vpn_range 2 va). lia. }
  clear E3. unfold translate_leaf. rewrite Ef. change (2 ^ _) with GIGAYBTE_BYTES.
  rewrite Z.mod_mul by done. simpl. f_equal.
  rewrite vpn_div in * by lia. change (2 ^ (12 + 9 * 2)) with (2 ^ 30) in *.
  unfold in_window, WINDOW_SIZE, VIRTUAL_OFFSET, GIGAYBTE_BYTES in *.
  apply andb_true_iff in Ew. rewrite Z.ltb_lt, Z.leb_le in Ew. simpl in *. zlia.
Qed.
End setup.

(** The loop of paging_init after [j] rounds. *)
Record setup_state (f1 f2 j : Z) (s s' : kstate) : Prop := SetupState {
  ss_mem : only_mem s s';
  ss_agree : agree (λ a, ¬ in_page f1 a ∧ ¬ in_page f2 a) (pmem s) (pmem s');
  ss_root : ∀ i, index_ok i →
    pte (pmem s') f1 i = if decide (i = 256 ∧ 0 < j) then entry_for f2 0 else 0;
  ss_second : ∀ i, index_ok i →
    pte (pmem s') f2 i = if decide (i < j) then entry_for (i * GIGAYBTE_BYTES) 0xF else 0
}.

Section setup_loop.
Context (N : nat) (f1 f2 : Z) (s : kstate) (FR : frames_ok N s).
Context (U1 : used_frame N s f1) (U2 : used_frame N s f2) (Hne : f1 ≠ f2).

Lemma slot_other t t' i j m e :
  t = f1 ∨ t = f2 → t' = f1 ∨ t' = f2 → index_ok i → index_ok j → (t', j) ≠ (t, i) →
  pte (store 8 m (t + 8 * i) e) t' j = pte m t' j.
Proof using U1 U2.
  intros Ht Ht'. apply (pte_store_other N s); [by destruct Ht as [->| ->]|].
  by destruct Ht' as [->| ->].
Qed.

Lemma setup_step_done j s1 :
  0 ≤ j < 4 → setup_state f1 f2 j s s1 →
  wp (map_page_for_setup (f1 + VIRTUAL_OFFSET) (f2 + VIRTUAL_OFFSET)
        (VIRTUAL_OFFSET + j * GIGAYBTE_BYTES)
        (VIRTUAL_OFFSET + j * GIGAYBTE_BYTES ⊟ VIRTUAL_OFFSET))
    (λ _, setup_state f1 f2 (j + 1) s) s1.
Proof using FR U1 U2 Hne.
  intros Hj SS.
  destruct (used_frame_facts N s f1 FR U1) as (A1 & A2 & A3).
  destruct (used_frame_facts N s f2 FR U2) as (B1 & B2 & B3).
  replace (VIRTUAL_OFFSET + j * GIGAYBTE_BYTES ⊟ VIRTUAL_OFFSET) with (j * GIGAYBTE_BYTES).
  2:{ unfold VIRTUAL_OFFSET, GIGAYBTE_BYTES. rewrite u64_small; lia. }
  unfold map_page_for_setup. apply wp_bind, wp_log; [done|]. intros o.
  assert (VirtualPage_get_vpn_3 (VIRTUAL_OFFSET + j * GIGAYBTE_BYTES) = 256 ∧
          VirtualPage_get_vpn_2 (VIRTUAL_OFFSET + j * GIGAYBTE_BYTES) = j) as [-> ->].
  { assert (j = 0 ∨ j = 1 ∨ j = 2 ∨ j = 3) as [->|[->|[->| ->]]] by lia; done. }
  assert (createValidPageTableEntry (PageTable_get_ppn (f2 + VIRTUAL_OFFSET)) = entry_for f2 0) as ->.
  { rewrite <- create_is_entry_for. f_equal. unfold PageTable_get_ppn, PhysicalFrame_get_ppn.
    change 0xFFFFFFFFFFF with (Z.ones 44). rewrite Z.land_ones by lia.
    unfold PAGE_SIZE, WINDOW_SIZE in *.
    replace (f2 + VIRTUAL_OFFSET - VIRTUAL_OFFSET) with f2 by lia. rewrite u64_small by lia.
    apply Z.mod_small. rewrite Z.shiftr_div_pow2 by lia. simpl. zlia. }
  assert (index_ok 256) as I256 by (unfold index_ok; lia).
  assert (index_ok j) as Ij by (unfold index_ok; lia).
  eapply wp_bind_done; [by apply setEntry_done|].
  eapply wp_done; [by apply setEntry_done|].
  cbv zeta. cbn [pmem set_pmem emit set_console].
  pose proof (entry_for_small f2 0) as E1. unfold PAGE_SIZE, WINDOW_SIZE in *.
  pose proof (entry_for_small (j * GIGAYBTE_BYTES) 0xF) as E2. unfold GIGAYBTE_BYTES in E2.
  simpl in E1, E2. split.
  - etrans; [apply SS|]. etrans; [apply (only_mem_emit o)|].
    etrans; [apply only_mem_set_pmem|]. apply only_mem_set_pmem.
  - etrans; [apply SS|]. cbn [pmem set_pmem emit set_console].
    etrans; [apply (agree_store _ 8 _ (f1 + 8 * 256))|apply agree_store];
      intros a Ha [H1 H2].
    + by apply H1, (slot_in_page f1 256).
    + by apply H2, (slot_in_page f2 j).
  - intros i Hi. cbn [pmem set_pmem emit set_console].
    rewrite slot_other by (auto || congruence). destruct (decide (i = 256)) as [->|Hd].
    + rewrite decide_True by lia. apply load_store8_eq. lia.
    + rewrite slot_other by (auto || congruence). rewrite (ss_root _ _ _ _ _ SS) by done.
      by rewrite !decide_False by tauto.
  - intros i Hi. cbn [pmem set_pmem emit set_console]. destruct (decide (i = j)) as [->|Hd].
    + rewrite decide_True by lia. apply load_store8_eq.
      unfold entry_for, GIGAYBTE_BYTES in *. lia.
    + rewrite !slot_other by (auto || congruence). rewrite (ss_second _ _ _ _ _ SS) by done.
      repeat case_decide; done || lia.
Qed.

Lemma setup_loop :
  setup_state f1 f2 0 s s →
  wp (loop (paging_init_loop (f1 + VIRTUAL_OFFSET) (f2 + VIRTUAL_OFFSET)) VIRTUAL_OFFSET)
    (λ _, setup_state f1 f2 4 s) s.
Proof using FR U1 U2 Hne.
  intros SS.
  apply (wp_loop _ (λ page s', ∃ j, page = VIRTUAL_OFFSET + j * GIGAYBTE_BYTES ∧
      0 ≤ j ≤ 4 ∧ setup_state f1 f2 j s s')
    (λ page _, VIRTUAL_OFFSET + 4 * GIGAYBTE_BYTES - page)).
  - intros page s1 (j & -> & Hj & S1). split; [unfold GIGAYBTE_BYTES; lia|].
    unfold paging_init_loop. destruct (Z.ltb_spec (VIRTUAL_OFFSET + j * GIGAYBTE_BYTES)
      (VIRTUAL_OFFSET + 4 * GIGAYBTE_BYTES)) as [Hlt|Hge].
    + assert (0 ≤ j < 4) by (unfold GIGAYBTE_BYTES in *; lia).
      apply wp_bind. eapply wp_mono; [by apply setup_step_done|].
      intros [] s2 S2. apply wp_ret.
      replace (VIRTUAL_OFFSET + j * GIGAYBTE_BYTES ⊞ GIGAYBTE_BYTES)
        with (VIRTUAL_OFFSET + (j + 1) * GIGAYBTE_BYTES).
      2:{ unfold VIRTUAL_OFFSET, GIGAYBTE_BYTES. rewrite u64_small; lia. }
      split; [|unfold GIGAYBTE_BYTES; lia]. exists (j + 1). split_and!; done || lia.
    + apply wp_ret. assert (j = 4) as -> by (unfold GIGAYBTE_BYTES in *; lia). done.
  - exists 0. split_and!; done || lia.
  - unfold GIGAYBTE_BYTES. lia.
Qed.
End setup_loop.

Lemma frames_ok_fields N s s' :
  pmem s' = pmem s → managed_frames_address_start s' = managed_frames_address_start s →
  first_frame_address s' = first_frame_address s → frames_ok N s → frames_ok N s'.
Proof.
  intros Em E1 E2 OK. apply (frames_ok_step N s); try done.
  - intros i _. unfold frame_free, frame_flag, flags_base. by rewrite Em, E1.
  - by rewrite Em.
Qed.

Lemma used_frame_fields N s s' t :
  (∀ i, 0 ≤ i < Z.of_nat N → frame_free s' i → frame_free s i) →
  first_frame_address s' = first_frame_address s → used_frame N s t → used_frame N s' t.
Proof.
  intros Hf E (i & Hi & -> & Hu). exists i. unfold frame_at. rewrite E.
  split_and!; auto; lia.
Qed.

(** The address space of the kernel: the window is mapped to physical memory from 0
    on, and superpages are nowhere else. *)
Record kernel_space (m : mem) (root : Z) : Prop := KernelSpace {
  ks_window : ∀ va, 0 ≤ va < 2 ^ 64 → in_window va = true →
    sv48 m root va = Some (va - VIRTUAL_OFFSET);
  ks_pages : ∀ va, 0 ≤ va < 2 ^ 64 → canonical va = true → in_window va = false →
    no_superpage m root va
}.

Lemma window_canonical va : in_window va = true → canonical va = true.
Proof.
  unfold in_window, canonical, VIRTUAL_OFFSET. rewrite andb_true_iff, orb_true_iff.
  rewrite Z.ltb_lt, !Z.leb_le. lia.
Qed.

Lemma setup_kernel_space N f1 f2 s : setup_tables N f1 f2 s → kernel_space (pmem s) f1.
Proof.
  intros ST. split.
  - intros va Hva Hw. rewrite (setup_sv48 N f1 f2 s ST) by done. by rewrite Hw.
  - intros va Hva Hc Hw e l. rewrite (setup_walk N f1 f2 s ST). case_decide as Hd; [|done].
    exfalso. revert Hd Hw Hc. rewrite !vpn_div by lia.
    change (2 ^ (12 + 9 * 3)) with (2 ^ 39). change (2 ^ (12 + 9 * 2)) with (2 ^ 30).
    unfold canonical, in_window, WINDOW_SIZE, VIRTUAL_OFFSET.
    rewrite orb_true_iff, andb_false_iff, !Z.ltb_lt, Z.ltb_ge, Z.leb_gt, Z.leb_le.
    simpl in *. zlia.
Qed.

(** The satp value switch_to_new_page_table writes names the first table. *)
Lemma satp_root_of_ppn f :
  0 ≤ f < 2 ^ 56 → f mod 4096 = 0 →
  satp_root (Z.lor (PhysicalFrame_get_ppn f) (Z.shiftl 9 60)) = f.
Proof.
  intros Hf Ha. unfold satp_root, PhysicalFrame_get_ppn, PAGE_SIZE.
  rewrite Z.land_lor_distr_l. change (Z.land (Z.shiftl 9 60) (Z.ones 44)) with 0.
  rewrite Z.lor_0_r, Z.land_ones, Z.shiftr_div_pow2 by lia. change (2 ^ 12) with 4096.
  rewrite Z.mod_small; simpl in *; zlia.
Qed.

(** Two frames in a row. *)
Lemma kalloc_frame_two N s :
  frames_ok N s → (2 ≤ nfree N s)%nat →
  ∃ i j s1 s2, kalloc_frame s = Done (frame_at s i) s1 ∧
    kalloc_frame s1 = Done (frame_at s j) s2 ∧ i ≠ j ∧
    (0 ≤ i < Z.of_nat N ∧ frame_free s i) ∧ (0 ≤ j < Z.of_nat N ∧ frame_free s j) ∧
    frames_ok N s2 ∧ nfree N s = (nfree N s2 + 2)%nat ∧ only_mem s s2 ∧
    (∀ k, frame_free s2 k ↔ frame_free s k ∧ k ≠ i ∧ k ≠ j) ∧
    agree (λ a, ¬ in_flags N s a) (pmem s) (pmem s2) ∧ keeps_order N s s2 ∧
    (∀ k, in_order N k s → i = k ∧ j = k + 1).
Proof.
  intros FR Hn.
  destruct (kalloc_frame_spec N s FR ltac:(lia))
    as (i1 & o1 & s1 & E1 & Es1 & Hi1 & Hf1 & Hl1 & FR1 & Hn1 & Hfree1).
  destruct (kalloc_frame_spec N s1 FR1 ltac:(lia))
    as (i2 & o2 & s2 & E2 & Es2 & Hi2 & Hf2 & Hl2 & FR2 & Hn2 & Hfree2).
  assert (only_mem s s1) as M1 by (rewrite Es1; apply only_mem_both).
  assert (only_mem s1 s2) as M2 by (rewrite Es2; apply only_mem_both).
  destruct (only_mem_frames _ _ M1) as [Eb Ef].
  apply Hfree1 in Hf2 as Hf2'. exists i1, i2, s1, s2. rewrite <- (Ef i2).
  split_and!; try done; try tauto; try lia.
  - by etrans.
  - intros k. rewrite Hfree2, Hfree1. tauto.
  - intros a Ha. unfold in_flags in Ha. rewrite Es2. cbn [pmem set_pmem emit set_console].
    rewrite rd8_wr8_ne by (rewrite Eb; lia). rewrite Es1. cbn [pmem set_pmem emit set_console].
    apply rd8_wr8_ne. lia.
  - etrans; [by apply (keeps_order_alloc N s s1 i1)|by apply (keeps_order_alloc N s1 s2 i2)].
  - intros k O. pose proof (in_order_least N k s i1 O Hi1 Hf1 Hl1) as ->. split; [done|].
    apply (in_order_least N (k + 1) s1 i2); [|done..]. apply (in_order_alloc N k s); [done|lia|done].
Qed.

(** A free frame is zero, also after other flags have changed. *)
Lemma free_frame_zero N s s' i j :
  frames_ok N s → 0 ≤ i < Z.of_nat N → frame_free s i → index_ok j →
  agree (λ a, ¬ in_flags N s a) (pmem s) (pmem s') → pte (pmem s') (frame_at s i) j = 0.
Proof.
  intros FR Hi Hf Hj Hm. apply load_zero. intros a Ha. apply slot_in_page in Ha; [|done].
  rewrite Hm; [by apply (fo_zero _ _ FR i)|]. intros Hfl. unfold in_flags in Hfl.
  apply (flags_not_in_frame N s (a - flags_base s) i FR); [lia|lia|].
  by replace (flags_base s + (a - flags_base s)) with a by lia.
Qed.

(** What the tables, and then satp, make of a state with two new frames. *)
Lemma setup_finish N s s' i j f v o :
  frames_ok N s → i ≠ j → (0 ≤ i < Z.of_nat N ∧ ¬ frame_free s i) →
  (0 ≤ j < Z.of_nat N ∧ ¬ frame_free s j) →
  setup_state (frame_at s i) (frame_at s j) 4 s s' → f = emit o (set_satp v s') →
  setup_tables N (frame_at s i) (frame_at s j) f ∧ nfree N f = nfree N s ∧ keeps_order N s f.
Proof.
  intros FR Hne [Hi Hui] [Hj Huj] SS ->. set (f := emit o _).
  assert (used_frame N s (frame_at s i)) as U1 by (by exists i).
  assert (used_frame N s (frame_at s j)) as U2 by (by exists j).
  destruct (only_mem_fields _ _ (ss_mem _ _ _ _ _ SS)) as (G1 & G2 & G3 & G4 & _).
  assert (∀ k, 0 ≤ k < Z.of_nat N → frame_flag f k = frame_flag s k) as Hflag.
  { intros k Hk. unfold frame_flag. change (flags_base f) with (flags_base s').
    unfold flags_base. rewrite G2. fold (flags_base s). apply (ss_agree _ _ _ _ _ SS).
    split; by apply (flag_not_in_used N s). }
  assert (∀ k, 0 ≤ k < Z.of_nat N → frame_free f k → frame_free s k) as Hfree.
  { intros k Hk. unfold frame_free. by rewrite Hflag. }
  split.
  2:{ split; [apply nfree_ext|apply keeps_order_same]; intros k Hk; unfold frame_free; by rewrite Hflag. }
  split.
  - apply (frames_ok_step N s); [done|done|done|done|].
    intros k a Hk Hf Ha. apply (ss_agree _ _ _ _ _ SS). apply Hfree in Hf; [|done].
    split; intros Hp.
    + by rewrite (in_frame_inj s i k a Hp Ha) in Hui.
    + by rewrite (in_frame_inj s j k a Hp Ha) in Huj.
  - by apply (used_frame_fields N s).
  - by apply (used_frame_fields N s).
  - intros E. by apply frame_at_inj in E.
  - intros k Hk. change (pmem f) with (pmem s'). rewrite (ss_root _ _ _ _ _ SS k Hk).
    repeat case_decide; done || lia.
  - intros k Hk. change (pmem f) with (pmem s'). by rewrite (ss_second _ _ _ _ _ SS k Hk).
Qed.

(** What paging_init has done: [i] and [j] are the frames of its two tables. *)
Record paging_started (N : nat) (s : kstate) (i j : Z) (s' : kstate) : Prop := PagingStarted {
  ps_i : 0 ≤ i < Z.of_nat N ∧ frame_free s i;
  ps_j : 0 ≤ j < Z.of_nat N ∧ frame_free s j;
  ps_tables : setup_tables N (frame_at s i) (frame_at s j) s';
  ps_ok : pt_ok N (frame_at s i) s';
  ps_satp : satp s' = Z.lor (PhysicalFrame_get_ppn (frame_at s i)) (Z.shiftl 9 60);
  ps_nfree : nfree N s = (nfree N s' + 2)%nat;
  ps_agree : agree (λ a, ¬ in_flags N s a ∧ ¬ in_frame s i a ∧ ¬ in_frame s j a)
    (pmem s) (pmem s');
  ps_order : keeps_order N s s';
  ps_first : ∀ k, in_order N k s → i = k ∧ j = k + 1;
  ps_vars : only_mem (set_satp (satp s') (set_first_level_table (first_level_table s') s)) s'
}.

Lemma window_pointer f :
  0 ≤ f → f + FRAME_SIZE ≤ WINDOW_SIZE → f ⊞ VIRTUAL_OFFSET = f + VIRTUAL_OFFSET.
Proof. unfold VIRTUAL_OFFSET, WINDOW_SIZE, FRAME_SIZE. intros. rewrite u64_small; lia. Qed.

Lemma paging_init_spec N s :
  frames_ok N s → (2 ≤ nfree N s)%nat →
  ∃ i j s', paging_init s = Done () s' ∧ paging_started N s i j s'.
Proof.
  intros FR Hn.
  assert (wp paging_init (λ _ s', ∃ i j, paging_started N s i j s') s) as W.
  2:{ apply wp_inv in W as ([] & s' & E & i & j & H). by exists i, j, s'. }
  unfold paging_init. apply wp_bind, wp_log; [done|]. intros o0.
  pose proof (frames_ok_emit N o0 s FR) as FR0. set (s0 := emit o0 s) in *.
  destruct (kalloc_frame_two N s0 FR0 Hn)
    as (i & j & s1 & s2 & E1 & E2 & Hne & [Hi Hfi] & [Hj Hfj] & FR2 & Hn2 & M2 & Hf2 & Ha2 & Ho2 & Hk2).
  eapply wp_bind_done; [exact E1|]. eapply wp_bind_done; [exact E2|].
  unfold PhysicalFrame_get_address. cbv zeta.
  change (frame_at s0) with (frame_at s).
  destruct (frame_at_range N s i FR Hi) as [A1 A2]. destruct (frame_at_range N s j FR Hj) as [B1 B2].
  rewrite !window_pointer by done.
  apply wp_bind, wp_modify, wp_bind, wp_log; [done|]. intros o3.
  apply wp_bind, wp_log; [done|]. intros o4.
  set (s3 := emit o4 (emit o3 (set_first_level_table _ s2))).
  assert (frames_ok N s3) as FR3 by (by apply (frames_ok_fields N s2)).
  assert (∀ k, frame_at s3 k = frame_at s k) as Ef
    by (intros k; apply (only_mem_frames s0 s2 M2)).
  assert (∀ k, frame_free s3 k ↔ frame_free s k ∧ k ≠ i ∧ k ≠ j) as Hf3 by done.
  assert (setup_state (frame_at s3 i) (frame_at s3 j) 0 s3 s3) as SS0.
  { split; try done; intros k Hk; rewrite Ef, decide_False by (unfold index_ok in Hk; lia);
      by apply (free_frame_zero N s0). }
  rewrite <- !Ef. apply wp_bind. eapply wp_mono.
  { apply (setup_loop N _ _ s3); [done| | | |done].
    - exists i. rewrite Hf3. tauto.
    - exists j. rewrite Hf3. tauto.
    - intros E. by apply frame_at_inj in E. }
  intros [] s4 SS. unfold switch_to_new_page_table. apply wp_bind, wp_modify.
  apply wp_log; [done|]. intros o5. exists i, j.
  set (f := emit o5 _).
  destruct (setup_finish N s3 s4 i j f _ o5 FR3 Hne ltac:(rewrite Hf3; tauto)
    ltac:(rewrite Hf3; tauto) SS eq_refl) as (ST & Hfree & Ho5).
  rewrite !Ef in *. split; try done.
  - apply (setup_pt_ok N _ (frame_at s j)); [done| |].
    + destruct (only_mem_fields _ _ (ss_mem _ _ _ _ _ SS)) as (_ & _ & _ & G4 & _). exact G4.
    + change (satp f) with (Z.lor (PhysicalFrame_get_ppn (frame_at s3 i)) (Z.shiftl 9 60)).
      rewrite Ef. apply satp_root_of_ppn; [|by apply (frame_at_aligned N)].
      unfold FRAME_SIZE, WINDOW_SIZE in *. simpl. lia.
  - change (satp f) with (Z.lor (PhysicalFrame_get_ppn (frame_at s3 i)) (Z.shiftl 9 60)).
    by rewrite Ef.
  - rewrite Hfree. exact Hn2.
  - etrans; [|eapply agree_mono; [|apply (ss_agree _ _ _ _ _ SS)]].
    + intros a [Ha _]. by apply Ha2.
    + intros a (_ & Hp). exact Hp.
  - etrans; [by apply (keeps_order_same N s s0)|]. etrans; [exact Ho2|].
    etrans; [by apply (keeps_order_same N s2 s3)|exact Ho5].
  - intros k O. apply Hk2. by apply (in_order_same N k s).
  - destruct M2 as (o2 & m2 & E2'), (ss_mem _ _ _ _ _ SS) as (o6 & m6 & E6). unfold f. rewrite E6. unfold s3.
    rewrite E2'. exists (o0 ++ o2 ++ o3 ++ o4 ++ o6 ++ o5), m6. destruct s. unfold emit, set_console. cbn.
    by rewrite !app_assoc.
Qed.

(** ** Mapping keeps what it does not touch *)

Lemma mapped_walk_at N root k va p f s s' :
  mapped N root k va (entry_for p f) s s' → 0 ≤ p < 2 ^ 52 → leaf_flag f = true →
  pt_walk (pmem s') root (vpns va) = WalkLeaf (entry_for p f) 0.
Proof.
  intros Mp Hp Hf. destruct (vpns_ok va).
  rewrite (mp_walk _ _ _ _ _ _ _ Mp), decide_True by done. by apply entry_for_leaf.
Qed.

Lemma mapped_no_superpage N root k va p f s s' va' :
  mapped N root k va (entry_for p f) s s' → 0 ≤ p < 2 ^ 52 → leaf_flag f = true →
  no_superpage (pmem s) root va' → no_superpage (pmem s') root va'.
Proof.
  intros Mp Hp Hf Hno e l. destruct (vpns_ok va').
  rewrite (mp_walk _ _ _ _ _ _ _ Mp) by done. case_decide; [|by apply Hno].
  rewrite entry_for_leaf by done. by intros [= <- <-].
Qed.

(** A walk that ends in a leaf of the last level has met a page. *)
Lemma walk_leaf_pages N root s va e :
  pt_ok N root s → pt_walk (pmem s) root (vpns va) = WalkLeaf e 0 →
  no_superpage (pmem s) root va ∧ pages_ok (pmem s) root va.
Proof.
  intros OK Hw. split.
  - intros e' l E. rewrite Hw in E. congruence.
  - intros t Hn HV. destruct (vpn_paths va) as (_ & _ & _ & P3).
    change (vpns va) with ([vpn 3 va; vpn 2 va; vpn 1 va] ++ [vpn 0 va]) in Hw.
    rewrite (walk_node N root s [vpn 3 va; vpn 2 va; vpn 1 va] t) in Hw by done.
    rewrite pt_walk_cons in Hw. cbv zeta in Hw. unfold leaf_walk.
    destruct (pte_bad (pte (pmem s) t (vpn 0 va))); [done|].
    by destruct (pte_leaf (pte (pmem s) t (vpn 0 va))).
Qed.

(** A walk that ends in the last level goes through a table of that level. *)
Lemma walk_node_some m q i e : ∀ t, pt_walk m t (q ++ [i]) = WalkLeaf e 0 → is_Some (node m t q).
Proof.
  induction q as [|j q IH]; intros t Hw; [done|]. cbn [app] in Hw. rewrite pt_walk_cons in Hw. cbv zeta in Hw.
  destruct (pte_bad (pte m t j)) eqn:Hb; [done|]. destruct (pte_leaf (pte m t j)) eqn:Hl.
  { injection Hw as _ Hlen. rewrite length_app in Hlen. simpl in Hlen. lia. }
  cbn [node]. assert (step m t j = Some (pte_frame (pte m t j))) as ->.
  { apply step_Some. split_and!; [by apply not_bad_V|done|done]. }
  cbn [mbind option_bind]. by apply IH.
Qed.

Lemma walk_has_table root s va e : pt_walk (pmem s) root (vpns va) = WalkLeaf e 0 → has_table root s va.
Proof. intros Hw. by apply (walk_node_some (pmem s) [vpn 3 va; vpn 2 va; vpn 1 va] (vpn 0 va) e). Qed.

(** Addresses in the same 2 MiB have the same table. *)
Lemma has_table_near root s va va' : va / 2 ^ 21 = va' / 2 ^ 21 → has_table root s va → has_table root s va'.
Proof.
  intros E. unfold has_table. assert (∀ k, 1 ≤ k ≤ 3 → vpn k va' = vpn k va) as H; [|by rewrite !H by lia].
  intros k Hk. unfold vpn. f_equal. replace (12 + 9 * k) with (21 + 9 * (k - 1)) by lia.
  rewrite <- !Z.shiftr_shiftr by lia. by rewrite !(Z.shiftr_div_pow2 _ 21), E by lia.
Qed.

Lemma page_of_window va va' : va / 4096 = va' / 4096 → in_window va = in_window va'.
Proof.
  intros E. unfold in_window, WINDOW_SIZE, VIRTUAL_OFFSET. f_equal; apply eq_true_iff_eq.
  - rewrite !Z.leb_le. zlia.
  - rewrite !Z.ltb_lt. zlia.
Qed.

Lemma mapped_kernel_space N root k va p f s s' :
  mapped N root k va (entry_for p f) s s' →
  0 ≤ va < 2 ^ 64 → canonical va = true → in_window va = false →
  0 ≤ p < 2 ^ 52 → p mod 4096 = 0 → 0 ≤ f < 1024 → leaf_flag f = true →
  kernel_space (pmem s) root → kernel_space (pmem s') root.
Proof.
  intros Mp Hva Hc Hw Hp Ha Hf Hleaf KS. split.
  - intros va' Hva' Hw'. rewrite (mapped_sv48 N root k va p f s s') by done.
    rewrite decide_False; [by apply KS|]. intros E. apply page_of_window in E. congruence.
  - intros va' Hva' Hc' Hw'. apply (mapped_no_superpage N root k va p f s s'); try done.
    by apply KS.
Qed.

(** * Properties *)

(** C3: map_page maps exactly one page.  With three free frames, outside the
    superpages, it returns; afterwards the hardware translates every address of the
    page to the frame, with the entry that carries [flag], and every other address as
    before; the tables stay a tree in allocated frames, at most three frames were
    taken, no byte outside the tables and the allocator's flags has changed, and the
    identity window survives the mapping of a page outside it. *)
Theorem map_page_correct (N : nat) (root va p flag : Z) (s : kstate) :
  pt_ok N root s → no_superpage (pmem s) root va → (3 ≤ nfree N s)%nat →
  0 ≤ va < 2 ^ 64 → canonical va = true →
  0 ≤ p < 2 ^ 52 → p mod 4096 = 0 → 0 ≤ flag < 1024 → leaf_flag flag = true →
  ∃ s', map_page va p flag s = Done () s' ∧ pt_ok N root s' ∧
    (∀ va', 0 ≤ va' < 2 ^ 64 →
       sv48 (pmem s') root va' =
       if decide (va' / 4096 = va / 4096) then Some (p + va' mod 4096)
       else sv48 (pmem s) root va') ∧
    pt_walk (pmem s') root (vpns va) = WalkLeaf (entry_for p flag) 0 ∧
    (nfree N s ≤ nfree N s' + 3)%nat ∧ only_mem s s' ∧
    agree (outside_tables N root s') (pmem s) (pmem s') ∧
    (in_window va = false → kernel_space (pmem s) root → kernel_space (pmem s') root).
Proof.
  intros OK Hno Hfree Hva Hc Hp Ha Hf Hleaf.
  destruct (map_page_spec N root s va p flag) as (s' & E & Mp); try done; [simpl in *; lia|].
  exists s'. split_and!; try done; try apply Mp.
  - intros va' Hva'. by apply (mapped_sv48 N root 3 va p flag s s').
  - by apply (mapped_walk_at N root 3 va p flag s s').
  - intros Hw. by apply (mapped_kernel_space N root 3 va p flag s s').
Qed.

(** C6: get_physical_address_of_virtual_address computes the hardware's Sv48
    translation: for a canonical address on whose path there is no superpage and whose
    last entry, if valid, is a page, it returns the physical address and changes nothing
    when the address is mapped; when it is not it returns 0 and prints, if errors are
    logged, the line that names the first level without a valid entry and the table
    there. *)
Theorem translation_agrees (N : nat) (root va : Z) (s : kstate) :
  pt_ok N root s → no_superpage (pmem s) root va → pages_ok (pmem s) root va →
  canonical va = true →
  ∃ out, get_physical_address_of_virtual_address va s =
    Done (default 0 (sv48 (pmem s) root va)) (emit out s) ∧ explained s root va out.
Proof.
  intros OK Hno Hpages Hc.
  destruct (wp_inv _ _ _ (translate_spec N root s va OK Hno Hpages Hc))
    as (r & s' & E & out & -> & -> & Hout).
  by exists out.
Qed.

(** C27: the kernel finds the frame it mapped: after map_page, the kernel's own walk
    takes every address of the page to its place in the frame. *)
Theorem map_page_translate_roundtrip (N : nat) (root va p flag : Z) (s : kstate) :
  pt_ok N root s → no_superpage (pmem s) root va → (3 ≤ nfree N s)%nat →
  0 ≤ va < 2 ^ 64 → canonical va = true →
  0 ≤ p < 2 ^ 52 → p mod 4096 = 0 → 0 ≤ flag < 1024 → leaf_flag flag = true →
  wp (map_page va p flag) (λ _ s', ∀ va', 0 ≤ va' < 2 ^ 64 → va' / 4096 = va / 4096 →
    get_physical_address_of_virtual_address va' s' = Done (p + va' mod 4096) s') s.
Proof.
  intros OK Hno Hfree Hva Hc Hp Ha Hf Hleaf.
  destruct (map_page_spec N root s va p flag) as (s' & E & Mp); try done; [simpl in *; lia|].
  apply (wp_done _ _ _ _ _ E). intros va' Hva' Epage.
  pose proof (mapped_walk_at N root 3 va p flag s s' Mp Hp Hleaf) as Hw.
  rewrite <- (vpns_page va' va Epage) in Hw.
  destruct (walk_leaf_pages N root s' va' _ (mp_ok _ _ _ _ _ _ _ Mp) Hw) as [Hno' Hpages'].
  assert (sv48 (pmem s') root va' = Some (p + va' mod 4096)) as Et.
  { by rewrite (mapped_sv48 N root 3 va p flag s s'), decide_True by done. }
  rewrite (canonical_page va va') in Hc by done.
  destruct (wp_inv _ _ _ (translate_spec N root s' va' (mp_ok _ _ _ _ _ _ _ Mp) Hno' Hpages' Hc))
    as (r & s1 & E1 & out & -> & -> & Hout).
  apply explained_mapped in Hout as ->; [|by rewrite Et]. by rewrite E1, Et, emit_nil.
Qed.

(** C13: paging_init builds the direct map: with two free frames it returns, satp
    names a well-formed table tree, and the hardware translates the 4 GiB from
    VIRTUAL_OFFSET on to physical memory from 0 on and nothing else, which is the
    window the kernel reaches the tables through. *)
Theorem paging_init_direct_map (N : nat) (s : kstate) :
  frames_ok N s → (2 ≤ nfree N s)%nat →
  ∃ root s', paging_init s = Done () s' ∧ pt_ok N root s' ∧
    satp_root (satp s') = root ∧ Z.shiftr (satp s') 60 = 9 ∧
    (∀ va, 0 ≤ va < 2 ^ 64 →
       sv48 (pmem s') root va = if in_window va then Some (va - VIRTUAL_OFFSET) else None) ∧
    (∀ va, 0 ≤ va < 2 ^ 64 → resolve s' va = sv48 (pmem s') root va) ∧
    kernel_space (pmem s') root ∧ nfree N s = (nfree N s' + 2)%nat.
Proof.
  intros FR Hn. destruct (paging_init_spec N s FR Hn) as (i & j & s' & E & PS).
  pose proof (ps_tables _ _ _ _ _ PS) as ST. pose proof (pt_satp _ _ _ (ps_ok _ _ _ _ _ PS)) as Hs.
  exists (frame_at s i), s'. split_and!; try done; [apply PS| |..].
  - rewrite (ps_satp _ _ _ _ _ PS), Z.shiftr_lor. change (Z.shiftr (Z.shiftl 9 60) 60) with 9.
    destruct (frame_at_range N s i FR) as [H1 H2]; [apply PS|].
    unfold PhysicalFrame_get_ppn. rewrite Z.shiftr_shiftr, Z.shiftr_div_pow2 by lia.
    rewrite Z.div_small; [done|]. unfold FRAME_SIZE, WINDOW_SIZE in *. simpl. lia.
  - intros va Hva. by apply (setup_sv48 N (frame_at s i) (frame_at s j) s' ST).
  - intros va Hva. unfold resolve. simpl in Hva. rewrite u64_small by lia.
    destruct (in_window va) eqn:Ew; [|by rewrite Hs].
    rewrite (setup_sv48 N (frame_at s i) (frame_at s j) s' ST) by (simpl; lia). by rewrite Ew.
  - by apply (setup_kernel_space N (frame_at s i) (frame_at s j) s').
  - apply (ps_nfree _ _ _ _ _ PS).
Qed.

(** The kernel's walk ignores that an entry can be a leaf of a higher level: for
    an address of the direct map, which the hardware translates, it takes the start
    of the address's gigabyte of physical memory for a page table, and when the word
    it finds there has bit 0 clear it reports the address as unmapped. *)
Theorem translation_misses_superpages (N : nat) (f1 f2 va : Z) (s : kstate) :
  setup_tables N f1 f2 s → pt_ok N f1 s → in_window va = true → 0 ≤ va < 2 ^ 64 →
  pte_V (pte (pmem s) (vpn 2 va * GIGAYBTE_BYTES) (vpn 1 va)) = false →
  sv48 (pmem s) f1 va = Some (va - VIRTUAL_OFFSET) ∧
  ∃ out, get_physical_address_of_virtual_address va s = Done 0 (emit out s).
Proof.
  intros ST OK Hw Hva Hinv. split; [rewrite (setup_sv48 N f1 f2 s ST) by done; by rewrite Hw|].
  assert (vpn 3 va = 256 ∧ vpn 2 va < 4) as [E3 E2].
  { assert (sv48 (pmem s) f1 va ≠ None) as Hs.
    { rewrite (setup_sv48 N f1 f2 s ST) by done. by rewrite Hw. }
    unfold sv48 in Hs. rewrite (setup_walk N f1 f2 s ST), (window_canonical va Hw) in Hs.
    by case_decide. }
  pose proof (vpn_range 3 va ltac:(lia)) as I3. pose proof (vpn_range 2 va ltac:(lia)) as I2.
  pose proof (vpn_range 1 va ltac:(lia)) as I1.
  pose proof (st_frames _ _ _ _ ST) as FR.
  destruct (used_frame_facts N s f1 FR (st_used1 _ _ _ _ ST)) as (A1 & A2 & _).
  destruct (used_frame_facts N s f2 FR (st_used2 _ _ _ _ ST)) as (B1 & B2 & _).
  destruct (setup_f2 N f1 f2 s ST) as [F1 F2]. destruct (entry_for_table f2 F1 F2) as (V1 & _ & _ & Ef & S1).
  destruct (setup_giga (vpn 2 va)) as (V2 & _ & Eg & S2); [lia|].
  assert (wp (get_physical_address_of_virtual_address va)
    (λ r s', r = 0 ∧ ∃ out, s' = emit out s) s) as W.
  2:{ apply wp_inv in W as (r & s' & E & -> & out & ->). by exists out. }
  unfold get_physical_address_of_virtual_address. cbv zeta. apply wp_bind, wp_gets.
  rewrite (pt_first _ _ _ OK). change (VirtualPage_get_vpn_3 va) with (vpn 3 va).
  change (VirtualPage_get_vpn_2 va) with (vpn 2 va). change (VirtualPage_get_vpn_1 va) with (vpn 1 va).
  assert (pte (pmem s) f1 (vpn 3 va) = entry_for f2 0) as P1.
  { rewrite (st_root _ _ _ _ ST _ I3). by rewrite decide_True. }
  assert (pte (pmem s) f2 (vpn 2 va) = entry_for (vpn 2 va * GIGAYBTE_BYTES) 0xF) as P2.
  { rewrite (st_second _ _ _ _ ST _ I2). by rewrite decide_True. }
  eapply wp_bind_done; [by apply isEntryValid_done|]. rewrite P1, V1. cbn [negb].
  eapply wp_bind_done; [apply getPhysicalFrame_done; auto; by rewrite P1|].
  rewrite P1, Ef, (table_pointer N s f2) by (done || apply ST).
  eapply wp_bind_done; [by apply isEntryValid_done|]. rewrite P2, (not_bad_V _ V2). cbn [negb].
  eapply wp_bind_done; [apply getPhysicalFrame_done; auto; by rewrite P2|].
  rewrite P2, Eg. unfold GIGAYBTE_BYTES in *. rewrite window_pointer by (unfold FRAME_SIZE, WINDOW_SIZE; lia).
  eapply wp_bind_done; [apply isEntryValid_done; unfold PAGE_SIZE, WINDOW_SIZE; lia || done|].
  rewrite Hinv. cbn [negb]. unfold translation_error. apply wp_bind, wp_log; [done|].
  intros o. apply wp_ret. by eauto.
Qed.

(** * Witnesses *)

(** [start] after paging_init, and then with one heap page mapped. *)
Definition paged : kstate :=
  match paging_init start with Done _ s => s | Fault _ s => s end.
Definition heap_page : Z := 0xFFFF800100000000.
Definition paged_heap : kstate :=
  match map_page heap_page 0x80300000 0xF paged with Done _ s => s | Fault _ s => s end.

Lemma paged_started :
  ∃ i j, paging_init start = Done () paged ∧ paging_started 64 start i j paged.
Proof.
  destruct (paging_init_spec 64 start start_frames_ok) as (i & j & s' & E & PS).
  { rewrite start_nfree. lia. }
  exists i, j. unfold paged. rewrite E. exact (conj eq_refl PS).
Qed.

Lemma paged_root i j : paging_started 64 start i j paged → frame_at start i = 0x80208000.
Proof.
  intros PS. rewrite <- (pt_satp _ _ _ (ps_ok _ _ _ _ _ PS)). vm_compute. reflexivity.
Qed.

Lemma paged_ok :
  pt_ok 64 0x80208000 paged ∧ kernel_space (pmem paged) 0x80208000 ∧ nfree 64 paged = 62%nat ∧
  ∃ f, setup_tables 64 0x80208000 f paged.
Proof.
  destruct paged_started as (i & j & _ & PS). rewrite <- (paged_root i j PS).
  pose proof (ps_nfree _ _ _ _ _ PS) as Hn. rewrite start_nfree in Hn.
  split_and!; [apply PS|by apply (setup_kernel_space 64 _ (frame_at start j)), PS|lia|].
  exists (frame_at start j). apply PS.
Qed.

Lemma paged_free : (3 ≤ nfree 64 paged)%nat.
Proof. destruct paged_ok as (_ & _ & Hn & _). rewrite Hn. lia. Qed.

#[local] Opaque paged paged_heap.

Lemma heap_page_free : no_superpage (pmem paged) 0x80208000 heap_page.
Proof. by apply (ks_pages _ _ (proj1 (proj2 paged_ok))). Qed.

Lemma paged_heap_mapped :
  mapped 64 0x80208000 3 heap_page (entry_for 0x80300000 0xF) paged paged_heap.
Proof.
  destruct paged_ok as (OK & _).
  destruct (map_page_spec 64 0x80208000 paged heap_page 0x80300000 0xF OK heap_page_free
    paged_free) as (s' & E & Mp); [done..|].
  Transparent paged_heap. unfold paged_heap. rewrite E. exact Mp.
Qed.

Lemma map_page_correct_witness :
  ∃ s', map_page heap_page 0x80300000 0xF paged = Done () s' ∧ pt_ok 64 0x80208000 s' ∧
    (∀ va', 0 ≤ va' < 2 ^ 64 →
       sv48 (pmem s') 0x80208000 va' =
       if decide (va' / 4096 = heap_page / 4096) then Some (0x80300000 + va' mod 4096)
       else sv48 (pmem paged) 0x80208000 va') ∧
    pt_walk (pmem s') 0x80208000 (vpns heap_page) = WalkLeaf (entry_for 0x80300000 0xF) 0 ∧
    (nfree 64 paged ≤ nfree 64 s' + 3)%nat ∧ only_mem paged s' ∧
    agree (outside_tables 64 0x80208000 s') (pmem paged) (pmem s') ∧
    (in_window heap_page = false → kernel_space (pmem paged) 0x80208000 →
     kernel_space (pmem s') 0x80208000).
Proof.
  destruct paged_ok as (OK & _).
  apply (map_page_correct 64 0x80208000 heap_page 0x80300000 0xF paged OK heap_page_free
    paged_free); done.
Defined.

(** An address that is mapped, and one without an entry in the first table. *)
Lemma translation_agrees_witness :
  (∃ out, get_physical_address_of_virtual_address (heap_page + 0x123) paged_heap =
    Done (default 0 (sv48 (pmem paged_heap) 0x80208000 (heap_page + 0x123))) (emit out paged_heap) ∧
    explained paged_heap 0x80208000 (heap_page + 0x123) out) ∧
  ∃ out, get_physical_address_of_virtual_address 0x10000 paged = Done 0 (emit out paged) ∧
    explained paged 0x80208000 0x10000 out.
Proof.
  split.
  - pose proof (mp_ok _ _ _ _ _ _ _ paged_heap_mapped) as OK.
    destruct (walk_leaf_pages 64 0x80208000 paged_heap (heap_page + 0x123)
      (entry_for 0x80300000 0xF) OK) as [Hno Hpages].
    { by apply (mapped_walk_at 64 _ 3 _ _ _ paged _ paged_heap_mapped). }
    by apply (translation_agrees 64 0x80208000 (heap_page + 0x123) paged_heap OK Hno Hpages).
  - destruct paged_ok as (OK & _).
    assert (step (pmem paged) 0x80208000 (vpn 3 0x10000) = None) as Hs by (vm_compute; reflexivity).
    apply (translation_agrees 64 0x80208000 0x10000 paged OK); [| |done].
    + intros e l Hw. assert (pt_walk (pmem paged) 0x80208000 (vpns 0x10000) = WalkFault) as Hf by (vm_compute; reflexivity).
      rewrite Hf in Hw. discriminate Hw.
    + intros t Ht. cbn [node] in Ht. rewrite Hs in Ht. discriminate Ht.
Defined.

Lemma map_page_translate_roundtrip_witness :
  wp (map_page heap_page 0x80300000 0xF) (λ _ s', ∀ va', 0 ≤ va' < 2 ^ 64 →
    va' / 4096 = heap_page / 4096 →
    get_physical_address_of_virtual_address va' s' = Done (0x80300000 + va' mod 4096) s') paged.
Proof.
  destruct paged_ok as (OK & _).
  apply (map_page_translate_roundtrip 64 0x80208000 heap_page 0x80300000 0xF paged OK
    heap_page_free paged_free); done.
Defined.

Lemma paging_init_direct_map_witness :
  ∃ root s', paging_init start = Done () s' ∧ pt_ok 64 root s' ∧
    satp_root (satp s') = root ∧ Z.shiftr (satp s') 60 = 9 ∧
    (∀ va, 0 ≤ va < 2 ^ 64 →
       sv48 (pmem s') root va = if in_window va then Some (va - VIRTUAL_OFFSET) else None) ∧
    (∀ va, 0 ≤ va < 2 ^ 64 → resolve s' va = sv48 (pmem s') root va) ∧
    kernel_space (pmem s') root ∧ nfree 64 start = (nfree 64 s' + 2)%nat.
Proof.
  apply (paging_init_direct_map 64 start start_frames_ok). rewrite start_nfree. lia.
Defined.

Lemma translation_misses_superpages_witness :
  sv48 (pmem paged) 0x80208000 (VIRTUAL_OFFSET + 0x80208000) =
    Some (VIRTUAL_OFFSET + 0x80208000 - VIRTUAL_OFFSET) ∧
  ∃ out, get_physical_address_of_virtual_address (VIRTUAL_OFFSET + 0x80208000) paged =
    Done 0 (emit out paged).
Proof.
  destruct paged_ok as (OK & _ & _ & f & ST).
  apply (translation_misses_superpages 64 0x80208000 f (VIRTUAL_OFFSET + 0x80208000) paged ST OK);
    [reflexivity|done|vm_compute; reflexivity].
Defined.
