(* ===== verification/BootTables.v ===== *)
(** The first instructions of the kernel (kernel/boot.s): hart 0 builds the page tables
    the kernel is entered with, in machine mode, whose accesses are physical.

    A register of the assembly is a variable of the same name or the value it holds; the
    addresses [la] forms are relative to the program counter, so that they are physical
    here although the kernel is linked behind VIRTUAL_OFFSET.  Against the hardware's
    translation (Sv48.v) the tables are what Machine.v assumes of them until paging_init
    switches to its own. *)

From S2P Require Import Prelude Monad Memory Sv48 Machine Layout Samples Stdio PhysAlloc Paging AddressSpace.

(** * The code *)

(** Where the linker put the labels of boot.s and what it jumps to. *)
Class BootLabels := {
  boot_tables : Z;   (* the first label of its .bss *)
  stacks : Z;
  machine_handler_address : Z;      (* jump_to_machine_exception_handler *)
  supervisor_handler_address : Z;   (* jump_to_supervisor_exception_handler *)
  os_start_address : Z
}.

(** The machine's control registers and the stack pointer at the final mret. *)
Record entry := Entry {
  mtvec : Z; stvec : Z; mepc : Z; mstatus : Z; pmpcfg0 : Z; pmpaddr0 : Z; sp : Z
}.

Section code.
Context `{BootLabels}.

(** The tables lie one after the other, 4096 bytes each. *)
Definition boot_page_directory : Z := boot_tables.
Definition boot_first_level_table : Z := boot_tables + 4096.
Definition boot_second_level_table : Z := boot_tables + 2 * 4096.
Definition boot_third_level_table : Z := boot_tables + 3 * 4096.
Definition boot_uart_second_level_table : Z := boot_tables + 5 * 4096.
Definition boot_uart_third_level_table : Z := boot_tables + 6 * 4096.
Definition STACK_SIZE : Z := 8192.
Definition UART : Z := 0x10000000.

(** lui a0, %hi(0x80000000) (sign-extended); slli a0, a0, 16. *)
Definition virtual_offset_register : Z := u64 (Z.shiftl 0xFFFFFFFF80000000 16).

(** addi s1, zero, 8; mul s1, s1, index; add s1, s1, table; srli s2, target, 2;
    or s2, s2, flags; sd s2, 0(s1). *)
Definition set_entry (table index target flags : Z) : K () :=
  let s1 := u64 (8 * index) ⊞ table in
  let s2 := Z.lor (Z.shiftr target 2) flags in
  modify (λ s, set_pmem (store 8 (pmem s) s1 s2) s).

(** The virtual address in a0, the physical one in s7. *)
Definition boot_map_address (a0 s7 : Z) : K () :=
  let a1 := Z.land (Z.shiftr (Z.shiftr a0 20) 19) 511 in
  let a2 := Z.land (Z.shiftr (Z.shiftr a0 20) 10) 511 in
  let a3 := Z.land (Z.shiftr a0 21) 511 in
  let a4 := Z.land (Z.shiftr a0 12) 511 in
  set_entry boot_page_directory a1 boot_first_level_table 0x1;;
  set_entry boot_first_level_table a2 boot_second_level_table 0x1;;
  set_entry boot_second_level_table a3 boot_third_level_table 0x1;;
  set_entry boot_third_level_table a4 s7 0xF.

Definition boot_uart_map_address : K () :=
  let a0 := UART ⊞ virtual_offset_register in
  let s7 := UART in
  let a2 := Z.land (Z.shiftr (Z.shiftr a0 20) 10) 511 in
  let a3 := Z.land (Z.shiftr a0 21) 511 in
  let a4 := Z.land (Z.shiftr a0 12) 511 in
  set_entry boot_first_level_table a2 boot_uart_second_level_table 0x1;;
  set_entry boot_uart_second_level_table a3 boot_uart_third_level_table 0x1;;
  set_entry boot_uart_third_level_table a4 s7 0xF.

(** bge compares as signed numbers. *)
Definition s64 (z : Z) : Z := if z <? 0x8000000000000000 then z else z - 0x10000000000000000.

(** One round, with s7 and s8 as the last round left them. *)
Definition map_next_address (s9 : Z) : Z * Z → K (Z * Z + ()) := λ '(s7, s8),
  let s11 := Z.shiftl 0x1 12 in
  let s7 := s7 ⊞ s11 in
  let s8 := s8 ⊞ s11 in
  if s64 s9 <=? s64 s8 then mret (inr ())
  else boot_map_address s8 s7;; mret (inl (s7, s8)).

Definition jump_to_c (sp mstatus : Z) : K entry :=
  boot_uart_map_address;;
  let a6 := Z.shiftl (Z.shiftl (Z.shiftl 9 20) 20) 20 in
  let a5 := Z.lor (Z.shiftr boot_page_directory 12) (u64 a6) in
  modify (set_satp a5);;
  mret {| mtvec := machine_handler_address;
          stvec := virtual_offset_register ⊞ supervisor_handler_address;
          mepc := virtual_offset_register ⊞ os_start_address;
          mstatus := Z.lor (Z.shiftl 1 11) mstatus;
          pmpcfg0 := 0x1f;
          pmpaddr0 := u64 (Z.lnot 0);
          sp := sp ⊞ virtual_offset_register |}.

(** [mhartid] and [mstatus] are what csrr reads.  The other harts stay in [park]. *)
Definition _start `{Layout} (mhartid mstatus : Z) : K entry :=
  if negb (mhartid =? 0) then fail NeverReturns else
  let sp := stacks ⊞ STACK_SIZE in
  let s9 := u64 (Z.shiftl 280 12) ⊞ (BSS_END - VIRTUAL_OFFSET) in
  let s9 := virtual_offset_register ⊞ s9 in
  let a2 := TEXT_START - VIRTUAL_OFFSET in
  let a0 := virtual_offset_register ⊞ a2 in
  let s7 := a2 in
  let s8 := a0 in
  boot_map_address a0 s7;;
  loop (map_next_address s9) (s7, s8);;
  jump_to_c sp mstatus.
End code.

(** The link of linker.ld: .text starts on a page, .bss ends behind the tables and the
    image with its 280 extra pages ends inside RAM.  That the tables are page aligned is
    up to the order of the .bss sections; boot.s does not ask for it. *)
Class BootLabelsOk (L : Layout) (B : BootLabels) : Prop := {
  text_start_low : VIRTUAL_OFFSET + RAM_ORIGIN ≤ TEXT_START;
  text_start_page : (TEXT_START - VIRTUAL_OFFSET) mod 4096 = 0;
  bss_end_room : BSS_END + 280 * 4096 ≤ VIRTUAL_OFFSET + RAM_ORIGIN + RAM_LENGTH;
  tables_page : boot_tables mod 4096 = 0;
  tables_low : TEXT_START - VIRTUAL_OFFSET ≤ boot_tables;
  tables_high : boot_tables + 7 * 4096 ≤ BSS_END - VIRTUAL_OFFSET
}.

(** * Table entries *)

Section tables.
Context `{BO : BootLabelsOk}.

Definition KERNEL_START : Z := TEXT_START - VIRTUAL_OFFSET.
Definition KERNEL_END : Z := BSS_END - VIRTUAL_OFFSET.

(** Entry [i] of table number [k]. *)
Definition table (k : Z) : Z := boot_tables + k * 4096.
Definition tab (m : mem) (k i : Z) : Z := pte m (table k) i.
Definition link_entry (k : Z) : Z := Z.lor (Z.shiftr (table k) 2) 1.
Definition page_entry (p : Z) : Z := Z.lor (Z.shiftr p 2) 0xF.

Lemma table_bounds k : 0 ≤ k < 7 → 0 ≤ table k ∧ table k + 4096 ≤ WINDOW_SIZE ∧ table k mod 4096 = 0.
Proof using BO.
  intros Hk. unfold table. pose proof tables_page. pose proof tables_low. pose proof tables_high.
  pose proof text_start_low. pose proof bss_end_room. unfold RAM_ORIGIN, RAM_LENGTH, WINDOW_SIZE in *.
  split_and!; [lia|lia|zlia].
Qed.

Lemma shiftr_2 a : a mod 4096 = 0 → Z.shiftr a 2 = Z.shiftl (a / 4096) 10.
Proof. intros. rewrite Z.shiftr_div_pow2, Z.shiftl_mul_pow2 by lia. simpl (2 ^ _). zlia. Qed.

(** An entry with the flags [f] for the page at [a]. *)
Lemma entry_frame a f :
  0 ≤ a < WINDOW_SIZE → a mod 4096 = 0 → 0 ≤ f < 1024 → pte_frame (Z.lor (Z.shiftr a 2) f) = a.
Proof.
  intros Ha Hm Hf. unfold WINDOW_SIZE in Ha. rewrite shiftr_2, pte_frame_lor; [|simpl; zlia|done|done].
  unfold PAGE_SIZE. zlia.
Qed.
Lemma entry_bit a f k :
  a mod 4096 = 0 → 0 ≤ k < 10 → Z.testbit (Z.lor (Z.shiftr a 2) f) k = Z.testbit f k.
Proof. intros. rewrite shiftr_2 by done. by apply pte_bits. Qed.
Lemma entry_range a f :
  0 ≤ a < WINDOW_SIZE → 0 ≤ f < 16 → 0 ≤ Z.lor (Z.shiftr a 2) f < 0x10000000000000000.
Proof.
  intros Ha Hf. unfold WINDOW_SIZE in Ha. split; [apply Z.lor_nonneg; rewrite Z.shiftr_nonneg; lia|].
  apply (Z.log2_lt_cancel _ 0x10000000000000000). rewrite Z.log2_lor by (rewrite ?Z.shiftr_nonneg; lia).
  change (Z.log2 0x10000000000000000) with 64.
  assert (Z.log2 (Z.shiftr a 2) ≤ 32).
  { change 32 with (Z.log2 0x100000000). apply Z.log2_le_mono. rewrite Z.shiftr_div_pow2 by lia. simpl (2 ^ 2). zlia. }
  assert (Z.log2 f ≤ 3) by (change 3 with (Z.log2 15); apply Z.log2_le_mono; lia). lia.
Qed.

(** Memory after one store into a table. *)
Definition put (k i e : Z) (m : mem) : mem := store 8 m (table k + 8 * i) e.

Lemma set_entry_put k i a f :
  0 ≤ k < 7 → 0 ≤ i < 512 →
  set_entry (table k) i a f = modify (λ s, set_pmem (put k i (Z.lor (Z.shiftr a 2) f) (pmem s)) s).
Proof using BO.
  intros Hk Hi. destruct (table_bounds k Hk) as (H1 & H2 & _). unfold WINDOW_SIZE in H2.
  unfold set_entry, put. rewrite (u64_small (8 * i)), u64_small by lia. by rewrite Z.add_comm.
Qed.

Lemma tab_put k i e m k' i' :
  0 ≤ i < 512 → 0 ≤ i' < 512 → 0 ≤ e < 0x10000000000000000 →
  tab (put k i e m) k' i' = if decide (k' = k ∧ i' = i) then e else tab m k' i'.
Proof.
  intros Hi Hi' He. unfold tab, pte, put. case_decide as D.
  - destruct D as [-> ->]. by apply load_store8_eq.
  - apply load_store_ne. unfold table. lia.
Qed.

Definition outside_tables (a : Z) : Prop := ¬ boot_tables ≤ a < boot_tables + 7 * 4096.

Lemma put_outside k i e m :
  0 ≤ k < 7 → 0 ≤ i < 512 → agree outside_tables m (put k i e m).
Proof. intros Hk Hi. apply agree_store. unfold table, outside_tables. intros x Hx. lia. Qed.

(** * Indices *)

(** The index of the window's address of [p] at [level]. *)
Definition idx (level p : Z) : Z := vpn level (p + VIRTUAL_OFFSET).

Lemma idx_range level p : 0 ≤ level → 0 ≤ idx level p < 512.
Proof. apply vpn_range. Qed.

Lemma idx_low level p :
  0 ≤ level ≤ 2 → idx level p = (p / 2 ^ (12 + 9 * level)) mod 512.
Proof.
  intros Hl. unfold idx. rewrite vpn_div by lia.
  assert (level = 0 ∨ level = 1 ∨ level = 2) as [->|[->| ->]] by lia;
    unfold VIRTUAL_OFFSET; simpl (2 ^ _); zlia.
Qed.

Lemma idx_top p : 0 ≤ p < WINDOW_SIZE → idx 3 p = 256.
Proof.
  unfold WINDOW_SIZE. intros Hp. unfold idx. rewrite vpn_div by lia.
  unfold VIRTUAL_OFFSET. simpl (2 ^ _). zlia.
Qed.

Lemma vpns_same_page va va' : va / 4096 = va' / 4096 → vpns va = vpns va'.
Proof.
  intros E. assert (∀ l, 0 ≤ l → vpn l va = vpn l va') as H.
  { intros l Hl. rewrite !vpn_div, !Z.pow_add_r by lia. change (2 ^ 12) with 4096.
    pose proof (Z.pow_pos_nonneg 2 (9 * l) ltac:(lia) ltac:(lia)). by rewrite <- !Z.div_div, E by lia. }
  unfold vpns. by rewrite !H by lia.
Qed.

Lemma vpns_window p : 0 ≤ p < WINDOW_SIZE → vpns (p + VIRTUAL_OFFSET) = [256; idx 2 p; idx 1 p; idx 0 p].
Proof. intros Hp. unfold vpns. rewrite <- (idx_top p Hp). done. Qed.

(** Two pages less than 2 MiB apart differ in the last index. *)
Lemma idx_0_inj p q :
  p mod 4096 = 0 → q mod 4096 = 0 → p - 0x200000 < q < p + 0x200000 → idx 0 p = idx 0 q → p = q.
Proof. intros Hp Hq H E. rewrite !idx_low in E by lia. simpl (2 ^ _) in E. zlia. Qed.

(** * One page *)

Definition put_page (p : Z) (m : mem) : mem :=
  put 3 (idx 0 p) (page_entry p) (put 2 (idx 1 p) (link_entry 3)
    (put 1 (idx 2 p) (link_entry 2) (put 0 256 (link_entry 1) m))).

Lemma boot_map_address_done s p :
  0 ≤ p < WINDOW_SIZE →
  boot_map_address (p + VIRTUAL_OFFSET) p s = Done () (set_pmem (put_page p (pmem s)) s).
Proof using BO.
  intros Hp. unfold boot_map_address. rewrite !Z.shiftr_shiftr by lia.
  change (20 + 19) with 39. change (20 + 10) with 30.
  change (Z.land (Z.shiftr (p + VIRTUAL_OFFSET) 39) 511) with (idx 3 p). change (Z.land (Z.shiftr (p + VIRTUAL_OFFSET) 30) 511) with (idx 2 p).
  change (Z.land (Z.shiftr (p + VIRTUAL_OFFSET) 21) 511) with (idx 1 p).
  change (Z.land (Z.shiftr (p + VIRTUAL_OFFSET) 12) 511) with (idx 0 p). rewrite idx_top by done.
  replace boot_page_directory with (table 0) by apply Z.add_0_r. change boot_first_level_table with (table 1).
  change boot_second_level_table with (table 2). change boot_third_level_table with (table 3).
  rewrite !set_entry_put by (lia || by apply idx_range). done.
Qed.
(** * The pages from [lo] to [hi] *)

Definition page_in (lo hi p : Z) : Prop := lo ≤ p ≤ hi ∧ p mod 4096 = 0.

(** Entry [i] of table [k] is one that mapping the page [p] writes. *)
Definition entry_of (p k i : Z) : Prop :=
  (k = 0 ∧ i = 256) ∨ (k = 1 ∧ i = idx 2 p) ∨ (k = 2 ∧ i = idx 1 p) ∨ (k = 3 ∧ i = idx 0 p).

(** What mapping these pages, in this order, has done to the tables: of the pages that
    share an entry of the one third-level table, the last one has it. *)
Record pages_mapped (m0 : mem) (lo hi : Z) (m : mem) : Prop := PagesMapped {
  pm_dir : tab m 0 256 = link_entry 1;
  pm_first : ∀ p, page_in lo hi p → tab m 1 (idx 2 p) = link_entry 2;
  pm_second : ∀ p, page_in lo hi p → tab m 2 (idx 1 p) = link_entry 3;
  pm_third : ∀ p, page_in lo hi p → hi < p + 0x200000 → tab m 3 (idx 0 p) = page_entry p;
  pm_only : ∀ k i, 0 ≤ k < 7 → 0 ≤ i < 512 → tab m k i ≠ tab m0 k i →
              ∃ p, page_in lo hi p ∧ entry_of p k i;
  pm_outside : agree outside_tables m0 m
}.

Lemma link_entry_range k : 0 ≤ k < 7 → 0 ≤ link_entry k < 0x10000000000000000.
Proof using BO. intros Hk. destruct (table_bounds k Hk) as (? & ? & _). apply entry_range; lia. Qed.
Lemma page_entry_range p : 0 ≤ p < WINDOW_SIZE → 0 ≤ page_entry p < 0x10000000000000000.
Proof. intros. apply entry_range; lia. Qed.

Lemma tab_put_page p m k i :
  0 ≤ p < WINDOW_SIZE → 0 ≤ i < 512 →
  tab (put_page p m) k i =
  if decide (k = 3 ∧ i = idx 0 p) then page_entry p
  else if decide (k = 2 ∧ i = idx 1 p) then link_entry 3
  else if decide (k = 1 ∧ i = idx 2 p) then link_entry 2
  else if decide (k = 0 ∧ i = 256) then link_entry 1 else tab m k i.
Proof using BO.
  intros Hp Hi. unfold put_page.
  by rewrite !tab_put by (lia || apply idx_range || apply link_entry_range || apply page_entry_range; lia).
Qed.

Lemma put_page_outside p m : agree outside_tables m (put_page p m).
Proof using BO.
  unfold put_page. repeat (etrans; [|apply put_outside; (lia || by apply idx_range)]). done.
Qed.

(** One more page. *)
Lemma pages_mapped_step m0 m lo p :
  0 ≤ p < WINDOW_SIZE → p mod 4096 = 0 → lo ≤ p →
  p = lo ∧ m = m0 ∨ pages_mapped m0 lo (p - 4096) m →
  pages_mapped m0 lo p (put_page p m).
Proof using BO.
  intros Hp Hm Hlo Hcase.
  assert (∀ q, page_in lo p q → q = p ∨ page_in lo (p - 4096) q ∧ pages_mapped m0 lo (p - 4096) m) as Hsplit.
  { intros q [Hq1 Hq2]. destruct (decide (q = p)) as [->|Hne]; [by left|right].
    destruct Hcase as [[-> _]|PM]; [lia|]. split; [|done]. split; [zlia|done]. }
  split.
  - rewrite tab_put_page by lia. repeat (rewrite decide_False by lia). by rewrite decide_True.
  - intros q Hq. rewrite tab_put_page by (lia || by apply idx_range). do 2 (rewrite decide_False by lia).
    case_decide as D; [done|]. rewrite decide_False by lia. destruct (Hsplit q Hq) as [->|[Hq' PM]]; [lia|].
    by apply (pm_first _ _ _ _ PM).
  - intros q Hq. rewrite tab_put_page by (lia || by apply idx_range). rewrite decide_False by lia.
    case_decide as D; [done|]. do 2 (rewrite decide_False by lia). destruct (Hsplit q Hq) as [->|[Hq' PM]]; [lia|].
    by apply (pm_second _ _ _ _ PM).
  - intros q Hq Hlast. rewrite tab_put_page by (lia || by apply idx_range). destruct Hq as [Hq1 Hq2] eqn:Eq.
    case_decide as D.
    + destruct D as [_ D]. rewrite (idx_0_inj p q); [done|done|done|lia|done].
    + do 3 (rewrite decide_False by lia). destruct (Hsplit q (conj Hq1 Hq2)) as [->|[Hq' PM]]; [lia|].
      apply (pm_third _ _ _ _ PM); [done|lia].
  - intros k i Hk Hi. rewrite tab_put_page by done. intros Hne.
    assert (page_in lo p p) as Hpp by (split; [lia|done]).
    repeat case_decide; try (exists p; split; [done|]; unfold entry_of; tauto).
    destruct Hcase as [[_ ->]|PM]; [done|]. destruct (pm_only _ _ _ _ PM k i Hk Hi Hne) as (q & [Hq Hq'] & He).
    exists q. split; [split; [lia|done]|done].
  - etrans; [|apply put_page_outside]. destruct Hcase as [[_ ->]|PM]; [done|apply PM].
Qed.
(** * The loop *)

(** The end of what is mapped, and the last page. *)
Definition MAPPED_END : Z := KERNEL_END + 280 * 4096.
Definition LAST_PAGE : Z := (MAPPED_END - 1) / 4096 * 4096.

Lemma link_bounds :
  RAM_ORIGIN ≤ KERNEL_START ∧ KERNEL_START + 7 * 4096 ≤ KERNEL_END ∧ MAPPED_END ≤ WINDOW_SIZE ∧
  KERNEL_START mod 4096 = 0 ∧ KERNEL_START ≤ boot_tables ∧ boot_tables + 7 * 4096 ≤ KERNEL_END.
Proof using BO.
  pose proof text_start_low. pose proof text_start_page. pose proof bss_end_room. pose proof tables_low.
  pose proof tables_high. unfold MAPPED_END, KERNEL_START, KERNEL_END, RAM_ORIGIN, RAM_LENGTH, WINDOW_SIZE in *.
  split_and!; try done; lia.
Qed.

Lemma virtual_offset_register_eq : virtual_offset_register = VIRTUAL_OFFSET.
Proof. by vm_compute. Qed.

Lemma window_add p : 0 ≤ p < WINDOW_SIZE → VIRTUAL_OFFSET ⊞ p = p + VIRTUAL_OFFSET.
Proof. unfold WINDOW_SIZE, VIRTUAL_OFFSET. intros. rewrite u64_small; lia. Qed.

Lemma s64_window p : 0 ≤ p ≤ WINDOW_SIZE → s64 (p + VIRTUAL_OFFSET) = p + VIRTUAL_OFFSET - 0x10000000000000000.
Proof. unfold s64, WINDOW_SIZE, VIRTUAL_OFFSET. intros. destruct (Z.ltb_spec (p + 0xFFFF800000000000) 0x8000000000000000); lia. Qed.

Lemma wp_map_image s0 m :
  pages_mapped (pmem s0) KERNEL_START KERNEL_START m →
  wp (loop (map_next_address (MAPPED_END + VIRTUAL_OFFSET)) (KERNEL_START, KERNEL_START + VIRTUAL_OFFSET))
    (λ _ s', ∃ m', s' = set_pmem m' s0 ∧ pages_mapped (pmem s0) KERNEL_START LAST_PAGE m')
    (set_pmem m s0).
Proof using BO.
  intros HM. pose proof link_bounds as (Hr & Hk & He & Hks & _). unfold RAM_ORIGIN, WINDOW_SIZE in *.
  apply (wp_loop _
    (λ '(s7, s8) s', s8 = s7 + VIRTUAL_OFFSET ∧ KERNEL_START ≤ s7 < MAPPED_END ∧ s7 mod 4096 = 0 ∧
       ∃ m', s' = set_pmem m' s0 ∧ pages_mapped (pmem s0) KERNEL_START s7 m')
    (λ '(s7, _) _, MAPPED_END - s7)).
  - intros [p va] s' (-> & Hp & Hpm & m' & -> & PM). split; [lia|].
    unfold map_next_address. change (Z.shiftl 1 12) with 4096.
    replace (p + VIRTUAL_OFFSET ⊞ 4096) with (p + 4096 + VIRTUAL_OFFSET)
      by (rewrite u64_small; unfold VIRTUAL_OFFSET; lia).
    rewrite (u64_small (p + 4096)) by lia.
    destruct (Z.leb_spec (s64 (MAPPED_END + VIRTUAL_OFFSET)) (s64 (p + 4096 + VIRTUAL_OFFSET))) as [Hs|Hs].
    + assert (p = LAST_PAGE) as ->.
      { unfold LAST_PAGE. destruct (decide (p + 4096 ≤ WINDOW_SIZE)) as [Hw|Hw]; unfold WINDOW_SIZE in Hw.
        - rewrite !s64_window in Hs by (unfold WINDOW_SIZE; lia). zlia.
        - zlia. }
      apply wp_ret. by exists m'.
    + assert (p + 4096 < MAPPED_END) as Hlt.
      { destruct (decide (p + 4096 ≤ WINDOW_SIZE)) as [Hw|Hw]; unfold WINDOW_SIZE in Hw; [|zlia].
        rewrite !s64_window in Hs by (unfold WINDOW_SIZE; lia). lia. }
      eapply wp_bind_done; [apply boot_map_address_done; unfold WINDOW_SIZE; lia|]. apply wp_ret.
      split_and!; try lia; [zlia|]. exists (put_page (p + 4096) m'). split; [done|].
      apply pages_mapped_step; [unfold WINDOW_SIZE; lia|zlia|lia|]. right.
      by replace (p + 4096 - 4096) with p by lia.
  - split_and!; try done; [unfold MAPPED_END; lia|]. by exists m.
  - unfold MAPPED_END in *. lia.
Qed.
(** * The UART and the whole *)

Definition uart_tables (m : mem) : mem :=
  put 6 0 (page_entry UART) (put 5 128 (link_entry 6) (put 1 0 (link_entry 5) m)).

Lemma boot_uart_map_address_done s :
  boot_uart_map_address s = Done () (set_pmem (uart_tables (pmem s)) s).
Proof using BO.
  unfold boot_uart_map_address. cbv zeta.
  change (Z.land (Z.shiftr (Z.shiftr (UART ⊞ virtual_offset_register) 20) 10) 511) with 0.
  change (Z.land (Z.shiftr (UART ⊞ virtual_offset_register) 21) 511) with 128.
  change (Z.land (Z.shiftr (UART ⊞ virtual_offset_register) 12) 511) with 0.
  change boot_first_level_table with (table 1). change boot_uart_second_level_table with (table 5).
  change boot_uart_third_level_table with (table 6).
  by rewrite !set_entry_put by lia.
Qed.

Lemma tab_uart m k i :
  0 ≤ i < 512 →
  tab (uart_tables m) k i =
  if decide (k = 6 ∧ i = 0) then page_entry UART
  else if decide (k = 5 ∧ i = 128) then link_entry 6
  else if decide (k = 1 ∧ i = 0) then link_entry 5 else tab m k i.
Proof using BO.
  intros Hi. unfold uart_tables.
  by rewrite !tab_put by first [lia|apply link_entry_range; lia|by apply page_entry_range].
Qed.

(** The value of satp: MODE 9 and the directory's frame. *)
Definition BOOT_SATP : Z := Z.lor (Z.shiftr boot_page_directory 12) (Z.shiftl 9 60).

Lemma satp_root_boot : satp_root BOOT_SATP = table 0.
Proof using BO.
  destruct (table_bounds 0) as (H1 & H2 & H3); [lia|]. unfold WINDOW_SIZE in H2.
  unfold satp_root, BOOT_SATP, PAGE_SIZE. rewrite Z.land_lor_distr_l.
  replace (Z.land (Z.shiftl 9 60) (Z.ones 44)) with 0 by done. rewrite Z.lor_0_r, Z.land_ones by lia.
  replace boot_page_directory with (table 0) by apply Z.add_0_r.
  rewrite Z.shiftr_div_pow2 by lia. simpl (2 ^ _). zlia.
Qed.

(** What the code behind the tables is entered with. *)
Definition boot_entry (mst : Z) : entry :=
  {| mtvec := machine_handler_address;
     stvec := VIRTUAL_OFFSET ⊞ supervisor_handler_address;
     mepc := VIRTUAL_OFFSET ⊞ os_start_address;
     mstatus := Z.lor 0x800 mst;
     pmpcfg0 := 0x1f; pmpaddr0 := 0xFFFFFFFFFFFFFFFF;
     sp := stacks ⊞ STACK_SIZE ⊞ VIRTUAL_OFFSET |}.

(** The state _start leaves. *)
Record tables_built (s s' : kstate) : Prop := TablesBuilt {
  tb_state : ∃ m, pages_mapped (pmem s) KERNEL_START LAST_PAGE m ∧
               s' = set_satp BOOT_SATP (set_pmem (uart_tables m) s);
  tb_outside : agree outside_tables (pmem s) (pmem s')
}.

Lemma start_done s mst : ∃ s', _start 0 mst s = Done (boot_entry mst) s' ∧ tables_built s s'.
Proof using BO.
  pose proof link_bounds as (Hr & Hk & He & Hks & _). unfold MAPPED_END, RAM_ORIGIN, WINDOW_SIZE in *.
  assert (wp (_start 0 mst) (λ e s', e = boot_entry mst ∧ tables_built s s') s) as W.
  2:{ destruct (wp_inv _ _ _ W) as (e & s' & E & -> & T). exists s'. split; [exact E|exact T]. }
  unfold _start. cbn [negb Z.eqb]. cbv zeta. change (TEXT_START - VIRTUAL_OFFSET) with KERNEL_START.
  change (BSS_END - VIRTUAL_OFFSET) with KERNEL_END. change (u64 (Z.shiftl 280 12)) with 1146880.
  rewrite virtual_offset_register_eq. rewrite (u64_small (1146880 + KERNEL_END)) by lia.
  replace (1146880 + KERNEL_END) with MAPPED_END by (unfold MAPPED_END; lia).
  replace (VIRTUAL_OFFSET ⊞ MAPPED_END) with (MAPPED_END + VIRTUAL_OFFSET)
    by (unfold MAPPED_END, VIRTUAL_OFFSET; rewrite u64_small; lia).
  rewrite window_add by (unfold WINDOW_SIZE; lia).
  eapply wp_bind_done; [apply boot_map_address_done; unfold WINDOW_SIZE; lia|].
  apply wp_bind. eapply wp_mono.
  { apply wp_map_image. apply pages_mapped_step; [unfold WINDOW_SIZE; lia|done|lia|by left]. }
  intros [] s1 (m & -> & PM). unfold jump_to_c. eapply wp_bind_done; [apply boot_uart_map_address_done|].
  apply wp_bind, wp_modify, wp_ret. split.
  - unfold boot_entry. by rewrite virtual_offset_register_eq.
  - split; [by exists m|]. cbn. etrans; [apply PM|].
    unfold uart_tables. by repeat (etrans; [|apply put_outside; lia]).
Qed.
(** * What the hardware makes of the tables *)

Lemma walk_link m k i k' rest :
  0 ≤ k' < 7 → tab m k i = link_entry k' → pt_walk m (table k) (i :: rest) = pt_walk m (table k') rest.
Proof using BO.
  intros Hk E. destruct (table_bounds k' Hk) as (H1 & H2 & H3). rewrite pt_walk_cons. fold (tab m k i). rewrite E.
  assert (∀ j, 0 ≤ j < 10 → Z.testbit (link_entry k') j = Z.testbit 1 j) as Hbit
    by (intros j Hj; by apply entry_bit).
  unfold pte_bad, pte_leaf, pte_V, pte_R, pte_W, pte_X. rewrite !Hbit by lia. cbn -[pt_walk link_entry].
  unfold link_entry. by rewrite entry_frame by lia.
Qed.

Lemma walk_page m k i p :
  p mod 4096 = 0 → tab m k i = page_entry p → pt_walk m (table k) [i] = WalkLeaf (page_entry p) 0.
Proof.
  intros H3 E. rewrite pt_walk_cons. fold (tab m k i). rewrite E.
  assert (∀ j, 0 ≤ j < 10 → Z.testbit (page_entry p) j = Z.testbit 0xF j) as Hbit
    by (intros j Hj; by apply entry_bit).
  unfold pte_bad, pte_leaf, pte_V, pte_R, pte_W, pte_X. by rewrite !Hbit by lia.
Qed.

Lemma walk_none m k i rest : tab m k i = 0 → pt_walk m (table k) (i :: rest) = WalkFault.
Proof. intros E. rewrite pt_walk_cons. fold (tab m k i). by rewrite E. Qed.

Lemma sv48_page m va p k ix i :
  canonical va = true → pt_walk m (table 0) (vpns va) = pt_walk m (table k) ix → ix = [i] →
  0 ≤ p < WINDOW_SIZE → p mod 4096 = 0 → tab m k i = page_entry p →
  sv48 m (table 0) va = Some (p + va mod 4096).
Proof.
  intros Hc Hw -> Hp Hm E. unfold sv48. rewrite Hc, Hw, (walk_page _ _ _ p Hm E). cbn [translate_leaf].
  change (2 ^ (12 + 9 * Z.of_nat 0)) with 4096. cbv zeta. unfold page_entry. rewrite entry_frame by done. by rewrite Hm.
Qed.

Lemma page_of_image pa :
  KERNEL_START ≤ pa < LAST_PAGE + 4096 → page_in KERNEL_START LAST_PAGE (pa / 4096 * 4096).
Proof using BO.
  intros H. pose proof link_bounds as (_ & _ & _ & Hks & _). unfold page_in, LAST_PAGE in *.
  generalize dependent ((MAPPED_END - 1) / 4096). intros l Hl. split; [zlia|apply Z.mod_mul; lia].
Qed.

Lemma page_ram p : page_in KERNEL_START LAST_PAGE p → RAM_ORIGIN ≤ p ∧ p + 4096 ≤ WINDOW_SIZE.
Proof using BO.
  pose proof link_bounds as (H & _ & He & _ & _). intros [Hp Hm]. unfold LAST_PAGE, RAM_ORIGIN, WINDOW_SIZE in *. zlia.
Qed.

Lemma idx_2_ram p : RAM_ORIGIN ≤ p < WINDOW_SIZE → idx 2 p ≠ 0.
Proof. intros H. rewrite idx_low by lia. unfold RAM_ORIGIN, WINDOW_SIZE in H. simpl (2 ^ _). zlia. Qed.

(** The last page of the image that shares the third-level entry of [p]. *)
Definition last_alias (p : Z) : Z := p + 0x200000 * ((LAST_PAGE - p) / 0x200000).

Lemma last_alias_spec p :
  page_in KERNEL_START LAST_PAGE p →
  page_in KERNEL_START LAST_PAGE (last_alias p) ∧ LAST_PAGE < last_alias p + 0x200000 ∧ idx 0 (last_alias p) = idx 0 p.
Proof.
  intros [Hp Hm]. unfold last_alias, page_in. rewrite !idx_low by lia.
  change (2 ^ (12 + 9 * 0)) with 4096. split_and!; zlia.
Qed.

Section built.
Context (m0 m : mem) (PM : pages_mapped m0 KERNEL_START LAST_PAGE m).
(** Any memory with these tables. *)
Context (M : mem) (HM : ∀ k i, 0 ≤ k < 7 → 0 ≤ i < 512 → tab M k i = tab (uart_tables m) k i).

Lemma tab_built k i :
  0 ≤ k < 7 → 0 ≤ i < 512 →
  tab M k i =
  if decide (k = 6 ∧ i = 0) then page_entry UART
  else if decide (k = 5 ∧ i = 128) then link_entry 6
  else if decide (k = 1 ∧ i = 0) then link_entry 5 else tab m k i.
Proof using BO HM. intros Hk Hi. by rewrite HM, tab_uart. Qed.

Lemma image_translation pa :
  KERNEL_START ≤ pa < LAST_PAGE + 4096 →
  sv48 M (table 0) (pa + VIRTUAL_OFFSET) = Some (last_alias (pa / 4096 * 4096) + pa mod 4096).
Proof using BO PM HM.
  intros Hpa. set (p := pa / 4096 * 4096). pose proof (page_of_image pa Hpa) as Hp. fold p in Hp.
  destruct (page_ram p Hp) as [Hr1 Hr2]. destruct (last_alias_spec p Hp) as (Hl & Hlast & Hidx).
  destruct (page_ram _ Hl) as [Hl1 Hl2]. pose proof (idx_2_ram p ltac:(lia)) as H2.
  assert (0 ≤ p < WINDOW_SIZE) as Hw by (unfold RAM_ORIGIN in *; lia).
  assert (vpns (pa + VIRTUAL_OFFSET) = vpns (p + VIRTUAL_OFFSET)) as Ev.
  { apply vpns_same_page. unfold p, VIRTUAL_OFFSET. zlia. }
  replace (pa mod 4096) with ((pa + VIRTUAL_OFFSET) mod 4096) by (unfold VIRTUAL_OFFSET; zlia).
  apply (sv48_page _ _ _ 3 [idx 0 p] (idx 0 p)); try done.
  - unfold canonical. apply orb_true_iff. right. apply Z.leb_le. unfold VIRTUAL_OFFSET, p in *. zlia.
  - rewrite Ev, vpns_window by done.
    rewrite (walk_link _ 0 256 1), (walk_link _ 1 (idx 2 p) 2), (walk_link _ 2 (idx 1 p) 3); try done.
    + rewrite tab_built by (lia || by apply idx_range). repeat (rewrite decide_False by lia). by apply (pm_second _ _ _ _ PM).
    + rewrite tab_built by (lia || by apply idx_range). repeat (rewrite decide_False by lia). by apply (pm_first _ _ _ _ PM).
    + rewrite tab_built by lia. repeat (rewrite decide_False by lia). apply (pm_dir _ _ _ _ PM).
  - unfold RAM_ORIGIN in *. lia.
  - apply Hl.
  - rewrite tab_built by (lia || by apply idx_range). repeat (rewrite decide_False by lia). rewrite <- Hidx.
    by apply (pm_third _ _ _ _ PM).
Qed.

Lemma uart_translation o :
  0 ≤ o < 4096 → sv48 M (table 0) (UART + o + VIRTUAL_OFFSET) = Some (UART + o).
Proof using BO PM HM.
  intros Ho.
  assert (vpns (UART + o + VIRTUAL_OFFSET) = [256; 0; 128; 0]) as Ev.
  { rewrite (vpns_same_page _ (UART + VIRTUAL_OFFSET)); [done|]. unfold UART, VIRTUAL_OFFSET. zlia. }
  replace (UART + o) with (UART + (UART + o + VIRTUAL_OFFSET) mod 4096) at 2 by (unfold UART, VIRTUAL_OFFSET; zlia).
  apply (sv48_page _ _ _ 6 [0] 0); try done.
  - unfold canonical. apply orb_true_iff. right. apply Z.leb_le. unfold VIRTUAL_OFFSET, UART. lia.
  - rewrite Ev, (walk_link _ 0 256 1), (walk_link _ 1 0 5), (walk_link _ 5 128 6); try done; rewrite tab_built by lia.
    + by rewrite decide_False, decide_True by lia.
    + by do 2 (rewrite decide_False by lia).
    + repeat (rewrite decide_False by lia). apply (pm_dir _ _ _ _ PM).
  - by rewrite tab_built by lia.
Qed.

(** Nothing else is mapped when the image lies in one 2 MiB region. *)
Context (HZ : ∀ a, boot_tables ≤ a < boot_tables + 7 * 4096 → rd8 m0 a = 0).
Context (HR : KERNEL_START / 0x200000 = LAST_PAGE / 0x200000).

Lemma tab_zero k i : 0 ≤ k < 7 → 0 ≤ i < 512 → tab m0 k i = 0.
Proof using HZ. intros Hk Hi. apply load_zero. intros x Hx. apply HZ. unfold table in Hx. lia. Qed.

Lemma same_region p q :
  page_in KERNEL_START LAST_PAGE p → page_in KERNEL_START LAST_PAGE q → idx 2 p = idx 2 q ∧ idx 1 p = idx 1 q.
Proof using HR.
  intros [Hp _] [Hq _]. rewrite !idx_low by lia. change (2 ^ (12 + 9 * 1)) with 0x200000.
  change (2 ^ (12 + 9 * 2)) with (0x200000 * 512). rewrite <- !Z.div_div by lia.
  assert (p / 0x200000 = q / 0x200000) as -> by zlia. done.
Qed.

Lemma same_page va pa :
  0 ≤ va < 2 ^ 64 → canonical va = true → 0 ≤ pa < WINDOW_SIZE →
  vpns va = vpns (pa + VIRTUAL_OFFSET) → va / 4096 = (pa + VIRTUAL_OFFSET) / 4096.
Proof.
  intros Hva Hc Hp. unfold WINDOW_SIZE in Hp. apply vpns_inj; try done.
  - unfold VIRTUAL_OFFSET. simpl. lia.
  - unfold canonical. apply orb_true_iff. right. apply Z.leb_le. unfold VIRTUAL_OFFSET. lia.
Qed.

(** An entry that was written decides the index of its level. *)
Lemma tab_written k i :
  0 ≤ k < 7 → 0 ≤ i < 512 → tab M k i ≠ 0 →
  (k = 6 ∧ i = 0) ∨ (k = 5 ∧ i = 128) ∨ (k = 1 ∧ i = 0) ∨
  ∃ p, page_in KERNEL_START LAST_PAGE p ∧ entry_of p k i.
Proof using BO PM HM HZ.
  intros Hk Hi. rewrite tab_built by done. do 3 (case_decide; [intuition lia|]). intros Hne.
  do 3 right. apply (pm_only _ _ _ _ PM); [done..|]. by rewrite tab_zero.
Qed.

(** The entries a walk goes through, with the table each leads to (0: a page). *)
Inductive descends : Z → Z → Z → Prop :=
  | d_directory : descends 0 256 1
  | d_first p : page_in KERNEL_START LAST_PAGE p → descends 1 (idx 2 p) 2
  | d_second p : page_in KERNEL_START LAST_PAGE p → descends 2 (idx 1 p) 3
  | d_third p : page_in KERNEL_START LAST_PAGE p → descends 3 (idx 0 p) 0
  | d_uart_first : descends 1 0 5
  | d_uart_second : descends 5 128 6
  | d_uart_third : descends 6 0 0.
Hint Constructors descends : core.

Lemma descends_link k i k' :
  descends k i k' → k' ≠ 0 → tab M k i = link_entry k'.
Proof using BO PM HM.
  destruct 1 as [|p Hp|p Hp| | | |]; intros Hk'; try lia;
    try (rewrite tab_built; [|lia|by apply idx_range]; repeat (rewrite decide_False by lia)).
  - rewrite tab_built by lia. repeat (rewrite decide_False by lia). apply (pm_dir _ _ _ _ PM).
  - destruct (page_ram p Hp) as [H1 H2]. pose proof (idx_2_ram p ltac:(lia)). rewrite decide_False by lia.
    by apply (pm_first _ _ _ _ PM).
  - by apply (pm_second _ _ _ _ PM).
  - by rewrite tab_built by lia.
  - by rewrite tab_built by lia.
Qed.

Lemma walk_descends k i rest :
  0 ≤ k < 7 → 0 ≤ i < 512 → pt_walk M (table k) (i :: rest) ≠ WalkFault →
  ∃ k', descends k i k' ∧ (k' ≠ 0 → pt_walk M (table k') rest ≠ WalkFault).
Proof using BO PM HM HZ.
  intros Hk Hi Hw.
  assert (∃ k', 0 ≤ k' < 7 ∧ descends k i k') as (k' & Hk' & D).
  { assert (tab M k i ≠ 0) as Hnz by (intros E; by apply Hw, walk_none).
    destruct (tab_written k i Hk Hi Hnz) as [[-> ->]|[[-> ->]|[[-> ->]|(p & Hp & He)]]]; [exists 0|exists 6|exists 5|];
      [split; [lia|done]..|].
    destruct He as [[-> ->]|[[-> ->]|[[-> ->]|[-> ->]]]]; [exists 1|exists 2|exists 3|exists 0]; split; auto; lia. }
  exists k'. split; [done|]. intros Hne. by rewrite <- (walk_link _ k i k' rest Hk' (descends_link k i k' D Hne)).
Qed.

(** A mapped address is in the image or in the UART's page. *)
Lemma mapped_image va :
  0 ≤ va < 2 ^ 64 → canonical va = true → pt_walk M (table 0) (vpns va) ≠ WalkFault →
  ∃ p, 0 ≤ p < WINDOW_SIZE ∧ (p = UART ∨ page_in KERNEL_START LAST_PAGE p) ∧ va / 4096 = (p + VIRTUAL_OFFSET) / 4096.
Proof using BO PM HM HZ HR.
  intros Hva Hc Hw. unfold vpns in Hw.
  assert (∀ l, 0 ≤ l → 0 ≤ vpn l va < 512) as Hi by (intros; by apply vpn_range).
  apply walk_descends in Hw as (k3 & D3 & Hw); [|lia|by apply Hi].
  inversion D3 as [E3 G3| | | | | |]; subst k3. specialize (Hw ltac:(lia)).
  apply walk_descends in Hw as (k2 & D2 & Hw); [|lia|by apply Hi].
  inversion D2 as [|p2 Hp2 E2 G2| | |E2 G2| |]; subst k2; specialize (Hw ltac:(lia));
    apply walk_descends in Hw as (k1 & D1 & Hw); [|lia|by apply Hi| |lia|by apply Hi].
  - inversion D1 as [| |p1 Hp1 E1 G1| | | |]; subst k1. specialize (Hw ltac:(lia)).
    apply walk_descends in Hw as (k0 & D0 & _); [|lia|by apply Hi].
    inversion D0 as [| | |p0 Hp0 E0 G0| | |]; subst k0.
    destruct (page_ram p0 Hp0) as [Hr0 Hr0']. assert (0 ≤ p0 < WINDOW_SIZE) as Hw0 by (unfold RAM_ORIGIN in *; lia).
    exists p0. split_and!; [lia|lia|by right|]. apply same_page; try done.
    rewrite vpns_window by done. destruct (same_region p2 p0) as [F2 _]; [done..|]. destruct (same_region p1 p0) as [_ F1]; [done..|].
    unfold vpns. congruence.
  - inversion D1 as [| | | | |E1 G1|]; subst k1. specialize (Hw ltac:(lia)).
    apply walk_descends in Hw as (k0 & D0 & _); [|lia|by apply Hi].
    inversion D0 as [| | | | | |E0 G0]; subst k0.
    exists UART. split_and!; [done|done|by left|]. apply same_page; try done.
    change (vpns (UART + VIRTUAL_OFFSET)) with [256; 0; 128; 0]. unfold vpns. congruence.
Qed.
End built.
End tables.

(** * Theorems *)

Section correctness.
Context `{BO : BootLabelsOk}.

(** The addresses _start is to map: the image with its extra pages, and the UART. *)
Definition boot_mapped (va : Z) : Prop :=
  KERNEL_START ≤ va - VIRTUAL_OFFSET < LAST_PAGE + 4096 ∨ UART ≤ va - VIRTUAL_OFFSET < UART + 4096.
#[export] Instance boot_mapped_dec va : Decision (boot_mapped va).
Proof. unfold boot_mapped. apply _. Defined.

Lemma boot_mapped_high va : boot_mapped va → VIRTUAL_OFFSET ≤ va.
Proof using BO.
  pose proof link_bounds as (H & _). unfold boot_mapped, UART, RAM_ORIGIN in *. lia.
Qed.

(** No alias: less than 2 MiB are mapped. *)
Lemma last_alias_small p : 0 ≤ LAST_PAGE - p < 0x200000 → last_alias p = p.
Proof. intros H. unfold last_alias. rewrite Z.div_small by lia. lia. Qed.

(** It does not depend on what is outside the tables. *)
Lemma boot_translation s s' t :
  tables_built s s' → LAST_PAGE < KERNEL_START + 0x200000 →
  satp t = satp s' → agree (λ a, boot_tables ≤ a < boot_tables + 7 * 4096) (pmem s') (pmem t) →
  ∀ va, boot_mapped va → sv48 (pmem t) (satp_root (satp t)) va = Some (va - VIRTUAL_OFFSET).
Proof using BO.
  intros [(m & PM & ->) _] Hfit Hst Hag va Hva. rewrite Hst. cbn [pmem satp set_satp set_pmem] in *. rewrite satp_root_boot.
  assert (∀ k i, 0 ≤ k < 7 → 0 ≤ i < 512 → tab (pmem t) k i = tab (uart_tables m) k i) as HM.
  { intros k i Hk Hi. apply load_ext. eapply agree_mono; [|exact Hag]. unfold table. cbn. lia. }
  destruct Hva as [Hva|Hva].
  - replace va with (va - VIRTUAL_OFFSET + VIRTUAL_OFFSET) at 1 by lia.
    rewrite (image_translation _ _ PM _ HM) by done. destruct (page_of_image _ Hva) as [Hp _].
    rewrite last_alias_small by lia. f_equal. generalize dependent (va - VIRTUAL_OFFSET). intros. zlia.
  - replace va with (UART + (va - VIRTUAL_OFFSET - UART) + VIRTUAL_OFFSET) at 1 by lia.
    rewrite (uart_translation _ _ PM _ HM) by lia. f_equal. lia.
Qed.

(** C5: hart 0 builds the tables boot.s means to build and enters os_start behind
    VIRTUAL_OFFSET: when the image with its 280 extra pages lies in one 2 MiB region and
    the tables were zero, the hardware translates the addresses of the image and of the
    UART's page to those VIRTUAL_OFFSET lower, and no other address; nothing outside the
    tables is written. *)
Theorem boot_tables_exact s mst :
  KERNEL_START / 0x200000 = LAST_PAGE / 0x200000 →
  (∀ a, boot_tables ≤ a < boot_tables + 7 * 4096 → rd8 (pmem s) a = 0) →
  ∃ s', _start 0 mst s = Done (boot_entry mst) s' ∧ agree outside_tables (pmem s) (pmem s') ∧
    ∀ va, 0 ≤ va < 2 ^ 64 →
      sv48 (pmem s') (satp_root (satp s')) va =
      if decide (boot_mapped va) then Some (va - VIRTUAL_OFFSET) else None.
Proof using BO.
  intros HR HZ. destruct (start_done s mst) as (s' & E & T). exists s'. split; [done|]. split; [apply T|].
  intros va Hva. case_decide as Hm.
  - apply (boot_translation s s'); try done. zlia.
  - unfold sv48. destruct (canonical va) eqn:Hc; [|done]. destruct T as [(m & PM & ->) _].
    cbn [pmem satp set_satp set_pmem]. rewrite satp_root_boot.
    destruct (pt_walk _ _ _) eqn:Ew; [done|]. exfalso.
    destruct (mapped_image _ _ PM _ (λ _ _ _ _, eq_refl) HZ HR va Hva Hc) as (p & Hp & Hcase & Ep); [by rewrite Ew|].
    apply Hm. unfold boot_mapped, VIRTUAL_OFFSET in *. destruct Hcase as [->|[Hp1 Hp2]]; [right; unfold UART in *; zlia|left].
    unfold WINDOW_SIZE in Hp. pose proof link_bounds as (_ & _ & _ & Hks & _). split; zlia.
Qed.

(** C32: the one third-level table holds 512 pages.  When image and extra pages take
    more than 2 MiB, an address that has another one of them 2 MiB above it is mapped to
    the frame of a later page: the text of the kernel is replaced by what lies there. *)
Theorem boot_tables_alias s mst :
  KERNEL_START + 0x200000 ≤ LAST_PAGE →
  ∃ s', _start 0 mst s = Done (boot_entry mst) s' ∧
    ∀ pa, KERNEL_START ≤ pa → pa + 0x200000 < LAST_PAGE + 4096 →
      ∃ pa', sv48 (pmem s') (satp_root (satp s')) (pa + VIRTUAL_OFFSET) = Some pa' ∧ pa + 0x200000 ≤ pa'.
Proof using BO.
  intros Hbig. destruct (start_done s mst) as (s' & E & T). exists s'. split; [done|].
  intros pa H1 H2. destruct T as [(m & PM & ->) _]. cbn [pmem satp set_satp set_pmem]. rewrite satp_root_boot.
  rewrite (image_translation _ _ PM _ (λ _ _ _ _, eq_refl)) by lia. eexists. split; [done|].
  unfold last_alias. assert (LAST_PAGE mod 4096 = 0) as Hl by (unfold LAST_PAGE; apply Z.mod_mul; lia). zlia.
Qed.

(** The physical memory in use until paging_init switches to its own tables: the image
    with its stacks, the UART, the flags of the frames and the first two frames. *)
Definition early_access `{Layout} (s : kstate) (pa : Z) : Prop :=
  KERNEL_START ≤ pa < KERNEL_END ∨ UART ≤ pa < UART + 4096 ∨
  flags_base s ≤ pa < flags_base s + init_num_frames ∨ in_frame s 0 pa ∨ in_frame s 1 pa.

Lemma boot_layout_ok : LayoutOk L.
Proof using BO.
  pose proof link_bounds as (H1 & H2 & H3 & _). unfold MAPPED_END, KERNEL_START, KERNEL_END, RAM_ORIGIN, WINDOW_SIZE in *.
  split; unfold RAM_ORIGIN, RAM_LENGTH; lia.
Qed.

Lemma early_mapped s pa :
  flags_base s = align_up PHYSICAL_HEAP_START → first_frame_address s = flags_base s + 32768 →
  early_access s pa → boot_mapped (pa + VIRTUAL_OFFSET).
Proof using BO.
  intros Hf Hff H. pose proof boot_layout_ok as LO. pose proof (@init_num_frames_eq _ LO) as Hn.
  pose proof link_bounds as (H1 & H2 & H3 & Hks & _). destruct (align_up_bounds PHYSICAL_HEAP_START) as [Ha _].
  change PHYSICAL_HEAP_START with KERNEL_END in *. unfold boot_mapped. unfold early_access, in_frame, frame_at in H.
  rewrite Hff, Hf in H. unfold LAST_PAGE, MAPPED_END, RAM_ORIGIN, WINDOW_SIZE, FRAME_SIZE in *.
  assert (0 ≤ init_num_frames < 524288) by zlia.
  assert (align_up KERNEL_END + 524288 ≤ KERNEL_END + 280 * 4096 - 1) by lia.
  destruct H as [H|[H|H]]; [left|right|left]; zlia.
Qed.

(** What is written before the switch is in this memory. *)
Lemma paging_init_early s2 :
  flags_base s2 = align_up PHYSICAL_HEAP_START → (∀ i, 0 ≤ i < init_num_frames → frame_free s2 i) →
  (∀ N : nat, Z.of_nat N ≤ 32768 → Z.of_nat N ≤ init_num_frames → frames_ok N s2) →
  ∃ s3, paging_init s2 = Done () s3 ∧ agree (λ a, ¬ early_access s2 a) (pmem s2) (pmem s3).
Proof using BO.
  intros Hf Hfree FR. pose proof boot_layout_ok as LO. pose proof (@init_num_frames_eq _ LO) as Hn.
  pose proof link_bounds as (H1 & H2 & H3 & _). destruct (align_up_bounds PHYSICAL_HEAP_START) as [Ha _].
  change PHYSICAL_HEAP_START with KERNEL_END in *.
  assert (2 ≤ init_num_frames) as Hn2 by (unfold MAPPED_END, RAM_ORIGIN, WINDOW_SIZE in *; zlia).
  assert (in_order 2 0 s2) as O by (split; [lia|lia|intros j Hj; apply Hfree; lia]).
  destruct (paging_init_spec 2 s2 (FR 2%nat ltac:(lia) ltac:(lia))) as (i & j & s3 & E & PS).
  { pose proof (in_order_nfree 2 0 s2 O). lia. }
  destruct (ps_first _ _ _ _ _ PS 0 O) as [-> ->]. exists s3. split; [done|].
  eapply agree_mono; [|apply (ps_agree _ _ _ _ _ PS)]. intros a Hn'. unfold early_access, in_flags in *.
  change (0 + 1) with 1. split_and!; intros H; apply Hn'; [right; right; left; lia|tauto|tauto].
Qed.

(** C9: the tables of boot.s are enough for what runs on them, when the image with its
    280 extra pages takes less than 2 MiB: from _start through physical_allocator_init
    and as long as nothing in the image is overwritten and satp is the same, the
    hardware's translation is the model's [resolve] on the image, the UART, the flags
    of the frames and the first two frames.  This is all that changes before paging_init
    ends: RAM behind the image is as it was when physical_allocator_init starts, and if
    it was zero, every byte that physical_allocator_init and paging_init change is one
    of these. *)
Theorem boot_tables_support_init s mst :
  LAST_PAGE < KERNEL_START + 0x200000 →
  ∃ s1 s2, _start 0 mst s = Done (boot_entry mst) s1 ∧ physical_allocator_init s1 = Done () s2 ∧
    (∀ a, KERNEL_END ≤ a → rd8 (pmem s1) a = rd8 (pmem s) a) ∧
    (∀ t, satp t = satp s2 → agree (λ a, a < KERNEL_END) (pmem s2) (pmem t) →
      ∀ pa, early_access s2 pa →
        resolve t (pa + VIRTUAL_OFFSET) = Some pa ∧
        sv48 (pmem t) (satp_root (satp t)) (pa + VIRTUAL_OFFSET) = Some pa) ∧
    ((∀ a, KERNEL_END ≤ a < PHYSICAL_MEMORY_END → rd8 (pmem s) a = 0) →
     ∃ s3, paging_init s2 = Done () s3 ∧ agree (λ a, ¬ early_access s2 a) (pmem s1) (pmem s3)).
Proof using BO.
  intros Hfit. pose proof boot_layout_ok as LO. pose proof link_bounds as (H1 & H2 & H3 & _ & Ht1 & Ht2).
  destruct (start_done s mst) as (s1 & E1 & T).
  destruct (physical_allocator_init_done s1) as (s2 & E2 & Hf & Hff & Hsatp & _ & _ & Hfree & Ha & FR).
  destruct (align_up_bounds PHYSICAL_HEAP_START) as [Hal _]. change PHYSICAL_HEAP_START with KERNEL_END in Hal.
  assert (∀ a, KERNEL_END ≤ a → rd8 (pmem s1) a = rd8 (pmem s) a) as Hout.
  { intros a Hlo. apply (tb_outside _ _ T). unfold outside_tables. lia. }
  exists s1, s2. split_and!; [done|done|exact Hout| |].
  - intros t Hst Hag pa Hpa. pose proof (early_mapped s2 pa Hf Hff Hpa) as Hm. split.
    + rewrite resolve_window; [f_equal; lia|]. unfold boot_mapped, UART, LAST_PAGE in Hm.
      unfold RAM_ORIGIN, WINDOW_SIZE in *. zlia.
    + rewrite (boot_translation s s1 t T Hfit); [f_equal; lia|congruence| |done]. etrans.
      * eapply agree_mono; [|exact Ha]. intros a Hr. rewrite Hf. change PHYSICAL_HEAP_START with KERNEL_END. lia.
      * eapply agree_mono; [|exact Hag]. cbn. lia.
  - intros HZ. destruct (paging_init_early s2 Hf Hfree) as (s3 & E3 & A3).
    { apply FR. intros a Hr. rewrite Hf in Hr. change PHYSICAL_HEAP_START with KERNEL_END in Hr.
      rewrite Hout by lia. apply HZ. lia. }
    exists s3. split; [done|]. etrans; [|exact A3].
    eapply agree_mono; [|exact Ha]. intros a Hn Hr. apply Hn. unfold early_access. tauto.
Qed.
End correctness.

(** * Witnesses *)

(** Half a MiB of image, and one of 2 MiB (Samples.v). *)
Definition small_link : Layout := {|
  TEXT_START := VIRTUAL_OFFSET + 0x80000000; TEXT_END := VIRTUAL_OFFSET + 0x80040000;
  RODATA_START := VIRTUAL_OFFSET + 0x80040000; RODATA_END := VIRTUAL_OFFSET + 0x80050000;
  DATA_START := VIRTUAL_OFFSET + 0x80050000; DATA_END := VIRTUAL_OFFSET + 0x80060000;
  BSS_START := VIRTUAL_OFFSET + 0x80060000; BSS_END := VIRTUAL_OFFSET + 0x80080123
|}.
Definition labels : BootLabels := {|
  boot_tables := 0x80060000; stacks := 0x80001000;
  machine_handler_address := 0x80000100; supervisor_handler_address := 0x80000200;
  os_start_address := 0x80004000
|}.
#[export] Instance small_labels_ok : BootLabelsOk small_link labels.
Proof. by split. Qed.
#[export] Instance big_labels_ok : BootLabelsOk link labels.
Proof. by split. Qed.

(** Zero memory, nothing set up. *)
Definition reset : kstate := KState ∅ 0 0 0 0 0 0 0 [] [] no_statics.

(** The first instruction of the kernel and a string behind the image are found, the
    address behind the mapped pages and those of user programs are not. *)
Lemma boot_tables_exact_witness :
  ∃ s', @_start labels small_link 0 0x1880 reset = Done (@boot_entry labels 0x1880) s' ∧
    let hw := sv48 (pmem s') (satp_root (satp s')) in
    hw (VIRTUAL_OFFSET + 0x80004000) = Some 0x80004000 ∧ hw (VIRTUAL_OFFSET + 0x80197FFF) = Some 0x80197FFF ∧
    hw (VIRTUAL_OFFSET + 0x10000005) = Some 0x10000005 ∧ hw (VIRTUAL_OFFSET + 0x80199000) = None ∧ hw 0x10000 = None.
Proof.
  destruct (boot_tables_exact (BO := small_labels_ok) reset 0x1880) as (s' & E & _ & H); [done|done|].
  exists s'. split; [exact E|]. cbv zeta. rewrite !H by (unfold VIRTUAL_OFFSET; lia).
  unfold boot_mapped. change KERNEL_START with 0x80000000. change LAST_PAGE with 0x80198000. unfold UART, VIRTUAL_OFFSET.
  split_and!; first [rewrite decide_True by lia|rewrite decide_False by lia]; done.
Defined.

Lemma boot_tables_alias_witness :
  ∃ s', @_start labels link 0 0 reset = Done (@boot_entry labels 0) s' ∧
    ∃ pa', sv48 (pmem s') (satp_root (satp s')) (0x80004000 + VIRTUAL_OFFSET) = Some pa' ∧ 0x80204000 ≤ pa'.
Proof.
  destruct (boot_tables_alias (BO := big_labels_ok) reset 0) as (s' & E & H); [by vm_compute|].
  exists s'. split; [exact E|]. apply H; by vm_compute.
Defined.

(** The flag of frame 7, and paging_init. *)
Lemma boot_tables_support_init_witness :
  ∃ s1 s2 s3, @_start labels small_link 0 0 reset = Done (@boot_entry labels 0) s1 ∧
    @physical_allocator_init small_link s1 = Done () s2 ∧
    (flags_base s2 = 0x80081000 → sv48 (pmem s2) (satp_root (satp s2)) (0x80081007 + VIRTUAL_OFFSET) = Some 0x80081007) ∧
    paging_init s2 = Done () s3.
Proof.
  destruct (boot_tables_support_init (BO := small_labels_ok) reset 0) as (s1 & s2 & E1 & E2 & _ & H & HP); [by vm_compute|].
  destruct HP as (s3 & E3 & _); [done|].
  exists s1, s2, s3. split; [exact E1|]. split; [exact E2|]. split; [|exact E3]. intros Hf. apply (H s2); [done|done|].
  right. right. left. rewrite Hf. assert (@init_num_frames small_link = 524151) as -> by by vm_compute. lia.
Defined.
