(* ===== verification/Heap.v ===== *)
(** Mapped memory above the window: the part of the address space that
    map_page hands to the kernel heap.

    [heap_core] says that the addresses from VIRTUAL_HEAP_START to [hi] are mapped,
    each to a byte of its own in an allocated frame that is no page table.  Writes
    through such addresses ([writes]) keep the tables, the frame allocator and
    [heap_core]; mapping one page more extends it.  The operations that allocate
    are in KAlloc.v. *)

From S2P Require Import Prelude Monad Memory Sv48 Machine Layout Samples Stdio PhysAlloc Paging AddressSpace.

(** ** States with the same tables *)

Section same_tree.
Context (N : nat) (root : Z) (s s' : kstate) (OK : pt_ok N root s).
Context (Hsame : ∀ q t j, path_ok q → node (pmem s) root q = Some t → index_ok j →
  pte (pmem s') t j = pte (pmem s) t j).

Lemma same_node q : path_ok q → node (pmem s') root q = node (pmem s) root q.
Proof using Hsame.
  induction q as [|j q IH] using rev_ind; intros Hq; [done|].
  apply path_ok_prefix in Hq as (Hq & Hj & Hl). rewrite !node_snoc, IH by done.
  destruct (node (pmem s) root q) as [t|] eqn:E; [|done]. cbn [mbind option_bind].
  unfold step. by rewrite (Hsame q t j).
Qed.

Lemma same_walk_from ix : ∀ q t, node (pmem s) root q = Some t → Forall index_ok (q ++ ix) →
  length (q ++ ix) = 4%nat → pt_walk (pmem s') t ix = pt_walk (pmem s) t ix.
Proof using Hsame.
  induction ix as [|j rest IH]; intros q t Hn HF Hl; [done|].
  rewrite length_app in Hl. simpl in Hl.
  apply Forall_app in HF as [HFq HFj]. apply Forall_cons in HFj as [Hj HFr].
  assert (path_ok q) as Hq by (split; [done|lia]).
  rewrite !pt_walk_cons. cbv zeta. rewrite (Hsame q t j Hq Hn Hj).
  destruct (pte_bad (pte (pmem s) t j)) eqn:Eb; [done|].
  destruct (pte_leaf (pte (pmem s) t j)) eqn:El; [done|].
  apply (IH (q ++ [j])).
  - rewrite node_snoc, Hn. cbn [mbind option_bind]. apply step_Some. auto using not_bad_V.
  - rewrite <- app_assoc. apply Forall_app. split; [done|]. by constructor.
  - rewrite <- app_assoc, length_app. simpl. lia.
Qed.

Lemma same_walk ix : Forall index_ok ix → length ix = 4%nat →
  pt_walk (pmem s') root ix = pt_walk (pmem s) root ix.
Proof using Hsame. by apply (same_walk_from ix [] root). Qed.

Lemma same_sv48 va : sv48 (pmem s') root va = sv48 (pmem s) root va.
Proof using Hsame.
  apply sv48_ext. destruct (vpns_ok va). by apply same_walk.
Qed.

Lemma same_pt_ok :
  frames_ok N s' → only_mem s s' →
  (∀ t, used_frame N s t → used_frame N s' t) → pt_ok N root s'.
Proof using OK Hsame.
  intros FR M Hu. destruct (only_mem_fields _ _ M) as (E1 & _ & _ & E4 & _). split.
  - done.
  - rewrite E4. apply OK.
  - rewrite E1. apply OK.
  - intros q t Hq Hn. rewrite same_node in Hn by done. by apply Hu, (pt_alloc _ _ _ OK q).
  - intros q q' t Hq Hq' Hn Hn'. rewrite same_node in Hn, Hn' by done.
    by apply (pt_inj _ _ _ OK q q' t).
  - intros q t j Hq Hl Hj Hn. rewrite same_node in Hn by done.
    rewrite (Hsame q t j) by done. by apply (pt_entry _ _ _ OK q).
  - intros q t j Hq Hj Hn. rewrite same_node in Hn by done.
    rewrite (Hsame q t j) by done. by apply (pt_small _ _ _ OK q).
Qed.
End same_tree.

(** Taking a frame leaves the tables alone. *)
Lemma kalloc_frame_tree N root s :
  pt_ok N root s → (0 < nfree N s)%nat →
  ∃ i s', kalloc_frame s = Done (frame_at s i) s' ∧ pt_ok N root s' ∧ only_mem s s' ∧
    0 ≤ i < Z.of_nat N ∧ frame_free s i ∧ nfree N s = S (nfree N s') ∧
    (∀ j, frame_free s' j ↔ frame_free s j ∧ j ≠ i) ∧
    (∀ q, path_ok q → node (pmem s') root q = node (pmem s) root q) ∧
    (∀ va, sv48 (pmem s') root va = sv48 (pmem s) root va) ∧
    (∀ va, no_superpage (pmem s) root va → no_superpage (pmem s') root va) ∧
    agree (λ a, ¬ in_flags N s a) (pmem s) (pmem s') ∧ (∀ j, 0 ≤ j < i → ¬ frame_free s j).
Proof.
  intros OK Hn. pose proof (pt_frames _ _ _ OK) as FR.
  destruct (kalloc_frame_spec N s FR Hn) as (i & o & s' & E & Es & Hi & Hf & Hl & FR' & Hc & Hfree).
  assert (only_mem s s') as M by (rewrite Es; apply only_mem_both).
  assert (agree (λ a, ¬ in_flags N s a) (pmem s) (pmem s')) as Ha.
  { rewrite Es. cbn [pmem emit set_console set_pmem]. apply agree_wr8. unfold in_flags. lia. }
  assert (∀ q t j, path_ok q → node (pmem s) root q = Some t → index_ok j →
    pte (pmem s') t j = pte (pmem s) t j) as Hsame.
  { intros q t j Hq Hnode Hj. apply pte_agree; [done|]. eapply agree_mono; [|exact Ha].
    intros a Hp Hfl. pose proof (pt_alloc _ _ _ OK q t Hq Hnode) as Hu.
    apply (flag_not_in_used N s t (a - flags_base s) FR Hu); [unfold in_flags in Hfl; lia|].
    by replace (flags_base s + (a - flags_base s)) with a by lia. }
  exists i, s'. split_and!; try done; try lia.
  - apply (same_pt_ok N root s s'); try done.
    intros t (j & Hj & -> & Hu). exists j. destruct (only_mem_frames _ _ M) as [_ Ef].
    rewrite Ef, Hfree. tauto.
  - by apply same_node.
  - by apply same_sv48.
  - intros va Hno e l. destruct (vpns_ok va). rewrite (same_walk root s s') by done. apply Hno.
Qed.

(** ** Data *)

(** An address in an allocated frame that is no table. *)
Definition data_addr (N : nat) (root : Z) (s : kstate) (a : Z) : Prop :=
  outside_tables N root s a ∧ ∃ t, used_frame N s t ∧ in_page t a.

(** An address that is neither in a table nor a flag, nor in a free frame: data, and
    everything below the flags. *)
Definition loose_addr (N : nat) (root : Z) (s : kstate) (a : Z) : Prop :=
  outside_tables N root s a ∧
  ∀ i, 0 ≤ i < Z.of_nat N → frame_free s i → ¬ in_page (frame_at s i) a.

Lemma data_loose N root s a : data_addr N root s a → loose_addr N root s a.
Proof.
  intros [Ho (t & (j & Hj & -> & Hu) & Hp)]. split; [done|]. intros i Hi Hf Hin.
  by rewrite (in_frame_inj s j i a Hp Hin) in Hu.
Qed.

Section loose.
Context (N : nat) (root : Z) (s : kstate) (m' : mem) (OK : pt_ok N root s).
Context (Ha : agree (λ a, ¬ loose_addr N root s a) (pmem s) m').
Let s' := set_pmem m' s.

Lemma loose_pte q t j : path_ok q → node (pmem s) root q = Some t → index_ok j →
  pte (pmem s') t j = pte (pmem s) t j.
Proof using Ha.
  intros Hq Hn Hj. apply pte_agree; [done|]. eapply agree_mono; [|exact Ha].
  intros a Hp [[_ Hout] _]. by apply (Hout q t).
Qed.

Lemma loose_flag i : 0 ≤ i < Z.of_nat N → frame_flag s' i = frame_flag s i.
Proof using Ha.
  intros Hi. unfold frame_flag. change (flags_base s') with (flags_base s). apply Ha.
  intros [[Hfl _] _]. apply Hfl. unfold in_flags. lia.
Qed.

Lemma loose_frames_ok : frames_ok N s'.
Proof using OK Ha.
  apply (frames_ok_step N s); try done; [apply OK|..].
  - intros i Hi. unfold frame_free. by rewrite loose_flag.
  - intros i a Hi Hf Hin. unfold frame_free in Hf. rewrite loose_flag in Hf by done.
    apply Ha. intros [_ Hl]. by apply (Hl i).
Qed.

Lemma loose_used t : used_frame N s' t ↔ used_frame N s t.
Proof using Ha.
  split; intros (i & Hi & -> & Hu); exists i; (split; [done|]); (split; [done|]);
    unfold frame_free in *; by rewrite loose_flag in *.
Qed.

Lemma loose_pt_ok : pt_ok N root s'.
Proof using OK Ha.
  apply (same_pt_ok N root s s'); [done|exact loose_pte|apply loose_frames_ok|
    apply only_mem_set_pmem|]. intros t. apply loose_used.
Qed.

Lemma loose_sv48 va : sv48 m' root va = sv48 (pmem s) root va.
Proof using Ha. apply (same_sv48 root s s'). exact loose_pte. Qed.

Lemma loose_walk va : pt_walk m' root (vpns va) = pt_walk (pmem s) root (vpns va).
Proof using Ha. destruct (vpns_ok va). by apply (same_walk root s s' loose_pte). Qed.

Lemma loose_resolve va : satp_root (satp s) = root → resolve s' va = resolve s va.
Proof using Ha.
  intros E. unfold resolve. change (satp s') with (satp s). rewrite E.
  destruct (in_window _); [done|]. apply loose_sv48.
Qed.

Lemma loose_nfree : nfree N s' = nfree N s.
Proof using Ha. apply nfree_ext. intros i Hi. unfold frame_free. by rewrite loose_flag. Qed.

Lemma loose_data_addr a : data_addr N root s' a ↔ data_addr N root s a.
Proof using Ha.
  unfold data_addr, outside_tables. setoid_rewrite loose_used.
  assert ((∀ q t, path_ok q → node (pmem s') root q = Some t → ¬ in_page t a) ↔
          (∀ q t, path_ok q → node (pmem s) root q = Some t → ¬ in_page t a)) as ->; [|done].
  split; intros H q t Hq; specialize (H q t Hq);
    rewrite (same_node root s s' loose_pte) in * by done; done.
Qed.
End loose.

Section data.
Context (N : nat) (root : Z) (s : kstate) (m' : mem).
Context (Ha : agree (λ a, ¬ data_addr N root s a) (pmem s) m').
Let s' := set_pmem m' s.

Lemma data_agree : agree (λ a, ¬ loose_addr N root s a) (pmem s) m'.
Proof using Ha. eapply agree_mono; [|exact Ha]. intros a Hn Hd. by apply Hn, data_loose. Qed.

Lemma data_pte q t j : path_ok q → node (pmem s) root q = Some t → index_ok j →
  pte (pmem s') t j = pte (pmem s) t j.
Proof using Ha. apply (loose_pte N root s m' data_agree). Qed.
Lemma data_used t : used_frame N s' t ↔ used_frame N s t.
Proof using Ha. apply (loose_used N root s m' data_agree). Qed.
Lemma data_pt_ok : pt_ok N root s → pt_ok N root s'.
Proof using Ha. intros OK. by apply (loose_pt_ok N root s m' OK), data_agree. Qed.
Lemma data_sv48 va : sv48 m' root va = sv48 (pmem s) root va.
Proof using Ha. apply (loose_sv48 N root s m' data_agree). Qed.
Lemma data_walk va : pt_walk m' root (vpns va) = pt_walk (pmem s) root (vpns va).
Proof using Ha. apply (loose_walk N root s m' data_agree). Qed.
Lemma data_resolve va : satp_root (satp s) = root → resolve s' va = resolve s va.
Proof using Ha. apply (loose_resolve N root s m' data_agree). Qed.
Lemma data_nfree : nfree N s' = nfree N s.
Proof using Ha. apply (loose_nfree N root s m' data_agree). Qed.

End data.

(** ** The mapped heap *)

Definition in_heap (hi va : Z) : Prop := VIRTUAL_HEAP_START ≤ va < hi.

Record heap_core (N : nat) (root hi : Z) (s : kstate) : Prop := HeapCore {
  hc_pt : pt_ok N root s;
  hc_space : kernel_space (pmem s) root;
  hc_lo : VIRTUAL_HEAP_START ≤ hi;
  hc_align : hi mod 4096 = 0;
  hc_hi : hi - VIRTUAL_HEAP_START + 4096 * Z.of_nat (nfree N s) ≤ 4096 * Z.of_nat N;
  hc_map : ∀ va, in_heap hi va → ∃ pa, resolve s va = Some pa ∧ data_addr N root s pa;
  hc_inj : ∀ va va' pa, in_heap hi va → in_heap hi va' →
    resolve s va = Some pa → resolve s va' = Some pa → va = va'
}.

(** Memory may change wherever it is no table, no flag and no free frame. *)
Lemma loose_core N root hi s m' :
  heap_core N root hi s → agree (λ a, ¬ loose_addr N root s a) (pmem s) m' →
  heap_core N root hi (set_pmem m' s).
Proof.
  intros HC Ha. pose proof (hc_pt _ _ _ _ HC) as OK.
  assert (∀ va, resolve (set_pmem m' s) va = resolve s va) as Hr.
  { intros va. by apply (loose_resolve N root s m'), (pt_satp _ _ _ OK). }
  split.
  - by apply loose_pt_ok.
  - split.
    + intros va H1 H2. cbn [pmem set_pmem]. rewrite (loose_sv48 N root s m' Ha). by apply HC.
    + intros va H1 H2 H3 e l. cbn [pmem set_pmem]. rewrite (loose_walk N root s m' Ha).
      by apply (ks_pages _ _ (hc_space _ _ _ _ HC)).
  - apply HC.
  - apply HC.
  - rewrite (loose_nfree N root s m' Ha). apply HC.
  - intros va Hva. rewrite Hr. setoid_rewrite (loose_data_addr N root s m' Ha). by apply HC.
  - intros va va' pa. rewrite !Hr. apply HC.
Qed.

(** The byte behind an address (0 where nothing is mapped), and multi-byte values. *)
Definition vbyte (s : kstate) (va : Z) : Z :=
  match resolve s va with Some pa => rd8 (pmem s) pa | None => 0 end.

Fixpoint vload (n : nat) (s : kstate) (va : Z) : Z :=
  match n with
  | O => 0
  | S n' => vbyte s va + 0x100 * vload n' s (va + 1)
  end.

(** [s'] is [s] with other values behind the addresses satisfying [P]. *)
Definition writes (P : Z → Prop) (s s' : kstate) : Prop :=
  ∃ m', s' = set_pmem m' s ∧
    agree (λ a, ¬ ∃ va, P va ∧ resolve s va = Some a) (pmem s) m'.

Lemma nframes_small N s : frames_ok N s → 4096 * Z.of_nat N ≤ WINDOW_SIZE.
Proof.
  intros OK. destruct (fo_bounds _ _ OK) as (B1 & B2 & B3). unfold WINDOW_SIZE. lia.
Qed.

Section core.
Context (N : nat) (root hi : Z) (s : kstate) (HC : heap_core N root hi s).

(** The heap ends 4 GiB above its start at the latest. *)
Lemma hc_bounds : VIRTUAL_HEAP_START ≤ hi ≤ VIRTUAL_HEAP_START + WINDOW_SIZE.
Proof using HC.
  pose proof (hc_lo _ _ _ _ HC). pose proof (hc_hi _ _ _ _ HC).
  pose proof (nframes_small N s (pt_frames _ _ _ (hc_pt _ _ _ _ HC))). lia.
Qed.

Lemma heap_succ va : in_heap hi va → va ⊞ 1 = va + 1.
Proof using HC.
  pose proof hc_bounds. unfold in_heap, VIRTUAL_HEAP_START, WINDOW_SIZE, VIRTUAL_OFFSET,
    RAM_ORIGIN, RAM_LENGTH in *. intros. rewrite u64_small; lia.
Qed.

Lemma heap_resolve va : in_heap hi va → resolve s va = sv48 (pmem s) root va.
Proof using HC.
  pose proof hc_bounds. intros Hva. rewrite resolve_heap.
  - by rewrite (pt_satp _ _ _ (hc_pt _ _ _ _ HC)).
  - unfold in_heap, VIRTUAL_HEAP_START, WINDOW_SIZE, VIRTUAL_OFFSET, RAM_ORIGIN, RAM_LENGTH in *.
    simpl. lia.
Qed.

Lemma load8_heap va : in_heap hi va → load8 va s = Done (vbyte s va) s.
Proof using HC.
  intros Hva. destruct (hc_map _ _ _ _ HC va Hva) as (pa & E & _).
  unfold load8, vbyte. by rewrite E.
Qed.

Lemma loadv_heap n va :
  VIRTUAL_HEAP_START ≤ va → va + Z.of_nat n ≤ hi → loadv n va s = Done (vload n s va) s.
Proof using HC.
  revert va. induction n as [|n IH]; intros va H1 H2; [done|]. cbn [loadv vload].
  rewrite (bind_done _ _ _ _ _ (load8_heap va ltac:(unfold in_heap; lia))).
  rewrite heap_succ by (unfold in_heap; lia).
  by rewrite (bind_done _ _ _ _ _ (IH (va + 1) ltac:(lia) ltac:(lia))).
Qed.

(** Writing to heap addresses. *)
Section write.
Context (P : Z → Prop) (s' : kstate) (HP : ∀ va, P va → in_heap hi va) (W : writes P s s').

Lemma writes_data : ∃ m', s' = set_pmem m' s ∧ agree (λ a, ¬ data_addr N root s a) (pmem s) m'.
Proof using HC HP W.
  destruct W as (m' & E & Ha). exists m'. split; [done|]. eapply agree_mono; [|exact Ha].
  intros a Hd (va & Hva & Er). apply Hd.
  destruct (hc_map _ _ _ _ HC va (HP va Hva)) as (pa & E' & Hpa). congruence.
Qed.

Lemma writes_resolve va : resolve s' va = resolve s va.
Proof using HC HP W.
  destruct writes_data as (m' & -> & Ha). apply (data_resolve N root); [done|].
  apply HC.
Qed.

Lemma writes_vbyte va : in_heap hi va → ¬ P va → vbyte s' va = vbyte s va.
Proof using HC HP W.
  intros Hva Hn. unfold vbyte. rewrite writes_resolve.
  destruct (resolve s va) as [pa|] eqn:E; [|done]. destruct W as (m' & -> & Ha).
  apply Ha. intros (va' & HP' & E').
  by rewrite (hc_inj _ _ _ _ HC va' va pa) in HP' by auto.
Qed.

Lemma writes_core : heap_core N root hi s'.
Proof using HC HP W.
  destruct writes_data as (m' & -> & Ha). apply (loose_core N root hi s m' HC).
  by apply data_agree.
Qed.
End write.
End core.

Lemma writes_refl P s : writes P s s.
Proof. exists (pmem s). by rewrite set_pmem_id. Qed.

Lemma writes_mono (P Q : Z → Prop) s s' : (∀ va, P va → Q va) → writes P s s' → writes Q s s'.
Proof.
  intros H (m' & E & Ha). exists m'. split; [done|]. eapply agree_mono; [|exact Ha].
  intros a Hn (va & HP & Er). apply Hn. eauto.
Qed.

Lemma writes_trans P s1 s2 s3 :
  (∀ va, P va → resolve s2 va = resolve s1 va) → writes P s1 s2 → writes P s2 s3 → writes P s1 s3.
Proof.
  intros Hr (m2 & E2 & A2) (m3 & E3 & A3). exists m3. subst s2.
  rewrite set_pmem_set_pmem in E3. split; [done|]. etrans; [exact A2|].
  eapply agree_mono; [|exact A3]. intros a Hn (va & HP & Er). apply Hn. exists va.
  by rewrite <- Hr.
Qed.

Lemma writes_only_mem P s s' : writes P s s' → only_mem s s'.
Proof. intros (m & -> & _). apply only_mem_set_pmem. Qed.

Lemma vload_ext n s s' va va' :
  (∀ i, 0 ≤ i < Z.of_nat n → vbyte s' (va' + i) = vbyte s (va + i)) → vload n s' va' = vload n s va.
Proof.
  revert va va'. induction n as [|n IH]; intros va va' H; [done|]. cbn [vload].
  pose proof (H 0 ltac:(lia)) as H0. rewrite !Z.add_0_r in H0. rewrite H0.
  do 2 f_equal. apply IH. intros i Hi. rewrite <- !Z.add_assoc.
  apply H. lia.
Qed.

(** Results and console output do not disturb the heap. *)
Lemma heap_core_emit N root hi o s : heap_core N root hi s → heap_core N root hi (emit o s).
Proof. intros []. split; try done. by apply pt_ok_emit. Qed.

Lemma heap_core_fields N root hi s s' :
  pmem s' = pmem s → satp s' = satp s → first_level_table s' = first_level_table s →
  managed_frames_address_start s' = managed_frames_address_start s →
  first_frame_address s' = first_frame_address s →
  heap_core N root hi s → heap_core N root hi s'.
Proof.
  destruct s, s'. simpl. intros -> -> -> -> -> [[[] ? ? ? ? ? ?] ? ? ? ? ? ?].
  split; [split; [split|..]|..]; assumption.
Qed.

Section stores.
Context (N : nat) (root hi : Z).

Lemma store8_heap s va b :
  heap_core N root hi s → in_heap hi va →
  ∃ s', store8 va b s = Done () s' ∧ writes (λ x, x = va) s s' ∧ vbyte s' va = u8 b.
Proof.
  intros HC Hva. destruct (hc_map _ _ _ _ HC va Hva) as (pa & E & Hpa).
  exists (set_pmem (wr8 (pmem s) pa b) s).
  assert (writes (λ x, x = va) s (set_pmem (wr8 (pmem s) pa b) s)) as W.
  { eexists. split; [done|]. apply agree_wr8. intros Hn. apply Hn. by exists va. }
  split; [unfold store8; by rewrite E|]. split; [done|]. unfold vbyte.
  rewrite (writes_resolve N root hi s HC (λ x, x = va) _) by (done || by intros ? ->).
  rewrite E. cbn [pmem set_pmem]. apply rd8_wr8_eq.
Qed.

Lemma storev_heap n s va v :
  heap_core N root hi s → VIRTUAL_HEAP_START ≤ va → va + Z.of_nat n ≤ hi →
  ∃ s', storev n va v s = Done () s' ∧ writes (λ x, va ≤ x < va + Z.of_nat n) s s' ∧
    vload n s' va = v mod 0x100 ^ Z.of_nat n.
Proof.
  revert s va v. induction n as [|n IH]; intros s va v HC H1 H2.
  { exists s. split; [done|]. split; [apply writes_refl|]. by rewrite Z.mod_1_r. }
  destruct (store8_heap s va v HC) as (s1 & E1 & W1 & B1); [unfold in_heap; lia|].
  assert (∀ x, x = va → in_heap hi x) as HP by (intros ? ->; unfold in_heap; lia).
  pose proof (writes_core N root hi s HC _ s1 HP W1) as HC1.
  destruct (IH s1 (va + 1) (v / 0x100) HC1) as (s2 & E2 & W2 & B2); [lia|lia|].
  assert (∀ x, va + 1 ≤ x < va + 1 + Z.of_nat n → in_heap hi x) as HP2
    by (unfold in_heap; lia).
  exists s2. split_and!.
  - cbn [storev]. rewrite (bind_done _ _ _ _ _ E1).
    by rewrite (heap_succ N root hi s) by (done || unfold in_heap; lia).
  - apply (writes_trans _ s s1).
    + intros x Hx. apply (writes_resolve N root hi s HC _ s1 HP W1).
    + eapply writes_mono; [|exact W1]. simpl. lia.
    + eapply writes_mono; [|exact W2]. simpl. lia.
  - cbn [vload]. rewrite B2.
    rewrite (writes_vbyte N root hi s1 HC1 _ s2 HP2 W2), B1
      by (unfold in_heap; lia).
    rewrite Nat2Z.inj_succ, Z.pow_succ_r, Z.rem_mul_r by lia. done.
Qed.

Lemma store64_heap s va v :
  heap_core N root hi s → VIRTUAL_HEAP_START ≤ va → va + 8 ≤ hi → 0 ≤ v < 2 ^ 64 →
  ∃ s', store64 va v s = Done () s' ∧ writes (λ x, va ≤ x < va + 8) s s' ∧
    heap_core N root hi s' ∧ vload 8 s' va = v.
Proof.
  intros HC H1 H2 Hv. destruct (storev_heap 8 s va v HC H1 H2) as (s' & E & W & B).
  exists s'. split; [done|]. split; [done|]. split.
  - apply (writes_core N root hi s HC (λ x, va ≤ x < va + 8) s'); [|done].
    unfold in_heap. lia.
  - rewrite B. apply Z.mod_small. done.
Qed.

Lemma vload_writes n s s' (P : Z → Prop) va :
  heap_core N root hi s → (∀ x, P x → in_heap hi x) → writes P s s' →
  VIRTUAL_HEAP_START ≤ va → va + Z.of_nat n ≤ hi → (∀ x, va ≤ x < va + Z.of_nat n → ¬ P x) →
  vload n s' va = vload n s va.
Proof.
  intros HC HP W H1 H2 Hn. apply vload_ext. intros i Hi.
  apply (writes_vbyte N root hi s HC P s' HP W); [unfold in_heap; lia|apply Hn; lia].
Qed.

(** A range of the heap is a buffer in the sense of Machine.v. *)
Lemma heap_buffer s p n :
  heap_core N root hi s → VIRTUAL_HEAP_START ≤ p → p + n ≤ hi →
  buffer s p n (λ i, default 0 (resolve s (p + i))).
Proof.
  intros HC H1 H2.
  assert (∀ i, 0 ≤ i < n → in_heap hi (p + i)) as Hin by (unfold in_heap; lia).
  assert (∀ i, 0 ≤ i < n → resolve s (p + i) = Some (default 0 (resolve s (p + i)))) as Hsome.
  { intros i Hi. by destruct (hc_map _ _ _ _ HC _ (Hin i Hi)) as (pa & -> & _). }
  split.
  - intros i j Hi Hj E. pose proof (Hsome i Hi) as Ei. pose proof (Hsome j Hj) as Ej.
    rewrite E in Ei. pose proof (hc_inj _ _ _ _ HC _ _ _ (Hin i Hi) (Hin j Hj) Ei Ej). lia.
  - intros s' Hs Ha i Hi. pose proof (hc_bounds N root hi s HC) as HB.
    replace (p ⊞ i) with (p + i).
    2:{ unfold VIRTUAL_HEAP_START, VIRTUAL_OFFSET, WINDOW_SIZE, RAM_ORIGIN, RAM_LENGTH in *.
        rewrite u64_small; lia. }
    rewrite <- Hsome by done. transitivity (resolve (set_pmem (pmem s') s) (p + i)).
    { unfold resolve. cbn [pmem set_pmem satp]. by rewrite Hs. }
    apply (data_resolve N root); [|apply HC]. eapply agree_mono; [|exact Ha].
    intros a Hd (k & Hk & ->). apply Hd.
    destruct (hc_map _ _ _ _ HC _ (Hin k Hk)) as (pa & -> & Hpa). done.
Qed.
End stores.

(** ** One page more *)

(** An allocated frame that is no table consists of data addresses. *)
Lemma data_addr_intro N root s t a :
  pt_ok N root s → used_frame N s t → in_page t a →
  (∀ q t', path_ok q → node (pmem s) root q = Some t' → t' ≠ t) → data_addr N root s a.
Proof.
  intros OK Hu Hp Hn. pose proof (pt_frames _ _ _ OK) as FR. split; [split|by exists t].
  - intros Hfl. apply (flag_not_in_used N s t (a - flags_base s) FR Hu);
      [unfold in_flags in Hfl; lia|].
    by replace (flags_base s + (a - flags_base s)) with a by lia.
  - intros q t' Hq Hnode Hp'. apply (Hn q t' Hq Hnode).
    by apply (used_frames_disjoint N s t' t a (pt_alloc _ _ _ OK q t' Hq Hnode)).
Qed.

Lemma data_addr_elim N root s a :
  data_addr N root s a →
  ∃ t, used_frame N s t ∧ in_page t a ∧
    ∀ q t', path_ok q → node (pmem s) root q = Some t' → t' ≠ t.
Proof.
  intros [[_ Hout] (t & Hu & Hp)]. exists t. split_and!; try done.
  intros q t' Hq Hn ->. by apply (Hout q t).
Qed.

(** A page that may be mapped: canonical and not in the window. *)
Record mappable (va : Z) : Prop := Mappable {
  ma_range : 0 ≤ va < 2 ^ 64;
  ma_canonical : canonical va = true;
  ma_window : in_window va = false
}.

(** What [kalloc_frame] followed by [map_page va frame flag] does in an address space
    of the kernel: the page of [va] leads to the fresh frame [f], which is zero; all
    else stays. *)
Record page_added (N : nat) (root va f : Z) (s s' : kstate) : Prop := PageAdded {
  pa_pt : pt_ok N root s';
  pa_space : kernel_space (pmem s') root;
  pa_mem : only_mem s s';
  pa_free : (nfree N s ≤ nfree N s' + 4)%nat;
  pa_less : (nfree N s' < nfree N s)%nat;
  pa_aligned : f mod 4096 = 0;
  pa_resolve : ∀ x, 0 ≤ x < 2 ^ 64 →
    resolve s' x = if decide (x / 4096 = va / 4096) then Some (f + x mod 4096) else resolve s x;
  pa_data : ∀ a, data_addr N root s a → data_addr N root s' a ∧ ¬ in_page f a;
  pa_page : ∀ a, in_page f a → data_addr N root s' a;
  pa_zero : ∀ a, in_page f a → rd8 (pmem s') a = 0;
  pa_out : agree (outside_tables N root s') (pmem s) (pmem s');
  pa_outside : ∀ a, outside_tables N root s' a → outside_tables N root s a;
  pa_order : keeps_order N s s';
  pa_used : ∀ j, 0 ≤ j < Z.of_nat N → frame_free s' j → frame_free s j;
  pa_node : ∀ q t, path_ok q → node (pmem s) root q = Some t → node (pmem s') root q = Some t
}.

Section add_page.
Context (N : nat) (root va flag i : Z) (s s1 s2 : kstate).
Context (OK : pt_ok N root s) (KS : kernel_space (pmem s) root).
Context (MA : mappable va) (Hflag : 0 ≤ flag < 1024) (Hleaf : leaf_flag flag = true).
Context (Hi : 0 ≤ i < Z.of_nat N) (Hf : frame_free s i) (Hleast : ∀ j, 0 ≤ j < i → ¬ frame_free s j).
Context (OK1 : pt_ok N root s1) (M1 : only_mem s s1) (Hn1 : nfree N s = S (nfree N s1))
  (Hfree1 : ∀ j, frame_free s1 j ↔ frame_free s j ∧ j ≠ i)
  (Hnode1 : ∀ q, path_ok q → node (pmem s1) root q = node (pmem s) root q)
  (Hsv1 : ∀ va, sv48 (pmem s1) root va = sv48 (pmem s) root va)
  (Hno1 : ∀ va, no_superpage (pmem s) root va → no_superpage (pmem s1) root va)
  (Ha1 : agree (λ a, ¬ in_flags N s a) (pmem s) (pmem s1)).
Context (Mp : mapped N root 3 va (entry_for (frame_at s i) flag) s1 s2).

Let f := frame_at s i.

Lemma pg_frame : 0 ≤ f < 2 ^ 52 ∧ f mod 4096 = 0.
Proof using OK Hi.
  clear - OK Hi. pose proof (pt_frames _ _ _ OK) as FR.
  destruct (frame_at_range N s i FR Hi) as [F1 F2].
  pose proof (frame_at_aligned N s i FR) as F3. fold f in F1, F2, F3.
  unfold WINDOW_SIZE, FRAME_SIZE in *. simpl. split; [lia|done].
Qed.

Lemma pg_used t : used_frame N s t → used_frame N s2 t ∧ t ≠ f.
Proof.
  intros (j & Hj & -> & Hu). destruct (only_mem_frames _ _ M1) as [_ Ef1].
  destruct (only_mem_frames _ _ (mp_mem _ _ _ _ _ _ _ Mp)) as [_ Ef2]. split.
  - exists j. rewrite Ef2, Ef1. split_and!; try done; try lia.
    intros H. by apply (mp_used _ _ _ _ _ _ _ Mp), Hfree1 in H as [H _].
  - intros E. apply frame_at_inj in E. by subst j.
Qed.

Lemma pg_f_used : used_frame N s2 f.
Proof.
  destruct (only_mem_frames _ _ M1) as [_ Ef1].
  destruct (only_mem_frames _ _ (mp_mem _ _ _ _ _ _ _ Mp)) as [_ Ef2].
  exists i. rewrite Ef2, Ef1. split_and!; try done; try lia.
  intros H. apply (mp_used _ _ _ _ _ _ _ Mp), Hfree1 in H as [_ H]; done.
Qed.

(** The tables of [s2] are tables of [s] or lie in frames free in [s]. *)
Lemma pg_new q t : path_ok q → node (pmem s2) root q = Some t →
  node (pmem s) root q = Some t ∨ ∃ j, 0 ≤ j < Z.of_nat N ∧ t = frame_at s j ∧ frame_free s j ∧ j ≠ i.
Proof.
  intros Hq Hn. destruct (only_mem_frames _ _ M1) as [_ Ef1].
  destruct (mp_new _ _ _ _ _ _ _ Mp q t Hq Hn) as [H|(j & Hj & -> & Hfj)].
  - left. by rewrite <- Hnode1.
  - right. exists j. rewrite Ef1. apply Hfree1 in Hfj. tauto.
Qed.

Lemma pg_data a : data_addr N root s a → data_addr N root s2 a ∧ ¬ in_page f a.
Proof.
  intros Hd. apply data_addr_elim in Hd as (t & Hu & Hp & Hn). destruct (pg_used t Hu) as [Hu2 Hne].
  split.
  - apply (data_addr_intro N root s2 t); [apply Mp|done|done|].
    intros q t' Hq Hn' ->. destruct (pg_new q t Hq Hn') as [H|(j & _ & -> & Hfj & _)].
    + by apply (Hn q t).
    + destruct Hu as (k & _ & E & Hu). apply frame_at_inj in E. by subst k.
  - intros Hpf. destruct Hu as (k & _ & -> & Hu). apply Hne. unfold f.
    by rewrite (in_frame_inj s k i a Hp Hpf).
Qed.

Lemma pg_f_data a : in_page f a → data_addr N root s2 a.
Proof.
  intros Hp. apply (data_addr_intro N root s2 f); [apply Mp|apply pg_f_used|done|].
  intros q t' Hq Hn ->. destruct (pg_new q f Hq Hn) as [H|(j & _ & E & _ & Hne)].
  - by destruct (pg_used f (pt_alloc _ _ _ OK q f Hq H)).
  - apply frame_at_inj in E. by subst j.
Qed.

Lemma pg_out : agree (outside_tables N root s2) (pmem s) (pmem s2).
Proof using M1 Ha1 Mp.
  destruct (only_mem_frames _ _ M1) as [Eb1 _].
  destruct (only_mem_frames _ _ (mp_mem _ _ _ _ _ _ _ Mp)) as [Eb2 _].
  intros a Hout. rewrite (mp_out _ _ _ _ _ _ _ Mp a Hout). apply Ha1.
  destruct Hout as [Hfl _]. unfold in_flags in *. by rewrite <- Eb1, <- Eb2.
Qed.

Lemma pg_resolve x : 0 ≤ x < 2 ^ 64 →
  resolve s2 x = if decide (x / 4096 = va / 4096) then Some (f + x mod 4096) else resolve s x.
Proof using All.
  intros Hx. destruct pg_frame as [F1 F2]. destruct MA as [A1 A2 A3].
  unfold resolve. change (2 ^ 64) with 0x10000000000000000 in Hx. rewrite u64_small by done.
  destruct (in_window x) eqn:Ew.
  - rewrite decide_False; [done|]. intros E. apply page_of_window in E. congruence.
  - rewrite (pt_satp _ _ _ (mp_ok _ _ _ _ _ _ _ Mp)), (pt_satp _ _ _ OK).
    rewrite (mapped_sv48 N root 3 va f flag s1 s2) by done. by rewrite Hsv1.
Qed.

Lemma pg_page_added : page_added N root va f s s2.
Proof using All.
  destruct pg_frame as [F1 F2]. destruct MA as [A1 A2 A3].
  destruct (only_mem_frames _ _ M1) as [Eb1 _].
  destruct (only_mem_frames _ _ (mp_mem _ _ _ _ _ _ _ Mp)) as [Eb2 _].
  split.
  - apply Mp.
  - apply (mapped_kernel_space N root 3 va f flag s1 s2); try done.
    destruct KS as [K1 K2]. split.
    + intros x Hx Hw. rewrite Hsv1. auto.
    + intros x Hx Hc Hw. auto.
  - by etrans; [apply M1|apply Mp].
  - pose proof (mp_free _ _ _ _ _ _ _ Mp). lia.
  - pose proof (nfree_mono N s1 s2 (mp_used _ _ _ _ _ _ _ Mp)). lia.
  - done.
  - apply pg_resolve.
  - apply pg_data.
  - apply pg_f_data.
  - intros a Hp. rewrite (pg_out a) by apply (pg_f_data a Hp).
    by apply (fo_zero _ _ (pt_frames _ _ _ OK) i).
  - apply pg_out.
  - intros a [Hfl Hout]. split; [unfold in_flags in *; by rewrite <- Eb1, <- Eb2|].
    intros q t Hq Hn. apply (Hout q t Hq), (mp_node _ _ _ _ _ _ _ Mp); [done|].
    by rewrite Hnode1.
  - etrans; [by apply (keeps_order_alloc N s s1 i)|apply Mp].
  - intros j Hj Hfj. by apply (mp_used _ _ _ _ _ _ _ Mp), Hfree1 in Hfj as [? _].
  - intros q t Hq Hn. apply (mp_node _ _ _ _ _ _ _ Mp); [done|]. by rewrite Hnode1.
Qed.
End add_page.

Lemma add_page_done N root va flag s :
  pt_ok N root s → kernel_space (pmem s) root → mappable va → 0 ≤ flag < 1024 →
  leaf_flag flag = true → (4 ≤ nfree N s)%nat →
  ∃ f s1 s2, kalloc_frame s = Done f s1 ∧ only_mem s s1 ∧
    map_page va f flag s1 = Done () s2 ∧ page_added N root va f s s2.
Proof.
  intros OK KS MA Hfl Hleaf Hn.
  destruct (kalloc_frame_tree N root s OK ltac:(lia))
    as (i & s1 & E1 & OK1 & M1 & Hi & Hf & Hn1 & Hfree1 & Hnode1 & Hsv1 & Hno1 & Ha1 & Hleast).
  destruct (pg_frame N root i s OK Hi) as (F1 & F2). pose proof MA as [A1 A2 A3].
  destruct (map_page_spec N root s1 va (frame_at s i) flag OK1) as (s2 & E2 & Mp);
    [by apply Hno1, (ks_pages _ _ KS)|lia|done|simpl; lia|].
  exists (frame_at s i), s1, s2. split_and!; try done.
  by apply (pg_page_added N root va flag i s s1 s2).
Qed.

(** ** A longer heap *)

(** The heap with the page at its end [hi] added: old addresses keep their place and
    value, and data behind no heap address stays such. *)
Record extended (N : nat) (root hi : Z) (k : nat) (s s' : kstate) : Prop := Extended {
  ex_core : heap_core N root (hi + 4096) s';
  ex_mem : only_mem s s';
  ex_free : (nfree N s ≤ nfree N s' + k)%nat;
  ex_resolve : ∀ va, 0 ≤ va < 2 ^ 64 → ¬ hi ≤ va < hi + 4096 → resolve s' va = resolve s va;
  ex_byte : ∀ va, in_heap hi va → vbyte s' va = vbyte s va;
  ex_data : ∀ a, data_addr N root s a →
    data_addr N root s' a ∧ ∀ va, hi ≤ va < hi + 4096 → resolve s' va ≠ Some a;
  ex_out : agree (outside_tables N root s') (pmem s) (pmem s');
  ex_outside : ∀ a, outside_tables N root s' a → outside_tables N root s a;
  ex_order : keeps_order N s s';
  ex_used : ∀ j, 0 ≤ j < Z.of_nat N → frame_free s' j → frame_free s j;
  ex_node : ∀ q t, path_ok q → node (pmem s) root q = Some t → node (pmem s') root q = Some t
}.

Section extend.
Context (N : nat) (root hi f : Z) (s s' : kstate).
Context (HC : heap_core N root hi s) (PA : page_added N root hi f s s').

Lemma ex_hi : mappable hi.
Proof using HC.
  clear PA. pose proof (hc_bounds N root hi s HC) as HB.
  split; unfold canonical, in_window, VIRTUAL_HEAP_START, WINDOW_SIZE, VIRTUAL_OFFSET, RAM_ORIGIN,
    RAM_LENGTH in *; rewrite ?orb_true_iff, ?andb_false_iff, ?Z.ltb_lt, ?Z.ltb_ge, ?Z.leb_gt, ?Z.leb_le;
    simpl; lia.
Qed.

Lemma ex_resolve_at va : in_heap (hi + 4096) va →
  resolve s' va = if decide (va < hi) then resolve s va else Some (f + va mod 4096).
Proof using HC PA.
  intros Hva. destruct ex_hi as [H1 _ _]. pose proof (hc_align _ _ _ _ HC) as HA.
  pose proof (hc_bounds N root hi s HC) as HB.
  rewrite (pa_resolve _ _ _ _ _ _ PA).
  - unfold in_heap in Hva. repeat case_decide; try done; exfalso; zlia.
  - unfold in_heap, VIRTUAL_HEAP_START, WINDOW_SIZE, VIRTUAL_OFFSET, RAM_ORIGIN, RAM_LENGTH in *.
    simpl. lia.
Qed.

Lemma ex_page va : in_page f (f + va mod 4096).
Proof using Type. unfold in_page, PAGE_SIZE. zlia. Qed.

Lemma ex_byte_at va : in_heap hi va → vbyte s' va = vbyte s va.
Proof using HC PA.
  intros Hva. unfold vbyte. rewrite ex_resolve_at by (unfold in_heap in *; lia).
  rewrite decide_True by apply Hva.
  destruct (hc_map _ _ _ _ HC va Hva) as (pa & -> & Hd). apply (pa_out _ _ _ _ _ _ PA).
  by destruct (pa_data _ _ _ _ _ _ PA pa Hd) as [[Hout _] _].
Qed.

Lemma ex_inj va va' pa : in_heap (hi + 4096) va → in_heap (hi + 4096) va' →
  resolve s' va = Some pa → resolve s' va' = Some pa → va = va'.
Proof using HC PA.
  assert (∀ va va', in_heap hi va → ¬ va' < hi →
    resolve s va = Some (f + va' mod 4096) → False) as Hcross.
  { intros x x' Hx Hx' E. destruct (hc_map _ _ _ _ HC x Hx) as (p & E' & Hd).
    apply (pa_data _ _ _ _ _ _ PA) in Hd as [_ Hd]. apply Hd.
    assert (p = f + x' mod 4096) as -> by congruence. apply ex_page. }
  intros Hva Hva'. rewrite !ex_resolve_at by done.
  unfold in_heap in *. repeat case_decide; intros E E'.
  - apply (hc_inj _ _ _ _ HC va va' pa); unfold in_heap; done || lia.
  - exfalso. apply (Hcross va va'); [lia|done|congruence].
  - exfalso. apply (Hcross va' va); [lia|done|congruence].
  - assert (va mod 4096 = va' mod 4096) by (assert (f + va mod 4096 = f + va' mod 4096)
      by congruence; lia).
    pose proof (hc_align _ _ _ _ HC). zlia.
Qed.

Lemma ex_heap_core : heap_core N root (hi + 4096) s'.
Proof using HC PA.
  pose proof (hc_bounds N root hi s HC) as HB. split.
  - apply PA.
  - apply PA.
  - lia.
  - rewrite Z.add_mod, (hc_align _ _ _ _ HC) by lia. done.
  - pose proof (pa_less _ _ _ _ _ _ PA). pose proof (hc_hi _ _ _ _ HC). lia.
  - intros va Hva. rewrite ex_resolve_at by done. case_decide.
    + destruct (hc_map _ _ _ _ HC va) as (pa & E & Hd); [unfold in_heap in *; lia|].
      exists pa. split; [done|]. by apply (pa_data _ _ _ _ _ _ PA).
    + eexists. split; [done|]. by apply (pa_page _ _ _ _ _ _ PA), ex_page.
  - exact ex_inj.
Qed.

Lemma ex_extended : extended N root hi 4 s s'.
Proof using HC PA.
  pose proof (hc_align _ _ _ _ HC) as HA. split.
  - exact ex_heap_core.
  - apply PA.
  - apply PA.
  - intros va Hva Hn. rewrite (pa_resolve _ _ _ _ _ _ PA) by done. rewrite decide_False; [done|].
    intros E. apply Hn. zlia.
  - exact ex_byte_at.
  - intros a Hd. destruct (pa_data _ _ _ _ _ _ PA a Hd) as [H1 H2]. split; [done|].
    intros va Hva. pose proof (hc_lo _ _ _ _ HC).
    rewrite ex_resolve_at, decide_False by (unfold in_heap; lia). intros [= E]. apply H2. rewrite <- E.
    apply ex_page.
  - apply PA.
  - apply PA.
  - apply PA.
  - apply PA.
  - apply PA.
Qed.
End extend.

Lemma extend_done N root hi s :
  heap_core N root hi s → (4 ≤ nfree N s)%nat →
  ∃ f s1 s2, kalloc_frame s = Done f s1 ∧ only_mem s s1 ∧
    map_page hi f 0xF s1 = Done () s2 ∧ extended N root hi 4 s s2.
Proof.
  intros HC Hn.
  destruct (add_page_done N root hi 0xF s) as (f & s1 & s2 & E1 & M1 & E2 & PA);
    [apply HC|apply HC|by apply (ex_hi N root hi s)|done|done|done|].
  exists f, s1, s2. split_and!; try done. by apply (ex_extended N root hi f).
Qed.
