(* ===== verification/KAlloc.v ===== *)
(** The kernel heap: kernel/libk/list.{h,cpp} (FreeSpace) and
    kernel/memory/virtual_allocator.cpp (memset, memcpy, virtual_allocator_init,
    kalloc, operator new and delete).

    The heap is a bump allocator: one free block, from [free_list] to
    [virtual_alloc_end], whose first word holds its size and the mark that it is the
    last block.  [heap_ok] is its invariant on top of [heap_core] of Heap.v. *)

From S2P Require Import Prelude Monad Memory Sv48 Machine Layout Samples Stdio PhysAlloc Paging AddressSpace Heap.

(** * list.cpp *)

Definition FreeSpace_get_start_address (this : Z) : Z := this.
Definition FreeSpace_get_size (this : Z) : K Z :=
  status ← load64 this; mret (Z.shiftr status 1).
Definition FreeSpace_set_size (this size : Z) : K () :=
  status ← load64 this;
  store64 this (Z.lor (u64 (Z.shiftl size 1)) (Z.land status 0x1)).
Definition FreeSpace_is_last (this : Z) : K bool :=
  status ← load64 this; mret (Z.land status 0x1 =? 0x1).
Definition FreeSpace_set_not_last (this : Z) : K () :=
  status ← load64 this; store64 this (u64 (Z.shiftl (Z.shiftr status 1) 1)).
Definition FreeSpace_set_last (this : Z) : K () :=
  status ← load64 this; store64 this (Z.lor status 0x1).
Definition FreeSpace_get_next (this : Z) : K Z := load64 (this ⊞ 8).

Definition sizeof_FreeSpace : Z := 16.

(** * virtual_allocator.cpp *)

(** memset converts [c] to char and returns [s]; both loops run over a counter below
    the 64-bit length. *)
Definition memset (p c n : Z) : K Z :=
  loop (λ '(i, counter),
    if counter <? n then
      store8 i (to_char c);;
      mret (inl (i ⊞ 1, counter ⊞ 1))
    else mret (inr ())) (p, 0);;
  mret p.

Definition memcpy (dest src len : Z) : K Z :=
  loop (λ current,
    if current <? len then
      c ← load8 (src ⊞ current);
      store8 (dest ⊞ current) c;;
      mret (inl (current ⊞ 1))
    else mret (inr ())) 0;;
  mret dest.

Definition virtual_allocator_init : K () :=
  log LogLevel.VIRTUAL_MEMORY (chars "Initialising virtual allocator") [];;
  frame ← kalloc_frame;
  let page := VIRTUAL_HEAP_START in
  map_page page frame 0xF;;
  let first_item := VirtualPage_get_address page in
  FreeSpace_set_size first_item PAGE_SIZE;;
  FreeSpace_set_last first_item;;
  modify (set_free_list first_item);;
  modify (set_virtual_alloc_end (VIRTUAL_HEAP_START ⊞ PAGE_SIZE));;
  alloc_end ← gets virtual_alloc_end;
  log LogLevel.VIRTUAL_MEMORY (chars "Virtual alloc end: 0x%x" ++ newline) [alloc_end];;
  log LogLevel.VIRTUAL_MEMORY (chars "Initialization of virtual allocator done") [].

(** Search list for enough memory. *)
Definition kalloc_search (size : Z) : Z → K (Z + Z) := λ current : Z,
  last ← FreeSpace_is_last current;
  if (last : bool) then mret (inr current)
  else
    current_size ← FreeSpace_get_size current;
    if current_size <? size then
      next ← FreeSpace_get_next current; mret (inl next)
    else mret (inr current).

Definition kalloc_extend (current size : Z) : () → K (() + ()) := λ _,
  current_size ← FreeSpace_get_size current;
  if current_size <? size ⊞ sizeof_FreeSpace * 2 then
    new_frame ← kalloc_frame;
    alloc_end ← gets virtual_alloc_end;
    map_page alloc_end new_frame 0xF;;
    current_size ← FreeSpace_get_size current;
    FreeSpace_set_size current (current_size ⊞ PAGE_SIZE);;
    modify (λ s, set_virtual_alloc_end (virtual_alloc_end s ⊞ PAGE_SIZE) s);;
    mret (inl ())
  else mret (inr ()).

Definition kalloc (size : Z) : K Z :=
  first ← gets free_list;
  current ← loop (kalloc_search size) first;
  last ← FreeSpace_is_last current;
  (if (last : bool) then
     current_size ← FreeSpace_get_size current;
     if current_size <? size ⊞ sizeof_FreeSpace * 2 then loop (kalloc_extend current size) ()
     else mret ()
   else mret ());;
  (* from here, assume that current has enough space *)
  old_size ← FreeSpace_get_size current;
  let address := current in
  store64 address size;;
  store64 (address ⊞ 8) 0xFEEBDAEDDEADBEEF;;
  let result_pointer := address ⊞ 16 in
  let new_free_list := result_pointer ⊞ size in
  FreeSpace_set_last new_free_list;;
  FreeSpace_set_size new_free_list (old_size ⊟ (size ⊞ 16));;
  modify (set_free_list new_free_list);;
  log LogLevel.VIRTUAL_MEMORY (chars "Allocated %i bytes at 0x%x") [size; result_pointer];;
  mret result_pointer.

Definition operator_new (size : Z) : K Z := kalloc size.
Definition operator_delete_array (p : Z) : K () := mret ().
Definition operator_delete (p : Z) : K () :=
  log LogLevel.ERROR (chars "Unimplemented call to delete operator") [].
Definition operator_delete_sized (p size : Z) : K () :=
  log LogLevel.ERROR (chars "Unimplemented call to delete operator with size %i") [size].

(** * The block list *)

(** The first word of a last block of [size] bytes. *)
Definition last_status (size : Z) : Z := 2 * size + 1.

Record heap_ok (N : nat) (root : Z) (s : kstate) : Prop := HeapOk {
  ho_core : heap_core N root (virtual_alloc_end s) s;
  ho_lo : VIRTUAL_HEAP_START ≤ free_list s;
  ho_hi : free_list s + 16 ≤ virtual_alloc_end s;
  ho_status : vload 8 s (free_list s) = last_status (virtual_alloc_end s - free_list s)
}.

Definition free_size (s : kstate) : Z := virtual_alloc_end s - free_list s.

(** Pages kalloc has to add for [size] bytes. *)
Definition pages_needed (s : kstate) (size : Z) : Z :=
  Z.max 0 ((size + 32 - free_size s + 4095) / 4096).

Lemma land_1 x : Z.land x 1 = x mod 2.
Proof. exact (Z.land_ones x 1 ltac:(lia)). Qed.

Lemma last_status_facts n :
  0 ≤ n < 2 ^ 63 →
  Z.shiftr (last_status n) 1 = n ∧ Z.land (last_status n) 0x1 = 0x1 ∧ 0 ≤ last_status n < 2 ^ 64.
Proof.
  intros Hn. unfold last_status. rewrite Z.shiftr_div_pow2, land_1 by lia.
  change (2 ^ 1) with 2. change (2 ^ 63) with 0x8000000000000000 in Hn.
  change (2 ^ 64) with 0x10000000000000000. split_and!; zlia.
Qed.

(** set_size on a last block. *)
Lemma set_size_word n : 0 ≤ n < 2 ^ 63 → Z.lor (u64 (Z.shiftl n 1)) 1 = last_status n.
Proof.
  intros Hn. unfold last_status. rewrite Z.shiftl_mul_pow2 by lia. change (2 ^ 1) with 2.
  change (2 ^ 63) with 0x8000000000000000 in Hn. rewrite u64_small by lia.
  pose proof (Z.add_lor_land (n * 2) 1) as H. rewrite land_1 in H.
  assert ((n * 2) mod 2 = 0) by zlia. lia.
Qed.

Lemma land_lor_1 v : Z.land (Z.lor v 1) 1 = 1.
Proof.
  apply Z.bits_inj'. intros k _. rewrite Z.land_spec, Z.lor_spec.
  by destruct (Z.testbit v k), (Z.testbit 1 k).
Qed.

(** ** Blocks *)

Section blocks.
Context (N : nat) (root hi : Z).

(** An address range of the heap. *)
Definition heap_range (p n : Z) : Prop := VIRTUAL_HEAP_START ≤ p ∧ p + n ≤ hi.

Section at_block.
Context (s : kstate) (p n : Z) (HC : heap_core N root hi s) (Hp : heap_range p 8)
  (Hn : 0 ≤ n < 2 ^ 63) (Hst : vload 8 s p = last_status n).

Lemma load_status : load64 p s = Done (last_status n) s.
Proof using HC Hp Hst.
  destruct Hp as [H1 H2]. unfold load64.
  rewrite (loadv_heap N root hi s HC 8 p H1 H2). by rewrite Hst.
Qed.

Lemma is_last_done : FreeSpace_is_last p s = Done true s.
Proof using HC Hp Hn Hst.
  unfold FreeSpace_is_last. rewrite (bind_done _ _ _ _ _ load_status).
  destruct (last_status_facts n Hn) as (_ & -> & _). done.
Qed.

Lemma get_size_done : FreeSpace_get_size p s = Done n s.
Proof using HC Hp Hn Hst.
  unfold FreeSpace_get_size. rewrite (bind_done _ _ _ _ _ load_status).
  by destruct (last_status_facts n Hn) as (-> & _ & _).
Qed.

Lemma set_size_done n' : 0 ≤ n' < 2 ^ 63 →
  ∃ s', FreeSpace_set_size p n' s = Done () s' ∧ writes (λ x, p ≤ x < p + 8) s s' ∧
    heap_core N root hi s' ∧ vload 8 s' p = last_status n'.
Proof using HC Hp Hn Hst.
  intros Hn'. unfold FreeSpace_set_size. rewrite (bind_done _ _ _ _ _ load_status).
  destruct (last_status_facts n Hn) as (_ & -> & _).
  rewrite (set_size_word n' Hn'). destruct Hp as [H1 H2].
  apply store64_heap; try done. by apply last_status_facts.
Qed.
End at_block.

(** set_last and set_size make a last block out of any two words. *)
Lemma new_block_done s p n :
  heap_core N root hi s → heap_range p 8 → 0 ≤ n < 2 ^ 63 →
  ∃ s1 s', FreeSpace_set_last p s = Done () s1 ∧ FreeSpace_set_size p n s1 = Done () s' ∧
    writes (λ x, p ≤ x < p + 8) s s' ∧ heap_core N root hi s' ∧
    vload 8 s' p = last_status n.
Proof.
  intros HC [H1 H2] Hn.
  assert (load64 p s = Done (vload 8 s p) s) as E0 by by apply (loadv_heap N root hi s HC 8 p).
  assert (∀ n s x, 0 ≤ vload n s x < 256 ^ Z.of_nat n) as Hrange.
  { intros k s0. induction k as [|k IH]; intros x; cbn [vload]; [lia|].
    rewrite Nat2Z.inj_succ, Z.pow_succ_r by lia. specialize (IH (x + 1)).
    assert (0 ≤ vbyte s0 x < 256); [|lia]. unfold vbyte.
    destruct (resolve s0 x); [apply rd8_range|lia]. }
  pose proof (Hrange 8%nat s p) as Hr. change (256 ^ Z.of_nat 8) with (2 ^ 64) in Hr.
  pose proof (lor_lt (vload 8 s p) 1 64 Hr ltac:(lia) ltac:(lia)) as Hv.
  destruct (store64_heap N root hi s p (Z.lor (vload 8 s p) 1) HC H1 H2 Hv)
    as (s1 & E1 & W1 & HC1 & B1).
  assert (load64 p s1 = Done (Z.lor (vload 8 s p) 1) s1) as E2.
  { unfold load64. rewrite (loadv_heap N root hi s1 HC1 8 p H1 H2). by rewrite B1. }
  destruct (store64_heap N root hi s1 p (last_status n) HC1 H1 H2) as (s2 & E3 & W2 & HC2 & B2);
    [by apply last_status_facts|].
  exists s1, s2. split_and!; try done.
  - unfold FreeSpace_set_last. by rewrite (bind_done _ _ _ _ _ E0).
  - unfold FreeSpace_set_size. rewrite (bind_done _ _ _ _ _ E2), land_lor_1, (set_size_word n Hn). exact E3.
  - apply (writes_trans _ s s1); [|done|done]. intros x Hx.
    apply (writes_resolve N root hi s HC (λ x, p ≤ x < p + 8) s1); [unfold in_heap; lia|done].
Qed.
End blocks.

(** ** What allocation leaves alone *)

(** Memory that is neither a table, nor a flag, nor behind a heap address. *)
Definition outside_heap (N : nat) (root : Z) (s : kstate) (a : Z) : Prop :=
  outside_tables N root s a ∧
  ¬ ∃ va, in_heap (virtual_alloc_end s) va ∧ resolve s va = Some a.

(** Data that no heap address leads to. *)
Definition foreign (N : nat) (root : Z) (s : kstate) (a : Z) : Prop :=
  data_addr N root s a ∧ ∀ va, in_heap (virtual_alloc_end s) va → resolve s va ≠ Some a.

Record heap_grown (N : nat) (root lo : Z) (k : Z) (s s' : kstate) : Prop := HeapGrown {
  hg_vars : only_mem (set_virtual_alloc_end (virtual_alloc_end s')
              (set_free_list (free_list s') s)) s';
  hg_free : Z.of_nat (nfree N s) ≤ Z.of_nat (nfree N s') + k;
  hg_keep : ∀ va, in_heap lo va → resolve s' va = resolve s va ∧ vbyte s' va = vbyte s va;
  hg_out : ∀ a, outside_heap N root s' a →
    outside_heap N root s a ∧ rd8 (pmem s') a = rd8 (pmem s) a;
  hg_map : ∀ va, in_heap (virtual_alloc_end s) va →
    in_heap (virtual_alloc_end s') va ∧ resolve s' va = resolve s va;
  hg_other : ∀ va, 0 ≤ va < 2 ^ 64 → ¬ in_heap (virtual_alloc_end s') va → resolve s' va = resolve s va;
  hg_foreign : ∀ a, foreign N root s a → foreign N root s' a;
  hg_order : keeps_order N s s';
  hg_used : ∀ j, 0 ≤ j < Z.of_nat N → frame_free s' j → frame_free s j;
  hg_node : ∀ q t, path_ok q → node (pmem s) root q = Some t → node (pmem s') root q = Some t
}.

Lemma hg_trans N root lo j k s1 s2 s3 :
  heap_grown N root lo j s1 s2 → heap_grown N root lo k s2 s3 →
  heap_grown N root lo (j + k) s1 s3.
Proof.
  intros [V1 F1 K1 O1 M1 R1 D1 S1 U1 T1] [V2 F2 K2 O2 M2 R2 D2 S2 U2 T2]. split.
  - clear -V1 V2. destruct V1 as (o1 & m1 & E1), V2 as (o2 & m2 & E2).
    exists (o1 ++ o2), m2. destruct s1, s2, s3.
    cbv -[app] in E1, E2. cbv -[app].
    injection E1. injection E2. intros. subst. by rewrite app_assoc.
  - lia.
  - intros va Hva. destruct (K1 va Hva), (K2 va Hva). split; congruence.
  - intros a Ha. destruct (O2 a Ha) as [Ha' E2]. destruct (O1 a Ha') as [Ha'' E1].
    split; congruence.
  - intros va Hva. destruct (M1 va Hva) as [H1 E1]. destruct (M2 va H1) as [H2 E2].
    split; congruence.
  - intros va Hr Hva. rewrite R2, R1; try done. intros H. by apply Hva, M2.
  - auto.
  - by etrans.
  - auto.
  - auto.
Qed.

Lemma hg_weaken N root lo lo' s s' k k' :
  heap_grown N root lo k s s' → lo' ≤ lo → k ≤ k' → heap_grown N root lo' k' s s'.
Proof.
  intros [V F K O M R D S U T] Hlo Hk. split; try done; [lia|]. intros va Hva. apply K.
  unfold in_heap in *. lia.
Qed.

(** States that agree on everything the heap is about. *)
Lemma hg_same N root lo s s' :
  pmem s' = pmem s → satp s' = satp s → virtual_alloc_end s' = virtual_alloc_end s →
  managed_frames_address_start s' = managed_frames_address_start s →
  first_frame_address s' = first_frame_address s →
  only_mem (set_virtual_alloc_end (virtual_alloc_end s') (set_free_list (free_list s') s)) s' →
  heap_grown N root lo 0 s s'.
Proof.
  intros Em Es Ee E1 E2 V.
  assert (∀ va, resolve s' va = resolve s va) as Hr.
  { intros va. unfold resolve. by rewrite Em, Es. }
  assert (∀ i, frame_free s' i ↔ frame_free s i) as Hfree.
  { intros i. unfold frame_free, frame_flag, flags_base. by rewrite Em, E1. }
  split; [done|..].
  - rewrite (nfree_ext N s s'); [lia|]. intros i _. by rewrite Hfree.
  - intros va _. unfold vbyte. by rewrite Hr, Em.
  - intros a Ha. split; [|by rewrite Em]. destruct Ha as [[H1 H2] H3].
    unfold outside_heap, outside_tables, in_flags, flags_base in *. rewrite Em, E1 in *.
    split; [done|]. intros (va & H & H'). apply H3. exists va. by rewrite Hr, Ee.
  - intros va Hva. by rewrite Ee, Hr.
  - intros va _ _. apply Hr.
  - intros a [[Ho (t & (i & Hi & Et & Hu) & Hp)] Hn]. split.
    + split; [|exists t; split; [exists i; unfold frame_at in *; rewrite E2, Hfree|]; done].
      unfold outside_tables, in_flags, flags_base in *. by rewrite Em, E1.
    + intros va. rewrite Ee, Hr. apply Hn.
  - by apply keeps_order_same.
  - intros j _. by apply Hfree.
  - by rewrite Em.
Qed.

Lemma hg_refl N root lo s : heap_grown N root lo 0 s s.
Proof. apply hg_same; try done. exists [], (pmem s). rewrite emit_nil. by destruct s. Qed.

Lemma hg_emit N root lo o s : heap_grown N root lo 0 s (emit o s).
Proof.
  apply hg_same; try done. exists o, (pmem s). by destruct s.
Qed.

Lemma hg_free_list N root lo v s : heap_grown N root lo 0 s (set_free_list v s).
Proof. apply hg_same; try done. Qed.

Lemma hg_writes N root lo P s s' :
  heap_core N root (virtual_alloc_end s) s → writes P s s' →
  (∀ x, P x → in_heap (virtual_alloc_end s) x ∧ lo ≤ x) → lo ≤ virtual_alloc_end s →
  heap_grown N root lo 0 s s'.
Proof.
  intros HC W HP Hlo. assert (∀ x, P x → in_heap (virtual_alloc_end s) x) as HP1 by (intros x Hx; apply (HP x Hx)).
  pose proof (writes_resolve N root _ s HC P s' HP1 W) as Hr.
  pose proof (writes_vbyte N root _ s HC P s' HP1 W) as Hb.
  destruct (writes_data N root _ s HC P s' HP1 W) as (m' & E & Hd). subst s'. split.
  - exists [], m'. destruct s. unfold emit, set_console. simpl. by rewrite app_nil_r.
  - rewrite (data_nfree N root s m' Hd). lia.
  - intros va Hva. split; [done|]. apply Hb; [unfold in_heap in *; lia|].
    intros H. apply HP in H as [_ H]. unfold in_heap in Hva. lia.
  - intros a [[H1 H2] H3].
    assert (¬ ∃ va, in_heap (virtual_alloc_end s) va ∧ resolve s va = Some a) as H3'.
    { intros (va & H & H'). apply H3. exists va. rewrite Hr. done. }
    split.
    + split; [|done]. split; [done|]. intros q t Hq Hn. apply (H2 q t Hq).
      by rewrite (same_node root s (set_pmem m' s) (data_pte N root s m' Hd)).
    + destruct W as (m2 & E2 & Ha). assert (m2 = m') as -> by (by injection E2).
      apply Ha. intros (va & HPv & E). apply H3'. exists va. auto.
  - intros va Hva. split; [done|]. apply Hr.
  - intros va _ _. apply Hr.
  - intros a [Ha Hn]. split.
    + by apply (loose_data_addr N root s m'), Ha; apply data_agree.
    + intros va. rewrite Hr. apply Hn.
  - apply keeps_order_same. intros j Hj. unfold frame_free. by rewrite (loose_flag N root s m' (data_agree N root s m' Hd)).
  - intros j Hj. unfold frame_free. by rewrite (loose_flag N root s m' (data_agree N root s m' Hd)).
  - intros q t Hq Hn. by rewrite (same_node root s (set_pmem m' s) (data_pte N root s m' Hd)).
Qed.

Lemma hg_extended N root k s s2 :
  heap_core N root (virtual_alloc_end s) s → extended N root (virtual_alloc_end s) k s s2 →
  heap_grown N root (virtual_alloc_end s) (Z.of_nat k) s
    (set_virtual_alloc_end (virtual_alloc_end s + 4096) s2).
Proof.
  intros HC Ex. pose proof (hc_lo _ _ _ _ HC) as Hlo.
  assert (∀ va, in_heap (virtual_alloc_end s) va → resolve s2 va = resolve s va) as Hres.
  { intros va Hva. pose proof (hc_bounds N root _ s HC).
    apply (ex_resolve _ _ _ _ _ _ Ex); unfold in_heap, VIRTUAL_HEAP_START, WINDOW_SIZE, VIRTUAL_OFFSET,
      RAM_ORIGIN, RAM_LENGTH in *; simpl; lia. }
  set (s' := set_virtual_alloc_end _ s2). split.
  - destruct (ex_mem _ _ _ _ _ _ Ex) as (o & m & E). exists o, m. subst s' s2. by destruct s.
  - change (nfree N s') with (nfree N s2). pose proof (ex_free _ _ _ _ _ _ Ex). lia.
  - intros va Hva. split; [by apply Hres|by apply (ex_byte _ _ _ _ _ _ Ex)].
  - intros a [Hout Hn]. change (outside_tables N root s' a) with (outside_tables N root s2 a) in Hout.
    split; [|by apply (ex_out _ _ _ _ _ _ Ex)].
    split; [by apply (ex_outside _ _ _ _ _ _ Ex)|]. intros (va & Hva & E). apply Hn. exists va.
    split; [unfold in_heap in *; cbn [virtual_alloc_end s' set_virtual_alloc_end]; lia|].
    change (resolve s' va) with (resolve s2 va). by rewrite Hres.
  - intros va Hva. split; [|by apply Hres].
    unfold in_heap in *. cbn [virtual_alloc_end s' set_virtual_alloc_end]. lia.
  - intros va Hr Hva. change (resolve s' va) with (resolve s2 va). apply (ex_resolve _ _ _ _ _ _ Ex); [done|].
    intros Hn. apply Hva. unfold in_heap. cbn [virtual_alloc_end s' set_virtual_alloc_end]. lia.
  - intros a [Hd Hn]. destruct (ex_data _ _ _ _ _ _ Ex a Hd) as [H1 H2]. split; [done|].
    intros va Hva. change (resolve s' va) with (resolve s2 va).
    unfold in_heap in Hva. cbn [virtual_alloc_end s' set_virtual_alloc_end] in Hva.
    destruct (decide (va < virtual_alloc_end s)) as [Hlt|]; [|apply H2; lia].
    rewrite Hres by (unfold in_heap; lia). apply Hn. unfold in_heap. lia.
  - etrans; [exact (ex_order _ _ _ _ _ _ Ex)|by apply keeps_order_same].
  - exact (ex_used _ _ _ _ _ _ Ex).
  - exact (ex_node _ _ _ _ _ _ Ex).
Qed.

(** ** kalloc *)

Section kalloc.
Context (N : nat) (root : Z).

Section ok.
Context (s : kstate) (OK : heap_ok N root s).

Lemma ho_range :
  0xFFFF800100000000 ≤ free_list s ∧ free_list s + 16 ≤ virtual_alloc_end s ∧
  virtual_alloc_end s ≤ 0xFFFF800200000000 ∧ 16 ≤ free_size s < 2 ^ 33.
Proof using OK.
  pose proof (hc_bounds _ _ _ _ (ho_core _ _ _ OK)). destruct OK as [_ Hlo Hhi _].
  unfold free_size, VIRTUAL_HEAP_START, RAM_ORIGIN, RAM_LENGTH, VIRTUAL_OFFSET, WINDOW_SIZE in *.
  simpl. lia.
Qed.

Lemma ho_head : heap_range (virtual_alloc_end s) (free_list s) 8.
Proof using OK. destruct OK as [_ Hlo Hhi _]. unfold heap_range. lia. Qed.

Lemma ho_size : 0 ≤ virtual_alloc_end s - free_list s < 2 ^ 63.
Proof using OK. pose proof ho_range. unfold free_size in *. simpl in *. lia. Qed.

(** One more page in the free block, from a frame and a mapping of it. *)
(** The new page belongs to the heap once the status says so. *)
Lemma page_counted s2 s3 :
  extended N root (virtual_alloc_end s) 4 s s2 → writes (λ x, free_list s ≤ x < free_list s + 8) s2 s3 →
  heap_core N root (virtual_alloc_end s + 4096) s3 → vload 8 s3 (free_list s) = last_status (free_size s + 4096) →
  let s4 := set_virtual_alloc_end (virtual_alloc_end s + 4096) s3 in
  heap_ok N root s4 ∧ free_list s4 = free_list s ∧ heap_grown N root (free_list s) 4 s s4 ∧
  ∃ m, s4 = set_virtual_alloc_end (virtual_alloc_end s + 4096) (set_pmem m s2) ∧
    agree (λ a, ¬ data_addr N root s2 a) (pmem s2) m.
Proof using OK.
  intros Ex W3 HC3 Hst3 s4. pose proof ho_range as (R1 & R2 & R3 & R4). destruct OK as [HC Hlo Hhi Hst].
  destruct (only_mem_fields _ _ (ex_mem _ _ _ _ _ _ Ex)) as (_ & _ & _ & _ & Ef2 & _).
  destruct (only_mem_fields _ _ (writes_only_mem _ _ _ W3)) as (_ & _ & _ & _ & Ef3 & _).
  pose proof (ex_core _ _ _ _ _ _ Ex) as HC2.
  assert (free_list s4 = free_list s) as Ef4 by (change (free_list s4) with (free_list s3); congruence).
  split_and!; [|done| |].
  - split.
    + by apply (heap_core_fields N root _ s3).
    + by rewrite Ef4.
    + rewrite Ef4. cbn [virtual_alloc_end s4 set_virtual_alloc_end]. lia.
    + rewrite Ef4, (vload_ext 8 s3 s4 _ (free_list s)) by done. rewrite Hst3.
      cbn [virtual_alloc_end s4 set_virtual_alloc_end]. f_equal. unfold free_size. lia.
  - pose proof (hg_extended N root 4 s s2 HC Ex) as G1. set (s2' := set_virtual_alloc_end _ s2) in G1.
    assert (heap_core N root (virtual_alloc_end s2') s2') as HC2' by (by apply (heap_core_fields N root _ s2)).
    assert (writes (λ x, free_list s ≤ x < free_list s + 8) s2' s4) as W4.
    { destruct W3 as (m & -> & Ha). by exists m. }
    apply (hg_trans _ _ _ 4 0 s s2').
    + apply (hg_weaken _ _ _ _ _ _ _ _ G1); lia.
    + apply (hg_writes _ _ _ _ _ _ HC2' W4);
        unfold in_heap; cbn [virtual_alloc_end s2' set_virtual_alloc_end]; lia.
  - destruct (writes_data N root _ s2 HC2 (λ x, free_list s ≤ x < free_list s + 8) s3) as (m & E & Hd); [|done|].
    + unfold in_heap. intros x Hx. lia.
    + exists m. unfold s4. by rewrite E.
Qed.

Lemma extend_step_with size f s1 s2 :
  free_size s < size ⊞ sizeof_FreeSpace * 2 → kalloc_frame s = Done f s1 → only_mem s s1 →
  map_page (virtual_alloc_end s) f 0xF s1 = Done () s2 → extended N root (virtual_alloc_end s) 4 s s2 →
  ∃ s', kalloc_extend (free_list s) size () s = Done (inl ()) s' ∧ heap_ok N root s' ∧
    free_list s' = free_list s ∧ virtual_alloc_end s' = virtual_alloc_end s + 4096 ∧
    heap_grown N root (free_list s) 4 s s' ∧
    ∃ m, s' = set_virtual_alloc_end (virtual_alloc_end s + 4096) (set_pmem m s2) ∧
      agree (λ a, ¬ data_addr N root s2 a) (pmem s2) m.
Proof using OK.
  intros Hlt E1 M1 E2 Ex. pose proof ho_range as (R1 & R2 & R3 & R4). pose proof ho_head as Hh.
  pose proof ho_size as Hs. pose proof (ho_core _ _ _ OK) as HC. pose proof (ho_status _ _ _ OK) as Hst.
  fold (free_size s) in Hs, Hst.
  destruct (only_mem_fields _ _ M1) as (_ & _ & _ & _ & _ & Ee1 & _).
  destruct (only_mem_fields _ _ (ex_mem _ _ _ _ _ _ Ex)) as (_ & _ & _ & _ & _ & Ee2 & _).
  pose proof (ex_core _ _ _ _ _ _ Ex) as HC2.
  assert (heap_range (virtual_alloc_end s + 4096) (free_list s) 8) as Hh2 by (unfold heap_range in *; lia).
  assert (vload 8 s2 (free_list s) = last_status (free_size s)) as Hst2.
  { rewrite <- Hst. apply vload_ext. intros i Hi. apply (ex_byte _ _ _ _ _ _ Ex).
    unfold in_heap, heap_range in *. lia. }
  destruct (set_size_done N root _ s2 (free_list s) (free_size s) HC2 Hh2 Hs Hst2
    (free_size s + 4096)) as (s3 & E3 & W3 & HC3 & Hst3); [simpl in *; lia|].
  destruct (only_mem_fields _ _ (writes_only_mem _ _ _ W3)) as (_ & _ & _ & _ & _ & Ee3 & _).
  assert (virtual_alloc_end s3 ⊞ PAGE_SIZE = virtual_alloc_end s + 4096) as Ee.
  { rewrite Ee3, Ee2. unfold PAGE_SIZE. rewrite u64_small; lia. }
  destruct (page_counted s2 s3 Ex W3 HC3 Hst3) as (OK4 & Ef4 & G4 & H4).
  eexists. split; [|split; [exact OK4|split; [exact Ef4|split; [done|by split]]]].
  unfold kalloc_extend.
  rewrite (bind_done _ _ _ _ _ (get_size_done N root _ s _ _ HC Hh Hs Hst)).
  rewrite (proj2 (Z.ltb_lt _ _)) by done.
  rewrite (bind_done _ _ _ _ _ E1), (bind_done _ _ s1 (virtual_alloc_end s) s1)
    by (unfold gets; by rewrite Ee1).
  rewrite (bind_done _ _ _ _ _ E2).
  rewrite (bind_done _ _ _ _ _ (get_size_done N root _ s2 _ _ HC2 Hh2 Hs Hst2)).
  rewrite (u64_small (free_size s + PAGE_SIZE)) by (unfold PAGE_SIZE; simpl in *; lia).
  rewrite (bind_done _ _ _ _ _ E3). unfold modify.
  rewrite (bind_done _ _ s3 () (set_virtual_alloc_end (virtual_alloc_end s + 4096) s3)); [done|]. by rewrite Ee.
Qed.

Lemma extend_step size :
  (4 ≤ nfree N s)%nat → free_size s < size ⊞ sizeof_FreeSpace * 2 →
  ∃ s', kalloc_extend (free_list s) size () s = Done (inl ()) s' ∧ heap_ok N root s' ∧
    free_list s' = free_list s ∧ virtual_alloc_end s' = virtual_alloc_end s + 4096 ∧
    heap_grown N root (free_list s) 4 s s'.
Proof using OK.
  intros Hn Hlt. destruct (extend_done N root _ s (ho_core _ _ _ OK) Hn) as (f & s1 & s2 & E1 & M1 & E2 & Ex).
  destruct (extend_step_with size f s1 s2 Hlt E1 M1 E2 Ex) as (s' & H1 & H2 & H3 & H4 & H5 & _). by exists s'.
Qed.
End ok.

Lemma pages_bounds s size :
  heap_ok N root s → 0 ≤ size → 4 * pages_needed s size ≤ Z.of_nat (nfree N s) →
  0 ≤ pages_needed s size ≤ 2 ^ 18 ∧ size + 32 ≤ free_size s + 4096 * pages_needed s size ∧
  size ⊞ sizeof_FreeSpace * 2 = size + 32 ∧
  (∀ j, 0 ≤ j → free_size s + 4096 * j < size + 32 → j < pages_needed s size).
Proof.
  intros OK Hsize Hn. pose proof (ho_range s OK) as (_ & _ & _ & Hf).
  pose proof (nframes_small N s (pt_frames _ _ _ (hc_pt _ _ _ _ (ho_core _ _ _ OK)))) as HN.
  assert (nfree N s ≤ N)%nat as Hle.
  { pose proof (length_filter (frame_free s) (zseq 0 N)) as Hl. unfold nfree.
    unfold zseq at 2 in Hl. by rewrite length_fmap, length_seq in Hl. }
  unfold WINDOW_SIZE, pages_needed, sizeof_FreeSpace in *.
  change (2 ^ 33) with 0x200000000 in Hf. change (2 ^ 18) with 0x40000.
  change (16 * 2) with 32.
  assert (0 ≤ Z.max 0 ((size + 32 - free_size s + 4095) / 4096) ≤ 0x40000) as Hp by lia.
  assert (size + 32 ≤ free_size s + 4096 * Z.max 0 ((size + 32 - free_size s + 4095) / 4096))
    by zlia.
  rewrite u64_small by lia. split_and!; [lia|lia|lia|lia|]. intros j Hj Hlt. zlia.
Qed.

(** The loop that adds pages. *)
Lemma extend_loop s size :
  heap_ok N root s → 0 ≤ size → 4 * pages_needed s size ≤ Z.of_nat (nfree N s) →
  wp (loop (kalloc_extend (free_list s) size) ()) (λ _ s',
    heap_ok N root s' ∧ free_list s' = free_list s ∧
    virtual_alloc_end s' = virtual_alloc_end s + 4096 * pages_needed s size ∧
    heap_grown N root (free_list s) (4 * pages_needed s size) s s') s.
Proof.
  intros OK Hsize Hn. destruct (pages_bounds s size OK Hsize Hn) as (P1 & P2 & P3 & P4).
  set (pages := pages_needed s size) in *.
  apply (wp_loop _ (λ _ s', heap_ok N root s' ∧ free_list s' = free_list s ∧
    ∃ j, 0 ≤ j ≤ pages ∧ virtual_alloc_end s' = virtual_alloc_end s + 4096 * j ∧
      heap_grown N root (free_list s) (4 * j) s s')
    (λ _ s', virtual_alloc_end s + 4096 * pages - virtual_alloc_end s')).
  - intros [] s1 (OK1 & Ef & j & Hj & Ee & G). split; [lia|].
    assert (free_size s1 = free_size s + 4096 * j) as Efs by (unfold free_size; lia).
    destruct (decide (free_size s1 < size + 32)) as [Hlt|Hge].
    + assert (j < pages) by (apply P4; lia). pose proof (hg_free _ _ _ _ _ _ G).
      destruct (extend_step s1 OK1 size) as (s2 & E & OK2 & Ef2 & Ee2 & G2); [lia|by rewrite P3|].
      rewrite Ef in E. apply (wp_done _ _ _ _ _ E). split; [|lia].
      split_and!; [done|congruence|]. exists (j + 1). split_and!; [lia|lia|lia|].
      rewrite Ef in G2. apply (hg_weaken _ _ (free_list s) _ _ _ (4 * j + 4)); [|lia|lia].
      by apply (hg_trans _ _ _ _ _ _ s1).
    + assert (j = pages) as ->.
      { unfold pages, pages_needed in *. zlia. }
      pose proof (ho_head s1 OK1) as Hh. pose proof (ho_size s1 OK1) as Hs.
      pose proof (ho_core _ _ _ OK1) as HC1. pose proof (ho_status _ _ _ OK1) as Hst1.
      rewrite <- Ef.
      unfold kalloc_extend. eapply wp_bind_done.
      { apply (get_size_done N root _ s1 _ _ HC1 Hh Hs Hst1). }
      fold (free_size s1). rewrite (proj2 (Z.ltb_ge _ _)) by lia.
      apply wp_ret. rewrite Ef. auto.
  - split_and!; try done. exists 0. split_and!; try lia.
    apply (hg_weaken _ _ (free_list s) _ _ _ 0); [|lia|lia].
    apply hg_refl.
  - change (2 ^ 64) with 0x10000000000000000. change (2 ^ 18) with 0x40000 in P1. lia.
Qed.

(** The search loop stops at the only block, and pages are added when it is small. *)
Lemma find_space s size (k : Z → K Z) (R : kstate → Prop) (Q : Z → kstate → Prop) :
  heap_ok N root s → size ⊞ sizeof_FreeSpace * 2 = size + 32 →
  (free_size s < size + 32 → wp (loop (kalloc_extend (free_list s) size) ()) (λ _, R) s) →
  (size + 32 ≤ free_size s → R s) → (∀ s', R s' → wp (k (free_list s)) Q s') →
  wp (first ← gets free_list;
      current ← loop (kalloc_search size) first;
      last ← FreeSpace_is_last current;
      (if (last : bool) then
         current_size ← FreeSpace_get_size current;
         if current_size <? size ⊞ sizeof_FreeSpace * 2 then loop (kalloc_extend current size) ()
         else mret ()
       else mret ());;
      k current) Q s.
Proof.
  intros OK P3 Hloop Hfit Hk.
  pose proof (ho_core _ _ _ OK) as HC. pose proof (ho_head s OK) as Hh.
  pose proof (ho_size s OK) as Hs. pose proof (ho_status _ _ _ OK) as Hst.
  pose proof (is_last_done N root _ s _ _ HC Hh Hs Hst) as Elast.
  pose proof (get_size_done N root _ s _ _ HC Hh Hs Hst) as Esize.
  apply wp_bind, wp_gets. apply (wp_bind_done _ _ _ _ (free_list s) s).
  { apply (loop_rounds _ 1); [|done]. apply rounds_stop. unfold kalloc_search.
    by rewrite (bind_done _ _ _ _ _ Elast). }
  eapply wp_bind_done; [exact Elast|]. cbv iota. apply wp_bind.
  eapply wp_bind_done; [exact Esize|]. fold (free_size s). rewrite P3.
  destruct (Z.ltb_spec (free_size s) (size + 32)) as [Hlt|Hge].
  - eapply wp_mono; [by apply Hloop|]. intros [] s' HR. by apply Hk.
  - apply wp_ret. apply Hk, Hfit. lia.
Qed.

(** What kalloc has done in [s'] for a request of [size] bytes in [s]. *)
Record allocated_block (size : Z) (s s' : kstate) : Prop := AllocatedBlock {
  ab_ok : heap_ok N root s';
  ab_next : free_list s' = free_list s + 16 + size;
  ab_end : virtual_alloc_end s' = virtual_alloc_end s + 4096 * pages_needed s size;
  ab_size : vload 8 s' (free_list s) = size;
  ab_magic : vload 8 s' (free_list s + 8) = 0xFEEBDAEDDEADBEEF;
  ab_grown : heap_grown N root (free_list s) (4 * pages_needed s size) s s'
}.

(** A block of [size] bytes with its header and the free block behind it are written. *)
Record block_written (size : Z) (s s' : kstate) : Prop := BlockWritten {
  bw_core : heap_core N root (virtual_alloc_end s) s';
  bw_end : virtual_alloc_end s' = virtual_alloc_end s;
  bw_size : vload 8 s' (free_list s) = size;
  bw_magic : vload 8 s' (free_list s + 8) = 0xFEEBDAEDDEADBEEF;
  bw_status : vload 8 s' (free_list s + 16 + size) = last_status (free_size s - (size + 16));
  bw_grown : heap_grown N root (free_list s) 0 s s'
}.

Lemma grown_write lo va s s' :
  heap_core N root (virtual_alloc_end s) s → writes (λ x, va ≤ x < va + 8) s s' →
  VIRTUAL_HEAP_START ≤ va → lo ≤ va → va + 8 ≤ virtual_alloc_end s →
  heap_grown N root lo 0 s s' ∧ virtual_alloc_end s' = virtual_alloc_end s.
Proof.
  intros HC W H1 H2 H3. split.
  - apply (hg_writes _ _ _ _ _ _ HC W); unfold in_heap; lia.
  - by destruct (only_mem_fields _ _ (writes_only_mem _ _ _ W)) as (_ & _ & _ & _ & _ & V & _).
Qed.

(** The two words of the header, then the status of the new block. *)
Lemma write_block size s s1 s2 s4 :
  heap_ok N root s → 0 ≤ size → size + 32 ≤ free_size s →
  let p := free_list s in let e := virtual_alloc_end s in
  writes (λ x, p ≤ x < p + 8) s s1 → heap_core N root e s1 → vload 8 s1 p = size →
  writes (λ x, p + 8 ≤ x < p + 8 + 8) s1 s2 → heap_core N root e s2 → vload 8 s2 (p + 8) = 0xFEEBDAEDDEADBEEF →
  writes (λ x, p + 16 + size ≤ x < p + 16 + size + 8) s2 s4 → heap_core N root e s4 →
  vload 8 s4 (p + 16 + size) = last_status (free_size s - (size + 16)) → block_written size s s4.
Proof.
  intros OK Hsize Hfit p e W1 HC1 B1 W2 HC2 B2 W4 HC4 B4. pose proof (ho_range s OK) as (R1 & R2 & R3 & R4).
  pose proof (ho_lo _ _ _ OK) as Hlo. fold p e in R1, R2, R3, R4, Hlo. assert (free_size s = e - p) as Efs by done.
  destruct (grown_write p p s s1) as [G1 V1]; [apply OK|done|lia..|]. fold e in V1.
  destruct (grown_write p (p + 8) s1 s2) as [G2 V2]; [by rewrite V1|done|lia..|]. rewrite V1 in V2.
  destruct (grown_write p (p + 16 + size) s2 s4) as [G4 V4]; [by rewrite V2|done|lia..|]. rewrite V2 in V4.
  assert (∀ x, p + 16 + size ≤ x < p + 16 + size + 8 → in_heap e x) as I4 by (unfold in_heap; lia).
  assert (∀ x, p + 8 ≤ x < p + 8 + 8 → in_heap e x) as I2 by (unfold in_heap; lia).
  split; try done.
  - fold p. rewrite (vload_writes N root e 8 s2 s4 _ p HC2 I4 W4) by lia.
    by rewrite (vload_writes N root e 8 s1 s2 _ p HC1 I2 W2) by lia.
  - fold p. by rewrite (vload_writes N root e 8 s2 s4 _ (p + 8) HC2 I4 W4) by lia.
  - exact (hg_trans _ _ _ 0 0 _ _ _ (hg_trans _ _ _ 0 0 _ _ _ G1 G2) G4).
Qed.

(** The header and the new free block, once there is enough space. *)
Lemma place_block s size (Q : Z → kstate → Prop) :
  heap_ok N root s → 0 ≤ size → size + 32 ≤ free_size s →
  (∀ s', heap_ok N root s' → free_list s' = free_list s + 16 + size →
     virtual_alloc_end s' = virtual_alloc_end s →
     vload 8 s' (free_list s) = size → vload 8 s' (free_list s + 8) = 0xFEEBDAEDDEADBEEF →
     heap_grown N root (free_list s) 0 s s' → Q (free_list s + 16) s') →
  wp (old_size ← FreeSpace_get_size (free_list s);
      store64 (free_list s) size;;
      store64 (free_list s ⊞ 8) 0xFEEBDAEDDEADBEEF;;
      FreeSpace_set_last (free_list s ⊞ 16 ⊞ size);;
      FreeSpace_set_size (free_list s ⊞ 16 ⊞ size) (old_size ⊟ (size ⊞ 16));;
      modify (set_free_list (free_list s ⊞ 16 ⊞ size));;
      log LogLevel.VIRTUAL_MEMORY (chars "Allocated %i bytes at 0x%x")
        [size; free_list s ⊞ 16];;
      mret (free_list s ⊞ 16)) Q s.
Proof.
  intros OK Hsize Hfit HQ. pose proof (ho_range s OK) as (R1 & R2 & R3 & R4).
  pose proof (ho_core _ _ _ OK) as HC. pose proof (ho_lo _ _ _ OK) as Hlo.
  set (p := free_list s) in *. set (e := virtual_alloc_end s) in *.
  assert (free_size s = e - p) as Efs by done.
  change (2 ^ 33) with 0x200000000 in R4.
  rewrite !(u64_small (p + _)) by lia. rewrite (u64_small (p + 16 + size)) by lia.
  rewrite (u64_small (size + 16)) by lia.
  eapply wp_bind_done.
  { apply (get_size_done N root _ s _ _ HC (ho_head s OK) (ho_size s OK) (ho_status _ _ _ OK)). }
  fold p e. rewrite <- Efs. rewrite (u64_small (free_size s - _)) by lia.
  destruct (store64_heap N root e s p size HC) as (s1 & E1 & W1 & HC1 & B1); [done|lia|simpl; lia|].
  eapply wp_bind_done; [exact E1|].
  destruct (store64_heap N root e s1 (p + 8) 0xFEEBDAEDDEADBEEF HC1) as (s2 & E2 & W2 & HC2 & B2); [lia|lia|done|].
  eapply wp_bind_done; [exact E2|].
  destruct (new_block_done N root e s2 (p + 16 + size) (free_size s - (size + 16)) HC2)
    as (s3 & s4 & E3 & E4 & W4 & HC4 & B4); [unfold heap_range; lia|simpl; lia|].
  eapply wp_bind_done; [exact E3|]. eapply wp_bind_done; [exact E4|].
  apply wp_bind, wp_modify, wp_bind, wp_log; [done|]. intros o. apply wp_ret.
  destruct (write_block size s s1 s2 s4 OK Hsize Hfit W1 HC1 B1 W2 HC2 B2 W4 HC4 B4) as [C V B M St G].
  fold p e in V, B, M, St. set (s5 := emit o (set_free_list (p + 16 + size) s4)).
  assert (virtual_alloc_end s5 = e) as Ee by exact V.
  assert (∀ va, vload 8 s5 va = vload 8 s4 va) as Hv5 by (intros; by apply vload_ext).
  apply HQ; [|done|done|by rewrite Hv5|by rewrite Hv5|].
  - split.
    + rewrite Ee. by apply (heap_core_emit N root e o), (heap_core_fields N root e s4).
    + change (VIRTUAL_HEAP_START ≤ p + 16 + size). lia.
    + rewrite Ee. change (p + 16 + size + 16 ≤ e). lia.
    + rewrite Ee, Hv5. change (vload 8 s4 (p + 16 + size) = last_status (e - (p + 16 + size))).
      rewrite St. f_equal. lia.
  - pose proof (hg_trans _ _ _ 0 0 _ _ _ G (hg_free_list N root p (p + 16 + size) s4)) as G5.
    exact (hg_trans _ _ _ 0 0 _ _ _ G5 (hg_emit N root p o _)).
Qed.

(** Enough pages for [size] bytes have been added to the heap of [s]. *)
Definition space_found (size : Z) (s s' : kstate) : Prop :=
  heap_ok N root s' ∧ free_list s' = free_list s ∧
  virtual_alloc_end s' = virtual_alloc_end s + 4096 * pages_needed s size ∧
  heap_grown N root (free_list s) (4 * pages_needed s size) s s'.

Lemma space_there s size : heap_ok N root s → size + 32 ≤ free_size s → space_found size s s.
Proof.
  intros OK Hge. assert (pages_needed s size = 0) as E0 by (unfold pages_needed; zlia).
  unfold space_found. rewrite E0. split_and!; [done|done|lia|apply hg_refl].
Qed.

Lemma place_allocated s s1 size (Q : Z → kstate → Prop) :
  heap_ok N root s → 0 ≤ size → size + 32 ≤ free_size s + 4096 * pages_needed s size → space_found size s s1 →
  (∀ s2, allocated_block size s s2 → heap_ok N root s2 → heap_grown N root (free_list s1) 0 s1 s2 → Q (free_list s + 16) s2) →
  wp (old_size ← FreeSpace_get_size (free_list s);
      store64 (free_list s) size;;
      store64 (free_list s ⊞ 8) 0xFEEBDAEDDEADBEEF;;
      FreeSpace_set_last (free_list s ⊞ 16 ⊞ size);;
      FreeSpace_set_size (free_list s ⊞ 16 ⊞ size) (old_size ⊟ (size ⊞ 16));;
      modify (set_free_list (free_list s ⊞ 16 ⊞ size));;
      log LogLevel.VIRTUAL_MEMORY (chars "Allocated %i bytes at 0x%x")
        [size; free_list s ⊞ 16];;
      mret (free_list s ⊞ 16)) Q s1.
Proof.
  intros OK Hsize P2 (OK1 & Ef & Ee & G) HQ.
  rewrite <- Ef. apply place_block; [done|done|unfold free_size in *; lia|].
  intros s2 OK2 Ef2 Ee2 B1 B2 G2. rewrite Ef in *. apply HQ; [|done|done]. split; try done; [congruence|].
  rewrite <- (Z.add_0_r (4 * _)). by apply (hg_trans _ _ _ _ _ _ s1).
Qed.

Lemma kalloc_done s size :
  heap_ok N root s → 0 ≤ size → 4 * pages_needed s size ≤ Z.of_nat (nfree N s) →
  ∃ s', kalloc size s = Done (free_list s + 16) s' ∧ allocated_block size s s'.
Proof.
  intros OK Hsize Hn. destruct (pages_bounds s size OK Hsize Hn) as (P1 & P2 & _).
  assert (wp (kalloc size) (λ r s', r = free_list s + 16 ∧ allocated_block size s s') s) as W.
  2:{ apply wp_inv in W as (r & s' & E & -> & H). by exists s'. }
  apply (find_space s size (λ current, _) (space_found size s)); [done|apply (pages_bounds s size OK Hsize Hn)| | |].
  - intros _. eapply wp_mono; [by apply extend_loop|]. intros [] s'. exact id.
  - by apply space_there.
  - intros s1 SF. cbv zeta. by apply (place_allocated s s1 size).
Qed.
End kalloc.

(** ** virtual_allocator_init *)

Lemma heap_core_empty N root s :
  pt_ok N root s → kernel_space (pmem s) root → heap_core N root VIRTUAL_HEAP_START s.
Proof.
  intros OK KS. split; try done; try (unfold in_heap; lia).
  rewrite Z.sub_diag. assert (nfree N s ≤ N)%nat; [|lia].
  pose proof (length_filter (frame_free s) (zseq 0 N)) as Hl. unfold nfree.
  unfold zseq at 2 in Hl. by rewrite length_fmap, length_seq in Hl.
Qed.

Lemma lor_land_1 a v : Z.lor (Z.lor a (Z.land v 1)) 1 = Z.lor a 1.
Proof.
  apply Z.bits_inj'. intros k _. rewrite !Z.lor_spec, Z.land_spec.
  by destruct (Z.testbit a k), (Z.testbit v k), (Z.testbit 1 k).
Qed.

Lemma vload_range n s va : 0 ≤ vload n s va < 256 ^ Z.of_nat n.
Proof.
  revert va. induction n as [|n IH]; intros va; cbn [vload]; [lia|].
  rewrite Nat2Z.inj_succ, Z.pow_succ_r by lia. specialize (IH (va + 1)).
  assert (0 ≤ vbyte s va < 256); [|lia]. unfold vbyte.
  destruct (resolve s va); [apply rd8_range|lia].
Qed.

(** Writing to the heap leaves the flags alone. *)
Lemma nfree_writes N root hi P a b :
  heap_core N root hi a → (∀ x, P x → in_heap hi x) → writes P a b → nfree N b = nfree N a.
Proof.
  intros HC HP W. destruct (writes_data N root _ a HC P b HP W) as (m & -> & Hd). by apply (data_nfree N root a m).
Qed.

(** set_size and then set_last, the other order of [new_block_done]. *)
Lemma first_block_done N root hi s p n :
  heap_core N root hi s → heap_range hi p 8 → 0 ≤ n < 2 ^ 63 →
  ∃ s1 s', FreeSpace_set_size p n s = Done () s1 ∧ FreeSpace_set_last p s1 = Done () s' ∧
    only_mem s s' ∧ heap_core N root hi s' ∧ vload 8 s' p = last_status n ∧ nfree N s' = nfree N s ∧
    writes (λ x, p ≤ x < p + 8) s s'.
Proof.
  intros HC [H1 H2] Hn.
  assert (load64 p s = Done (vload 8 s p) s) as E0 by by apply (loadv_heap N root hi s HC 8 p).
  set (w := Z.lor (u64 (Z.shiftl n 1)) (Z.land (vload 8 s p) 1)).
  assert (0 ≤ w < 2 ^ 64) as Hw.
  { unfold w. pose proof (u64_range (Z.shiftl n 1)). pose proof (land_1 (vload 8 s p)).
    apply lor_lt; [|rewrite land_1|lia]; simpl; zlia. }
  destruct (store64_heap N root hi s p w HC H1 H2 Hw) as (s1 & E1 & W1 & HC1 & B1).
  assert (load64 p s1 = Done w s1) as E2.
  { unfold load64. rewrite (loadv_heap N root hi s1 HC1 8 p H1 H2). by rewrite B1. }
  destruct (store64_heap N root hi s1 p (last_status n) HC1 H1 H2) as (s2 & E3 & W2 & HC2 & B2);
    [by apply last_status_facts|].
  exists s1, s2. split_and!; try done.
  - unfold FreeSpace_set_size. by rewrite (bind_done _ _ _ _ _ E0).
  - unfold FreeSpace_set_last. rewrite (bind_done _ _ _ _ _ E2). unfold w.
    rewrite lor_land_1, (set_size_word n Hn). exact E3.
  - by etrans; [apply (writes_only_mem _ _ _ W1)|apply (writes_only_mem _ _ _ W2)].
  - rewrite (nfree_writes N root hi (λ x, p ≤ x < p + 8) s1 s2 HC1 ltac:(unfold in_heap; lia) W2).
    apply (nfree_writes N root hi (λ x, p ≤ x < p + 8) s s1 HC ltac:(unfold in_heap; lia) W1).
  - apply (writes_trans _ s s1 s2); [|done|done]. intros va _.
    apply (writes_resolve N root hi s HC (λ x, p ≤ x < p + 8) s1); [unfold in_heap; lia|done].
Qed.

Record heap_started (N : nat) (root : Z) (s s' : kstate) : Prop := HeapStarted {
  hs_ok : heap_ok N root s';
  hs_list : free_list s' = VIRTUAL_HEAP_START;
  hs_end : virtual_alloc_end s' = VIRTUAL_HEAP_START + 4096;
  hs_free : (nfree N s ≤ nfree N s' + 4)%nat;
  hs_mem : only_mem (set_virtual_alloc_end (virtual_alloc_end s') (set_free_list (free_list s') s)) s';
  hs_order : keeps_order N s s';
  hs_table : has_table root s' VIRTUAL_HEAP_START;
  hs_out : ∀ a, outside_heap N root s' a → rd8 (pmem s') a = rd8 (pmem s) a
}.

(** A mapped heap page has a table. *)
Lemma heap_has_table N root hi s va : heap_core N root hi s → in_heap hi va → mappable va → has_table root s va.
Proof.
  intros HC Hin [A1 A2 A3]. destruct (hc_map _ _ _ _ HC va Hin) as (pa & E & _).
  rewrite (heap_resolve N root hi s HC va Hin) in E. unfold sv48 in E. rewrite A2 in E.
  destruct (pt_walk (pmem s) root (vpns va)) as [|e l] eqn:Ew; [done|].
  pose proof (ks_pages _ _ (hc_space _ _ _ _ HC) va A1 A2 A3 e l Ew) as ->.
  by apply (walk_has_table root s va e).
Qed.

(** The first page, written to. *)
Lemma started_facts N root s s2 s4 :
  heap_core N root (VIRTUAL_HEAP_START + 4096) s2 → extended N root VIRTUAL_HEAP_START 4 s s2 →
  writes (λ x, VIRTUAL_HEAP_START ≤ x < VIRTUAL_HEAP_START + 8) s2 s4 →
  let s' := set_virtual_alloc_end (VIRTUAL_HEAP_START + 4096) s4 in
  keeps_order N s s' ∧ has_table root s' VIRTUAL_HEAP_START ∧
  ∀ a, outside_heap N root s' a → rd8 (pmem s') a = rd8 (pmem s) a.
Proof.
  intros HC2 Ex (m & -> & Ha) s'. set (s2' := set_virtual_alloc_end (VIRTUAL_HEAP_START + 4096) s2).
  assert (heap_core N root (virtual_alloc_end s2') s2') as HC by (by apply (heap_core_fields N root _ s2)).
  assert (writes (λ x, VIRTUAL_HEAP_START ≤ x < VIRTUAL_HEAP_START + 8) s2' s') as W by (by exists m).
  assert (heap_grown N root VIRTUAL_HEAP_START 0 s2' s') as G.
  { apply (hg_writes _ _ _ _ _ _ HC W); unfold in_heap; cbn [virtual_alloc_end s2' set_virtual_alloc_end]; lia. }
  split_and!.
  - etrans; [exact (ex_order _ _ _ _ _ _ Ex)|]. etrans; [by apply (keeps_order_same N s2 s2')|apply G].
  - destruct (heap_has_table N root _ s2 VIRTUAL_HEAP_START HC2) as [t Ht]; [unfold in_heap; lia|by split|].
    exists t. apply (hg_node _ _ _ _ _ _ G); [apply (vpn_paths VIRTUAL_HEAP_START)|exact Ht].
  - intros a Hout. destruct (hg_out _ _ _ _ _ _ G a Hout) as [[Ho _] ->]. by apply (ex_out _ _ _ _ _ _ Ex).
Qed.

Lemma virtual_allocator_init_spec N root s :
  pt_ok N root s → kernel_space (pmem s) root → (4 ≤ nfree N s)%nat →
  ∃ s', virtual_allocator_init s = Done () s' ∧ heap_started N root s s'.
Proof.
  intros OK KS Hn. assert (wp virtual_allocator_init (λ _ s', heap_started N root s s') s) as W.
  2:{ apply wp_inv in W as ([] & s' & E & H). by exists s'. }
  unfold virtual_allocator_init. apply wp_bind, wp_log; [done|]. intros o.
  pose proof (heap_core_empty N root _ (pt_ok_emit N root o s OK) KS) as HC0.
  destruct (extend_done N root _ (emit o s) HC0 Hn) as (f & s1 & s2 & E1 & _ & E2 & Ex).
  eapply wp_bind_done; [exact E1|]. cbv zeta. eapply wp_bind_done; [exact E2|].
  unfold VirtualPage_get_address. pose proof (ex_core _ _ _ _ _ _ Ex) as HC2.
  destruct (first_block_done N root _ s2 VIRTUAL_HEAP_START PAGE_SIZE HC2)
    as (s3 & s4 & E3 & E4 & M4 & HC4 & B4 & Hf4 & W4); [unfold heap_range; lia|done|].
  destruct (started_facts N root _ s2 s4 HC2 Ex W4) as (SF1 & SF2 & SF3).
  eapply wp_bind_done; [exact E3|]. eapply wp_bind_done; [exact E4|].
  apply wp_bind, wp_modify, wp_bind, wp_modify, wp_bind, wp_gets.
  change (VIRTUAL_HEAP_START ⊞ PAGE_SIZE) with (VIRTUAL_HEAP_START + 4096).
  apply wp_bind, wp_log; [done|]. intros o1. apply wp_log; [done|]. intros o2.
  set (s5 := emit o2 _). split; [|done|done| | | |exact SF2|exact SF3].
  4:{ etrans; [by apply (keeps_order_same N s (emit o s))|]. etrans; [exact SF1|by apply keeps_order_same]. }
  - split.
    + by apply (heap_core_emit N root _ o2), (heap_core_emit N root _ o1),
        (heap_core_fields N root _ s4).
    + apply Z.le_refl.
    + change (VIRTUAL_HEAP_START + 16 ≤ VIRTUAL_HEAP_START + 4096). lia.
    + change (vload 8 s5 VIRTUAL_HEAP_START = last_status PAGE_SIZE). rewrite <- B4.
      by apply vload_ext.
  - change (nfree N s5) with (nfree N s4). rewrite Hf4.
    exact (ex_free _ _ _ _ _ _ Ex).
  - assert (only_mem s s4) as (o4 & m4 & E).
    { etrans; [apply (only_mem_emit o)|]. etrans; [apply Ex|exact M4]. }
    exists (o4 ++ o1 ++ o2), m4. unfold s5. rewrite emit_emit, E. unfold emit, set_console. cbn.
    by rewrite <- app_assoc.
Qed.

(** ** Using the heap *)

(** Programs may write below the free block. *)
Lemma heap_ok_writes N root s s' (P : Z → Prop) :
  heap_ok N root s → (∀ x, P x → in_heap (free_list s) x) → writes P s s' → heap_ok N root s'.
Proof.
  intros OK HP W. pose proof (ho_core _ _ _ OK) as HC. pose proof (ho_range N root s OK) as (R1 & R2 & _).
  pose proof (ho_lo _ _ _ OK) as Hlo.
  destruct (only_mem_fields _ _ (writes_only_mem _ _ _ W)) as (_ & _ & _ & _ & Ef & Ee & _).
  assert (∀ x, P x → in_heap (virtual_alloc_end s) x) as HP'.
  { intros x Hx. apply HP in Hx. unfold in_heap in *. lia. }
  split; rewrite ?Ee, ?Ef.
  - by apply (writes_core N root _ s HC P s').
  - apply OK.
  - apply OK.
  - rewrite (vload_writes N root _ 8 s s' P (free_list s) HC HP' W); [apply OK|done|lia|].
    intros x Hx HPx. apply HP in HPx. unfold in_heap in HPx. lia.
Qed.

(** A request whose size wraps: nothing is reserved. *)
Lemma kalloc_wraps N root s :
  heap_ok N root s →
  ∃ s', kalloc 0xFFFFFFFFFFFFFFF0 s = Done (free_list s + 16) s' ∧ heap_ok N root s' ∧
    free_list s' = free_list s ∧ virtual_alloc_end s' = virtual_alloc_end s ∧
    nfree N s' = nfree N s.
Proof.
  intros OK. set (size := 0xFFFFFFFFFFFFFFF0).
  pose proof (ho_core _ _ _ OK) as HC. pose proof (ho_head N root s OK) as Hh.
  pose proof (ho_size N root s OK) as Hs. pose proof (ho_status _ _ _ OK) as Hst.
  pose proof (ho_lo _ _ _ OK) as Hlo. pose proof (ho_hi _ _ _ OK) as Hhi.
  pose proof (ho_range N root s OK) as (R1 & R2 & R3 & R4).
  pose proof (is_last_done N root _ s _ _ HC Hh Hs Hst) as Elast.
  pose proof (get_size_done N root _ s _ _ HC Hh Hs Hst) as Esize.
  fold (free_size s) in Esize.
  set (p := free_list s) in *.
  assert (p ⊞ 8 = p + 8 ∧ p ⊞ 16 = p + 16 ∧ p ⊞ 16 ⊞ size = p) as (Ep8 & Ep16 & Ep).
  { rewrite !(u64_small (p + _)) by lia. split_and!; try done. unfold u64, size.
    replace (p + 16 + 0xFFFFFFFFFFFFFFF0) with (p + 1 * 0x10000000000000000) by lia.
    rewrite Z.mod_add by lia. apply Z.mod_small. lia. }
  assert (wp (kalloc size) (λ r s', r = p + 16 ∧ heap_ok N root s' ∧ free_list s' = p ∧
    virtual_alloc_end s' = virtual_alloc_end s ∧ nfree N s' = nfree N s) s) as W.
  2:{ apply wp_inv in W as (r & s' & E & -> & H). by exists s'. }
  unfold kalloc. apply wp_bind, wp_gets. fold p. apply (wp_bind_done _ _ _ _ p s).
  { apply (loop_rounds _ 1); [|done]. apply rounds_stop. unfold kalloc_search.
    by rewrite (bind_done _ _ _ _ _ Elast). }
  eapply wp_bind_done; [exact Elast|]. cbv iota. apply wp_bind.
  eapply wp_bind_done; [exact Esize|].
  change (size ⊞ sizeof_FreeSpace * 2) with 16. change (2 ^ 33) with 0x200000000 in R4.
  rewrite (proj2 (Z.ltb_ge _ _)) by lia. apply wp_ret. cbv zeta.
  eapply wp_bind_done; [exact Esize|]. rewrite Ep16 in *. rewrite Ep8, Ep.
  change (free_size s ⊟ (size ⊞ 16)) with (u64 (free_size s - 0)).
  rewrite Z.sub_0_r, u64_small by lia.
  destruct (store64_heap N root _ s p size HC) as (s1 & E1 & W1 & HC1 & _); [done|lia|done|].
  eapply wp_bind_done; [exact E1|].
  destruct (store64_heap N root _ s1 (p + 8) 0xFEEBDAEDDEADBEEF HC1) as (s2 & E2 & W2 & HC2 & _);
    [lia|lia|done|].
  eapply wp_bind_done; [exact E2|].
  destruct (new_block_done N root _ s2 p (free_size s) HC2 Hh Hs) as (s3 & s4 & E3 & E4 & W4 & HC4 & B4).
  eapply wp_bind_done; [exact E3|]. eapply wp_bind_done; [exact E4|].
  apply wp_bind, wp_modify, wp_bind, wp_log; [done|]. intros o. apply wp_ret.
  set (s5 := emit o (set_free_list p s4)). split; [done|].
  destruct (only_mem_fields _ _ (writes_only_mem _ _ _ W1)) as (_ & _ & _ & _ & _ & V1 & _).
  destruct (only_mem_fields _ _ (writes_only_mem _ _ _ W2)) as (_ & _ & _ & _ & _ & V2 & _).
  destruct (only_mem_fields _ _ (writes_only_mem _ _ _ W4)) as (_ & _ & _ & _ & _ & V4 & _).
  assert (virtual_alloc_end s5 = virtual_alloc_end s) as Ee
    by (change (virtual_alloc_end s4 = virtual_alloc_end s); congruence).
  split; [split; rewrite ?Ee; [|done..]|].
  - by apply (heap_core_emit N root _ o), (heap_core_fields N root _ s4).
  - split; [done|]. split; [done|].
    change (nfree N s5) with (nfree N s4). unfold heap_range in Hh.
    rewrite (nfree_writes N root _ (λ x, p ≤ x < p + 8) s2 s4 HC2 ltac:(unfold in_heap; lia) W4).
    rewrite (nfree_writes N root _ (λ x, p + 8 ≤ x < p + 8 + 8) s1 s2 HC1 ltac:(unfold in_heap; lia) W2).
    apply (nfree_writes N root _ (λ x, p ≤ x < p + 8) s s1 HC ltac:(unfold in_heap; lia) W1).
Qed.

(** ** memset and memcpy *)

Lemma resolve_u64 s va : resolve s (u64 va) = resolve s va.
Proof. unfold resolve. by rewrite u64_u64. Qed.

Lemma u64_add_succ p k : p ⊞ k ⊞ 1 = p ⊞ (k + 1).
Proof. unfold u64. rewrite Zplus_mod_idemp_l. f_equal. lia. Qed.

(** [p], [n], [f] as for a buffer, while memory changes in [W] only. *)
Definition stays_mapped (W : Z → Prop) (s : kstate) (p n : Z) (f : Z → Z) : Prop :=
  ∀ s', satp s' = satp s → agree (λ a, ¬ W a) (pmem s) (pmem s') →
    ∀ i, 0 ≤ i < n → resolve s' (p ⊞ i) = Some (f i).

Lemma buffer_stays s p n f : buffer s p n f → stays_mapped (in_range n f) s p n f.
Proof. intros [_ H]. exact H. Qed.

(** A loop that stores [g k s] into byte [k] of a buffer, for each [k] in turn. *)
Record filled (s : kstate) (n k : Z) (f : Z → Z) (v : Z → Z) (s' : kstate) : Prop := Filled {
  fi_state : s' = set_pmem (pmem s') s;
  fi_agree : agree (λ a, ¬ in_range n f a) (pmem s) (pmem s');
  fi_bytes : ∀ i, 0 ≤ i < k → rd8 (pmem s') (f i) = v i
}.

Lemma filled_step s n k f v s1 p b :
  buffer s p n f → filled s n k f v s1 → 0 ≤ k < n → u8 b = v k →
  ∀ q, u64 q = p ⊞ k →
  ∃ s2, store8 q b s1 = Done () s2 ∧ filled s n (k + 1) f v s2.
Proof.
  intros B [F1 F2 F3] Hk Hb q Hq.
  assert (resolve s1 q = Some (f k)) as E.
  { rewrite <- resolve_u64, Hq, resolve_u64, <- resolve_u64.
    rewrite <- (buffer_stays s p n f B s1); [done| |done|done]. by rewrite F1. }
  eexists. split; [unfold store8; by rewrite E|]. split.
  - cbn [pmem set_pmem]. rewrite F1 at 2. done.
  - cbn [pmem set_pmem]. etrans; [exact F2|]. apply agree_wr8. intros H. apply H. by exists k.
  - intros i Hi. cbn [pmem set_pmem]. rewrite rd8_wr8. case_decide as Hf.
    + destruct B as [Hinj _]. assert (i = k) as -> by (apply Hinj; lia || done). done.
    + apply F3. assert (i ≠ k) by congruence. lia.
Qed.

Lemma memset_done s p n f c :
  buffer s p n f → 0 ≤ n < 2 ^ 64 →
  ∃ s', memset p c n s = Done p s' ∧ filled s n n f (λ _, to_char c) s'.
Proof.
  intros B Hn.
  assert (wp (memset p c n) (λ r s', r = p ∧ filled s n n f (λ _, to_char c) s') s) as W.
  2:{ apply wp_inv in W as (r & s' & E & -> & H). by exists s'. }
  unfold memset. apply wp_bind.
  apply (wp_loop _ (λ '(i, k) s', 0 ≤ k ≤ n ∧ u64 i = p ⊞ k ∧ filled s n k f (λ _, to_char c) s')
    (λ '(_, k) _, n - k)).
  - intros [i k] s1 (Hk & Hi & F). split; [lia|]. destruct (Z.ltb_spec k n).
    + destruct (filled_step s n k f (λ _, to_char c) s1 p (to_char c) B F ltac:(lia) (u8_u8 c) i Hi)
        as (s2 & E & F2).
      eapply wp_bind_done; [exact E|]. apply wp_ret.
      change (2 ^ 64) with 0x10000000000000000 in Hn. rewrite (u64_small (k + 1)) by lia.
      split_and!; try lia; [|done]. rewrite <- u64_add_succ, <- Hi. unfold u64.
      by rewrite Zmod_mod, Zplus_mod_idemp_l.
    + apply wp_ret. assert (k = n) as -> by lia. by apply wp_ret.
  - split_and!; [lia|lia|by rewrite Z.add_0_r|]. split; [by rewrite set_pmem_id|done|lia].
  - lia.
Qed.

Lemma memcpy_done s dest src n f g :
  buffer s dest n f → stays_mapped (in_range n f) s src n g → 0 ≤ n < 2 ^ 64 →
  (∀ i, 0 ≤ i < n → ¬ in_range n f (g i)) →
  ∃ s', memcpy dest src n s = Done dest s' ∧ filled s n n f (λ i, rd8 (pmem s) (g i)) s'.
Proof.
  intros B Sm Hn Hsep. set (v := λ i, rd8 (pmem s) (g i)).
  assert (wp (memcpy dest src n) (λ r s', r = dest ∧ filled s n n f v s') s) as W.
  2:{ apply wp_inv in W as (r & s' & E & -> & H). by exists s'. }
  unfold memcpy. apply wp_bind.
  apply (wp_loop _ (λ k s', 0 ≤ k ≤ n ∧ filled s n k f v s') (λ k _, n - k)).
  - intros k s1 (Hk & F). split; [lia|]. destruct (Z.ltb_spec k n).
    + assert (load8 (src ⊞ k) s1 = Done (v k) s1) as El.
      { unfold load8. rewrite (Sm s1); [|by rewrite (fi_state _ _ _ _ _ _ F)|apply F|lia].
        unfold v. f_equal. apply (fi_agree _ _ _ _ _ _ F). apply Hsep. lia. }
      eapply wp_bind_done; [exact El|].
      destruct (filled_step s n k f v s1 dest (v k) B F ltac:(lia)) with (dest ⊞ k)
        as (s2 & E & F2); [|by rewrite u64_u64|].
      { apply u8_small. unfold v. apply rd8_range. }
      eapply wp_bind_done; [exact E|]. apply wp_ret.
      change (2 ^ 64) with 0x10000000000000000 in Hn. rewrite (u64_small (k + 1)) by lia.
      split_and!; done || lia.
    + apply wp_ret. assert (k = n) as -> by lia. by apply wp_ret.
  - split_and!; [lia|lia|]. split; [by rewrite set_pmem_id|done|lia].
  - lia.
Qed.

(** * Properties *)

(** C2: kalloc allocates: with four free frames for every page it has to add, it
    returns a block of [size] bytes at the start of the free space, behind a header
    with the size and the magic number; every byte of the block is mapped to a byte
    of its own; the heap stays well-formed, its free space starts behind the block,
    it has grown by exactly the pages needed; and no byte of an earlier block, nor of
    memory outside heap, tables and frame flags, has changed or moved. *)
Theorem kalloc_allocates (N : nat) (root size : Z) (s : kstate) :
  heap_ok N root s → 0 ≤ size → 4 * pages_needed s size ≤ Z.of_nat (nfree N s) →
  ∃ s' f, kalloc size s = Done (free_list s + 16) s' ∧
    allocated_block N root size s s' ∧ buffer s' (free_list s + 16) size f.
Proof.
  intros OK Hsize Hn. destruct (kalloc_done N root s size OK Hsize Hn) as (s' & E & AB).
  exists s', (λ i, default 0 (resolve s' (free_list s + 16 + i))). split_and!; try done.
  pose proof (ab_ok _ _ _ _ _ AB) as OK'. pose proof (ho_hi _ _ _ OK') as Hhi.
  rewrite (ab_next _ _ _ _ _ AB) in Hhi. pose proof (ho_lo _ _ _ OK).
  apply (heap_buffer N root _ s' _ _ (ho_core _ _ _ OK')); lia.
Qed.

(** C15: blocks stay apart: a block handed out, then written by its owner in any way,
    keeps its header and every byte when kalloc is called again, and the new block
    starts behind it. *)
Theorem kalloc_blocks_separate (N : nat) (root n1 n2 : Z) (s s1 s2 : kstate) :
  heap_ok N root s → 0 ≤ n1 → 4 * pages_needed s n1 ≤ Z.of_nat (nfree N s) →
  kalloc n1 s = Done (free_list s + 16) s1 →
  writes (λ x, free_list s + 16 ≤ x < free_list s + 16 + n1) s1 s2 →
  0 ≤ n2 → 4 * pages_needed s2 n2 ≤ Z.of_nat (nfree N s2) →
  ∃ p s3, kalloc n2 s2 = Done p s3 ∧ heap_ok N root s3 ∧
    p = free_list s + 16 + n1 + 16 ∧
    (∀ x, in_heap (free_list s + 16 + n1) x →
       resolve s3 x = resolve s2 x ∧ vbyte s3 x = vbyte s2 x) ∧
    vload 8 s3 (free_list s) = n1 ∧ vload 8 s3 (free_list s + 8) = 0xFEEBDAEDDEADBEEF.
Proof.
  intros OK H1 Hn1 E1 W H2 Hn2.
  destruct (kalloc_done N root s n1 OK H1 Hn1) as (s1' & E1' & AB1).
  assert (s1' = s1) as -> by congruence. pose proof (ho_lo _ _ _ OK) as Hlo.
  pose proof (ab_ok _ _ _ _ _ AB1) as OK1. pose proof (ab_next _ _ _ _ _ AB1) as Ef.
  assert (∀ x, free_list s + 16 ≤ x < free_list s + 16 + n1 → in_heap (free_list s1) x) as HP.
  { unfold in_heap. lia. }
  pose proof (heap_ok_writes N root s1 s2 _ OK1 HP W) as OK2.
  destruct (only_mem_fields _ _ (writes_only_mem _ _ _ W)) as (_ & _ & _ & _ & Ef2 & Ee2 & _).
  destruct (kalloc_done N root s2 n2 OK2 H2 Hn2) as (s3 & E3 & AB3).
  pose proof (hg_keep _ _ _ _ _ _ (ab_grown _ _ _ _ _ AB3)) as Hkeep.
  rewrite Ef2, Ef in Hkeep, E3. exists (free_list s + 16 + n1 + 16), s3.
  assert (∀ va, VIRTUAL_HEAP_START ≤ va → va + 8 ≤ free_list s + 16 → vload 8 s3 va = vload 8 s1 va)
    as Hhead.
  { intros va Ha Hb. transitivity (vload 8 s2 va).
    - apply vload_ext. intros i Hi. apply Hkeep. unfold in_heap. lia.
    - assert (∀ x, free_list s + 16 ≤ x < free_list s + 16 + n1 →
        in_heap (virtual_alloc_end s1) x) as HP'.
      { pose proof (ho_hi _ _ _ OK1). unfold in_heap. lia. }
      pose proof (ho_hi _ _ _ OK1).
      by rewrite (vload_writes N root _ 8 s1 s2 _ va (ho_core _ _ _ OK1) HP' W) by lia. }
  split_and!; try done; [apply (ab_ok _ _ _ _ _ AB3)|..].
  - rewrite Hhead by lia. apply (ab_size _ _ _ _ _ AB1).
  - rewrite Hhead by lia. apply (ab_magic _ _ _ _ _ AB1).
Qed.

(** A store into an allocated block through its pointer succeeds, changes that
    byte and no other heap byte, and keeps the heap well-formed. *)
Theorem heap_store_safe (N : nat) (root va b : Z) (s : kstate) :
  heap_ok N root s → in_heap (free_list s) va →
  ∃ s', store8 va b s = Done () s' ∧ heap_ok N root s' ∧ load8 va s' = Done (u8 b) s' ∧
    ∀ x, in_heap (virtual_alloc_end s) x → x ≠ va → vbyte s' x = vbyte s x.
Proof.
  intros OK Hva. pose proof (ho_hi _ _ _ OK) as Hhi.
  assert (in_heap (virtual_alloc_end s) va) as Hva' by (unfold in_heap in *; lia).
  destruct (store8_heap N root _ s va b (ho_core _ _ _ OK) Hva') as (s' & E & W & B).
  assert (heap_ok N root s') as OK' by (apply (heap_ok_writes N root s s' _ OK) in W; [done|];
    by intros ? ->).
  exists s'. split_and!; try done.
  - destruct (only_mem_fields _ _ (writes_only_mem _ _ _ W)) as (_ & _ & _ & _ & _ & Ee & _).
    rewrite (load8_heap N root _ s' (ho_core _ _ _ OK')) by (by rewrite Ee). by rewrite B.
  - intros x Hx Hne.
    apply (writes_vbyte N root _ s (ho_core _ _ _ OK) (λ x, x = va) s'); try done. by intros ? ->.
Qed.

(** Virtual_allocator_init establishes the heap: with four free frames it maps
    the first page at VIRTUAL_HEAP_START and makes all of it one free block. *)
Theorem virtual_allocator_init_ok (N : nat) (root : Z) (s : kstate) :
  pt_ok N root s → kernel_space (pmem s) root → (4 ≤ nfree N s)%nat →
  ∃ s', virtual_allocator_init s = Done () s' ∧ heap_ok N root s' ∧
    free_list s' = VIRTUAL_HEAP_START ∧ virtual_alloc_end s' = VIRTUAL_HEAP_START + 4096.
Proof.
  intros OK KS Hn. destruct (virtual_allocator_init_spec N root s OK KS Hn) as (s' & E & []). by exists s'.
Qed.

(** Kalloc does not check its size for overflow: for the request 2^64 - 16 it
    reports success with a pointer, but reserves nothing, so that the next request
    gets the same pointer. *)
Theorem kalloc_size_wraps (N : nat) (root n : Z) (s : kstate) :
  heap_ok N root s → 0 ≤ n → 4 * pages_needed s n ≤ Z.of_nat (nfree N s) →
  ∃ s1 s2, kalloc 0xFFFFFFFFFFFFFFF0 s = Done (free_list s + 16) s1 ∧
    kalloc n s1 = Done (free_list s + 16) s2.
Proof.
  intros OK Hn Hfree. destruct (kalloc_wraps N root s OK) as (s1 & E1 & OK1 & Ef & Ee & En).
  assert (pages_needed s1 n = pages_needed s n) as Ep
    by (unfold pages_needed, free_size; by rewrite Ef, Ee).
  destruct (kalloc_done N root s1 n OK1 Hn) as (s2 & E2 & _); [by rewrite Ep, En|].
  rewrite Ef in E2. by exists s1, s2.
Qed.

(** Memset sets the [n] bytes of a buffer to the low byte of [c], changes no
    other byte, and returns the buffer. *)
Theorem memset_fills (p c n : Z) (f : Z → Z) (s : kstate) :
  buffer s p n f → 0 ≤ n < 2 ^ 64 →
  ∃ s', memset p c n s = Done p s' ∧ s' = set_pmem (pmem s') s ∧
    (∀ i, 0 ≤ i < n → rd8 (pmem s') (f i) = to_char c) ∧
    agree (λ a, ¬ in_range n f a) (pmem s) (pmem s').
Proof.
  intros B Hn. destruct (memset_done s p n f c B Hn) as (s' & E & [F1 F2 F3]).
  exists s'. by split_and!.
Qed.

(** Memcpy copies the [n] bytes of the source to the destination when they do not
    overlap, leaves every other byte as it was, and returns the destination. *)
Theorem memcpy_copies (dest src n : Z) (f g : Z → Z) (s : kstate) :
  buffer s dest n f → stays_mapped (in_range n f) s src n g → 0 ≤ n < 2 ^ 64 →
  (∀ i, 0 ≤ i < n → ¬ in_range n f (g i)) →
  ∃ s', memcpy dest src n s = Done dest s' ∧ s' = set_pmem (pmem s') s ∧
    (∀ i, 0 ≤ i < n → rd8 (pmem s') (f i) = rd8 (pmem s) (g i)) ∧
    agree (λ a, ¬ in_range n f a) (pmem s) (pmem s').
Proof.
  intros B Sm Hn Hsep. destruct (memcpy_done s dest src n f g B Sm Hn Hsep) as (s' & E & [F1 F2 F3]).
  exists s'. by split_and!.
Qed.

(** * Witnesses *)

(** [paged] of AddressSpace.v after virtual_allocator_init. *)
Definition heap0 : kstate :=
  match virtual_allocator_init paged with Done _ s => s | Fault _ s => s end.

Lemma heap0_facts :
  heap_ok 64 0x80208000 heap0 ∧ free_list heap0 = VIRTUAL_HEAP_START ∧
  virtual_alloc_end heap0 = VIRTUAL_HEAP_START + 4096.
Proof.
  destruct paged_ok as (OK & KS & _).
  destruct (virtual_allocator_init_spec 64 0x80208000 paged OK KS) as (s' & E & []).
  { destruct paged_ok as (_ & _ & Hn & _). rewrite Hn. lia. }
  unfold heap0. rewrite E. by split_and!.
Qed.

Lemma heap0_ok : heap_ok 64 0x80208000 heap0.
Proof. apply heap0_facts. Qed.
Lemma heap0_free : nfree 64 heap0 = 59%nat.
Proof. vm_compute. reflexivity. Qed.
Lemma heap0_pages n : pages_needed heap0 n = Z.max 0 ((n + 32 - 4096 + 4095) / 4096).
Proof.
  destruct heap0_facts as (_ & E1 & E2). unfold pages_needed, free_size. rewrite E1, E2.
  do 4 f_equal.
Qed.

#[local] Opaque paged heap0.

Lemma heap0_enough n : 0 ≤ n ≤ 16384 → 4 * pages_needed heap0 n ≤ Z.of_nat (nfree 64 heap0).
Proof. intros Hn. rewrite heap0_free, heap0_pages. zlia. Qed.

Lemma kalloc_allocates_witness :
  ∃ s' f, kalloc 5000 heap0 = Done (free_list heap0 + 16) s' ∧
    allocated_block 64 0x80208000 5000 heap0 s' ∧ buffer s' (free_list heap0 + 16) 5000 f.
Proof.
  apply (kalloc_allocates 64 0x80208000 5000 heap0 heap0_ok); [lia|apply heap0_enough; lia].
Defined.

Lemma kalloc_blocks_separate_witness :
  ∃ s1 p s3, kalloc 100 heap0 = Done (free_list heap0 + 16) s1 ∧
    kalloc 200 s1 = Done p s3 ∧ heap_ok 64 0x80208000 s3 ∧
    p = free_list heap0 + 16 + 100 + 16 ∧
    (∀ x, in_heap (free_list heap0 + 16 + 100) x →
       resolve s3 x = resolve s1 x ∧ vbyte s3 x = vbyte s1 x) ∧
    vload 8 s3 (free_list heap0) = 100 ∧ vload 8 s3 (free_list heap0 + 8) = 0xFEEBDAEDDEADBEEF.
Proof.
  assert (4 * pages_needed heap0 100 ≤ Z.of_nat (nfree 64 heap0)) as Hn by (apply heap0_enough; lia).
  destruct (kalloc_done 64 0x80208000 heap0 100 heap0_ok ltac:(lia) Hn) as (s1 & E1 & AB).
  assert (pages_needed heap0 100 = 0) as E0 by (rewrite heap0_pages; reflexivity).
  assert (pages_needed s1 200 = 0) as E2.
  { unfold pages_needed, free_size. rewrite (ab_end _ _ _ _ _ AB), (ab_next _ _ _ _ _ AB), E0.
    destruct heap0_facts as (_ & -> & ->).
    change (Z.max 0 ((200 + 32 - (4096 - 116) + 4095) / 4096) = 0). reflexivity. }
  destruct (kalloc_blocks_separate 64 0x80208000 100 200 heap0 s1 s1 heap0_ok ltac:(lia) Hn E1)
    as (p & s3 & H); [apply writes_refl|lia|rewrite E2; lia|].
  exists s1, p, s3. split; [exact E1|exact H].
Defined.

Lemma heap_store_safe_witness :
  ∃ s1 s', kalloc 100 heap0 = Done (free_list heap0 + 16) s1 ∧
    store8 (free_list heap0 + 16) 65 s1 = Done () s' ∧ heap_ok 64 0x80208000 s' ∧
    load8 (free_list heap0 + 16) s' = Done (u8 65) s' ∧
    ∀ x, in_heap (virtual_alloc_end s1) x → x ≠ free_list heap0 + 16 → vbyte s' x = vbyte s1 x.
Proof.
  assert (4 * pages_needed heap0 100 ≤ Z.of_nat (nfree 64 heap0)) as Hn by (apply heap0_enough; lia).
  destruct (kalloc_done 64 0x80208000 heap0 100 heap0_ok ltac:(lia) Hn) as (s1 & E1 & AB).
  destruct (heap_store_safe 64 0x80208000 (free_list heap0 + 16) 65 s1 (ab_ok _ _ _ _ _ AB))
    as (s' & H).
  { pose proof (ho_lo _ _ _ heap0_ok). unfold in_heap. rewrite (ab_next _ _ _ _ _ AB). lia. }
  exists s1, s'. split; [exact E1|exact H].
Defined.

Lemma virtual_allocator_init_ok_witness :
  ∃ s', virtual_allocator_init paged = Done () s' ∧ heap_ok 64 0x80208000 s' ∧
    free_list s' = VIRTUAL_HEAP_START ∧ virtual_alloc_end s' = VIRTUAL_HEAP_START + 4096.
Proof.
  destruct paged_ok as (OK & KS & Hn & _).
  apply (virtual_allocator_init_ok 64 0x80208000 paged OK KS). rewrite Hn. lia.
Defined.

Lemma kalloc_size_wraps_witness :
  ∃ s1 s2, kalloc 0xFFFFFFFFFFFFFFF0 heap0 = Done (free_list heap0 + 16) s1 ∧
    kalloc 64 s1 = Done (free_list heap0 + 16) s2.
Proof.
  apply (kalloc_size_wraps 64 0x80208000 64 heap0 heap0_ok); [lia|apply heap0_enough; lia].
Defined.


Lemma memset_fills_witness :
  ∃ s', memset (0x1000 + VIRTUAL_OFFSET) 0x141 16 start = Done (0x1000 + VIRTUAL_OFFSET) s' ∧
    s' = set_pmem (pmem s') start ∧
    (∀ i, 0 ≤ i < 16 → rd8 (pmem s') (0x1000 + i) = to_char 0x141) ∧
    agree (λ a, ¬ in_range 16 (λ i, 0x1000 + i) a) (pmem start) (pmem s').
Proof. apply memset_fills; [apply buffer_window; unfold WINDOW_SIZE; lia|lia]. Defined.

Lemma memcpy_copies_witness :
  ∃ s', memcpy (0x1000 + VIRTUAL_OFFSET) (0x2000 + VIRTUAL_OFFSET) 16 start =
      Done (0x1000 + VIRTUAL_OFFSET) s' ∧
    s' = set_pmem (pmem s') start ∧
    (∀ i, 0 ≤ i < 16 → rd8 (pmem s') (0x1000 + i) = rd8 (pmem start) (0x2000 + i)) ∧
    agree (λ a, ¬ in_range 16 (λ i, 0x1000 + i) a) (pmem start) (pmem s').
Proof.
  apply memcpy_copies; [apply buffer_window; unfold WINDOW_SIZE; lia| |lia|].
  - intros s' _ _. assert (buffer s' (0x2000 + VIRTUAL_OFFSET) 16 (λ i, 0x2000 + i)) as B
      by (apply buffer_window; unfold WINDOW_SIZE; lia).
    intros i Hi. by apply (buffer_resolve _ _ _ _ _ B).
  - intros i Hi (j & Hj & E). lia.
Defined.
