(* ===== verification/Allocator.v ===== *)
(** What the heap promises to the rest of the kernel, as an interface, and the
    proof that kalloc keeps it.

    The clients (Path, Process, Scheduler, the file system, the drivers) are proved
    against [Allocator]: an invariant with a budget of bytes that can still be
    allocated, the addresses that keep their contents ([stable]: the kernel image
    and allocated blocks) and those a client may write ([owned]: allocated blocks). *)

From S2P Require Import Prelude Monad Memory Sv48 Machine Layout Samples Stdio PhysAlloc Paging AddressSpace Heap KAlloc.

(** ** States that differ in console, log level and static pointers only *)

Record same_mem (s s' : kstate) : Prop := SameMem {
  sm_pmem : pmem s' = pmem s;
  sm_satp : satp s' = satp s;
  sm_managed : managed_frames_address_start s' = managed_frames_address_start s;
  sm_first : first_frame_address s' = first_frame_address s;
  sm_table : first_level_table s' = first_level_table s;
  sm_free : free_list s' = free_list s;
  sm_end : virtual_alloc_end s' = virtual_alloc_end s
}.

#[export] Instance same_mem_equiv : Equivalence same_mem.
Proof.
  split.
  - by intros s.
  - intros s s' []. by split.
  - intros s1 s2 s3 [] []. split; congruence.
Qed.

Lemma same_mem_emit o s : same_mem s (emit o s).
Proof. by split. Qed.
Lemma same_mem_vars v s : same_mem s (set_vars v s).
Proof. by split. Qed.
#[export] Hint Resolve same_mem_emit same_mem_vars : kernel.

#[export] Instance resolve_proper : Proper (same_mem ==> eq ==> eq) resolve.
Proof. intros s s' H va ? <-. unfold resolve. by rewrite (sm_pmem _ _ H), (sm_satp _ _ H). Qed.
#[export] Instance vbyte_proper : Proper (same_mem ==> eq ==> eq) vbyte.
Proof.
  intros s s' H va ? <-. unfold vbyte. rewrite <- (resolve_proper s s' H va va eq_refl).
  by rewrite (sm_pmem _ _ H).
Qed.

(** ** The interface *)

(** The code prints, and reads nothing from the serial line. *)
Definition console_more (s s' : kstate) : Prop :=
  console_in s' = console_in s ∧ ∃ o, console_out s' = console_out s ++ o.

#[export] Instance console_more_refl : Reflexive console_more.
Proof. intros s. split; [done|]. exists []. by rewrite app_nil_r. Qed.
#[export] Instance console_more_trans : Transitive console_more.
Proof.
  intros s1 s2 s3 [I1 [o1 O1]] [I2 [o2 O2]]. split; [congruence|].
  exists (o1 ++ o2). by rewrite O2, O1, app_assoc.
Qed.
Lemma only_mem_more s s' : only_mem s s' → console_more s s'.
Proof. intros (o & m & ->). split; [done|]. by exists o. Qed.

Lemma console_more_emit o s : console_more s (emit o s).
Proof. apply only_mem_more, only_mem_emit. Qed.

Class Allocator := {
  budget : Z → kstate → Prop;
  stable : kstate → Z → Prop;
  owned : kstate → Z → Prop;

  budget_proper b : Proper (same_mem ==> iff) (budget b);
  stable_proper : Proper (same_mem ==> eq ==> iff) stable;
  owned_proper : Proper (same_mem ==> eq ==> iff) owned;

  (** Addresses are 64-bit, and no allocated address is the last one. *)
  stable_range s va : budget 0 s → stable s va → 0 ≤ va < 2 ^ 64 - 1;
  owned_stable s va : owned s va → stable s va;
  budget_weaken b b' s : budget b s → 0 ≤ b' ≤ b → budget b' s;

  stable_load s va : budget 0 s → stable s va → load8 va s = Done (vbyte s va) s;
  owned_store b s va v : budget b s → 0 ≤ b → owned s va →
    ∃ s', store8 va v s = Done () s' ∧ budget b s' ∧ vbyte s' va = u8 v ∧
      (∀ x, stable s x → x ≠ va → vbyte s' x = vbyte s x) ∧
      (∀ x, stable s' x ↔ stable s x) ∧ (∀ x, owned s' x ↔ owned s x) ∧ only_mem s s' ∧
      (∀ x, stable s x → resolve s' x = resolve s x);

  (** kalloc takes the block and a 16-byte header out of the budget; the block was
      not stable before, everything that was stays so, with its place and contents.
      Blocks are placed one behind the other, and a header begins with the size of its
      block. *)
  alloc b n s : budget b s → 0 ≤ n → n + 16 ≤ b →
    ∃ p s', kalloc n s = Done p s' ∧ budget (b - n - 16) s' ∧
      0 < p ∧ p + n < 2 ^ 64 ∧
      (∀ i, 0 ≤ i < n → owned s' (p + i) ∧ ¬ stable s (p + i)) ∧
      (∀ x, stable s x → stable s' x ∧ vbyte s' x = vbyte s x) ∧
      (∀ x, owned s x → owned s' x) ∧
      vars s' = vars s ∧ logLevel s' = logLevel s ∧ console_more s s' ∧
      (∀ x, stable s x → resolve s' x = resolve s x) ∧
      p = free_list s + 16 ∧ free_list s' = p + n ∧
      (∀ i, 0 ≤ i < 16 → stable s' (p - 16 + i) ∧ ¬ stable s (p - 16 + i)) ∧ vload 8 s' (p - 16) = n
}.

#[export] Existing Instances budget_proper stable_proper owned_proper.

(** ** kalloc implements it *)

Section kalloc_allocator.
Context (N : nat) (root : Z).

(** Image and device addresses: the window below the frame flags. *)
Definition static (s : kstate) (va : Z) : Prop :=
  VIRTUAL_OFFSET ≤ va < VIRTUAL_OFFSET + flags_base s.

Definition heap_budget (b : Z) (s : kstate) : Prop :=
  heap_ok N root s ∧ 0 ≤ b ∧ 4 * pages_needed s b ≤ Z.of_nat (nfree N s) ∧
  RAM_ORIGIN ≤ flags_base s.
Definition heap_stable (s : kstate) (va : Z) : Prop :=
  static s va ∨ in_heap (free_list s) va.
Definition heap_owned (s : kstate) (va : Z) : Prop := in_heap (free_list s) va.

Lemma heap_ok_same s s' : same_mem s s' → heap_ok N root s → heap_ok N root s'.
Proof.
  intros SM [HC Hlo Hhi Hst]. pose proof SM as [E1 E2 E3 E4 E5 E6 E7].
  split; rewrite ?E6, ?E7; try done.
  - by apply (heap_core_fields N root _ s).
  - rewrite <- Hst. apply vload_ext. intros i _. symmetry. by apply vbyte_proper.
Qed.

Lemma nfree_same s s' : same_mem s s' → nfree N s' = nfree N s.
Proof.
  intros H. apply nfree_ext. intros i _. unfold frame_free, frame_flag, flags_base.
  by rewrite (sm_pmem _ _ H), (sm_managed _ _ H).
Qed.

Lemma heap_budget_proper b : Proper (same_mem ==> iff) (heap_budget b).
Proof.
  assert (∀ s s', same_mem s s' → heap_budget b s → heap_budget b s') as H.
  { intros s s' SM (OK & Hb & Hn & Hf). split; [by apply (heap_ok_same s)|]. split; [done|].
    rewrite (nfree_same s s' SM). unfold pages_needed, free_size, flags_base in *.
    by rewrite (sm_free _ _ SM), (sm_end _ _ SM), (sm_managed _ _ SM). }
  intros s s' SM. split; by apply H.
Qed.

Lemma static_same s s' va : flags_base s' = flags_base s → static s' va ↔ static s va.
Proof. intros E. unfold static. by rewrite E. Qed.

Lemma heap_stable_proper : Proper (same_mem ==> eq ==> iff) heap_stable.
Proof.
  intros s s' H va ? <-. unfold heap_stable, static, flags_base.
  by rewrite (sm_managed _ _ H), (sm_free _ _ H).
Qed.

Lemma heap_owned_proper : Proper (same_mem ==> eq ==> iff) heap_owned.
Proof. intros s s' H va ? <-. unfold heap_owned. by rewrite (sm_free _ _ H). Qed.

Section facts.
Context (s : kstate) (OK : heap_ok N root s).

Lemma flags_in_window : 0 ≤ flags_base s ≤ WINDOW_SIZE.
Proof using OK.
  pose proof (pt_frames _ _ _ (hc_pt _ _ _ _ (ho_core _ _ _ OK))) as FR.
  destruct (fo_bounds _ _ FR) as (B1 & B2 & B3). unfold WINDOW_SIZE. lia.
Qed.

Lemma static_resolve va : static s va → resolve s va = Some (va - VIRTUAL_OFFSET).
Proof using OK.
  intros H. pose proof flags_in_window. apply resolve_window. unfold static in H. lia.
Qed.

Lemma owned_in_heap va : heap_owned s va → in_heap (virtual_alloc_end s) va.
Proof using OK. pose proof (ho_hi _ _ _ OK). unfold heap_owned, in_heap. lia. Qed.

Lemma heap_stable_range va : heap_stable s va → 0 ≤ va < 2 ^ 64 - 1.
Proof using OK.
  pose proof flags_in_window. pose proof (ho_range N root s OK) as (R1 & R2 & R3 & _).
  unfold heap_stable, static, in_heap, VIRTUAL_HEAP_START, VIRTUAL_OFFSET, WINDOW_SIZE, RAM_ORIGIN, RAM_LENGTH in *.
  simpl. lia.
Qed.

Lemma heap_stable_load va : heap_stable s va → load8 va s = Done (vbyte s va) s.
Proof using OK.
  intros [H|H].
  - unfold load8, vbyte. by rewrite static_resolve.
  - apply (load8_heap N root _ s (ho_core _ _ _ OK)). by apply owned_in_heap.
Qed.

(** Physical addresses below the flags belong to no table and no heap page. *)
Lemma static_outside a : 0 ≤ a < flags_base s → outside_heap N root s a.
Proof using OK.
  intros Ha. pose proof (ho_core _ _ _ OK) as HC. pose proof (hc_pt _ _ _ _ HC) as PT.
  destruct (fo_bounds _ _ (pt_frames _ _ _ PT)) as (B1 & B2 & B3).
  assert (∀ t, used_frame N s t → ¬ in_page t a) as Hu.
  { intros t (i & Hi & -> & _) Hp. unfold in_page, frame_at, FRAME_SIZE, PAGE_SIZE in Hp. lia. }
  split; [split|].
  - unfold in_flags. lia.
  - intros q t Hq Hn. by apply Hu, (pt_alloc _ _ _ PT q).
  - intros (va & Hva & E). destruct (hc_map _ _ _ _ HC va Hva) as (pa & E' & _ & t & Ht & Hp).
    assert (pa = a) as -> by congruence. by apply (Hu t).
Qed.
End facts.

Lemma only_mem_static s s' va : only_mem s s' → static s' va ↔ static s va.
Proof. intros M. apply static_same. by destruct (only_mem_frames _ _ M). Qed.

Lemma heap_owned_store b s va v :
  heap_budget b s → 0 ≤ b → heap_owned s va →
  ∃ s', store8 va v s = Done () s' ∧ heap_budget b s' ∧ vbyte s' va = u8 v ∧
    (∀ x, heap_stable s x → x ≠ va → vbyte s' x = vbyte s x) ∧
    (∀ x, heap_stable s' x ↔ heap_stable s x) ∧ (∀ x, heap_owned s' x ↔ heap_owned s x) ∧
    only_mem s s' ∧ (∀ x, heap_stable s x → resolve s' x = resolve s x).
Proof.
  intros (OK & Hb & Hn & Hf) _ Hva. pose proof (ho_core _ _ _ OK) as HC.
  pose proof (owned_in_heap s OK va Hva) as Hva'.
  destruct (store8_heap N root _ s va v HC Hva') as (s' & E & W & B).
  assert (∀ x, x = va → in_heap (virtual_alloc_end s) x) as HP by (by intros ? ->).
  assert (∀ x, x = va → in_heap (free_list s) x) as HP' by (by intros ? ->).
  pose proof (heap_ok_writes N root s s' _ OK HP' W) as OK'.
  pose proof (writes_only_mem _ _ _ W) as M.
  destruct (only_mem_fields _ _ M) as (_ & _ & _ & _ & Ef & Ee & _).
  assert (nfree N s' = nfree N s) as En.
  { destruct (writes_data N root _ s HC _ s' HP W) as (m & -> & Hd). apply (data_nfree N root s m Hd). }
  exists s'. split_and!; try done.
  - split; [done|]. split; [done|]. unfold pages_needed, free_size. rewrite En, Ef, Ee.
    split; [done|]. by destruct (only_mem_frames _ _ M) as [-> _].
  - intros x [Hx|Hx] Hne.
    + unfold vbyte. rewrite (static_resolve s' OK') by by apply (only_mem_static s).
      rewrite (static_resolve s OK) by done. destruct W as (m & -> & Ha). apply Ha.
      intros (y & -> & Ey). destruct (static_outside s OK (x - VIRTUAL_OFFSET)) as [_ Hno].
      { unfold static in Hx. lia. }
      apply Hno. by exists va.
    + apply (writes_vbyte N root _ s HC _ s' HP W); [|done]. by apply owned_in_heap.
  - intros x. unfold heap_stable. by rewrite Ef, (only_mem_static s s').
  - intros x. unfold heap_owned. by rewrite Ef.
  - intros x _. by apply (writes_resolve N root _ s HC _ s' HP W).
Qed.

(** What is left of a budget after an allocation. *)
Lemma pages_after s s' b n :
  free_size s' = free_size s + 4096 * pages_needed s n - n - 16 →
  0 ≤ n → n + 16 ≤ b →
  pages_needed s' (b - n - 16) = pages_needed s b - pages_needed s n.
Proof.
  intros E Hn Hb. unfold pages_needed in *. rewrite E. generalize (free_size s). intros f. zlia.
Qed.

Lemma pages_mono s n b : n ≤ b → pages_needed s n ≤ pages_needed s b.
Proof. intros H. unfold pages_needed. zlia. Qed.

Lemma heap_alloc b n s :
  heap_budget b s → 0 ≤ n → n + 16 ≤ b →
  ∃ p s', kalloc n s = Done p s' ∧ heap_budget (b - n - 16) s' ∧ 0 < p ∧ p + n < 2 ^ 64 ∧
    (∀ i, 0 ≤ i < n → heap_owned s' (p + i) ∧ ¬ heap_stable s (p + i)) ∧
    (∀ x, heap_stable s x → heap_stable s' x ∧ vbyte s' x = vbyte s x) ∧
    (∀ x, heap_owned s x → heap_owned s' x) ∧
    vars s' = vars s ∧ logLevel s' = logLevel s ∧ console_more s s' ∧
    (∀ x, heap_stable s x → resolve s' x = resolve s x) ∧
    p = free_list s + 16 ∧ free_list s' = p + n ∧
    (∀ i, 0 ≤ i < 16 → heap_stable s' (p - 16 + i) ∧ ¬ heap_stable s (p - 16 + i)) ∧ vload 8 s' (p - 16) = n.
Proof.
  intros (OK & Hb & Hp & Hf) Hn Hle. pose proof (pages_mono s n b ltac:(lia)) as Hm.
  destruct (kalloc_done N root s n OK Hn ltac:(lia)) as (s' & E & AB).
  pose proof (ab_ok _ _ _ _ _ AB) as OK'. pose proof (ab_grown _ _ _ _ _ AB) as G.
  pose proof (ho_range N root s OK) as (R1 & R2 & R3 & _).
  pose proof (ho_range N root s' OK') as (R1' & R2' & R3' & _).
  pose proof (ab_next _ _ _ _ _ AB) as Ef. pose proof (ab_end _ _ _ _ _ AB) as Ee.
  destruct (hg_vars _ _ _ _ _ _ G) as (o & m & Es).
  assert (flags_base s' = flags_base s) as Eb by (rewrite Es; done).
  assert (∀ x, static s x → static s' x ∧ vbyte s' x = vbyte s x) as Hst.
  { intros x Hx. assert (static s' x) as Hx' by (by apply (static_same s)). split; [done|].
    unfold vbyte. rewrite (static_resolve s' OK'), (static_resolve s OK) by done.
    apply (hg_out _ _ _ _ _ _ G), static_outside; [done|]. unfold static in Hx'. lia. }
  pose proof (ho_lo _ _ _ OK) as Hlo. pose proof (flags_in_window s OK) as Hfw.
  exists (free_list s + 16), s'. split_and!; try done.
  - split; [done|]. split; [lia|].
    rewrite (pages_after s s' b n) by (done || lia || (unfold free_size; lia)).
    pose proof (hg_free _ _ _ _ _ _ G). rewrite Eb. lia.
  - lia.
  - simpl. lia.
  - intros i Hi. unfold heap_owned, heap_stable, in_heap, static. split; [lia|].
    unfold VIRTUAL_HEAP_START, VIRTUAL_OFFSET, WINDOW_SIZE, RAM_ORIGIN, RAM_LENGTH in *. lia.
  - intros x [Hx|Hx].
    + destruct (Hst x Hx) as [H1 H2]. split; [by left|done].
    + destruct (hg_keep _ _ _ _ _ _ G x Hx) as [_ ->]. split; [|done]. right.
      unfold in_heap in *. lia.
  - intros x. unfold heap_owned, in_heap. lia.
  - by rewrite Es.
  - by rewrite Es.
  - rewrite Es. split; [done|]. by exists o.
  - intros x [Hx|Hx].
    + by rewrite (static_resolve s' OK'), (static_resolve s OK) by (done || by apply Hst).
    + by apply (hg_keep _ _ _ _ _ _ G x Hx).
  - intros i Hi. unfold heap_stable, in_heap, static. split; [lia|].
    unfold VIRTUAL_HEAP_START, VIRTUAL_OFFSET, WINDOW_SIZE, RAM_ORIGIN, RAM_LENGTH in *. lia.
  - rewrite Z.add_simpl_r. apply AB.
Qed.

#[export] Program Instance kernel_heap : Allocator := {|
  budget := heap_budget; stable := heap_stable; owned := heap_owned
|}.
Next Obligation. apply heap_budget_proper. Qed.
Next Obligation. apply heap_stable_proper. Qed.
Next Obligation. apply heap_owned_proper. Qed.
Next Obligation. intros s va (OK & _). by apply heap_stable_range. Qed.
Next Obligation. intros s va H. by right. Qed.
Next Obligation.
  intros b b' s (OK & Hb & Hn & Hf) Hle. split; [done|]. split; [lia|].
  pose proof (pages_mono s b' b). split; [lia|done].
Qed.
Next Obligation. intros s va (OK & _). by apply heap_stable_load. Qed.
Next Obligation. apply heap_owned_store. Qed.
Next Obligation. apply heap_alloc. Qed.
End kalloc_allocator.

(** The heap of the samples has 16 KiB to give. *)
Lemma heap0_budget b : 0 ≤ b ≤ 16384 → budget (Allocator := kernel_heap 64 0x80208000) b heap0.
Proof. intros Hb. split; [apply heap0_ok|]. split; [lia|]. split; [by apply heap0_enough|]. by vm_compute. Qed.
