(* ===== verification/Client.v ===== *)
(** Programming against the heap interface: multi-byte accesses, zero-initialised
    objects, C strings, memcpy and kalloc, as weakest-precondition rules over
    [Allocator]. *)

From S2P Require Import Prelude Monad Memory Sv48 Machine Layout Stdio Heap KAlloc Allocator.

(** [while (p[size]) size++]. *)
Definition strlen_loop (p : Z) : K Z :=
  loop (λ size,
    c ← load8 (p ⊞ size);
    mret (if c =? 0 then inr size else inl (size ⊞ 1))) 0.

(** [new T()] for a class without constructor: a zeroed block. *)
Definition new_zeroed (size : nat) : K Z :=
  p ← operator_new (Z.of_nat size);
  storev size p 0;;
  mret p.

Section client.
Context `{A : Allocator}.

(** From [s] to [s'] stable memory keeps its contents outside [P]. *)
Record keeps (P : Z → Prop) (s s' : kstate) : Prop := Keeps {
  kp_stable : ∀ x, stable s x → stable s' x;
  kp_byte : ∀ x, stable s x → ¬ P x → vbyte s' x = vbyte s x;
  kp_owned : ∀ x, owned s x → owned s' x;
  kp_map : ∀ x, stable s x → resolve s' x = resolve s x;
  kp_vars : vars s' = vars s
}.

Definition nowhere (x : Z) : Prop := False.
Definition range (p n x : Z) : Prop := p ≤ x < p + n.

Lemma keeps_refl P s : keeps P s s.
Proof. by split. Qed.

(** Two steps together change what was stable before in [R] only. *)
Lemma keeps_comp P Q R s1 s2 s3 :
  keeps P s1 s2 → keeps Q s2 s3 → (∀ x, stable s1 x → P x ∨ Q x → R x) → keeps R s1 s3.
Proof.
  intros [S1 B1 O1 R1 V1] [S2 B2 O2 R2 V2] H. split; auto; [..|congruence].
  - intros x Hx Hn. rewrite B2, B1; auto.
  - intros x Hx. by rewrite R2, R1 by auto.
Qed.

Lemma keeps_trans P s1 s2 s3 : keeps P s1 s2 → keeps P s2 s3 → keeps P s1 s3.
Proof. intros K1 K2. apply (keeps_comp P P P s1 s2 s3 K1 K2). by intros x _ []. Qed.

Lemma keeps_mono (P Q : Z → Prop) s s' : (∀ x, P x → Q x) → keeps P s s' → keeps Q s s'.
Proof. intros H [S1 B1 O1 R1 V1]. split; auto. Qed.

Lemma keeps_same P s s' : same_mem s s' → vars s' = vars s → keeps P s s'.
Proof.
  intros H V. split; [..|done].
  - intros x. by rewrite (stable_proper s s' H x x eq_refl).
  - intros x _ _. symmetry. by apply vbyte_proper.
  - intros x. by rewrite (owned_proper s s' H x x eq_refl).
  - intros x _. symmetry. by apply resolve_proper.
Qed.

Lemma keeps_vars P v s s' : keeps P s s' → keeps P (set_vars v s) (set_vars v s').
Proof.
  intros [S1 B1 O1 R1 V1]. assert (∀ s, same_mem s (set_vars v s)) as H by (by split). split; [..|done].
  - intros x. rewrite <- !(stable_proper _ _ (H _) x x eq_refl). apply S1.
  - intros x. rewrite <- !(stable_proper _ _ (H _) x x eq_refl). rewrite <- !(vbyte_proper _ _ (H _) x x eq_refl). apply B1.
  - intros x. rewrite <- !(owned_proper _ _ (H _) x x eq_refl). apply O1.
  - intros x. rewrite <- !(stable_proper _ _ (H _) x x eq_refl). rewrite <- !(resolve_proper _ _ (H _) x x eq_refl). apply R1.
Qed.

Lemma kept_vars v s s' x :
  keeps nowhere (set_vars v s) s' → stable s x → stable s' x ∧ vbyte s' x = vbyte s x.
Proof.
  intros K Hx. rewrite (stable_proper _ _ (same_mem_vars v s) x x eq_refl) in Hx. split; [by apply (kp_stable _ _ _ K)|].
  rewrite (kp_byte _ _ _ K); [symmetry; by apply vbyte_proper|done|by intros []].
Qed.

Lemma keeps_emit P o s : keeps P s (emit o s).
Proof. by apply keeps_same. Qed.

Lemma budget_emit b o s : budget b s → budget b (emit o s).
Proof. by rewrite (budget_proper b s (emit o s) (same_mem_emit o s)). Qed.

Lemma budget_0 b s : budget b s → 0 ≤ b → budget 0 s.
Proof. intros H Hb. by apply (budget_weaken b). Qed.

Lemma wp_printf fmt args (Q : () → kstate → Prop) s :
  fmt_ok fmt (length args) = true → (∀ out, Q () (emit out s)) → wp (printf fmt args) Q s.
Proof.
  intros H HQ. destruct (render_total (λ _, None) fmt args H) as [r Hr].
  eapply wp_done; [|apply HQ]. by apply (vprintf_done (λ _, None)); [apply strings_at_none|].
Qed.

(** ** Loads and stores *)

Lemma stable_succ s va : budget 0 s → stable s va → va ⊞ 1 = va + 1.
Proof.
  intros Hb H. pose proof (stable_range s va Hb H). simpl in *. rewrite u64_small; lia.
Qed.

Lemma stable_add s p i :
  budget 0 s → stable s p → 0 ≤ i → stable s (p + i) → p ⊞ i = p + i.
Proof.
  intros Hb H Hi H'. pose proof (stable_range s p Hb H).
  pose proof (stable_range s (p + i) Hb H'). simpl in *. rewrite u64_small; lia.
Qed.

Lemma loadv_stable n s va :
  budget 0 s → (∀ x, range va (Z.of_nat n) x → stable s x) → loadv n va s = Done (vload n s va) s.
Proof.
  intros Hb. revert va. induction n as [|n IH]; intros va H; [done|]. cbn [loadv vload].
  assert (stable s va) as Hva by (apply H; unfold range; lia).
  rewrite (bind_done _ _ _ _ _ (stable_load s va Hb Hva)).
  rewrite (stable_succ s va Hb Hva).
  assert (∀ x, range (va + 1) (Z.of_nat n) x → stable s x) as H'.
  { intros x Hx. apply H. unfold range in *. lia. }
  by rewrite (bind_done _ _ _ _ _ (IH (va + 1) H')).
Qed.

Lemma wp_load64 s va (Q : Z → kstate → Prop) :
  budget 0 s → (∀ x, range va 8 x → stable s x) → Q (vload 8 s va) s → wp (load64 va) Q s.
Proof. intros Hb H HQ. eapply wp_done; [by apply loadv_stable|done]. Qed.

(** A store through an owned pointer. *)
Record stored (b : Z) (n : nat) (va v : Z) (s s' : kstate) : Prop := Stored {
  st_budget : budget b s';
  st_value : vload n s' va = v mod 256 ^ Z.of_nat n;
  st_keeps : keeps (range va (Z.of_nat n)) s s';
  st_stable : ∀ x, stable s' x ↔ stable s x;
  st_only : only_mem s s'
}.

(** One byte, as a step that keeps the rest. *)
Lemma store8_owned b s va v :
  budget b s → 0 ≤ b → owned s va →
  ∃ s', store8 va v s = Done () s' ∧ budget b s' ∧ vbyte s' va = u8 v ∧
    keeps (λ x, x = va) s s' ∧ (∀ x, stable s' x ↔ stable s x) ∧ only_mem s s'.
Proof.
  intros Hb Hb0 Hva.
  destruct (owned_store b s va v Hb Hb0 Hva) as (s' & E & Hb' & V & B & S & O & M & R).
  exists s'. split_and!; try done. destruct (only_mem_fields _ _ M) as (_ & _ & _ & _ & _ & _ & _ & _ & Ev).
  split; auto.
  - intros x. apply S.
  - intros x. apply O.
Qed.

Lemma storev_owned n b s va v :
  budget b s → 0 ≤ b → (∀ x, range va (Z.of_nat n) x → owned s x) →
  ∃ s', storev n va v s = Done () s' ∧ stored b n va v s s'.
Proof.
  revert s va v. induction n as [|n IH]; intros s va v Hb Hb0 H.
  { exists s. split; [done|].
    split; [done|by rewrite Z.mod_1_r|apply keeps_refl|done|done]. }
  assert (owned s va) as Hva by (apply H; unfold range; lia).
  destruct (store8_owned b s va v Hb Hb0 Hva) as (s1 & E1 & Hb1 & V1 & K1 & S1 & M1).
  assert (∀ x, range (va + 1) (Z.of_nat n) x → owned s1 x) as H'.
  { intros x Hx. apply (kp_owned _ _ _ K1), H. unfold range in *. lia. }
  destruct (IH s1 (va + 1) (v / 0x100) Hb1 Hb0 H') as (s2 & E2 & [Hb2 V2 K2 S2 M2]).
  exists s2. split.
  - cbn [storev]. rewrite (bind_done _ _ _ _ _ E1).
    by rewrite (stable_succ s va (budget_0 b s Hb Hb0) (owned_stable s va Hva)).
  - split.
    + done.
    + cbn [vload]. rewrite V2. rewrite (kp_byte _ _ _ K2), V1.
      * rewrite Nat2Z.inj_succ, Z.pow_succ_r, Z.rem_mul_r by lia. done.
      * by apply S1, owned_stable.
      * unfold range. lia.
    + apply (keeps_comp _ _ _ s s1 s2 K1 K2). intros x _. unfold range. lia.
    + intros x. by rewrite S2.
    + by etrans.
Qed.

Lemma stored_exact b n va v s s' : stored b n va v s s' → 0 ≤ v < 256 ^ Z.of_nat n → vload n s' va = v.
Proof. intros H Hv. rewrite (st_value _ _ _ _ _ _ H). by apply Z.mod_small. Qed.

Lemma wp_storev n b s va v (Q : () → kstate → Prop) :
  budget b s → 0 ≤ b → (∀ x, range va (Z.of_nat n) x → owned s x) →
  (∀ s', stored b n va v s s' → Q () s') → wp (storev n va v) Q s.
Proof.
  intros Hb Hb0 H HQ. destruct (storev_owned n b s va v Hb Hb0 H) as (s' & E & St).
  eapply wp_done; [exact E|by apply HQ].
Qed.

(** Values that are kept. *)
Lemma vload_keeps n P s s' va :
  keeps P s s' → (∀ x, range va (Z.of_nat n) x → stable s x ∧ ¬ P x) →
  vload n s' va = vload n s va.
Proof.
  intros K H. apply vload_ext. intros i Hi. destruct (H (va + i)) as [H1 H2]; [unfold range; lia|].
  by apply (kp_byte _ _ _ K).
Qed.

(** ** Allocation *)

(** What a call that allocates [n] bytes gives its caller. *)
Record fresh (n p : Z) (s s' : kstate) : Prop := Fresh {
  fr_pos : 0 < p ∧ p + n < 2 ^ 64;
  fr_owned : ∀ x, range p n x → owned s' x;
  fr_new : ∀ x, range p n x → ¬ stable s x;
  fr_keeps : keeps nowhere s s';
  fr_log : logLevel s' = logLevel s ∧ console_more s s';
  fr_place : p = free_list s + 16 ∧ free_list s' = p + n;
  fr_header : (∀ x, range (p - 16) 16 x → stable s' x ∧ ¬ stable s x) ∧ vload 8 s' (p - 16) = n
}.

Lemma kalloc_fresh b n s :
  budget b s → 0 ≤ n → n + 16 ≤ b →
  ∃ p s', kalloc n s = Done p s' ∧ budget (b - n - 16) s' ∧ fresh n p s s'.
Proof.
  intros Hb Hn Hle.
  destruct (alloc b n s Hb Hn Hle) as (p & s' & E & Hb' & P1 & P2 & Hf & Hk & Ho & E1 & E2 & E3 & R1 & PL1 & PL2 & HD & HS).
  exists p, s'. split; [done|]. split; [done|]. split; try done.
  - intros x Hx. replace x with (p + (x - p)) by lia. apply Hf. unfold range in Hx. lia.
  - intros x Hx. replace x with (p + (x - p)) by lia. apply Hf. unfold range in Hx. lia.
  - split; try done.
    + intros x Hx. by apply Hk.
    + intros x Hx _. by apply Hk.
  - split; [|done]. intros x Hx. replace x with (p - 16 + (x - (p - 16))) by lia. apply HD. unfold range in Hx. lia.
Qed.

Lemma wp_kalloc b n s (Q : Z → kstate → Prop) :
  budget b s → 0 ≤ n → n + 16 ≤ b →
  (∀ p s', budget (b - n - 16) s' → fresh n p s s' → Q p s') → wp (kalloc n) Q s.
Proof.
  intros Hb Hn Hle HQ. destruct (kalloc_fresh b n s Hb Hn Hle) as (p & s' & E & Hb' & F).
  eapply wp_done; [exact E|by apply HQ].
Qed.

Lemma wp_new_zeroed b n s (Q : Z → kstate → Prop) :
  budget b s → Z.of_nat n + 16 ≤ b →
  (∀ p s', budget (b - Z.of_nat n - 16) s' → fresh (Z.of_nat n) p s s' →
     (∀ x, range p (Z.of_nat n) x → vbyte s' x = 0) → Q p s') → wp (new_zeroed n) Q s.
Proof.
  intros Hb Hle HQ. unfold new_zeroed, operator_new. apply wp_bind.
  apply (wp_kalloc b); [done|lia|done|]. intros p s1 Hb1 F1. apply wp_bind.
  apply (wp_storev n (b - Z.of_nat n - 16)); [done|lia|apply F1|].
  intros s2 St. apply wp_ret. apply HQ; [apply St| |].
  - destruct F1 as [P1 O1 N1 K1 L1 PL1 [HD HS]]. pose proof (st_keeps _ _ _ _ _ _ St) as K2. split; try done.
    + intros x Hx. apply (kp_owned _ _ _ (st_keeps _ _ _ _ _ _ St)). auto.
    + apply (keeps_comp _ _ _ s s1 s2 K1 (st_keeps _ _ _ _ _ _ St)).
      intros x Hx [[]|Hr]. by apply (N1 x Hr).
    + destruct (only_mem_fields _ _ (st_only _ _ _ _ _ _ St)) as (_ & _ & _ & _ & _ & _ & -> & _ & _).
      split; [apply L1|]. etrans; [apply L1|]. apply only_mem_more, St.
    + by destruct (only_mem_fields _ _ (st_only _ _ _ _ _ _ St)) as (_ & _ & _ & _ & -> & _).
    + split; [intros x Hx; split; [apply (kp_stable _ _ _ K2)|]; by apply HD|].
      rewrite (vload_keeps 8 _ s1 s2 _ K2); [done|]. intros x Hx. change (Z.of_nat 8) with 8 in Hx.
      split; [apply HD|]; unfold range in *; lia.
  - assert (∀ k s va, vload k s va = 0 → ∀ x, range va (Z.of_nat k) x → vbyte s x = 0) as Hz.
    { intros k s0. induction k as [|k IH]; intros va Hv x Hx; [unfold range in Hx; lia|].
      cbn [vload] in Hv. pose proof (vload_range k s0 (va + 1)).
      assert (0 ≤ vbyte s0 va) by (unfold vbyte; destruct (resolve s0 va); [apply rd8_range|lia]).
      destruct (decide (x = va)) as [->|Hne]; [lia|]. apply (IH (va + 1)); [lia|].
      unfold range in *. lia. }
    apply Hz. rewrite (st_value _ _ _ _ _ _ St). by apply Z.mod_0_l, Z.pow_nonzero; lia.
Qed.

(** ** Strings *)

(** The NUL-terminated string [l] lies at [p], in stable memory. *)
Record cstr (s : kstate) (p : Z) (l : list Z) : Prop := Cstr {
  cs_stable : ∀ x, range p (Z.of_nat (length l) + 1) x → stable s x;
  cs_chars : ∀ i c, l !! i = Some c → vbyte s (p + Z.of_nat i) = c ∧ c ≠ 0;
  cs_nul : vbyte s (p + Z.of_nat (length l)) = 0
}.

Lemma cstr_keeps P s s' p l :
  keeps P s s' → cstr s p l → (∀ x, range p (Z.of_nat (length l) + 1) x → ¬ P x) → cstr s' p l.
Proof.
  intros K [H1 H2 H3] HP. split.
  - intros x Hx. by apply (kp_stable _ _ _ K), H1.
  - intros i c Hi. pose proof (lookup_lt_Some _ _ _ Hi).
    assert (range p (Z.of_nat (length l) + 1) (p + Z.of_nat i)) as Hr by (unfold range; lia).
    rewrite (kp_byte _ _ _ K) by auto. by apply H2.
  - assert (range p (Z.of_nat (length l) + 1) (p + Z.of_nat (length l))) as Hr by (unfold range; lia).
    rewrite (kp_byte _ _ _ K) by auto. done.
Qed.

Lemma cstr_load s p l i :
  budget 0 s → cstr s p l → 0 ≤ i ≤ Z.of_nat (length l) →
  load8 (p ⊞ i) s = Done (vbyte s (p + i)) s.
Proof.
  intros Hb C Hi.
  assert (stable s p) as Hp by (apply (cs_stable _ _ _ C); unfold range; lia).
  assert (stable s (p + i)) as Hpi by (apply (cs_stable _ _ _ C); unfold range; lia).
  rewrite (stable_add s p i) by (done || lia). by apply stable_load.
Qed.

Lemma cstr_length s p l : budget 0 s → cstr s p l → Z.of_nat (length l) < 2 ^ 64 - 1.
Proof.
  intros Hb C. assert (stable s p) as Hp by (apply (cs_stable _ _ _ C); unfold range; lia).
  assert (stable s (p + Z.of_nat (length l))) as Hpl by (apply (cs_stable _ _ _ C); unfold range; lia).
  pose proof (stable_range s _ Hb Hp). pose proof (stable_range s _ Hb Hpl). lia.
Qed.

Lemma wp_strlen s p l (Q : Z → kstate → Prop) :
  budget 0 s → cstr s p l → Q (Z.of_nat (length l)) s → wp (strlen_loop p) Q s.
Proof.
  intros Hb C HQ. pose proof (cstr_length s p l Hb C) as Hlen. unfold strlen_loop.
  apply (wp_loop _ (λ k s', s' = s ∧ 0 ≤ k ≤ Z.of_nat (length l))
    (λ k _, Z.of_nat (length l) - k)).
  - intros k s1 [-> Hk]. split; [lia|].
    eapply wp_bind_done; [by apply (cstr_load s p l)|]. apply wp_ret.
    destruct (decide (k = Z.of_nat (length l))) as [->|Hne].
    + by rewrite (cs_nul _ _ _ C).
    + destruct (lookup_lt_is_Some_2 l (Z.to_nat k)) as [c Hc]; [lia|].
      destruct (cs_chars _ _ _ C _ _ Hc) as [Hv Hz]. rewrite Z2Nat.id in Hv by lia. rewrite Hv.
      rewrite (proj2 (Z.eqb_neq _ _) Hz). change (2 ^ 64) with 0x10000000000000000 in Hlen.
      rewrite u64_small by lia. split; [|lia]. split; [done|lia].
  - split; [done|lia].
  - lia.
Qed.

(** A string from the value of its bytes. *)
Lemma vbyte_range s x : 0 ≤ vbyte s x < 256.
Proof. unfold vbyte. destruct (resolve s x); [apply rd8_range|lia]. Qed.

Lemma vload_byte n s p i :
  0 ≤ i < Z.of_nat n → vbyte s (p + i) = (vload n s p / 256 ^ i) mod 256.
Proof.
  revert p i. induction n as [|n IH]; intros p i Hi; [lia|]. cbn [vload].
  pose proof (vbyte_range s p) as Hb. destruct (decide (i = 0)) as [->|Hne].
  - rewrite Z.add_0_r, Z.pow_0_r, Z.div_1_r, Z.mul_comm, Z_mod_plus_full. symmetry. by apply Z.mod_small.
  - replace (p + i) with (p + 1 + (i - 1)) by lia. rewrite IH by lia. f_equal.
    replace (256 ^ i) with (256 * 256 ^ (i - 1)) by (rewrite <- Z.pow_succ_r by lia; f_equal; lia).
    rewrite <- Z.div_div by (try apply Z.pow_pos_nonneg; lia). f_equal. zlia.
Qed.

Lemma cstr_of_vload s p l :
  (∀ x, range p (Z.of_nat (length l) + 1) x → stable s x) →
  (∀ i c, (l ++ [0]) !! i = Some c →
     (vload (S (length l)) s p / 256 ^ Z.of_nat i) mod 256 = c) →
  Forall (λ c, c ≠ 0) l → cstr s p l.
Proof.
  intros Hs Hv Hl. split; [done| |].
  - intros i c Hi. pose proof (lookup_lt_Some _ _ _ Hi). split.
    + rewrite (vload_byte (S (length l))) by lia. apply Hv. by rewrite lookup_app_l.
    + by eapply Forall_lookup_1 in Hl.
  - rewrite (vload_byte (S (length l))) by lia. apply Hv. rewrite lookup_app_r, Nat.sub_diag; done.
Qed.

(** A message with one string argument. *)
Lemma cstr_cstring s p l : budget 0 s → cstr s p l → cstring s (u64 p) l.
Proof.
  intros Hb. revert p. induction l as [|c l IH]; intros p C; pose proof C as [H1 H2 H3].
  - assert (stable s p) as Hp by (apply H1; unfold range; cbn; lia).
    pose proof (stable_range s p Hb Hp) as Hr. cbn [cstring].
    rewrite u64_small by (simpl in *; lia). rewrite (stable_load s p Hb Hp).
    rewrite Z.add_0_r in H3. by rewrite H3.
  - assert (stable s p) as Hp by (apply H1; unfold range; lia).
    pose proof (stable_range s p Hb Hp) as Hr. destruct (H2 0%nat c eq_refl) as [Hc Hc0].
    rewrite Z.add_0_r in Hc. cbn [cstring]. rewrite u64_small by (simpl in *; lia).
    split; [done|]. split; [by rewrite (stable_load s p Hb Hp), Hc|]. rewrite (stable_succ s p Hb Hp).
    assert (stable s (p + 1)) as Hp1 by (apply H1; unfold range; cbn [length]; lia).
    rewrite <- (u64_small (p + 1)) by (pose proof (stable_range s _ Hb Hp1); simpl in *; lia).
    apply IH. split.
    + intros x Hx. apply H1. unfold range in *. cbn [length]. lia.
    + intros i d Hi. destruct (H2 (S i) d Hi) as [Hd ?]. split; [|done]. rewrite <- Hd. f_equal. lia.
    + rewrite <- H3. f_equal. cbn [length]. lia.
Qed.

Lemma render_plain str post : c_percent ∉ post → is_Some (render str post []).
Proof.
  induction post as [|c post IH]; intros H; [by eexists|]. apply not_elem_of_cons in H as [Hc H].
  cbn [render]. rewrite (proj2 (Z.eqb_neq c c_percent)) by done. destruct (IH H) as [r ->]. by eexists.
Qed.

Lemma render_str str pre post p l :
  c_percent ∉ pre → c_percent ∉ post → str p = Some l →
  is_Some (render str (pre ++ c_percent :: c_s :: post) [p]).
Proof.
  intros H1 H2 Hs. induction pre as [|c pre IH].
  - cbn [app render]. rewrite Z.eqb_refl. cbn -[render]. rewrite Hs. cbn -[render].
    destruct (render_plain str post H2) as [r ->]. by eexists.
  - apply not_elem_of_cons in H1 as [Hc H1]. cbn [app render].
    rewrite (proj2 (Z.eqb_neq c c_percent)) by done. destruct (IH H1) as [r ->]. by eexists.
Qed.

Definition no_percent (l : list Z) : bool := forallb (λ c, negb (c =? c_percent)) l.
Lemma no_percent_spec l : no_percent l = true → c_percent ∉ l.
Proof. intros H Hin. unfold no_percent in H. rewrite forallb_forall in H. apply list_elem_of_In, H in Hin. done. Qed.

Lemma wp_log_str level pre post fmt p l (Q : () → kstate → Prop) s :
  budget 0 s → cstr s p l → fmt = pre ++ c_percent :: c_s :: post →
  no_percent pre && no_percent post = true →
  (∀ out, Q () (emit out s)) → wp (log level fmt [p]) Q s.
Proof.
  intros Hb C -> [H1 H2]%andb_prop HQ. set (str q := if decide (q = p) then Some l else None).
  assert (strings_at s str) as Hs.
  { intros q k. unfold str. case_decide as Hq; [|done]. intros [= <-]. subst q.
    split; [by apply cstr_cstring|by apply (cstr_length s p)]. }
  assert (str p = Some l) as Hp by (unfold str; by rewrite decide_True).
  destruct (render_str str pre post p l) as [out Ho]; [by apply no_percent_spec..|done|].
  destruct (log_text str (logLevel s) level (pre ++ c_percent :: c_s :: post) [p]) as [text|] eqn:E.
  - eapply wp_done; [by apply (log_done str level _ [p] text)|apply HQ].
  - exfalso. unfold log_text in E. rewrite Ho in E. by destruct (_ =? _) in E.
Qed.

(** ** memcpy into owned memory *)

Lemma wp_memcpy b s dest src n (Q : Z → kstate → Prop) :
  budget b s → 0 ≤ b → 0 ≤ n < 2 ^ 64 →
  (∀ x, range dest n x → owned s x) → (∀ x, range src n x → stable s x ∧ ¬ range dest n x) →
  (∀ s', budget b s' → keeps (range dest n) s s' → (∀ x, stable s' x ↔ stable s x) →
     only_mem s s' → (∀ i, 0 ≤ i < n → vbyte s' (dest + i) = vbyte s (src + i)) → Q dest s') →
  wp (memcpy dest src n) Q s.
Proof.
  intros Hb Hb0 Hn Hd Hs HQ. unfold memcpy. apply wp_bind.
  apply (wp_loop _ (λ k s', 0 ≤ k ≤ n ∧ budget b s' ∧ keeps (range dest n) s s' ∧
      (∀ x, stable s' x ↔ stable s x) ∧ only_mem s s' ∧
      ∀ i, 0 ≤ i < k → vbyte s' (dest + i) = vbyte s (src + i)) (λ k _, n - k)).
  - intros k s1 (Hk & Hb1 & K1 & S1 & M1 & V1). split; [lia|].
    destruct (Z.ltb_spec k n) as [Hlt|Hge].
    + assert (range src n (src + k) ∧ range src n src) as [R1 R2] by (unfold range; lia).
      assert (range dest n (dest + k) ∧ range dest n dest) as [R3 R4] by (unfold range; lia).
      pose proof (budget_0 b s1 Hb1 Hb0) as Hz1.
      destruct (Hs _ R1) as [Ss1 Sn1]. destruct (Hs _ R2) as [Ss2 _].
      rewrite (stable_add s1 src k) by (done || (by apply S1) || lia).
      eapply wp_bind_done; [apply stable_load; [done|by apply S1]|].
      rewrite (kp_byte _ _ _ K1) by done.
      rewrite (stable_add s1 dest k)
        by (done || lia || (apply owned_stable, (kp_owned _ _ _ K1); auto)).
      destruct (store8_owned b s1 (dest + k) (vbyte s (src + k)) Hb1 Hb0)
        as (s2 & E2 & Hb2 & V2 & K2 & S2 & M2); [apply (kp_owned _ _ _ K1); auto|].
      eapply wp_bind_done; [exact E2|]. apply wp_ret.
      change (2 ^ 64) with 0x10000000000000000 in Hn. rewrite u64_small by lia.
      split; [|lia]. split_and!; [lia|lia|done|..].
      * apply (keeps_comp _ _ _ s s1 s2 K1 K2). by intros x _ [Hx| ->].
      * intros x. by rewrite S2.
      * by etrans.
      * intros i Hi. destruct (decide (i = k)) as [->|Hne].
        { rewrite V2. apply u8_small. unfold vbyte. destruct (resolve s _); [apply rd8_range|lia]. }
        rewrite (kp_byte _ _ _ K2); [apply V1; lia| |lia].
        apply S1, owned_stable, Hd. unfold range. lia.
    + apply wp_ret, wp_ret. assert (k = n) as -> by lia. by apply HQ.
  - split_and!; try done; try lia.
  - lia.
Qed.

(** ** Objects *)

(** Where a pointer of [n] bytes points to. *)
Definition owned_range (s : kstate) (p n : Z) : Prop := ∀ x, range p n x → owned s x.

Lemma owned_range_keeps P s s' p n : keeps P s s' → owned_range s p n → owned_range s' p n.
Proof. intros K H x Hx. by apply (kp_owned _ _ _ K), H. Qed.

Lemma owned_range_add s p n i :
  budget 0 s → owned_range s p n → 0 ≤ i → i < n → p ⊞ i = p + i.
Proof.
  intros Hb H H0 Hi. apply (stable_add s p i); try done; apply owned_stable, H; unfold range; lia.
Qed.

(** A read inside a stable object. *)
Lemma wp_load_in k s p n i (Q : Z → kstate → Prop) :
  budget 0 s → (∀ x, range p n x → stable s x) → 0 ≤ i → i < n → i + Z.of_nat k ≤ n →
  Q (vload k s (p + i)) s → wp (loadv k (p ⊞ i)) Q s.
Proof.
  intros Hb H H0 Hi Hk HQ.
  rewrite (stable_add s p i) by (done || (apply H; unfold range; lia) || lia).
  eapply wp_done; [|exact HQ]. apply loadv_stable; [done|]. intros x Hx. apply H. unfold range in *. lia.
Qed.

Lemma wp_load64_field b s p n i (Q : Z → kstate → Prop) :
  budget b s → 0 ≤ b → owned_range s p n → 0 ≤ i → i + 8 ≤ n →
  Q (vload 8 s (p + i)) s → wp (load64 (p ⊞ i)) Q s.
Proof.
  intros Hb Hb0 H H0 Hi HQ. pose proof (budget_0 b s Hb Hb0) as Hz.
  rewrite (owned_range_add s p n i) by (done || lia). apply wp_load64; [done| |done].
  intros x Hx. apply owned_stable, H. unfold range in *. lia.
Qed.

Lemma wp_load_field k b s p n i (Q : Z → kstate → Prop) :
  budget b s → 0 ≤ b → owned_range s p n → 0 ≤ i → i < n → i + Z.of_nat k ≤ n →
  Q (vload k s (p + i)) s → wp (loadv k (p ⊞ i)) Q s.
Proof.
  intros Hb Hb0 H H0 Hi Hin HQ. pose proof (budget_0 b s Hb Hb0) as Hz.
  rewrite (owned_range_add s p n i) by (done || lia). eapply wp_done; [|exact HQ].
  apply loadv_stable; [done|]. intros x Hx. apply owned_stable, H. unfold range in *. lia.
Qed.

(** A field of [k] bytes is written. *)
Lemma wp_store_field k b s p n i v (Q : () → kstate → Prop) :
  budget b s → 0 ≤ b → owned_range s p n → 0 ≤ i → i + Z.of_nat k ≤ n → i < n →
  (∀ s', stored b k (p + i) v s s' → owned_range s' p n → Q () s') →
  wp (storev k (p ⊞ i) v) Q s.
Proof.
  intros Hb Hb0 H H0 Hi Hin HQ. pose proof (budget_0 b s Hb Hb0) as Hz.
  rewrite (owned_range_add s p n i) by (done || lia).
  apply (wp_storev k b); [done|done| |].
  - intros x Hx. apply H. unfold range in *. lia.
  - intros s' St. apply HQ; [done|]. apply (owned_range_keeps _ s _ _ _ (st_keeps _ _ _ _ _ _ St) H).
Qed.

(** What is newly allocated is apart from what was there. *)
Lemma range_new s p n q m x :
  (∀ y, range p n y → ¬ stable s y) → owned_range s q m → range q m x → ¬ range p n x.
Proof. intros Hnew Ho Hx Hp. by apply (Hnew x Hp), owned_stable, Ho. Qed.

Definition disjoint_range (p n q m : Z) : Prop := ∀ x, range p n x → ¬ range q m x.

(** Writing a new block leaves the older memory alone. *)
Lemma keeps_fresh P n p s s1 s2 :
  fresh n p s s1 → keeps P s1 s2 → (∀ x, P x → range p n x) → keeps nowhere s s2.
Proof.
  intros F K HP. apply (keeps_comp _ _ _ s s1 s2 (fr_keeps _ _ _ _ F) K).
  intros x Hx [[]|Hp]. by apply (fr_new _ _ _ _ F x (HP x Hp)).
Qed.

Lemma vload_zero k s va : (∀ x, range va (Z.of_nat k) x → vbyte s x = 0) → vload k s va = 0.
Proof.
  revert va. induction k as [|k IH]; intros va H; [done|]. cbn [vload].
  rewrite (H va), IH; [done| |by unfold range; lia].
  intros x Hx. apply H. unfold range in *. lia.
Qed.

(** A store leaves the other fields of the object alone. *)
Lemma field_kept b n k i v s s' p m j :
  stored b k (p + i) v s s' → owned_range s p n → 0 ≤ j → j + Z.of_nat m ≤ n →
  j + Z.of_nat m ≤ i ∨ i + Z.of_nat k ≤ j → vload m s' (p + j) = vload m s (p + j).
Proof.
  intros St Ho Hj Hm Hsep. apply (vload_keeps m _ s s' _ (st_keeps _ _ _ _ _ _ St)).
  intros x Hx. split.
  - apply owned_stable, Ho. unfold range in *. lia.
  - unfold range in *. lia.
Qed.

(** The bytes [l] lie at [p] in stable memory. *)
Record bytes_at (s : kstate) (p : Z) (l : list Z) : Prop := BytesAt {
  by_stable : ∀ x, range p (Z.of_nat (length l)) x → stable s x;
  by_bytes : ∀ i c, l !! i = Some c → vbyte s (p + Z.of_nat i) = c
}.

Lemma bytes_at_keeps P s s' p l :
  keeps P s s' → (∀ x, range p (Z.of_nat (length l)) x → ¬ P x) → bytes_at s p l → bytes_at s' p l.
Proof.
  intros K HP [H1 H2]. split.
  - intros x Hx. by apply (kp_stable _ _ _ K), H1.
  - intros i c Hi. pose proof (lookup_lt_Some _ _ _ Hi).
    assert (range p (Z.of_nat (length l)) (p + Z.of_nat i)) as Hr by (unfold range; lia).
    rewrite (kp_byte _ _ _ K) by auto. by apply H2.
Qed.

(** Characters with a NUL behind them are a string. *)
Lemma line_cstr s p l : bytes_at s p (l ++ [0]) → Forall (λ c, c ≠ 0) l → cstr s p l.
Proof.
  intros [H1 H2] HF. rewrite length_app in H1. cbn in H1. split.
  - intros x Hx. apply H1. unfold range in *. lia.
  - intros i c Hi. rewrite Forall_lookup in HF. split; [|by apply (HF i c)]. apply H2. by apply lookup_app_l_Some.
  - apply (H2 (length l)). by rewrite lookup_app_r, Nat.sub_diag by lia.
Qed.

(** A buffer that is filled from its start: the bytes [l] are there. *)
Record reading (b p size : Z) (l : list Z) (s0 s : kstate) : Prop := Reading {
  rg_budget : budget b s;
  rg_owned : owned_range s p size;
  rg_keeps : keeps (range p (Z.of_nat (length l))) s0 s;
  rg_bytes : bytes_at s p l
}.

Lemma bytes_at_snoc s s' p l c :
  keeps (λ x, x = p + Z.of_nat (length l)) s s' → bytes_at s p l →
  stable s' (p + Z.of_nat (length l)) → vbyte s' (p + Z.of_nat (length l)) = c → bytes_at s' p (l ++ [c]).
Proof.
  intros K L Hs Hv. assert (bytes_at s' p l) as [H1 H2].
  { apply (bytes_at_keeps _ _ _ _ _ K); [unfold range; lia|done]. }
  split.
  - intros x Hx. rewrite length_app in Hx. cbn in Hx.
    destruct (decide (x = p + Z.of_nat (length l))) as [->|]; [done|]. apply H1. unfold range in *. lia.
  - intros i d [Hi|[Hi Hd]]%lookup_app_Some; [by apply H2|].
    destruct (i - length l)%nat eqn:E; [|done]. injection Hd as <-. by replace i with (length l) by lia.
Qed.

(** A character goes to the end of the characters stored so far. *)
Lemma store_next b s0 s p size l c :
  reading b p size l s0 s → 0 ≤ b → Z.of_nat (length l) < size →
  ∃ s', store8 (p ⊞ Z.of_nat (length l)) c s = Done () s' ∧ reading b p size (l ++ [u8 c]) s0 s' ∧
    console_in s' = console_in s ∧ console_out s' = console_out s.
Proof.
  intros [Hb O K L] Hb0 Hl.
  rewrite (owned_range_add s p size (Z.of_nat (length l))) by (try apply (budget_0 b); done || lia).
  destruct (store8_owned b s (p + Z.of_nat (length l)) c Hb Hb0) as (s' & E & Hb' & V & K' & S' & M);
    [apply O; unfold range; lia|].
  pose proof (owned_range_keeps _ _ _ _ _ K' O) as O'.
  exists s'. split; [done|]. split; [split; [done|done| |]|].
  - apply (keeps_comp _ _ _ _ _ _ K K'). intros x _. rewrite length_app. cbn. unfold range. lia.
  - apply (bytes_at_snoc s); [done|done|apply owned_stable, O'; unfold range; lia|done].
  - unfold store8 in E. destruct (resolve s _); [|done]. by injection E as <-.
Qed.

(** A new block with given characters. *)
Definition le_value (l : list Z) : Z := fold_right (λ c r, c + 256 * r) 0 l.

Lemma le_value_byte l i c :
  Forall (λ c, 0 ≤ c < 256) l → l !! i = Some c → (le_value l / 256 ^ Z.of_nat i) mod 256 = c.
Proof.
  intros Hl. revert i. induction Hl as [|d k Hd Hk IH]; intros [|i] Hi; [done|done| |]; cbn [le_value fold_right];
    fold (le_value k).
  - injection Hi as ->. rewrite Z.pow_0_r, Z.div_1_r, Z.mul_comm, Z_mod_plus_full. by apply Z.mod_small.
  - rewrite Nat2Z.inj_succ, Z.pow_succ_r by lia.
    rewrite <- Z.div_div by (try apply Z.pow_pos_nonneg; lia).
    replace ((d + 256 * le_value k) / 256) with (le_value k) by zlia. by apply IH.
Qed.

Lemma le_value_range l : Forall (λ c, 0 ≤ c < 256) l → 0 ≤ le_value l < 256 ^ Z.of_nat (length l).
Proof.
  induction 1 as [|d k Hd Hk IH]; [done|]. cbn [le_value fold_right length]. fold (le_value k).
  rewrite Nat2Z.inj_succ, Z.pow_succ_r by lia. lia.
Qed.

Lemma make_cstr b s l :
  budget b s → Z.of_nat (length l) + 17 ≤ b → Forall (λ c, 0 < c < 256) l →
  ∃ p s', budget (b - Z.of_nat (length l) - 17) s' ∧ cstr s' p l ∧ keeps nowhere s s' ∧
    owned_range s' p (Z.of_nat (length l) + 1) ∧
    ∀ x, range p (Z.of_nat (length l) + 1) x → ¬ stable s x.
Proof.
  intros Hb Hle Hl. set (n := Z.of_nat (length l)) in *.
  destruct (kalloc_fresh b (n + 1) s Hb) as (p & s1 & _ & Hb1 & F1); [lia|lia|].
  replace (b - (n + 1) - 16) with (b - n - 17) in Hb1 by lia.
  assert (Forall (λ c, 0 ≤ c < 256) (l ++ [0])) as Hl'.
  { apply Forall_app. split; [|by repeat constructor]. eapply Forall_impl; [exact Hl|]. cbn. lia. }
  assert (Z.of_nat (S (length l)) = n + 1) as En by lia.
  destruct (storev_owned (S (length l)) (b - n - 17) s1 p (le_value (l ++ [0])) Hb1) as (s2 & _ & St); [lia| |].
  { rewrite En. exact (fr_owned _ _ _ _ F1). }
  pose proof (st_keeps _ _ _ _ _ _ St) as K2. rewrite En in K2.
  assert (owned_range s2 p (n + 1)) as Ho.
  { apply (owned_range_keeps _ _ _ _ _ K2). exact (fr_owned _ _ _ _ F1). }
  exists p, s2. split_and!; [apply St| | |done|exact (fr_new _ _ _ _ F1)].
  - apply cstr_of_vload.
    + intros x Hx. by apply owned_stable, Ho.
    + intros i c Hi. rewrite (st_value _ _ _ _ _ _ St). rewrite (Z.mod_small (le_value _)); [by apply le_value_byte|].
      pose proof (le_value_range _ Hl') as Hr. rewrite length_app in Hr. cbn in Hr.
      by replace (length l + 1)%nat with (S (length l)) in Hr by lia.
    + eapply Forall_impl; [exact Hl|]. cbn. lia.
  - apply (keeps_fresh (range p (n + 1)) (n + 1) p s s1); done.
Qed.
End client.
