(* ===== verification/Dma.v ===== *)
(** Memory that devices share with the kernel: what holds of the physical place of
    allocated blocks, and which changes behind the kernel's back do not disturb the
    heap.  The drivers are proved against [DeviceMemory]; the kernel heap implements
    it. *)

From S2P Require Import Prelude Monad Memory Sv48 Machine Layout PhysAlloc Paging AddressSpace Heap KAlloc Allocator Client.

(** The registers of the eight VirtIO devices of the machine, in physical memory and
    in the window. *)
Definition device_addr (a : Z) : Prop := 0x10001000 ≤ a < 0x10009000.
Definition device_va (x : Z) : Prop := device_addr (x - VIRTUAL_OFFSET).

(** What a device may change: its registers and what is in allocated blocks. *)
Definition dma_addr `{Allocator} (s : kstate) (a : Z) : Prop :=
  device_addr a ∨ ∃ x, owned s x ∧ resolve s x = Some a.

Class DeviceMemory (A : Allocator) : Prop := {
  device_apart s x : budget 0 s → device_va x → stable s x ∧ ¬ owned s x;
  (** Stable addresses have different places, and the kernel's walk finds them. *)
  stable_inj s x y pa : budget 0 s → stable s x → stable s y →
    resolve s x = Some pa → resolve s y = Some pa → x = y;
  owned_translated s x : budget 0 s → owned s x → ∃ pa, 0 ≤ pa < 2 ^ 64 ∧ resolve s x = Some pa ∧
    get_physical_address_of_virtual_address x s = Done pa s;
  dma_budget b s m : budget b s → 0 ≤ b → agree (λ a, ¬ dma_addr s a) (pmem s) m →
    budget b (set_pmem m s);
  dma_stable b s m x : budget b s → 0 ≤ b → agree (λ a, ¬ dma_addr s a) (pmem s) m →
    (stable (set_pmem m s) x ↔ stable s x) ∧ (owned (set_pmem m s) x ↔ owned s x) ∧
    resolve (set_pmem m s) x = resolve s x
}.

(** [n] bytes from [p] on lie together in physical memory, from [pa] on. *)
Definition contiguous (s : kstate) (p n pa : Z) : Prop := ∀ i, 0 ≤ i < n → resolve s (p + i) = Some (pa + i).

Lemma contiguous_start s p n pa : contiguous s p n pa → 0 < n → resolve s p = Some pa.
Proof. intros C Hn. rewrite <- (Z.add_0_r p), C by lia. by rewrite Z.add_0_r. Qed.

(** ** The kernel heap *)

Section heap.
Context (N : nat) (root : Z).
Let H := kernel_heap N root.

Section at_state.
Context (b : Z) (s : kstate) (B : heap_budget N root b s).

Lemma device_static x : device_va x → static s x.
Proof using B. destruct B as (_ & _ & _ & Hf). unfold device_va, device_addr, static, RAM_ORIGIN in *. lia. Qed.

Lemma low_loose a : 0 ≤ a < flags_base s → loose_addr N root s a.
Proof using B.
  intros Ha. destruct B as (OK & _). split; [by apply (static_outside N root)|].
  pose proof (fo_bounds _ _ (pt_frames _ _ _ (hc_pt _ _ _ _ (ho_core _ _ _ OK)))) as (B1 & B2 & B3).
  intros i Hi _ Hp. unfold in_page, frame_at, FRAME_SIZE, PAGE_SIZE in Hp. lia.
Qed.

Lemma device_loose a : device_addr a → loose_addr N root s a.
Proof using B.
  intros Ha. apply low_loose. destruct B as (_ & _ & _ & Hf). unfold device_addr, RAM_ORIGIN in *. lia.
Qed.

Lemma dma_loose a : dma_addr (H := H) s a → loose_addr N root s a.
Proof using B.
  intros [Ha|(x & Hx & E)]; [by apply device_loose|]. destruct B as (OK & _).
  destruct (hc_map _ _ _ _ (ho_core _ _ _ OK) x) as (pa & E' & Hd); [by apply (owned_in_heap N root)|].
  apply data_loose. congruence.
Qed.

Context (m : mem) (Hm : agree (λ a, ¬ dma_addr (H := H) s a) (pmem s) m).

Lemma dma_agree : agree (λ a, ¬ loose_addr N root s a) (pmem s) m.
Proof using B Hm. eapply agree_mono; [|exact Hm]. intros a Hn Hd. by apply Hn, dma_loose. Qed.

Lemma dma_resolve x : resolve (set_pmem m s) x = resolve s x.
Proof using B Hm.
  apply (loose_resolve N root s m dma_agree). destruct B as (OK & _).
  by apply (pt_satp _ _ _ (hc_pt _ _ _ _ (ho_core _ _ _ OK))).
Qed.

Lemma static_heap_apart x y pa :
  static s x → in_heap (virtual_alloc_end s) y → resolve s x = Some pa → resolve s y = Some pa → False.
Proof using B.
  intros Hx Hy E1 E2. destruct B as (OK & _). rewrite (static_resolve N root s OK x Hx) in E1.
  injection E1 as <-. destruct (static_outside N root s OK (x - VIRTUAL_OFFSET)) as [_ Hno].
  - unfold static in Hx. lia.
  - apply Hno. by exists y.
Qed.

Lemma dma_status i : 0 ≤ i < 8 → vbyte (set_pmem m s) (free_list s + i) = vbyte s (free_list s + i).
Proof using B Hm.
  intros Hi. destruct B as (OK & _). pose proof (ho_core _ _ _ OK) as HC.
  assert (in_heap (virtual_alloc_end s) (free_list s + i)) as Hin.
  { pose proof (ho_lo _ _ _ OK). pose proof (ho_hi _ _ _ OK). unfold in_heap. lia. }
  unfold vbyte. rewrite dma_resolve. destruct (hc_map _ _ _ _ HC _ Hin) as (pa & E & _). rewrite E.
  apply Hm. intros [Hd|(x & Hx & Ex)].
  - apply (static_heap_apart (pa + VIRTUAL_OFFSET) (free_list s + i) pa); [|done| |done].
    + apply device_static. unfold device_va. by replace (pa + VIRTUAL_OFFSET - VIRTUAL_OFFSET) with pa by lia.
    + rewrite resolve_window by (unfold device_addr, VIRTUAL_OFFSET, WINDOW_SIZE in *; lia). f_equal. lia.
  - assert (x = free_list s + i) as -> by (apply (hc_inj _ _ _ _ HC x _ pa); try done; by apply (owned_in_heap N root)).
    unfold owned, H, heap_owned, in_heap in Hx. cbn in Hx. unfold heap_owned, in_heap in Hx. lia.
Qed.

Lemma dma_heap_ok : heap_ok N root (set_pmem m s).
Proof using B Hm.
  destruct B as (OK & _). split.
  - apply loose_core; [apply OK|exact dma_agree].
  - apply OK.
  - apply OK.
  - transitivity (vload 8 s (free_list s)); [|apply OK]. apply vload_ext. exact dma_status.
Qed.

Lemma dma_heap_budget : heap_budget N root b (set_pmem m s).
Proof using B Hm.
  split; [exact dma_heap_ok|]. destruct B as (_ & Hb & Hn & Hf). split; [done|].
  rewrite (loose_nfree N root s m dma_agree). done.
Qed.
End at_state.

(** The kernel's walk finds the place of every mapped byte of data. *)
Lemma core_translated hi s x pa :
  heap_core N root hi s → mappable x → resolve s x = Some pa → data_addr N root s pa →
  0 ≤ pa < 2 ^ 64 ∧ get_physical_address_of_virtual_address x s = Done pa s.
Proof.
  intros HC [Hr Hc Hw] E (_ & t & Ht & Hp). pose proof (hc_pt _ _ _ _ HC) as PT.
  assert (resolve s x = sv48 (pmem s) root x) as Er.
  { unfold resolve. rewrite u64_small by (simpl in Hr; lia). by rewrite Hw, (pt_satp _ _ _ PT). }
  assert (no_superpage (pmem s) root x) as Hno by by apply (ks_pages _ _ (hc_space _ _ _ _ HC)).
  assert (pages_ok (pmem s) root x) as Hpg.
  { rewrite E in Er. unfold sv48 in Er. rewrite Hc in Er.
    destruct (pt_walk (pmem s) root (vpns x)) as [|e l] eqn:Ew; [done|].
    assert (l = 0%nat) as -> by (by apply (Hno e)).
    by apply (walk_leaf_pages N root s x e PT Ew). }
  split.
  - pose proof (fo_bounds _ _ (pt_frames _ _ _ PT)) as (B1 & B2 & B3).
    destruct Ht as (i & Hi & -> & _). unfold in_page, frame_at, FRAME_SIZE, PAGE_SIZE in Hp. simpl. lia.
  - destruct (wp_inv _ _ _ (translate_spec N root s x PT Hno Hpg Hc)) as (r & s' & E1 & out & -> & -> & Ho).
    rewrite E in Er. apply explained_mapped in Ho as ->; [|by rewrite <- Er]. by rewrite E1, <- Er, emit_nil.
Qed.

Lemma heap_mappable s x : heap_ok N root s → heap_owned s x → mappable x.
Proof.
  intros OK Hx. pose proof (owned_in_heap N root s OK x Hx) as Hin.
  pose proof (ho_range N root s OK) as (R1 & R2 & R3 & _).
  unfold in_heap, VIRTUAL_HEAP_START, VIRTUAL_OFFSET, RAM_ORIGIN, RAM_LENGTH in *.
  split; unfold in_window, canonical, VIRTUAL_OFFSET, WINDOW_SIZE;
    rewrite ?orb_true_iff, ?andb_false_iff, ?Z.ltb_lt, ?Z.ltb_ge, ?Z.leb_gt, ?Z.leb_le; simpl; lia.
Qed.

Lemma heap_translated b s x :
  heap_budget N root b s → heap_owned s x → ∃ pa, 0 ≤ pa < 2 ^ 64 ∧ resolve s x = Some pa ∧
    get_physical_address_of_virtual_address x s = Done pa s.
Proof.
  intros (OK & _) Hx. pose proof (ho_core _ _ _ OK) as HC.
  destruct (hc_map _ _ _ _ HC x) as (pa & E & Hd); [by apply (owned_in_heap N root)|].
  destruct (core_translated _ s x pa HC) as [H1 H2]; [by apply (heap_mappable s)|done|done|].
  by exists pa.
Qed.

(** What does not straddle two pages is contiguous. *)
Lemma heap_contiguous b s p n :
  heap_budget N root b s → (∀ x, p ≤ x < p + n → heap_owned s x) → 0 < n → p mod 4096 + n ≤ 4096 →
  ∃ pa, contiguous s p n pa.
Proof.
  intros HB Ho Hn Hp. pose proof HB as (OK & _). pose proof (ho_core _ _ _ OK) as HC.
  pose proof (hc_pt _ _ _ _ HC) as PT. pose proof (ho_range N root s OK) as (R1 & R2 & R3 & _).
  assert (∀ x, p ≤ x < p + n → resolve s x = sv48 (pmem s) root x) as Hr.
  { intros x Hx. rewrite <- (pt_satp _ _ _ PT). apply resolve_heap. pose proof (Ho x Hx) as Hin.
    unfold heap_owned, in_heap, VIRTUAL_HEAP_START, VIRTUAL_OFFSET, WINDOW_SIZE, RAM_ORIGIN, RAM_LENGTH in *. simpl. lia. }
  destruct (heap_translated b s p HB) as (pa & _ & E & _); [apply Ho; lia|]. exists pa.
  rewrite Hr in E by lia.
  intros i Hi. rewrite Hr by lia. assert ((p + i) / 4096 = p / 4096) as Ep by zlia.
  assert ((p + i) mod 4096 = p mod 4096 + i) as Em by zlia.
  unfold sv48 in *. rewrite (canonical_page _ _ Ep), (vpns_page _ _ Ep). destruct (canonical p) eqn:Hc; [|done].
  destruct (pt_walk (pmem s) root (vpns p)) as [|e l] eqn:Ew; [done|].
  assert (l = 0%nat) as ->.
  { assert (no_superpage (pmem s) root p) as Hno; [|by apply (Hno e)].
    pose proof (Ho p ltac:(lia)) as Hin.
    unfold heap_owned, in_heap, VIRTUAL_HEAP_START, VIRTUAL_OFFSET, RAM_ORIGIN, RAM_LENGTH in Hin.
    apply (ks_pages _ _ (hc_space _ _ _ _ HC)); [lia|done|].
    unfold in_window, VIRTUAL_OFFSET, WINDOW_SIZE. rewrite (proj2 (Z.ltb_ge p _)) by lia. apply andb_false_r. }
  rewrite !translate_page in * by apply pte_frame_aligned. injection E as <-. rewrite Em. f_equal. lia.
Qed.

#[export] Instance heap_devices : DeviceMemory H.
Proof.
  split.
  - intros s x B Hx. pose proof (device_static 0 s B x Hx) as Hst. split; [by left|].
    destruct B as (OK & _). unfold H; cbn. unfold heap_owned, in_heap, device_va, device_addr in *.
    unfold VIRTUAL_HEAP_START, RAM_ORIGIN, RAM_LENGTH in *. lia.
  - intros s x y pa B [Hx|Hx] [Hy|Hy] E1 E2; pose proof B as (OK & _).
    + rewrite !(static_resolve N root s OK) in * by done. injection E1. injection E2. lia.
    + destruct (static_heap_apart 0 s B x y pa); [done|by apply (owned_in_heap N root)|done|done].
    + destruct (static_heap_apart 0 s B y x pa); [done|by apply (owned_in_heap N root)|done|done].
    + by apply (hc_inj _ _ _ _ (ho_core _ _ _ OK) x y pa); [apply (owned_in_heap N root s OK)..|done|done].
  - intros s x B Hx. by apply (heap_translated 0).
  - intros b s m B _ Hm. by apply dma_heap_budget.
  - intros b s m x B _ Hm. split_and!; [done|done|by apply (dma_resolve b)].
Qed.
End heap.
