(* ===== verification/LinearHeap.v ===== *)
(** The heap as long as nobody but kalloc takes frames: from its second page on it is
    contiguous in physical memory.

    The VirtIO driver hands out physical addresses of heap blocks and relies on that; the
    general heap does not promise it, because kalloc maps each new page to whatever
    frame is free.  At boot the frames are handed out in order and the page tables for
    the first 2 MiB of the heap exist after its first page, so page follows page.
    [linear_heap] is this stronger instance of the [Allocator] interface, and
    [ContiguousHeap] what a driver needs of it. *)

From S2P Require Import Prelude Monad Memory Sv48 Machine Layout Stdio PhysAlloc Paging AddressSpace Heap KAlloc Allocator Client Dma.

(** * The interface *)

Class ContiguousHeap (A : Allocator) := {
  frontier : Z;
  budget_bounded b s : budget b s → b < 2 ^ 31;
  (** Once [frontier] is allocated, every new block is contiguous. *)
  alloc_contiguous b n s p s' :
    budget b s → stable s frontier → 0 ≤ n → n + 16 ≤ b → kalloc n s = Done p s' → ∃ pa, contiguous s' p n pa
}.

(** * The heap of boot time *)

Definition SECOND_PAGE : Z := VIRTUAL_HEAP_START + 4096.

Section linear.
Context (N : nat) (root : Z).

(** The pages from the second one on lie behind one another, up to the frame [k] that is
    handed out next, and [n] more can be added without a new table. *)
Record linear (n k : Z) (s : kstate) : Prop := Linear {
  ln_map : ∀ x, SECOND_PAGE ≤ x < virtual_alloc_end s →
    resolve s x = Some (frame_at s k - virtual_alloc_end s + x);
  ln_order : in_order N k s;
  ln_frames : k + n ≤ Z.of_nat N;
  ln_tables : ∀ j, 0 ≤ j < n → has_table root s (virtual_alloc_end s + 4096 * j)
}.

Lemma linear_weaken n n' k s : linear n k s → n' ≤ n → linear n' k s.
Proof. intros [M O F T] Hle. split; [done|done|lia|]. intros j Hj. apply T. lia. Qed.

Lemma linear_same n k s s' : same_mem s s' → linear n k s → linear n k s'.
Proof.
  intros SM [M O F T]. pose proof SM as [E1 E2 E3 E4 E5 E6 E7].
  assert (∀ i, frame_at s' i = frame_at s i) as Ef by (intros i; unfold frame_at; by rewrite E4).
  split; [| |done|].
  - intros x. rewrite E7, Ef, <- (resolve_proper s s' SM x x eq_refl). apply M.
  - apply (in_order_same N k s); [|done]. intros j _. unfold frame_free, frame_flag, flags_base. by rewrite E1, E3.
  - intros j Hj. unfold has_table. rewrite E1, E7. by apply T.
Qed.

(** Memory may change where nothing depends on it. *)
Lemma linear_loose n k s m :
  heap_ok N root s → agree (λ a, ¬ loose_addr N root s a) (pmem s) m → linear n k s → linear n k (set_pmem m s).
Proof.
  intros OK Ha [M O F T]. pose proof (hc_pt _ _ _ _ (ho_core _ _ _ OK)) as PT. split; [| |done|].
  - intros x Hx. rewrite (loose_resolve N root s m Ha x (pt_satp _ _ _ PT)). by apply M.
  - apply (in_order_same N k s); [|done]. intros j Hj. unfold frame_free.
    by rewrite (loose_flag N root s m Ha).
  - intros j Hj. unfold has_table.
    rewrite (same_node root s (set_pmem m s) (loose_pte N root s m Ha)); [by apply T|].
    apply (vpn_paths (virtual_alloc_end s + 4096 * j)).
Qed.

(** ** One more page *)

Lemma linear_page n k s :
  heap_ok N root s → 1 ≤ n → linear n k s →
  ∃ s1 s2, kalloc_frame s = Done (frame_at s k) s1 ∧ only_mem s s1 ∧
    map_page (virtual_alloc_end s) (frame_at s k) 0xF s1 = Done () s2 ∧
    page_added N root (virtual_alloc_end s) (frame_at s k) s s2 ∧
    (∀ j, 0 ≤ j < Z.of_nat N → frame_free s2 j ↔ frame_free s j ∧ j ≠ k).
Proof.
  intros OK Hn [_ O F T]. pose proof (ho_core _ _ _ OK) as HC. pose proof (hc_pt _ _ _ _ HC) as PT.
  pose proof (in_order_nfree N k s O) as Hfree. pose proof (io_range _ _ _ O) as Hk.
  destruct (kalloc_frame_tree N root s PT ltac:(lia))
    as (i & s1 & E1 & OK1 & M1 & Hi & Hf & Hn1 & Hfree1 & Hnode1 & Hsv1 & Hno1 & Ha1 & Hl).
  pose proof (in_order_least N k s i O Hi Hf Hl) as ->.
  destruct (pg_frame N root k s PT Hi) as (F1 & F2).
  assert (has_table root s1 (virtual_alloc_end s)) as [t Ht].
  { unfold has_table. rewrite Hnode1 by apply (vpn_paths (virtual_alloc_end s)).
    pose proof (T 0 ltac:(lia)) as H0. by rewrite Z.mul_0_r, Z.add_0_r in H0. }
  destruct (map_page_in_table N root s1 (virtual_alloc_end s) (frame_at s k) 0xF OK1) as (s2 & E2 & Mp & Hs2);
    [by exists t|done|done|].
  exists s1, s2. split; [done|]. split; [done|]. split; [done|]. split.
  - apply (pg_page_added N root _ 0xF k s s1 s2); try done; [apply HC|by apply (ex_hi N root _ s)|].
    apply (mapped_weaken N root 0 3); [lia|done].
  - intros j Hj. by rewrite Hs2, Hfree1.
Qed.

Lemma linear_extend n k s size :
  heap_ok N root s → 1 ≤ n → linear n k s → free_size s < size ⊞ sizeof_FreeSpace * 2 →
  ∃ s', kalloc_extend (free_list s) size () s = Done (inl ()) s' ∧ heap_ok N root s' ∧
    free_list s' = free_list s ∧ virtual_alloc_end s' = virtual_alloc_end s + 4096 ∧
    heap_grown N root (free_list s) 4 s s' ∧ linear (n - 1) (k + 1) s'.
Proof.
  intros OK Hn L Hlt. destruct (linear_page n k s OK Hn L) as (s1 & s2 & E1 & M1 & E2 & PA & Hs2).
  pose proof (ho_core _ _ _ OK) as HC. pose proof (ex_extended N root _ _ s s2 HC PA) as Ex.
  destruct (extend_step_with N root s OK size _ s1 s2 Hlt E1 M1 E2 Ex) as (s' & E & OK' & Ef & Ee & G & m & -> & Hd).
  set (s3 := set_pmem m s2) in *. set (s' := set_virtual_alloc_end _ s3) in *.
  exists s'. split_and!; try done. pose proof (pa_pt _ _ _ _ _ _ PA) as PT2.
  destruct (only_mem_frames _ _ (pa_mem _ _ _ _ _ _ PA)) as [_ Efr].
  assert (∀ x, resolve s' x = resolve s2 x) as Hr.
  { intros x. exact (data_resolve N root s2 m Hd x (pt_satp _ _ _ PT2)). }
  assert (∀ j, 0 ≤ j < Z.of_nat N → frame_free s' j ↔ frame_free s j ∧ j ≠ k) as Hfree.
  { intros j Hj. rewrite <- Hs2 by done. unfold frame_free.
    by rewrite <- (loose_flag N root s2 m (data_agree N root s2 m Hd) j Hj). }
  destruct L as [M O F T]. pose proof (ho_range N root s OK) as (R1 & R2 & R3 & _).
  pose proof (hc_align _ _ _ _ HC) as HA. split.
  - intros x. cbn [virtual_alloc_end s' set_virtual_alloc_end]. intros Hx.
    unfold SECOND_PAGE, VIRTUAL_HEAP_START, VIRTUAL_OFFSET, RAM_ORIGIN, RAM_LENGTH in *.
    rewrite Hr, (pa_resolve _ _ _ _ _ _ PA) by (simpl; lia).
    change (frame_at s' (k + 1)) with (frame_at s2 (k + 1)). rewrite Efr.
    assert (frame_at s (k + 1) = frame_at s k + 4096) as Ek by (unfold frame_at, FRAME_SIZE; lia).
    destruct (decide (x / 4096 = virtual_alloc_end s / 4096)) as [Ex'|Ex'].
    + f_equal. zlia.
    + rewrite M; [f_equal; lia|]. split; [lia|]. destruct (Z.lt_ge_cases x (virtual_alloc_end s)); [done|zlia].
  - apply (in_order_alloc N k s); [done|lia|done].
  - lia.
  - intros j Hj. cbn [virtual_alloc_end s' set_virtual_alloc_end].
    replace (virtual_alloc_end s + 4096 + 4096 * j) with (virtual_alloc_end s + 4096 * (j + 1)) by lia.
    destruct (T (j + 1) ltac:(lia)) as [t Ht]. exists t. apply (hg_node _ _ _ _ _ _ G); [|done].
    apply (vpn_paths (virtual_alloc_end s + 4096 * (j + 1))).
Qed.

(** The loop of kalloc. *)
Lemma linear_loop n k s size :
  heap_ok N root s → 0 ≤ size → 4 * pages_needed s size ≤ Z.of_nat (nfree N s) →
  linear n k s → pages_needed s size ≤ n →
  wp (loop (kalloc_extend (free_list s) size) ()) (λ _ s', space_found N root size s s' ∧
    linear (n - pages_needed s size) (k + pages_needed s size) s') s.
Proof.
  intros OK Hsize Hn L Hle. destruct (pages_bounds N root s size OK Hsize Hn) as (P1 & P2 & P3 & P4).
  apply wp_conj.
  { eapply wp_mono; [by apply extend_loop|]. intros [] s'. exact id. }
  set (pages := pages_needed s size) in *.
  apply (wp_loop _ (λ _ s', heap_ok N root s' ∧ free_list s' = free_list s ∧
    ∃ j, 0 ≤ j ≤ pages ∧ virtual_alloc_end s' = virtual_alloc_end s + 4096 * j ∧ linear (n - j) (k + j) s')
    (λ _ s', virtual_alloc_end s + 4096 * pages - virtual_alloc_end s')).
  - intros [] s1 (OK1 & Ef & j & Hj & Ee & L1). split; [lia|].
    assert (free_size s1 = free_size s + 4096 * j) as Efs by (unfold free_size; lia).
    destruct (decide (free_size s1 < size + 32)) as [Hlt|Hge].
    + assert (j < pages) by (apply P4; lia).
      destruct (linear_extend (n - j) (k + j) s1 size OK1 ltac:(lia) L1) as (s2 & E & OK2 & Ef2 & Ee2 & _ & L2); [by rewrite P3|].
      rewrite Ef in E. apply (wp_done _ _ _ _ _ E). split; [|lia].
      split_and!; [done|congruence|]. exists (j + 1). split_and!; [lia|lia|lia|].
      by replace (n - (j + 1)) with (n - j - 1) by lia; replace (k + (j + 1)) with (k + j + 1) by lia.
    + assert (j = pages) as ->. { unfold pages, pages_needed in *. zlia. }
      rewrite <- Ef. unfold kalloc_extend. eapply wp_bind_done.
      { apply (get_size_done N root _ s1 _ _ (ho_core _ _ _ OK1) (ho_head N root s1 OK1) (ho_size N root s1 OK1) (ho_status _ _ _ OK1)). }
      fold (free_size s1). rewrite (proj2 (Z.ltb_ge _ _)) by lia. by apply wp_ret.
  - split_and!; try done. exists 0. split_and!; try lia. by rewrite Z.sub_0_r, Z.add_0_r.
  - change (2 ^ 64) with 0x10000000000000000. change (2 ^ 18) with 0x40000 in P1. lia.
Qed.

(** Placing the block. *)
Lemma linear_placed lo n k s s' :
  heap_grown N root lo 0 s s' → virtual_alloc_end s' = virtual_alloc_end s → SECOND_PAGE ≤ virtual_alloc_end s →
  linear n k s → linear n k s'.
Proof.
  intros G Ee Hend [M O F T]. destruct (hg_vars _ _ _ _ _ _ G) as (o & m & Es).
  assert (frame_at s' k = frame_at s k) as Ef by (rewrite Es; done). split; [| |done|].
  - intros x. rewrite Ee, Ef. intros Hx. rewrite <- M by done. apply (hg_map _ _ _ _ _ _ G).
    unfold in_heap, SECOND_PAGE in *. lia.
  - destruct (hg_order _ _ _ _ _ _ G k O) as [k' O']. assert (k' = k) as <-; [|done].
    pose proof (in_order_nfree N k s O). pose proof (in_order_nfree N k' s' O'). pose proof (hg_free _ _ _ _ _ _ G).
    pose proof (io_range _ _ _ O). pose proof (io_range _ _ _ O').
    destruct (Z.lt_trichotomy k' k) as [Hlt|[Hlt|Hlt]]; [|done|lia].
    destruct (io_used _ _ _ O k' ltac:(lia)). apply (hg_used _ _ _ _ _ _ G); [lia|].
    apply (io_free _ _ _ O'). lia.
  - intros j Hj. rewrite Ee. destruct (T j Hj) as [t Ht]. exists t. apply (hg_node _ _ _ _ _ _ G); [|done].
    apply (vpn_paths (virtual_alloc_end s + 4096 * j)).
Qed.

Lemma heap_second_page s : heap_ok N root s → SECOND_PAGE ≤ virtual_alloc_end s.
Proof.
  intros OK. pose proof (hc_align _ _ _ _ (ho_core _ _ _ OK)) as HA.
  pose proof (ho_lo _ _ _ OK). pose proof (ho_hi _ _ _ OK).
  unfold SECOND_PAGE. assert (VIRTUAL_HEAP_START mod 4096 = 0) by done. zlia.
Qed.

Lemma kalloc_linear n k s size :
  heap_ok N root s → 0 ≤ size → 4 * pages_needed s size ≤ Z.of_nat (nfree N s) →
  linear n k s → pages_needed s size ≤ n →
  ∃ s', kalloc size s = Done (free_list s + 16) s' ∧ allocated_block N root size s s' ∧
    linear (n - pages_needed s size) (k + pages_needed s size) s'.
Proof.
  intros OK Hsize Hn L Hle. destruct (pages_bounds N root s size OK Hsize Hn) as (P1 & P2 & P3 & _).
  assert (wp (kalloc size) (λ r s', r = free_list s + 16 ∧ allocated_block N root size s s' ∧
    linear (n - pages_needed s size) (k + pages_needed s size) s') s) as W.
  2:{ apply wp_inv in W as (r & s' & E & -> & H). by exists s'. }
  apply (find_space N root s size (λ current, _) (λ s', space_found N root size s s' ∧
    linear (n - pages_needed s size) (k + pages_needed s size) s')); [done|done| | |].
  - intros _. by apply linear_loop.
  - intros Hge. split; [by apply space_there|]. assert (pages_needed s size = 0) as -> by (unfold pages_needed; zlia).
    by rewrite Z.sub_0_r, Z.add_0_r.
  - intros s1 [SF L1]. cbv zeta. apply (place_allocated N root s s1 size); [done|done|done|done|].
    intros s2 AB OK2 G. split; [done|]. split; [done|].
    pose proof SF as (OK1 & _ & Ee & _).
    apply (linear_placed _ _ _ s1 s2 G); [|by apply heap_second_page|done].
    rewrite (ab_end _ _ _ _ _ AB). lia.
Qed.

(** ** The instance of the interface *)

Definition linear_budget (b : Z) (s : kstate) : Prop :=
  heap_budget N root b s ∧ ∃ k, linear (pages_needed s b) k s.

Lemma linear_budget_proper b : Proper (same_mem ==> iff) (linear_budget b).
Proof.
  assert (∀ s s', same_mem s s' → linear_budget b s → linear_budget b s') as H.
  { intros s s' SM (HB & k & L). split; [by rewrite <- (heap_budget_proper N root b s s' SM)|]. exists k.
    unfold pages_needed, free_size. rewrite (sm_free _ _ SM), (sm_end _ _ SM). by apply (linear_same _ k s). }
  intros s s' SM. split; by apply H.
Qed.

Lemma linear_owned_store b s va v :
  linear_budget b s → 0 ≤ b → heap_owned s va →
  ∃ s', store8 va v s = Done () s' ∧ linear_budget b s' ∧ vbyte s' va = u8 v ∧
    (∀ x, heap_stable s x → x ≠ va → vbyte s' x = vbyte s x) ∧
    (∀ x, heap_stable s' x ↔ heap_stable s x) ∧ (∀ x, heap_owned s' x ↔ heap_owned s x) ∧
    only_mem s s' ∧ (∀ x, heap_stable s x → resolve s' x = resolve s x).
Proof.
  intros (HB & k & L) Hb Hva. pose proof HB as (OK & _).
  destruct (heap_owned_store N root b s va v HB Hb Hva) as (s' & E & HB' & H).
  exists s'. split; [done|]. split; [|done]. split; [done|]. exists k.
  destruct (hc_map _ _ _ _ (ho_core _ _ _ OK) va (owned_in_heap N root s OK va Hva)) as (pa & Er & Hd).
  unfold store8 in E. rewrite Er in E. injection E as <-.
  change (pages_needed (set_pmem _ s) b) with (pages_needed s b).
  apply linear_loose; [done| |done]. apply agree_wr8. intros Hn. by apply Hn, data_loose.
Qed.

Lemma linear_alloc b n s :
  linear_budget b s → 0 ≤ n → n + 16 ≤ b →
  ∃ p s', kalloc n s = Done p s' ∧ linear_budget (b - n - 16) s' ∧ 0 < p ∧ p + n < 2 ^ 64 ∧
    (∀ i, 0 ≤ i < n → heap_owned s' (p + i) ∧ ¬ heap_stable s (p + i)) ∧
    (∀ x, heap_stable s x → heap_stable s' x ∧ vbyte s' x = vbyte s x) ∧
    (∀ x, heap_owned s x → heap_owned s' x) ∧
    vars s' = vars s ∧ logLevel s' = logLevel s ∧ console_more s s' ∧
    (∀ x, heap_stable s x → resolve s' x = resolve s x) ∧
    p = free_list s + 16 ∧ free_list s' = p + n ∧
    (∀ i, 0 ≤ i < 16 → heap_stable s' (p - 16 + i) ∧ ¬ heap_stable s (p - 16 + i)) ∧ vload 8 s' (p - 16) = n.
Proof.
  intros (HB & k & L) Hn Hle. pose proof HB as (OK & Hb & Hp & Hf).
  destruct (heap_alloc N root b n s HB Hn Hle) as (p & s' & E & HB' & H).
  pose proof (pages_mono s n b ltac:(lia)) as Hm.
  destruct (kalloc_linear _ k s n OK Hn ltac:(lia) L Hm) as (s2 & E2 & AB & L2).
  rewrite E in E2. injection E2 as -> <-. exists (free_list s + 16), s'. split; [done|]. split; [|done].
  split; [done|]. exists (k + pages_needed s n).
  rewrite (pages_after s s' b n) by (done || (unfold free_size; rewrite (ab_next _ _ _ _ _ AB), (ab_end _ _ _ _ _ AB); lia)).
  done.
Qed.

#[export] Program Instance linear_heap : Allocator := {|
  budget := linear_budget; stable := heap_stable; owned := heap_owned
|}.
Next Obligation. apply linear_budget_proper. Qed.
Next Obligation. apply heap_stable_proper. Qed.
Next Obligation. apply heap_owned_proper. Qed.
Next Obligation. intros s va ((OK & _) & _). by apply (heap_stable_range N root). Qed.
Next Obligation. intros s va H. by right. Qed.
Next Obligation.
  intros b b' s (HB & k & L) Hle. split; [by apply (budget_weaken (Allocator := kernel_heap N root) b)|]. exists k.
  apply (linear_weaken (pages_needed s b)); [done|]. apply pages_mono. lia.
Qed.
Next Obligation. intros s va ((OK & _) & _). by apply (heap_stable_load N root). Qed.
Next Obligation. apply linear_owned_store. Qed.
Next Obligation. apply linear_alloc. Qed.

#[export] Instance linear_devices : DeviceMemory linear_heap.
Proof.
  pose proof (heap_devices N root) as [D1 D2 D3 D4 D5]. split.
  - intros s x [B _]. by apply D1.
  - intros s x y pa [B _]. by apply D2.
  - intros s x [B _]. by apply D3.
  - intros b s m [B (k & L)] Hb Hm. split; [by apply D4|]. exists k. pose proof B as (OK & _).
    change (pages_needed (set_pmem m s) b) with (pages_needed s b).
    apply linear_loose; [done| |done]. by apply (dma_agree N root b s B m).
  - intros b s m x [B _]. by apply D5.
Qed.

Lemma linear_bounded b s : linear_budget b s → b < 2 ^ 31.
Proof.
  intros ((OK & Hb & Hp & Hf) & _). pose proof (ho_core _ _ _ OK) as HC.
  destruct (fo_bounds _ _ (pt_frames _ _ _ (hc_pt _ _ _ _ HC))) as (B1 & B2 & B3).
  pose proof (hc_hi _ _ _ _ HC). pose proof (ho_lo _ _ _ OK).
  unfold pages_needed, free_size, RAM_ORIGIN in *. simpl. zlia.
Qed.

#[export] Program Instance linear_contiguous : ContiguousHeap linear_heap := {| frontier := SECOND_PAGE |}.
Next Obligation. exact linear_bounded. Qed.
Next Obligation.
  intros b n s p s' (HB & k & L) Hst Hn Hle E. pose proof HB as (OK & Hb & Hp & Hf).
  pose proof (pages_mono s n b ltac:(lia)) as Hm.
  destruct (kalloc_linear _ k s n OK Hn ltac:(lia) L Hm) as (s2 & E2 & AB & L2).
  rewrite E in E2. injection E2 as -> <-. set (k' := k + pages_needed s n) in *.
  exists (frame_at s' k' - virtual_alloc_end s' + (free_list s + 16)). intros i Hi.
  rewrite (ln_map _ _ _ L2); [f_equal; lia|].
  assert (SECOND_PAGE < free_list s) as Hfl.
  { destruct Hst as [Hst|Hst]; [|unfold in_heap in Hst; lia]. pose proof (flags_in_window N root s OK).
    unfold static, SECOND_PAGE, VIRTUAL_HEAP_START, WINDOW_SIZE, VIRTUAL_OFFSET, RAM_ORIGIN, RAM_LENGTH in *. lia. }
  pose proof (ho_hi _ _ _ (ab_ok _ _ _ _ _ AB)). pose proof (ab_next _ _ _ _ _ AB). lia.
Qed.
End linear.

(** What virtual_allocator_init leaves: the budget is the rest of the first 2 MiB. *)
Lemma linear_started N root k b s s' :
  heap_started N root s s' → in_order N k s → RAM_ORIGIN ≤ flags_base s' →
  0 ≤ b ≤ 511 * 4096 → 4 * 511 ≤ Z.of_nat (nfree N s') → linear_budget N root b s'.
Proof.
  intros HS O Hf Hb Hn. destruct (hs_order _ _ _ _ HS k O) as [k' O'].
  pose proof (in_order_nfree N k' s' O') as Hk.
  assert (0 ≤ pages_needed s' b ≤ 511) as Hp.
  { unfold pages_needed, free_size. rewrite (hs_list _ _ _ _ HS), (hs_end _ _ _ _ HS). zlia. }
  split; [split_and!; [apply HS|lia|lia|done]|]. exists k'. split; [|done|lia|].
  - rewrite (hs_end _ _ _ _ HS). unfold SECOND_PAGE. lia.
  - intros j Hj. rewrite (hs_end _ _ _ _ HS). apply (has_table_near root s' VIRTUAL_HEAP_START); [|apply HS].
    unfold VIRTUAL_HEAP_START, RAM_ORIGIN, RAM_LENGTH, VIRTUAL_OFFSET. change (2 ^ 21) with 2097152. zlia.
Qed.

(** A range behind the first page. *)
Lemma linear_range N root b s p n :
  linear_budget N root b s → SECOND_PAGE ≤ p → p + n ≤ virtual_alloc_end s → ∃ pa, contiguous s p n pa.
Proof.
  intros (_ & k & L) Hp Hn. exists (frame_at s k - virtual_alloc_end s + p). intros i Hi.
  rewrite (ln_map _ _ _ _ _ L) by lia. f_equal. lia.
Qed.
