(* ===== verification/UserSpace.v ===== *)
(** User pages next to the heap.

    submit_new_process maps pages of the lower half with flag 0x1F and the kernel
    then reads and writes them through their user addresses (set_sum_bit allows it).
    [user_ok R s] says that the addresses in [R] are mapped, each to a byte of its own
    in an allocated frame that is neither a table nor part of the heap.  [user_heap]
    is the interface of Allocator.v with these addresses as further client memory:
    what is proved against [Allocator] and [DeviceMemory] holds of user buffers too. *)

From S2P Require Import Prelude Monad Memory Sv48 Machine Layout Samples Stdio PhysAlloc Paging AddressSpace Heap KAlloc Allocator Client Dma.

(** The addresses of the page of [va]. *)
Definition page_of (va x : Z) : Prop := x / 4096 = va / 4096.

Section user.
Context (N : nat) (root : Z).

Record user_ok (R : Z → Prop) (s : kstate) : Prop := UserOk {
  uo_range : ∀ x, R x → 0 ≤ x < 2 ^ 47;
  uo_map : ∀ x, R x → ∃ pa, resolve s x = Some pa ∧ foreign N root s pa;
  uo_inj : ∀ x y pa, R x → R y → resolve s x = Some pa → resolve s y = Some pa → x = y
}.

(** [b] bytes can be allocated and after that [k] user pages mapped. *)
Definition user_budget (k : nat) (R : Z → Prop) (b : Z) (s : kstate) : Prop :=
  heap_budget N root b s ∧ 4 * (pages_needed s b + Z.of_nat k) ≤ Z.of_nat (nfree N s) ∧ user_ok R s.

Definition user_stable (R : Z → Prop) (s : kstate) (x : Z) : Prop := heap_stable s x ∨ R x.
Definition user_owned (R : Z → Prop) (s : kstate) (x : Z) : Prop := heap_owned s x ∨ R x.

(** Everything that is mapped on purpose: image, the whole heap, user pages. *)
Definition in_use (R : Z → Prop) (s : kstate) (x : Z) : Prop :=
  static s x ∨ in_heap (virtual_alloc_end s) x ∨ R x.

Lemma user_ok_same R s s' : same_mem s s' → user_ok R s → user_ok R s'.
Proof.
  intros SM [U1 U2 U3]. assert (∀ x, resolve s' x = resolve s x) as Hr.
  { intros x. symmetry. by apply resolve_proper. }
  split; [done| |].
  - intros x Hx. destruct (U2 x Hx) as (pa & E & [Hd Hn]). exists pa. rewrite Hr. split; [done|].
    destruct SM as [E1 E2 E3 E4 E5 E6 E7]. split.
    + destruct Hd as [Ho (t & (i & Hi & Et & Hu) & Hp)]. split.
      * unfold outside_tables, in_flags, flags_base in *. by rewrite E1, E3.
      * exists t. split; [|done]. exists i. unfold frame_at, frame_free, frame_flag, flags_base in *.
        by rewrite E1, E3, E4.
    + intros va. rewrite E7, Hr. apply Hn.
  - intros x y pa Hx Hy. rewrite !Hr. by apply U3.
Qed.

Lemma user_budget_proper k R b : Proper (same_mem ==> iff) (user_budget k R b).
Proof.
  assert (∀ s s', same_mem s s' → user_budget k R b s → user_budget k R b s') as H.
  { intros s s' SM (HB & Hk & U). split; [by apply (heap_budget_proper N root b s s')|].
    split; [|by apply (user_ok_same R s)]. rewrite (nfree_same N s s') by done.
    unfold pages_needed, free_size. by rewrite (sm_free _ _ SM), (sm_end _ _ SM). }
  intros s s' SM. split; by apply H.
Qed.

(** ** Facts of one state *)

Section state.
Context (k : nat) (R : Z → Prop) (b : Z) (s : kstate) (B : user_budget k R b s).

Lemma ub_ok : heap_ok N root s.
Proof using B. apply B. Qed.
Lemma ub_core : heap_core N root (virtual_alloc_end s) s.
Proof using B. apply ub_ok. Qed.
Lemma ub_user : user_ok R s.
Proof using B. apply B. Qed.

Lemma user_low x : R x → 0 ≤ x < 2 ^ 47 ∧ ¬ static s x ∧ ¬ in_heap (virtual_alloc_end s) x.
Proof using B.
  intros Hx. pose proof (uo_range _ _ ub_user x Hx) as Hr. split; [done|].
  unfold static, in_heap, VIRTUAL_HEAP_START, VIRTUAL_OFFSET, RAM_ORIGIN, RAM_LENGTH. simpl in Hr. lia.
Qed.

Lemma owned_data x : user_owned R s x → ∃ pa, resolve s x = Some pa ∧ data_addr N root s pa.
Proof using B.
  intros [Hx|Hx].
  - apply (hc_map _ _ _ _ ub_core). by apply (owned_in_heap N root s ub_ok).
  - destruct (uo_map _ _ ub_user x Hx) as (pa & E & [Hd _]). eauto.
Qed.

Lemma stable_in_use x : user_stable R s x → in_use R s x.
Proof using B.
  intros [[Hx|Hx]|Hx]; [by left|right; left|by right; right]. by apply (owned_in_heap N root s ub_ok).
Qed.

Lemma owned_in_use x : user_owned R s x → in_use R s x.
Proof using B. intros [Hx|Hx]; apply stable_in_use; [left; by right|by right]. Qed.

(** No frame starts below the flags. *)
Lemma data_not_static pa : data_addr N root s pa → flags_base s ≤ pa.
Proof using B.
  intros [_ (t & (i & Hi & -> & _) & Hp)].
  destruct (fo_bounds _ _ (pt_frames _ _ _ (hc_pt _ _ _ _ ub_core))) as (B1 & B2 & B3).
  unfold in_page, frame_at, FRAME_SIZE, PAGE_SIZE in Hp. lia.
Qed.

Lemma in_use_static x pa : in_use R s x → resolve s x = Some pa → pa < flags_base s → static s x.
Proof using B.
  intros [Hx|[Hx|Hx]] E Hlt; [done|exfalso..].
  - destruct (hc_map _ _ _ _ ub_core x Hx) as (pa' & E' & Hd). apply data_not_static in Hd.
    assert (pa = pa') by congruence. lia.
  - destruct (uo_map _ _ ub_user x Hx) as (pa' & E' & [Hd _]). apply data_not_static in Hd.
    assert (pa = pa') by congruence. lia.
Qed.

Lemma in_use_inj x y pa :
  in_use R s x → in_use R s y → resolve s x = Some pa → resolve s y = Some pa → x = y.
Proof using B.
  intros Hx Hy E1 E2. destruct (decide (pa < flags_base s)) as [Hlt|Hge].
  - pose proof (in_use_static x pa Hx E1 Hlt) as Sx. pose proof (in_use_static y pa Hy E2 Hlt) as Sy.
    rewrite (static_resolve N root s ub_ok) in E1, E2 by done. injection E1. injection E2. lia.
  - assert (∀ z, static s z → resolve s z = Some pa → False) as Hst.
    { intros z Hz E. rewrite (static_resolve N root s ub_ok z Hz) in E. injection E as <-.
      unfold static in Hz. lia. }
    assert (∀ z w, in_heap (virtual_alloc_end s) z → R w → resolve s z = Some pa → resolve s w = Some pa → False)
      as Hcross.
    { intros z w Hz Hw Ez Ew. destruct (uo_map _ _ ub_user w Hw) as (pa' & E' & [_ Hn]).
      assert (pa' = pa) as -> by congruence. by apply (Hn z). }
    destruct Hx as [Hx|[Hx|Hx]]; [by destruct (Hst x)| |]; (destruct Hy as [Hy|[Hy|Hy]]; [by destruct (Hst y)| |]).
    + by apply (hc_inj _ _ _ _ ub_core x y pa).
    + by destruct (Hcross x y).
    + by destruct (Hcross y x).
    + by apply (uo_inj _ _ ub_user x y pa).
Qed.

Lemma status_in_use i : 0 ≤ i < 8 → in_use R s (free_list s + i) ∧ ¬ user_stable R s (free_list s + i).
Proof using B.
  intros Hi. pose proof (ho_lo _ _ _ ub_ok) as Hlo. pose proof (ho_hi _ _ _ ub_ok) as Hhi. split.
  - right; left. unfold in_heap. lia.
  - pose proof (flags_in_window N root s ub_ok) as Hfw.
    intros [[H|H]|H].
    + unfold static, VIRTUAL_HEAP_START, VIRTUAL_OFFSET, WINDOW_SIZE, RAM_ORIGIN, RAM_LENGTH in *. lia.
    + unfold in_heap in H. lia.
    + destruct (user_low _ H) as (Hr & _). unfold VIRTUAL_HEAP_START, VIRTUAL_OFFSET, RAM_ORIGIN, RAM_LENGTH in *.
      simpl in Hr. lia.
Qed.

(** Memory may change where it is no table, no flag, no free frame and not the
    header of the free block. *)
Section loose.
Context (m : mem) (Ha : agree (λ a, ¬ loose_addr N root s a) (pmem s) m).

Lemma user_loose_resolve x : resolve (set_pmem m s) x = resolve s x.
Proof using B Ha. apply (loose_resolve N root s m Ha), (pt_satp _ _ _ (hc_pt _ _ _ _ ub_core)). Qed.

Lemma user_loose_budget :
  (∀ i, 0 ≤ i < 8 → vbyte (set_pmem m s) (free_list s + i) = vbyte s (free_list s + i)) →
  user_budget k R b (set_pmem m s).
Proof using B Ha.
  intros Hst. destruct B as ((OK & Hb & Hn & Hf) & Hk & U). split; [split; [split|]|split].
  - apply loose_core; [apply OK|done].
  - apply OK.
  - apply OK.
  - transitivity (vload 8 s (free_list s)); [|apply OK]. by apply vload_ext.
  - by rewrite (loose_nfree N root s m Ha).
  - by rewrite (loose_nfree N root s m Ha).
  - destruct U as [U1 U2 U3]. split; [done| |].
    + intros x Hx. destruct (U2 x Hx) as (pa & E & [Hd Hnh]). exists pa. rewrite user_loose_resolve.
      split; [done|]. split; [by apply (loose_data_addr N root s m Ha)|].
      intros va Hva. rewrite user_loose_resolve. by apply Hnh.
    + intros x y pa Hx Hy. rewrite !user_loose_resolve. by apply U3.
Qed.
End loose.

(** A byte that is owned is written. *)
Lemma user_owned_store va v :
  user_owned R s va →
  ∃ s', store8 va v s = Done () s' ∧ user_budget k R b s' ∧ vbyte s' va = u8 v ∧
    (∀ x, user_stable R s x → x ≠ va → vbyte s' x = vbyte s x) ∧
    (∀ x, user_stable R s' x ↔ user_stable R s x) ∧ (∀ x, user_owned R s' x ↔ user_owned R s x) ∧
    only_mem s s' ∧ (∀ x, resolve s' x = resolve s x).
Proof using B.
  intros Hva. destruct (owned_data va Hva) as (pa & E & Hd). set (m := wr8 (pmem s) pa v).
  assert (agree (λ a, ¬ loose_addr N root s a) (pmem s) m) as Ha.
  { apply agree_wr8. intros H. by apply H, data_loose. }
  pose proof (user_loose_resolve m Ha) as Hr.
  assert (∀ x, in_use R s x → x ≠ va → vbyte (set_pmem m s) x = vbyte s x) as Hb.
  { intros x Hx Hne. unfold vbyte. rewrite Hr. destruct (resolve s x) as [pb|] eqn:Ex; [|done].
    apply rd8_wr8_ne. intros ->. apply Hne. apply (in_use_inj x va pa); try done. by apply owned_in_use. }
  exists (set_pmem m s). split_and!; try done.
  - unfold store8. by rewrite E.
  - apply (user_loose_budget m Ha). intros i Hi. destruct (status_in_use i Hi) as [H1 H2].
    apply Hb; [done|]. intros Ei. apply H2. rewrite Ei. destruct Hva; [left; by right|by right].
  - unfold vbyte. rewrite Hr, E. apply rd8_wr8_eq.
  - intros x Hx. by apply Hb, stable_in_use.
  - apply only_mem_set_pmem.
Qed.

Lemma user_stable_load x : user_stable R s x → load8 x s = Done (vbyte s x) s.
Proof using B.
  intros [Hx|Hx]; [by apply (heap_stable_load N root s ub_ok)|].
  destruct (uo_map _ _ ub_user x Hx) as (pa & E & _). unfold load8, vbyte. by rewrite E.
Qed.

Lemma user_stable_range x : user_stable R s x → 0 ≤ x < 2 ^ 64 - 1.
Proof using B.
  intros [Hx|Hx]; [by apply (heap_stable_range N root s ub_ok)|]. destruct (user_low x Hx) as (Hr & _).
  simpl in *. lia.
Qed.
End state.

(** ** kalloc next to user pages *)

Lemma user_alloc k R b n s :
  user_budget k R b s → 0 ≤ n → n + 16 ≤ b →
  ∃ p s', kalloc n s = Done p s' ∧ user_budget k R (b - n - 16) s' ∧ 0 < p ∧ p + n < 2 ^ 64 ∧
    (∀ i, 0 ≤ i < n → user_owned R s' (p + i) ∧ ¬ user_stable R s (p + i)) ∧
    (∀ x, user_stable R s x → user_stable R s' x ∧ vbyte s' x = vbyte s x) ∧
    (∀ x, user_owned R s x → user_owned R s' x) ∧
    vars s' = vars s ∧ logLevel s' = logLevel s ∧ console_more s s' ∧
    (∀ x, user_stable R s x → resolve s' x = resolve s x) ∧
    p = free_list s + 16 ∧ free_list s' = p + n ∧
    (∀ i, 0 ≤ i < 16 → user_stable R s' (p - 16 + i) ∧ ¬ user_stable R s (p - 16 + i)) ∧ vload 8 s' (p - 16) = n.
Proof.
  intros B Hn Hle. pose proof B as (HB & Hk & U).
  destruct (heap_alloc N root b n s HB Hn Hle)
    as (p & s' & E & HB' & Hp & Hpn & Hnew & Hst & Hown & Hv & Hl & Hc & Hmap & Hpl & Hpf & Hhd & Hsz).
  assert (4 * pages_needed s n ≤ Z.of_nat (nfree N s)) as Hpg.
  { pose proof (pages_mono s n b ltac:(lia)). lia. }
  destruct (kalloc_done N root s n (ub_ok k R b s B) Hn Hpg) as (s'' & E' & AB).
  rewrite E in E'. injection E' as Ep <-. pose proof (ab_grown _ _ _ _ _ AB) as G.
  assert (heap_ok N root s') as OK' by apply HB'. pose proof (ho_range N root s' OK') as (R1 & R2 & R3 & _).
  assert (∀ x, R x → resolve s' x = resolve s x) as Hr.
  { intros x Hx. pose proof (uo_range _ _ U x Hx) as Hx'. apply (hg_other _ _ _ _ _ _ G).
    - simpl in *. lia.
    - unfold in_heap, VIRTUAL_HEAP_START, VIRTUAL_OFFSET, RAM_ORIGIN, RAM_LENGTH. simpl in Hx'. lia. }
  assert (user_ok R s') as U'.
  { split; [apply U| |].
    - intros x Hx. rewrite Hr by done. destruct (uo_map _ _ U x Hx) as (pa & Ea & Hf).
      exists pa. split; [done|]. by apply (hg_foreign _ _ _ _ _ _ G).
    - intros x y pa Hx Hy. rewrite !Hr by done. by apply (uo_inj _ _ U). }
  assert (∀ x, R x → vbyte s' x = vbyte s x) as Hb.
  { intros x Hx. unfold vbyte. destruct (uo_map _ _ U' x Hx) as (pa & Ea & [[Ho _] Hnh]).
    rewrite <- (Hr x Hx), Ea. apply (hg_out _ _ _ _ _ _ G). split; [done|].
    intros (va & Hva & Eva). by apply (Hnh va). }
  assert (∀ x, R x → ¬ free_list s ≤ x) as Hhigh.
  { intros x Hx. destruct (user_low k R b s B _ Hx) as (Hlo & _). pose proof (ho_lo _ _ _ (ub_ok k R b s B)).
    unfold VIRTUAL_HEAP_START, VIRTUAL_OFFSET, RAM_ORIGIN, RAM_LENGTH in *. simpl in Hlo. lia. }
  exists p, s'. split_and!; try done.
  - split; [done|]. split; [|done].
    rewrite (pages_after s s' b n); [|unfold free_size; rewrite (ab_next _ _ _ _ _ AB), (ab_end _ _ _ _ _ AB); lia|lia|lia].
    pose proof (hg_free _ _ _ _ _ _ G). lia.
  - intros i Hi. destruct (Hnew i Hi) as [H1 H2]. split; [by left|]. intros [H|H]; [done|]. apply (Hhigh _ H). lia.
  - intros x [Hx|Hx]; [|by split; [right|apply Hb]]. destruct (Hst x Hx). split; [by left|done].
  - intros x [Hx|Hx]; [left; by apply Hown|by right].
  - intros x [Hx|Hx]; [by apply Hmap|by apply Hr].
  - intros i Hi. destruct (Hhd i Hi) as [H1 H2]. split; [by left|]. intros [H|H]; [done|]. apply (Hhigh _ H). lia.
Qed.

#[export] Program Instance user_heap (k : nat) (R : Z → Prop) : Allocator := {|
  budget := user_budget k R; stable := user_stable R; owned := user_owned R
|}.
Next Obligation. apply user_budget_proper. Qed.
Next Obligation.
  intros k R s s' H va ? <-. unfold user_stable. by rewrite (heap_stable_proper s s' H va va eq_refl).
Qed.
Next Obligation.
  intros k R s s' H va ? <-. unfold user_owned. by rewrite (heap_owned_proper s s' H va va eq_refl).
Qed.
Next Obligation. intros k R s va B. by apply (user_stable_range k R 0). Qed.
Next Obligation. intros k R s va [H|H]; [left; by right|by right]. Qed.
Next Obligation.
  intros k R b b' s (HB & Hk & U) Hle. destruct HB as (OK & Hb & Hn & Hf).
  pose proof (pages_mono s b' b). split; [|split; [lia|done]]. split; [done|]. split_and!; [lia|lia|done].
Qed.
Next Obligation. intros k R s va B. by apply (user_stable_load k R 0). Qed.
Next Obligation.
  intros k R b s va v B _ Hva. destruct (user_owned_store k R b s B va v Hva) as (s' & H). exists s'. naive_solver.
Qed.
Next Obligation. apply user_alloc. Qed.

(** ** Devices *)

Section devices.
Context (k : nat) (R : Z → Prop).
Let A := user_heap k R.

Lemma user_mappable x : 0 ≤ x < 2 ^ 47 → mappable x.
Proof using Type.
  intros Hx. simpl in Hx. split; unfold in_window, canonical, VIRTUAL_OFFSET, WINDOW_SIZE;
    rewrite ?orb_true_iff, ?andb_false_iff, ?Z.ltb_lt, ?Z.ltb_ge, ?Z.leb_gt, ?Z.leb_le; simpl; lia.
Qed.

Lemma user_device_static b s x : user_budget k R b s → device_va x → static s x ∧ ¬ user_owned R s x.
Proof using Type.
  intros B Hx. pose proof B as (HB & _ & U). split; [by apply (device_static N root b)|].
  intros [Ho|Hr].
  - unfold heap_owned, in_heap, device_va, device_addr, VIRTUAL_HEAP_START, RAM_ORIGIN, RAM_LENGTH in *. lia.
  - pose proof (uo_range _ _ U x Hr) as Hlo. simpl in Hlo.
    unfold device_va, device_addr, VIRTUAL_OFFSET in Hx. lia.
Qed.

Lemma user_dma_loose b s a : user_budget k R b s → dma_addr (H := A) s a → loose_addr N root s a.
Proof using Type.
  intros B [Ha|(x & Hx & E)]; [by apply (device_loose N root b s (proj1 B))|].
  destruct (owned_data k R b s B x Hx) as (pa & E' & Hd). apply data_loose. congruence.
Qed.

Lemma user_dma b s m : user_budget k R b s → agree (λ a, ¬ dma_addr (H := A) s a) (pmem s) m →
  user_budget k R b (set_pmem m s) ∧ ∀ x, resolve (set_pmem m s) x = resolve s x.
Proof using Type.
  intros B Hm. assert (agree (λ a, ¬ loose_addr N root s a) (pmem s) m) as Ha.
  { eapply agree_mono; [|exact Hm]. intros a Hn Hd. by eapply Hn, user_dma_loose. }
  pose proof (user_loose_resolve k R b s B m Ha) as Hr. split; [|done].
  apply (user_loose_budget k R b s B m Ha). intros i Hi.
  destruct (status_in_use k R b s B i Hi) as [Hu Hns]. unfold vbyte. rewrite Hr.
  destruct (resolve s (free_list s + i)) as [pa|] eqn:E; [|done]. apply Hm.
  assert (∀ y, in_use R s y → resolve s y = Some pa → y = free_list s + i) as Hinj.
  { intros y Hy Ey. by apply (in_use_inj k R b s B y _ pa). }
  intros [Hd|(x & Hx & Ex)].
  - assert (device_va (pa + VIRTUAL_OFFSET)) as Hdv.
    { unfold device_va. by replace (pa + VIRTUAL_OFFSET - VIRTUAL_OFFSET) with pa by lia. }
    destruct (user_device_static b s _ B Hdv) as [Hst _].
    rewrite <- (Hinj (pa + VIRTUAL_OFFSET)) in Hns; [by apply Hns; left; left|by left|].
    rewrite (static_resolve N root s (ub_ok k R b s B)) by done. f_equal. lia.
  - rewrite <- (Hinj x) in Hns; [apply Hns|by apply (owned_in_use k R b s B)|done].
    destruct Hx; [left; by right|by right].
Qed.

#[export] Instance user_devices : DeviceMemory A.
Proof using Type.
  split.
  - intros s x B Hx. destruct (user_device_static 0 s x B Hx). split; [by left; left|done].
  - intros s x y pa B Hx Hy. apply (in_use_inj k R 0 s B); by apply (stable_in_use k R 0 s B).
  - intros s x B Hx. destruct (owned_data k R 0 s B x Hx) as (pa & E & Hd). exists pa.
    destruct (core_translated N root _ s x pa (ub_core k R 0 s B)) as [H1 H2]; [|done|done|done].
    destruct Hx as [Hx|Hx]; [by apply (heap_mappable N root s x (ub_ok k R 0 s B))|].
    by apply user_mappable, (user_low k R 0 s B).
  - intros b s m B _ Hm. by apply user_dma.
  - intros b s m x B _ Hm. destruct (user_dma b s m B Hm) as [_ Hr]. by split_and!.
Qed.
End devices.

(** ** More tables, frames and user pages *)

Lemma user_ok_ext R R' s : (∀ x, R x ↔ R' x) → user_ok R s → user_ok R' s.
Proof.
  intros E [U1 U2 U3]. split; [intros x Hx%E; by apply U1|intros x Hx%E; by apply U2|].
  intros x y pa Hx%E Hy%E. by apply U3.
Qed.

Lemma user_budget_ext k R R' b s : (∀ x, R x ↔ R' x) → user_budget k R b s → user_budget k R' b s.
Proof. intros E (HB & Hk & U). split; [done|]. split; [done|]. by apply (user_ok_ext R). Qed.

Lemma user_budget_fewer k k' R b s : (k' ≤ k)%nat → user_budget k R b s → user_budget k' R b s.
Proof. intros H (HB & Hk & U). split; [done|]. split; [lia|done]. Qed.

(** Below the flags there is no table. *)
Lemma below_flags s a : pt_ok N root s → 0 ≤ a < flags_base s → outside_tables N root s a.
Proof.
  intros PT Ha. destruct (fo_bounds _ _ (pt_frames _ _ _ PT)) as (B1 & B2 & B3). split.
  - unfold in_flags. lia.
  - intros q t Hq Hn Hp. destruct (pt_alloc _ _ _ PT q t Hq Hn) as (i & Hi & -> & _).
    unfold in_page, frame_at, FRAME_SIZE, PAGE_SIZE in Hp. lia.
Qed.

(** The tables of [s'] map the user addresses in [T] anew and everything else as those
    of [s] do; data stays data with its value. *)
Record space_grown (T : Z → Prop) (s s' : kstate) : Prop := SpaceGrown {
  sg_pt : pt_ok N root s';
  sg_space : kernel_space (pmem s') root;
  sg_mem : only_mem s s';
  sg_less : (nfree N s' ≤ nfree N s)%nat;
  sg_low : ∀ x, T x → 0 ≤ x < 2 ^ 47;
  sg_resolve : ∀ x, 0 ≤ x < 2 ^ 64 → ¬ T x → resolve s' x = resolve s x;
  sg_data : ∀ a, data_addr N root s a → data_addr N root s' a ∧ rd8 (pmem s') a = rd8 (pmem s) a;
  sg_out : agree (outside_tables N root s') (pmem s) (pmem s')
}.

Section grown.
Context (T : Z → Prop) (s s' : kstate) (SG : space_grown T s s').

Lemma not_low x : VIRTUAL_OFFSET ≤ x → ¬ T x.
Proof using SG. intros Hx Ht. apply (sg_low _ _ _ SG) in Ht. unfold VIRTUAL_OFFSET in Hx. simpl in Ht. lia. Qed.

Lemma grown_heap hi x : heap_core N root hi s → in_heap hi x → resolve s' x = resolve s x.
Proof using SG.
  intros HC Hx. pose proof (hc_bounds N root hi s HC). unfold in_heap in Hx.
  apply (sg_resolve _ _ _ SG); [|apply not_low]; unfold VIRTUAL_HEAP_START, VIRTUAL_OFFSET, WINDOW_SIZE,
    RAM_ORIGIN, RAM_LENGTH in *; simpl; lia.
Qed.

Lemma grown_core hi : heap_core N root hi s → heap_core N root hi s'.
Proof using SG.
  intros HC. split; [apply SG|apply SG|apply HC|apply HC| | |].
  - pose proof (sg_less _ _ _ SG). pose proof (hc_hi _ _ _ _ HC). lia.
  - intros x Hx. rewrite (grown_heap hi) by done. destruct (hc_map _ _ _ _ HC x Hx) as (pa & E & Hd).
    exists pa. split; [done|]. by apply (sg_data _ _ _ SG).
  - intros x y pa Hx Hy. rewrite !(grown_heap hi) by done. by apply (hc_inj _ _ _ _ HC).
Qed.

Lemma grown_user R : heap_core N root (virtual_alloc_end s) s → user_ok R s → user_ok (λ x, R x ∧ ¬ T x) s'.
Proof using SG.
  intros HC [U1 U2 U3]. destruct (only_mem_fields _ _ (sg_mem _ _ _ SG)) as (_ & _ & _ & _ & _ & Ee & _).
  assert (∀ x, R x ∧ ¬ T x → resolve s' x = resolve s x) as Hr.
  { intros x [Hx Hn]. apply (sg_resolve _ _ _ SG); [|done]. specialize (U1 x Hx). simpl in *. lia. }
  split.
  - intros x [Hx _]. by apply U1.
  - intros x Hx. rewrite Hr by done. destruct Hx as [Hx Hn]. destruct (U2 x Hx) as (pa & E & [Hd Hh]).
    exists pa. split; [done|]. split; [by apply (sg_data _ _ _ SG)|]. rewrite Ee. intros y Hy.
    rewrite (grown_heap _ y HC Hy). by apply Hh.
  - intros x y pa Hx Hy. rewrite !Hr by done. apply U3; [apply Hx|apply Hy].
Qed.

Section budget.
Context (k : nat) (R : Z → Prop) (b : Z) (B : user_budget k R b s).

Lemma in_use_range x : in_use R s x → 0 ≤ x < 2 ^ 64.
Proof using B.
  pose proof (ub_core _ _ _ s B) as HC. intros [Hx|[Hx|Hx]].
  - pose proof (heap_stable_range N root s (ub_ok _ _ _ s B) x (or_introl Hx)). lia.
  - pose proof (hc_bounds N root _ s HC). unfold in_heap, VIRTUAL_HEAP_START, VIRTUAL_OFFSET, WINDOW_SIZE,
      RAM_ORIGIN, RAM_LENGTH in *. simpl. lia.
  - pose proof (uo_range _ _ (ub_user _ _ _ s B) x Hx). simpl in *. lia.
Qed.

Lemma grown_keep x : in_use R s x → ¬ T x → vbyte s' x = vbyte s x ∧ resolve s' x = resolve s x.
Proof using B SG.
  intros Hx Hn. pose proof (sg_resolve _ _ _ SG x (in_use_range x Hx) Hn) as Hr. split; [|done].
  unfold vbyte. rewrite Hr. destruct (resolve s x) as [pa|] eqn:E; [|done]. destruct Hx as [Hx|[Hx|Hx]].
  - rewrite (static_resolve N root s (ub_ok _ _ _ s B) x Hx) in E. injection E as <-.
    apply (sg_out _ _ _ SG), below_flags; [apply SG|].
    destruct (only_mem_frames _ _ (sg_mem _ _ _ SG)) as [-> _]. unfold static in Hx. lia.
  - destruct (hc_map _ _ _ _ (ub_core _ _ _ s B) x Hx) as (pa' & E' & Hd).
    assert (pa = pa') as -> by congruence. by apply (sg_data _ _ _ SG).
  - destruct (uo_map _ _ (ub_user _ _ _ s B) x Hx) as (pa' & E' & [Hd _]).
    assert (pa = pa') as -> by congruence. by apply (sg_data _ _ _ SG).
Qed.

Lemma grown_heap_ok : heap_ok N root s'.
Proof using B SG.
  pose proof (ub_ok _ _ _ s B) as OK.
  destruct (only_mem_fields _ _ (sg_mem _ _ _ SG)) as (_ & _ & _ & _ & El & Ee & _). pose proof (ho_lo _ _ _ OK).
  split; rewrite ?El, ?Ee; [|apply OK|apply OK|].
  - apply grown_core, OK.
  - transitivity (vload 8 s (free_list s)); [|apply OK]. apply vload_ext. intros i Hi.
    apply grown_keep; [by apply (status_in_use _ _ _ s B)|apply not_low].
    unfold VIRTUAL_HEAP_START, VIRTUAL_OFFSET, RAM_ORIGIN, RAM_LENGTH in *. lia.
Qed.

(** The budget that is left when at most four frames went. *)
Lemma grown_budget j R' : k = S j → (nfree N s ≤ nfree N s' + 4)%nat → user_ok R' s' → user_budget j R' b s'.
Proof using B SG.
  intros Ej Hfree U'. pose proof B as ((OK & Hb & Hn & Hf) & Hk & U).
  destruct (only_mem_fields _ _ (sg_mem _ _ _ SG)) as (_ & _ & _ & _ & El & Ee & _).
  destruct (only_mem_frames _ _ (sg_mem _ _ _ SG)) as [Eb _].
  assert (pages_needed s' b = pages_needed s b) as Ep by (unfold pages_needed, free_size; by rewrite El, Ee).
  split; [split; [exact grown_heap_ok|]|split; [|done]]; rewrite ?Ep, ?Eb; lia.
Qed.
End budget.
End grown.

(** *** A frame that is taken and not used *)

Lemma taken_grown s s' :
  pt_ok N root s → kernel_space (pmem s) root → pt_ok N root s' → only_mem s s' → nfree N s = S (nfree N s') →
  (∀ q, path_ok q → node (pmem s') root q = node (pmem s) root q) →
  (∀ j, frame_free s' j → frame_free s j) →
  (∀ va, sv48 (pmem s') root va = sv48 (pmem s) root va) →
  (∀ va, no_superpage (pmem s) root va → no_superpage (pmem s') root va) →
  agree (λ a, ¬ in_flags N s a) (pmem s) (pmem s') → space_grown nowhere s s'.
Proof.
  intros PT KS PT' M Hn Hnode Hfree Hsv Hno Ha.
  destruct (only_mem_frames _ _ M) as [Eb Ef]. split; try done; try lia.
  - destruct KS as [K1 K2]. split; [intros x Hx Hw; rewrite Hsv; auto|auto].
  - intros x _ _. unfold resolve. rewrite (pt_satp _ _ _ PT), (pt_satp _ _ _ PT'). by rewrite Hsv.
  - intros a Hd. pose proof Hd as [[Hfl Ho] (t & (i & Hi & -> & Hu) & Hp)]. split; [|by apply Ha].
    split; [split|].
    + unfold in_flags in *. by rewrite Eb.
    + intros q t Hq. rewrite Hnode by done. by apply Ho.
    + exists (frame_at s i). split; [|done]. exists i. rewrite Ef. split_and!; try done; try lia.
      intros Hf. by apply Hu, Hfree.
  - eapply agree_mono; [|exact Ha]. intros a [Hfl _]. unfold in_flags in *. by rewrite <- Eb.
Qed.

Lemma take_frame k R b s :
  user_budget (S k) R b s →
  ∃ f s', kalloc_frame s = Done f s' ∧ user_budget k R b s' ∧ keeps (A := user_heap k R) nowhere s s'.
Proof.
  intros B. pose proof (ub_core _ _ _ s B) as HC. pose proof (hc_pt _ _ _ _ HC) as PT.
  assert (0 < nfree N s)%nat as Hn0.
  { destruct B as (_ & Hk & _). unfold pages_needed in Hk. lia. }
  destruct (kalloc_frame_tree N root s PT Hn0)
    as (i & s' & E & PT' & M & Hi & Hf & Hn & Hfree & Hnode & Hsv & Hno & Ha & _).
  assert (space_grown nowhere s s') as SG.
  { apply taken_grown; try done; [apply HC|]. intros j Hj. by apply Hfree. }
  exists (frame_at s i), s'. split; [done|].
  assert (user_budget k R b s') as B'.
  { apply (grown_budget nowhere s s' SG (S k) R b B k); [done|lia|].
    apply (user_ok_ext (λ x, R x ∧ ¬ nowhere x)); [unfold nowhere; tauto|].
    apply (grown_user nowhere s s' SG R HC), B. }
  split; [done|]. destruct (only_mem_frames _ _ M) as [Eb _].
  destruct (only_mem_fields _ _ M) as (_ & _ & _ & _ & El & _ & _ & _ & Ev).
  assert (∀ x, user_stable R s x → vbyte s' x = vbyte s x ∧ resolve s' x = resolve s x) as Hkeep.
  { intros x Hx. apply (grown_keep nowhere s s' SG (S k) R b B); [|by intros []].
    by apply (stable_in_use (S k) R b s B). }
  split; [| | | |done]; cbn; unfold user_stable, user_owned, heap_stable, heap_owned, static; rewrite ?Eb, ?El;
    try done; intros x Hx; try intros _; by apply Hkeep.
Qed.

(** *** A user page *)

Definition with_page (R : Z → Prop) (va x : Z) : Prop := R x ∨ page_of va x.

(** What mapping the page of [va] to a fresh frame does: the page is zero, all other
    memory stays. *)
Record user_page_added (k : nat) (R : Z → Prop) (b va : Z) (s s' : kstate) : Prop := UserPageAdded {
  up_budget : user_budget k (with_page R va) b s';
  up_mem : only_mem s s';
  up_zero : ∀ x, page_of va x → vbyte s' x = 0;
  up_keep : ∀ x, user_stable R s x → ¬ page_of va x → vbyte s' x = vbyte s x ∧ resolve s' x = resolve s x;
  up_other : ∀ x, 0 ≤ x < 2 ^ 64 → ¬ page_of va x → resolve s' x = resolve s x
}.

Section page.
Context (va f : Z) (Hva : 0 ≤ va < 2 ^ 47) (s s' : kstate) (PA : page_added N root va f s s').

Lemma page_range x : page_of va x → 0 ≤ x < 2 ^ 47.
Proof using Hva. unfold page_of. simpl in *. zlia. Qed.

Lemma page_grown : space_grown (page_of va) s s'.
Proof using PA Hva.
  split; try apply PA.
  - pose proof (pa_less _ _ _ _ _ _ PA). lia.
  - exact page_range.
  - intros x Hx Hn. by rewrite (pa_resolve _ _ _ _ _ _ PA), decide_False.
  - intros a Hd. destruct (pa_data _ _ _ _ _ _ PA a Hd) as [Hd' _]. split; [done|].
    apply (pa_out _ _ _ _ _ _ PA), Hd'.
Qed.

Lemma page_resolve_in x : page_of va x → resolve s' x = Some (f + x mod 4096).
Proof using PA Hva.
  intros Hx. pose proof (page_range x Hx). rewrite (pa_resolve _ _ _ _ _ _ PA) by (simpl in *; lia).
  by rewrite decide_True.
Qed.

Lemma page_place x : in_page f (f + x mod 4096).
Proof using Type. clear. unfold in_page, PAGE_SIZE. zlia. Qed.

(** The fresh frame holds no older data. *)
Lemma page_fresh x pa : data_addr N root s pa → pa ≠ f + x mod 4096.
Proof using PA.
  intros Hd ->. destruct (pa_data _ _ _ _ _ _ PA _ Hd) as [_ Hn]. apply Hn, page_place.
Qed.

Lemma page_user_ok R : heap_core N root (virtual_alloc_end s) s → user_ok R s → user_ok (with_page R va) s'.
Proof using PA Hva.
  intros HC U. pose proof (grown_user _ s s' page_grown R HC U) as [O1 O2 O3].
  destruct (only_mem_fields _ _ (pa_mem _ _ _ _ _ _ PA)) as (_ & _ & _ & _ & _ & Ee & _).
  assert (∀ x, with_page R va x → page_of va x ∨ (R x ∧ ¬ page_of va x)) as Hcase.
  { intros x Hx. destruct (decide (x / 4096 = va / 4096)); [by left|]. destruct Hx; [by right|by left]. }
  assert (∀ x y, page_of va x → R y ∧ ¬ page_of va y → resolve s' y = Some (f + x mod 4096) → False) as Hcross.
  { intros x y Hx [Hy Hn] E. rewrite (sg_resolve _ _ _ page_grown) in E by
      (done || (pose proof (uo_range _ _ U y Hy); simpl in *; lia)).
    destruct (uo_map _ _ U y Hy) as (pa & E' & [Hd _]). apply (page_fresh x pa Hd). congruence. }
  split.
  - intros x [Hx|Hx]%Hcase; [by apply page_range|by apply O1].
  - intros x [Hx|Hx]%Hcase; [|by apply O2]. rewrite page_resolve_in by done. eexists. split; [done|]. split.
    + apply (pa_page _ _ _ _ _ _ PA), page_place.
    + intros y. rewrite Ee. intros Hy. rewrite (grown_heap _ s s' page_grown _ y HC Hy). intros E.
      destruct (hc_map _ _ _ _ HC y Hy) as (pa & E' & Hd). apply (page_fresh x pa Hd). congruence.
  - intros x y pa [Hx|Hx]%Hcase [Hy|Hy]%Hcase.
    + rewrite !page_resolve_in by done. unfold page_of in *. intros [= <-] [= E]. zlia.
    + rewrite (page_resolve_in x) by done. intros [= <-] E. by destruct (Hcross x y).
    + rewrite (page_resolve_in y) by done. intros E [= <-]. by destruct (Hcross y x).
    + by apply O3.
Qed.

Lemma page_user_added k R b : user_budget (S k) R b s → user_page_added k R b va s s'.
Proof using Hva PA.
  intros B. pose proof (ub_core _ _ _ s B) as HC. split.
  - apply (grown_budget _ s s' page_grown (S k) R b B k); [done|apply PA|].
    apply page_user_ok; [done|apply B].
  - apply PA.
  - intros x Hx. unfold vbyte. rewrite (page_resolve_in x Hx). apply (pa_zero _ _ _ _ _ _ PA), page_place.
  - intros x Hx. apply (grown_keep _ s s' page_grown (S k) R b B). by apply (stable_in_use (S k) R b s B).
  - apply page_grown.
Qed.
End page.

Lemma add_user_page k R b va s :
  user_budget (S k) R b s → 0 ≤ va < 2 ^ 47 →
  ∃ f s1 s2, kalloc_frame s = Done f s1 ∧ map_page va f 0x1F s1 = Done () s2 ∧
    user_page_added k R b va s s2.
Proof.
  intros B Hva. pose proof B as ((OK & Hb & Hn & Hf) & Hk & U). pose proof (ho_core _ _ _ OK) as HC.
  assert (0 ≤ pages_needed s b) as Hpn by (unfold pages_needed; lia).
  destruct (add_page_done N root va 0x1F s) as (f & s1 & s2 & E1 & _ & E2 & PA);
    [apply HC|apply HC|by apply user_mappable|done|done|lia|].
  exists f, s1, s2. split_and!; try done. by apply (page_user_added va f).
Qed.

(** ** The heap alone *)

(** The heap's own budget is one of a state without user pages, and conversely. *)
Lemma user_none k b s :
  heap_budget N root b s → 4 * (pages_needed s b + Z.of_nat k) ≤ Z.of_nat (nfree N s) →
  user_budget k (λ _, False) b s.
Proof. intros HB Hk. split; [done|]. split; [done|]. by split. Qed.

Lemma heap_stable_low k R b s x : user_budget k R b s → heap_stable s x → ¬ x < 2 ^ 47 ∧ ¬ R x.
Proof.
  intros B Hx. assert (¬ x < 2 ^ 47) as Hge.
  { destruct Hx as [Hx|Hx]; unfold static, in_heap, VIRTUAL_HEAP_START, VIRTUAL_OFFSET, RAM_ORIGIN, RAM_LENGTH in Hx;
      simpl; lia. }
  split; [done|]. intros H. apply Hge. destruct (user_low k R b s B x H). lia.
Qed.

(** What happens next to user pages, seen from the heap: writes below 2^47 are none. *)
Lemma keeps_kernel k R b P Q s s' :
  user_budget k R b s' → keeps (A := user_heap k R) P s s' →
  (∀ x, P x → Q x ∨ x < 2 ^ 47) → keeps (A := kernel_heap N root) Q s s'.
Proof.
  intros B [S1 B1 O1 R1 V1] HP.
  assert (∀ x, heap_stable s x → ¬ x < 2 ^ 47) as Hge.
  { intros x [Hx|Hx]; unfold static, in_heap, VIRTUAL_HEAP_START, VIRTUAL_OFFSET, RAM_ORIGIN, RAM_LENGTH in Hx;
      simpl; lia. }
  assert (∀ x, R x → x < 2 ^ 47) as Hlow by (intros x Hx; destruct (user_low k R b s' B x Hx); lia).
  split; [| | | |done].
  - intros x Hx. destruct (S1 x (or_introl Hx)) as [H|H]; [done|]. by destruct (Hge x Hx (Hlow x H)).
  - intros x Hx Hn. apply B1; [by left|]. intros [H|H]%HP; [done|]. by apply (Hge x Hx).
  - intros x Hx. destruct (O1 x (or_introl Hx)) as [H|H]; [done|].
    by destruct (Hge x (or_intror Hx) (Hlow x H)).
  - intros x Hx. apply R1. by left.
Qed.

Lemma up_kernel k R b va s s' :
  0 ≤ va < 2 ^ 47 → user_page_added k R b va s s' → keeps (A := kernel_heap N root) nowhere s s'.
Proof.
  intros Hva UP. pose proof (up_mem _ _ _ _ _ _ UP) as M. destruct (only_mem_frames _ _ M) as [Eb _].
  destruct (only_mem_fields _ _ M) as (_ & _ & _ & _ & El & _ & _ & _ & Ev).
  assert (∀ x, heap_stable s x → vbyte s' x = vbyte s x ∧ resolve s' x = resolve s x) as Hk.
  { intros x Hx. apply (up_keep _ _ _ _ _ _ UP); [by left|]. intros Hp. apply (page_range va Hva) in Hp.
    destruct Hx as [Hx|Hx]; unfold static, in_heap, VIRTUAL_HEAP_START, VIRTUAL_OFFSET, RAM_ORIGIN, RAM_LENGTH in Hx;
      simpl in Hp; lia. }
  split; [| | | |done]; cbn; unfold heap_stable, heap_owned, static; rewrite ?Eb, ?El; try done; intros x Hx;
    try intros _; by apply Hk.
Qed.
End user.
