(* ===== verification/FrameGap.v ===== *)
(** What ends the contiguous phase of the heap: a frame taken by somebody else.

    Scheduler::submit_new_process (kernel/process/scheduler.cpp) begins with a call of
    kalloc_frame whose result it does not use.  The next page of the heap is then not
    the one behind the last in physical memory, and a device that is given the physical
    address of a block across the two writes to the frame between them. *)

From S2P Require Import Prelude Monad Memory Sv48 Machine Layout Stdio PhysAlloc Paging AddressSpace Heap KAlloc Allocator Client Dma LinearHeap UserSpace.

Section gap.
Context (N : nat) (root : Z).

(** The frame kalloc_frame hands out belongs to no table and to no heap page. *)
Lemma taken_foreign s s1 i x :
  pt_ok N root s → frames_ok N s → only_mem s s1 → 0 ≤ i < Z.of_nat N → frame_free s i →
  (∀ j, frame_free s1 j ↔ frame_free s j ∧ j ≠ i) →
  (∀ q, path_ok q → node (pmem s1) root q = node (pmem s) root q) →
  (∀ va, in_heap (virtual_alloc_end s1) va → ∃ pa, resolve s1 va = Some pa ∧ data_addr N root s pa) →
  0 ≤ x < 4096 → foreign N root s1 (frame_at s i + x).
Proof.
  intros PT FR M Hi Hf Hfree Hnode Hheap Hx. destruct (only_mem_frames _ _ M) as [Eb Ef].
  destruct (fo_bounds _ _ FR) as (B1 & B2 & B3).
  assert (∀ t, used_frame N s t → ¬ in_page t (frame_at s i + x)) as Hne.
  { intros t (j & Hj & -> & Hu) Hp. unfold in_page, PAGE_SIZE, frame_at, FRAME_SIZE in Hp.
    assert (j = i) as -> by lia. done. }
  split; [split; [split|]|].
  - unfold in_flags, frame_at, FRAME_SIZE in *. rewrite Eb. lia.
  - intros q t Hq. rewrite Hnode by done. intros Hn. apply Hne. by apply (pt_alloc _ _ _ PT q).
  - exists (frame_at s i). split; [|unfold in_page, PAGE_SIZE; lia]. exists i. rewrite Ef. split_and!; try done; try lia.
    rewrite Hfree. tauto.
  - intros va Hva E. destruct (Hheap va Hva) as (pa & E' & [_ (t & Ht & Hp)]).
    assert (pa = frame_at s i + x) as -> by congruence. by apply (Hne t).
Qed.

(** C31: when the heap is contiguous and somebody takes a frame, the next block that
    reaches into a new page is not: the last byte of the old page lies directly in front
    of the taken frame, no address of the heap leads into that frame, and so the block
    is not contiguous in physical memory.  A device that is given its physical address
    writes into the taken frame. *)
Theorem taken_frame_breaks_contiguity b s size :
  linear_budget N root b s → SECOND_PAGE < virtual_alloc_end s → 0 ≤ size →
  8 + 4 * pages_needed s size ≤ Z.of_nat (nfree N s) →
  free_list s + 16 < virtual_alloc_end s < free_list s + 16 + size →
  ∃ f s1 p s2, kalloc_frame s = Done f s1 ∧ kalloc size s1 = Done p s2 ∧
    resolve s2 (virtual_alloc_end s - 1) = Some (f - 1) ∧
    (∀ va x, in_heap (virtual_alloc_end s2) va → 0 ≤ x < 4096 → resolve s2 va ≠ Some (f + x)) ∧
    ¬ ∃ pa, contiguous s2 p size pa.
Proof.
  intros (HB & k & L) He Hs Hn Hp. pose proof HB as (OK & Hb & _ & Hf).
  pose proof (ho_core _ _ _ OK) as HC. pose proof (hc_pt _ _ _ _ HC) as PT.
  assert (user_budget N root 1 (λ _, False) 0 s) as B.
  { assert (pages_needed s 0 ≤ 1) as H1 by (pose proof (ho_hi _ _ _ OK); unfold pages_needed, free_size in *; zlia).
    assert (0 ≤ pages_needed s size) as H2 by (unfold pages_needed; lia).
    apply user_none; [split_and!; [done|lia|lia|done]|lia]. }
  destruct (kalloc_frame_tree N root s PT ltac:(unfold pages_needed in Hn; lia))
    as (i & s1 & E1 & PT1 & M1 & Hi & Hfi & Hn1 & Hfree & Hnode & Hsv & Hno & Ha & Hl).
  pose proof (in_order_least N k s i (ln_order _ _ _ _ _ L) Hi Hfi Hl) as ->.
  assert (space_grown N root nowhere s s1) as SG.
  { apply taken_grown; try done; [apply HC|]. intros j Hj. by apply Hfree. }
  pose proof (grown_heap_ok N root nowhere s s1 SG 1 (λ _, False) 0 B) as OK1.
  destruct (only_mem_fields _ _ M1) as (_ & _ & _ & _ & El & Ee & _).
  assert (∀ va, in_heap (virtual_alloc_end s) va → resolve s1 va = resolve s va) as Hr1.
  { intros va Hva. apply (grown_keep N root nowhere s s1 SG 1 (λ _, False) 0 B); [right; by left|by intros []]. }
  assert (pages_needed s1 size = pages_needed s size) as Ep by (unfold pages_needed, free_size; by rewrite El, Ee).
  destruct (kalloc_done N root s1 size OK1 Hs ltac:(lia)) as (s2 & E2 & [OK2 En2 _ _ _ G]).
  pose proof (hg_map _ _ _ _ _ _ G) as Hmap. rewrite Ee in Hmap.
  assert (in_heap (virtual_alloc_end s) (virtual_alloc_end s - 1)) as Hlast
    by (pose proof (ho_lo _ _ _ OK); unfold in_heap; lia).
  assert (resolve s2 (virtual_alloc_end s - 1) = Some (frame_at s k - 1)) as Hlast2.
  { destruct (Hmap _ Hlast) as [_ ->]. rewrite Hr1 by done. rewrite (ln_map _ _ _ _ _ L) by lia. f_equal. lia. }
  assert (∀ va x, in_heap (virtual_alloc_end s2) va → 0 ≤ x < 4096 → resolve s2 va ≠ Some (frame_at s k + x)) as Hforeign.
  { intros va x Hva Hx. apply (hg_foreign _ _ _ _ _ _ G); [|done].
    apply (taken_foreign s s1 k x); try done; [apply PT|]. intros y Hy. rewrite Ee in Hy.
    destruct (hc_map _ _ _ _ HC y Hy) as (pa & E & Hd). exists pa. by rewrite Hr1. }
  exists (frame_at s k), s1, (free_list s1 + 16), s2. split_and!; try done.
  rewrite El. intros [pa C]. set (o := virtual_alloc_end s - (free_list s + 16)) in *.
  pose proof (C (o - 1) ltac:(lia)) as C1. replace (free_list s + 16 + (o - 1)) with (virtual_alloc_end s - 1) in C1 by lia.
  pose proof (C o ltac:(lia)) as C2. assert (pa + o = frame_at s k + 0) as Ef by (rewrite Hlast2 in C1; injection C1; lia).
  rewrite Ef in C2. revert C2. apply Hforeign; [|lia].
  pose proof (ho_lo _ _ _ OK). pose proof (ho_hi _ _ _ OK2). unfold in_heap. lia.
Qed.
End gap.
