(* ===== verification/Process.v ===== *)
(** Processes and the scheduler's list: kernel/process/process.{h,cpp}, the list
    and selection parts of kernel/process/scheduler.{h,cpp}, and switch_to_process of
    kernel/process/process.s.  Loading a program is in Loader.v.

    An object is its address; a field is the bytes at its offset in the class, as
    the rv64 ABI lays the class out.  String literals are addresses in the image,
    given as parameters. *)

From S2P Require Import Prelude Monad Memory Sv48 Machine Layout Stdio Heap KAlloc Allocator Client.

(** * process.cpp *)

(** class Path: path_string at 0. *)
Definition sizeof_Path : Z := 8.

Definition Path_ctor (this path : Z) : K () :=
  size ← strlen_loop path;
  path_buffer ← kalloc size;
  memcpy path_buffer path size;;
  store64 this path_buffer.

Definition Path_copy_into (this buffer : Z) : K () :=
  printf (chars "copying" ++ newline) [];;
  size ← loop (λ size,
    path_string ← load64 this;
    c ← load8 (path_string ⊞ size);
    mret (if c =? 0 then inr size else inl (size ⊞ 1))) 0;
  printf (chars "size: %i" ++ newline) [size];;
  path_string ← load64 this;
  memcpy buffer path_string size;;
  mret ().

(** enum ProcessState { READY, BLOCKED } *)
Definition READY : Z := 0.
Definition BLOCKED : Z := 1.

(** class Process: process_id at 0, state (4 bytes) at 8, current_working_directory
    at 16, stack_pointer at 24, heap_start at 32, entry at 40. *)
Definition sizeof_Process : Z := 48.

(** [home] is the literal "/home/user/". *)
Definition Process_ctor (home this id entry stack heap_start : Z) : K () :=
  store64 this id;;
  store64 (this ⊞ 32) heap_start;;
  store64 (this ⊞ 24) stack;;
  store64 (this ⊞ 40) entry;;
  store32 (this ⊞ 8) READY;;
  path ← operator_new sizeof_Path;
  Path_ctor path home;;
  store64 (this ⊞ 16) path.

Definition Process_is_ready (this : Z) : K bool :=
  state ← load32 (this ⊞ 8); mret (state =? READY).
Definition Process_get_heap_start_address (this : Z) : K Z := load64 (this ⊞ 32).
Definition Process_get_stack_pointer (this : Z) : K Z := load64 (this ⊞ 24).
Definition Process_get_entry_address (this : Z) : K Z := load64 (this ⊞ 40).
Definition Process_get_id (this : Z) : K Z := load64 this.
Definition Process_get_cwd (this : Z) : K Z := load64 (this ⊞ 16).

(** * scheduler.cpp *)

(** struct ProcessListItem: next at 0, prev at 8, process at 16. *)
Definition sizeof_ProcessListItem : nat := 24.
(** class Scheduler: current_process at 0, next_id at 8, first_process at 16. *)
Definition sizeof_Scheduler : Z := 24.

Definition Scheduler_ctor (this : Z) : K () :=
  printf (chars "is in constructor") [];;
  store64 (this ⊞ 8) 0;;
  store64 (this ⊞ 16) 0.

Definition Scheduler_get_instance : K Z :=
  v ← gets vars;
  (if created v then mret ()
   else
     p ← operator_new sizeof_Scheduler;
     Scheduler_ctor p;;
     modify (λ s, set_vars (set_scheduler_instance p (vars s)) s));;
  gets (λ s, scheduler_instance (vars s)).

Definition Scheduler_get_next_process_id (this : Z) : K Z :=
  id ← load64 (this ⊞ 8);
  store64 (this ⊞ 8) (id ⊞ 1);;
  mret id.

(** [while (item->next) item = item->next;] *)
Definition last_item : Z → K (Z + Z) := λ item,
  next ← load64 item;
  mret (if next =? 0 then inr item else inl next).

Definition Scheduler_add_new_process (this process : Z) : K () :=
  newItem ← new_zeroed sizeof_ProcessListItem;
  store64 newItem 0;;
  store64 (newItem ⊞ 16) process;;
  first ← load64 (this ⊞ 16);
  if negb (first =? 0) then
    item ← loop last_item first;
    store64 item newItem;;
    store64 (newItem ⊞ 8) item
  else store64 (this ⊞ 16) newItem.

(** process.s: the registers sret leaves the kernel with. *)
Record user_context := UserContext { uc_pc : Z; uc_sp : Z; uc_a2 : Z }.
Definition switch_to_process (entry stack_pointer heap_start : Z) : K user_context :=
  mret (UserContext entry stack_pointer heap_start).

(** [while (!processItem->process->is_ready())] *)
Definition find_ready : Z → K (Z + Z) := λ item,
  process ← load64 (item ⊞ 16);
  ready ← Process_is_ready process;
  if (ready : bool) then mret (inr item)
  else
    printf (chars "iterating") [];;
    next ← load64 item;
    mret (inl next).

Definition Scheduler_run_next_process (this : Z) : K user_context :=
  first ← load64 (this ⊞ 16);
  processItem ← loop find_ready first;
  process ← load64 (processItem ⊞ 16);
  id ← Process_get_id process;
  log LogLevel.PROCESS (chars "Running next process with id %i") [id];;
  store64 this process;;
  entry ← Process_get_entry_address process;
  stack ← Process_get_stack_pointer process;
  heap ← Process_get_heap_start_address process;
  switch_to_process entry stack heap.

Definition Scheduler_get_running_process (this : Z) : K Z := load64 this.

Section process.
Context `{A : Allocator}.

(** ** Path *)

(** What the constructor leaves in [s']: a fresh copy of the characters. *)
Record path_copied (this pc_buffer : Z) (l : list Z) (s s' : kstate) : Prop := PathCopied {
  pc_string : vload 8 s' this = pc_buffer;
  pc_chars : ∀ i c, l !! i = Some c → vbyte s' (pc_buffer + Z.of_nat i) = c;
  pc_new : ∀ x, range pc_buffer (Z.of_nat (length l)) x → owned s' x ∧ ¬ stable s x;
  pc_keeps : keeps (range this 8) s s';
  pc_alloc : ∃ s1, kalloc (Z.of_nat (length l)) s = Done pc_buffer s1 ∧ only_mem s1 s';
  pc_place : free_list s' = pc_buffer + Z.of_nat (length l)
}.

Lemma wp_Path_ctor b s this path l (Q : () → kstate → Prop) :
  budget b s → Z.of_nat (length l) + 16 ≤ b → cstr s path l → owned_range s this 8 →
  (∀ p s', budget (b - Z.of_nat (length l) - 16) s' → path_copied this p l s s' → Q () s') →
  wp (Path_ctor this path) Q s.
Proof.
  intros Hb Hle C Ho HQ. set (n := Z.of_nat (length l)) in *.
  assert (0 ≤ n) as Hn by lia.
  pose proof (budget_0 b s Hb ltac:(lia)) as Hz. pose proof (cstr_length s path l Hz C) as Hlen.
  unfold Path_ctor. apply wp_bind, (wp_strlen s path l); [done|done|]. fold n.
  destruct (kalloc_fresh b n s Hb Hn Hle) as (p & s1 & E1 & Hb1 & F1). eapply wp_bind_done; [exact E1|].
  apply wp_bind, (wp_memcpy (b - n - 16)); [done|lia|lia|apply F1| |].
  { intros x Hx. assert (stable s x) as Hsx.
    { apply (cs_stable _ _ _ C). unfold range in *. fold n. lia. }
    split; [by apply (kp_stable _ _ _ (fr_keeps _ _ _ _ F1))|].
    intros Hp. by apply (fr_new _ _ _ _ F1 x Hp). }
  intros s2 Hb2 K2 S2 M2 V2.
  assert (owned_range s2 this 8) as Ho2.
  { apply (owned_range_keeps _ s1 _ _ _ K2), (owned_range_keeps _ s _ _ _ (fr_keeps _ _ _ _ F1) Ho). }
  apply (wp_storev 8 (b - n - 16)); [done|lia|exact Ho2|]. intros s3 St.
  pose proof (st_keeps _ _ _ _ _ _ St) as K3.
  assert (∀ x, range p n x → ¬ range this 8 x) as Hsep.
  { intros x Hx Ht. apply (fr_new _ _ _ _ F1 x Hx). by apply owned_stable, Ho. }
  apply (HQ p); [apply St|]. split.
  - apply (stored_exact _ _ _ _ _ _ St). pose proof (fr_pos _ _ _ _ F1).
    change (256 ^ Z.of_nat 8) with (2 ^ 64). lia.
  - intros i c Hi. pose proof (lookup_lt_Some _ _ _ Hi).
    assert (range p n (p + Z.of_nat i)) as Hr by (unfold range, n; lia).
    rewrite (kp_byte _ _ _ K3); [| |by apply Hsep].
    + rewrite V2 by (unfold n; lia). destruct (cs_chars _ _ _ C i c Hi) as [Hc _].
      rewrite (kp_byte _ _ _ (fr_keeps _ _ _ _ F1)); [done| |by intros []].
      apply (cs_stable _ _ _ C). unfold range. lia.
    + apply owned_stable, (kp_owned _ _ _ K2), (fr_owned _ _ _ _ F1). done.
  - intros x Hx. split; [|by apply (fr_new _ _ _ _ F1)].
    apply (kp_owned _ _ _ K3), (kp_owned _ _ _ K2). by apply (fr_owned _ _ _ _ F1).
  - apply (keeps_comp _ _ _ _ _ _ (keeps_fresh _ _ _ _ _ _ F1 K2 ltac:(done)) K3).
    by intros x _ [[]|].
  - exists s1. split; [done|]. etrans; [exact M2|apply St].
  - assert (only_mem s1 s3) as M by (etrans; [exact M2|apply St]).
    destruct (only_mem_fields _ _ M) as (_ & _ & _ & _ & Ef & _).
    etrans; [exact Ef|apply (fr_place _ _ _ _ F1)].
Qed.

(** ** The list of processes *)

(** The items [l], each with its process, linked from [it] on. *)
Fixpoint linked (s : kstate) (it : Z) (l : list (Z * Z)) : Prop :=
  match l with
  | [] => it = 0
  | (i, p) :: l' =>
      it = i ∧ i ≠ 0 ∧ owned_range s i 24 ∧ vload 8 s (i + 16) = p ∧ linked s (vload 8 s i) l'
  end.

Definition apart (i j : Z) : Prop := i + 24 ≤ j ∨ j + 24 ≤ i.

(** The scheduler object [this], with the items [l] and the next id [id]. *)
Record sched_ok (s : kstate) (this : Z) (l : list (Z * Z)) (id : Z) : Prop := SchedOk {
  so_this : owned_range s this 24;
  so_list : linked s (vload 8 s (this + 16)) l;
  so_id : vload 8 s (this + 8) = id;
  so_apart : ∀ a b x y, l !! a = Some x → l !! b = Some y → a ≠ b → apart x.1 y.1;
  so_this_apart : ∀ x, x ∈ l → apart this x.1
}.

Lemma linked_keeps P s s' it l :
  keeps P s s' → (∀ x a, x ∈ l → range x.1 24 a → ¬ P a) → linked s it l → linked s' it l.
Proof.
  intros K. revert it. induction l as [|[i p] l IH]; intros it HP; [done|].
  intros (-> & Hi & Ho & Hp & Hl).
  assert (∀ x, range i 24 x → stable s x ∧ ¬ P x) as Hx.
  { intros x Hr. split; [by apply owned_stable, Ho|]. apply (HP (i, p) x); [by left|done]. }
  assert (vload 8 s' i = vload 8 s i) as H0.
  { apply (vload_keeps 8 P s s' _ K). intros x Hr. apply Hx. unfold range in *. lia. }
  assert (vload 8 s' (i + 16) = vload 8 s (i + 16)) as H16.
  { apply (vload_keeps 8 P s s' _ K). intros x Hr. apply Hx. unfold range in *. lia. }
  cbn [linked]. rewrite H0, H16. split_and!; try done.
  - by apply (owned_range_keeps P s).
  - apply IH; [|done]. intros x a Hin. apply HP. by right.
Qed.

Lemma linked_owned s it l x : linked s it l → x ∈ l → owned_range s x.1 24 ∧ x.1 ≠ 0.
Proof.
  revert it. induction l as [|[i p] l IH]; intros it H Hx; [by apply elem_of_nil in Hx|].
  destruct H as (-> & Hi & Ho & _ & Hl). apply elem_of_cons in Hx as [->|Hx]; [done|by eapply IH].
Qed.

Lemma linked_item s it l j x : linked s it l → l !! j = Some x → vload 8 s (x.1 + 16) = x.2.
Proof.
  revert it j. induction l as [|[i p] l IH]; intros it j H Hj; [done|].
  destruct H as (-> & Hi & Ho & Hp & Hl). destruct j as [|j]; [by injection Hj as <-|by eapply IH].
Qed.

(** From an item to the one behind it. *)
Lemma linked_next s it l j x :
  linked s it l → l !! j = Some x →
  vload 8 s x.1 = from_option fst 0 (l !! S j) ∧ owned_range s x.1 24 ∧ x.1 ≠ 0.
Proof.
  revert it j. induction l as [|[i p] l IH]; intros it j H Hj; [done|].
  destruct H as (-> & Hi & Ho & _ & Hl). destruct j as [|j]; [|by apply (IH (vload 8 s i) j)].
  injection Hj as <-. split; [|done]. cbn [fst]. destruct l as [|[k q] l]; [done|]. by destruct Hl.
Qed.

Lemma linked_first s it l : linked s it l → it = from_option fst 0 (head l).
Proof. destruct l as [|[i p] l]; [done|]. by intros (-> & _). Qed.

(** The walk to the last item. *)
Lemma wp_last_item s it l x (Q : Z → kstate → Prop) :
  budget 0 s → linked s it l → last l = Some x → Z.of_nat (length l) ≤ 2 ^ 64 →
  Q x.1 s → wp (loop last_item it) Q s.
Proof.
  intros Hb Hl Hx Hlen HQ.
  apply (wp_loop_left last_item (λ n it s', s' = s ∧ ∃ j y,
    length l = (S j + n)%nat ∧ l !! j = Some y ∧ it = y.1) _ (pred (length l))).
  - intros n it' s' (-> & j & y & Hj & Hy & ->). unfold last_item.
    destruct (linked_next s it l j y Hl Hy) as (En & Ho & _).
    apply wp_bind, wp_load64; [done|by intros z Hz; apply owned_stable, Ho; unfold range in *; lia|].
    rewrite En. apply wp_ret. destruct n as [|n].
    + rewrite (lookup_ge_None_2 l (S j)) by lia. cbn.
      rewrite last_lookup, Hj, Nat.add_0_r in Hx. cbn in Hx. by simplify_eq.
    + destruct (lookup_lt_is_Some_2 l (S j)) as [z Hz]; [lia|].
      destruct (linked_next s it l (S j) z Hl Hz) as (_ & _ & Hz0). rewrite Hz. cbn.
      rewrite (proj2 (Z.eqb_neq _ _) Hz0). exists n. split; [done|]. split; [done|].
      exists (S j), z. split_and!; [lia|done|done].
  - destruct l as [|y l]; [done|]. split; [done|]. exists 0%nat, y.
    split_and!; [done|done|]. by rewrite (linked_first _ _ _ Hl).
  - destruct l; simpl in *; lia.
Qed.

(** Appending an item [i] that the old last item now points to. *)
Lemma linked_snoc P s s' it l i p :
  keeps P s s' → linked s it l → (∀ x a, x ∈ l → range (x.1 + 8) 16 a → ¬ P a) →
  (∀ j x, l !! j = Some x →
     vload 8 s' x.1 = if decide (S j = length l) then i else vload 8 s x.1) →
  i ≠ 0 → owned_range s' i 24 → vload 8 s' (i + 16) = p → vload 8 s' i = 0 →
  linked s' (if decide (l = []) then i else it) (l ++ [(i, p)]).
Proof.
  intros K Hl HP Hn Hi Ho Hp H0. revert it Hl HP Hn. induction l as [|[k q] l IH]; intros it Hl HP Hn.
  - by cbn.
  - rewrite decide_False by done. destruct Hl as (-> & Hk & Hok & Hq & Hl). cbn [linked app].
    split_and!; [done|done|by apply (owned_range_keeps P s)| |].
    + rewrite <- Hq. apply (vload_keeps 8 P s s' _ K). intros x Hx. split.
      * apply owned_stable, Hok. unfold range in *. lia.
      * apply (HP (k, q) x); [by left|]. unfold range in *. cbn. lia.
    + pose proof (Hn 0%nat (k, q) eq_refl) as E. cbn [length fst] in E. rewrite E.
      replace (if decide (1%nat = S (length l)) then i else vload 8 s k)
        with (if decide (l = []) then i else vload 8 s k).
      * apply IH; [done| |].
        { intros x a Hx. apply HP. by right. }
        { intros j x Hj. rewrite (Hn (S j) x Hj). cbn [length].
          destruct (decide (S j = length l)), (decide (S (S j) = S (length l))); done || lia. }
      * destruct l; repeat case_decide; simpl in *; try done; lia.
Qed.

Lemma apart_new s i j :
  (∀ y, range i 24 y → ¬ stable s y) → owned_range s j 24 → apart i j.
Proof.
  intros Hnew Ho. unfold apart. destruct (decide (i + 24 ≤ j)); [by left|].
  destruct (decide (j + 24 ≤ i)); [by right|]. exfalso.
  destruct (decide (i ≤ j)).
  - apply (range_new s i 24 j 24 j Hnew Ho); unfold range; lia.
  - apply (range_new s i 24 j 24 i Hnew Ho); unfold range; lia.
Qed.

(** A new list item with its process, before it is linked. *)
Record new_item (b : Z) (s : kstate) (process item : Z) (s' : kstate) : Prop := NewItem {
  ni_budget : budget b s';
  ni_pos : 0 < item < 2 ^ 64 - 24;
  ni_owned : owned_range s' item 24;
  ni_new : ∀ x, range item 24 x → ¬ stable s x;
  ni_keeps : keeps nowhere s s';
  ni_place : item = free_list s + 16;
  ni_header : (∀ x, range (free_list s) 16 x → stable s' x ∧ ¬ stable s x) ∧
    vload 8 s' (free_list s) = Z.of_nat sizeof_ProcessListItem;
  ni_next : vload 8 s' item = 0;
  ni_prev : vload 8 s' (item + 8) = 0;
  ni_process : vload 8 s' (item + 16) = process
}.

Lemma wp_new_item {B} b s process (k : Z → K B) (Q : B → kstate → Prop) :
  budget b s → 40 ≤ b → 0 ≤ process < 2 ^ 64 →
  (∀ item s', new_item (b - 40) s process item s' → wp (k item) Q s') →
  wp (newItem ← new_zeroed sizeof_ProcessListItem;
      store64 newItem 0;; store64 (newItem ⊞ 16) process;; k newItem) Q s.
Proof.
  intros Hb Hle Hp HQ. apply wp_bind, (wp_new_zeroed b); [done|unfold sizeof_ProcessListItem; lia|].
  intros item s1 Hb1 F1 Z1. change (Z.of_nat sizeof_ProcessListItem) with 24 in *.
  replace (b - 24 - 16) with (b - 40) in Hb1 by lia.
  assert (owned_range s1 item 24) as Ho by exact (fr_owned _ _ _ _ F1). pose proof (fr_pos _ _ _ _ F1) as Hpos.
  apply wp_bind, (wp_storev 8 (b - 40)); [done|lia| |].
  { intros x Hx. apply Ho. unfold range in *. lia. }
  intros s2 St2. pose proof (st_keeps _ _ _ _ _ _ St2) as K2.
  pose proof (owned_range_keeps _ s1 s2 item 24 K2 Ho) as Ho2.
  apply wp_bind, (wp_store_field 8 (b - 40) s2 item 24 16); [apply St2|lia|done|lia|lia|lia|].
  intros s3 St3 Ho3. pose proof (st_keeps _ _ _ _ _ _ St3) as K3.
  assert (∀ x, range item 24 x → stable s1 x ∧ stable s2 x) as Hst.
  { intros x Hx. split; apply owned_stable; [by apply Ho|by apply Ho2]. }
  apply HQ. split.
  - apply St3.
  - lia.
  - done.
  - exact (fr_new _ _ _ _ F1).
  - eapply (keeps_fresh (range item 24)); [exact F1| |done].
    eapply keeps_trans; eapply keeps_mono; [|exact K2| |exact K3]; unfold range; intros; lia.
  - apply (fr_place _ _ _ _ F1).
  - pose proof (proj1 (fr_place _ _ _ _ F1)) as Ei. destruct (fr_header _ _ _ _ F1) as [HD HS].
    replace (item - 16) with (free_list s) in HD, HS by lia. split.
    + intros x Hx. destruct (HD x Hx). split; [|done]. by apply (kp_stable _ _ _ K3), (kp_stable _ _ _ K2).
    + rewrite (vload_keeps 8 _ s2 s3 _ K3), (vload_keeps 8 _ s1 s2 _ K2); [exact HS|..]; intros x Hx;
        change (Z.of_nat 8) with 8 in *; (split; [|unfold range in *; lia]); [|apply (kp_stable _ _ _ K2)]; apply HD; unfold range in *; lia.
  - rewrite (vload_keeps 8 _ s2 s3 item K3).
    + rewrite (st_value _ _ _ _ _ _ St2). done.
    + intros x Hx. split; [apply Hst|]; unfold range in *; lia.
  - rewrite (vload_keeps 8 _ s2 s3 _ K3), (vload_keeps 8 _ s1 s2 _ K2).
    + apply vload_zero. intros x Hx. apply Z1. unfold range in *. lia.
    + intros x Hx. split; [apply Hst|]; unfold range in *; lia.
    + intros x Hx. split; [apply Hst|]; unfold range in *; lia.
  - by apply (stored_exact _ _ _ _ _ _ St3).
Qed.

(** What add_new_process writes of the older memory. *)
Definition list_end (this : Z) (l : list (Z * Z)) (x : Z) : Prop :=
  match last l with
  | Some y => range y.1 8 x
  | None => range (this + 16) 8 x
  end.

Record appended (b : Z) (s : kstate) (this : Z) (l : list (Z * Z)) (id process item : Z)
    (s' : kstate) : Prop := Appended {
  ap_budget : budget b s';
  ap_sched : sched_ok s' this (l ++ [(item, process)]) id;
  ap_prev : vload 8 s' (item + 8) = from_option fst 0 (last l);
  ap_new : ∀ x, range item 24 x → ¬ stable s x;
  ap_keeps : keeps (list_end this l) s s';
  ap_header : (∀ x, range (free_list s) 16 x → stable s' x ∧ ¬ stable s x) ∧
    vload 8 s' (free_list s) = Z.of_nat sizeof_ProcessListItem
}.

Lemma sched_ok_apart_snoc s this l id item process :
  sched_ok s this l id → (∀ x, range item 24 x → ¬ stable s x) →
  (∀ a b x y, (l ++ [(item, process)]) !! a = Some x → (l ++ [(item, process)]) !! b = Some y →
     a ≠ b → apart x.1 y.1) ∧ (∀ x, x ∈ l ++ [(item, process)] → apart this x.1).
Proof.
  intros OK Hnew.
  assert (∀ x, x ∈ l → apart item x.1) as Hi.
  { intros x Hx. apply (apart_new s); [done|]. eapply linked_owned; [apply OK|done]. }
  assert (∀ i j, apart i j → apart j i) as Hsym by (unfold apart; tauto). split.
  - intros a b x y Ha Hb Hab. apply lookup_snoc_Some in Ha, Hb.
    destruct Ha as [[Ha Hx]|[-> <-]], Hb as [[Hb Hy]|[-> <-]].
    + by apply (so_apart _ _ _ _ OK a b).
    + apply Hsym, Hi. by eapply list_elem_of_lookup_2.
    + apply Hi. by eapply list_elem_of_lookup_2.
    + done.
  - intros x [Hx|Hx%list_elem_of_singleton]%elem_of_app.
    + by apply (so_this_apart _ _ _ _ OK).
    + subst. apply Hsym, (apart_new s); [done|apply OK].
Qed.

Section list_end.
Context (s : kstate) (this : Z) (l : list (Z * Z)) (id : Z) (OK : sched_ok s this l id).

Lemma item_owned x : x ∈ l → owned_range s x.1 24.
Proof using OK. intros Hx. eapply linked_owned; [apply OK|done]. Qed.

Lemma list_end_cases z :
  list_end this l z →
  (l = [] ∧ range (this + 16) 8 z) ∨ ∃ y, l !! pred (length l) = Some y ∧ range y.1 8 z.
Proof using Type.
  unfold list_end. rewrite <- last_lookup. destruct (last l) as [y|] eqn:El; [eauto|].
  apply last_None in El. auto.
Qed.

Lemma list_end_owned z : list_end this l z → owned s z.
Proof using OK.
  intros [[-> Hz]|(y & Hy & Hz)]%list_end_cases.
  - apply (so_this _ _ _ _ OK). unfold range in *. lia.
  - apply list_elem_of_lookup_2 in Hy. apply (item_owned y Hy). unfold range in *. lia.
Qed.

Lemma list_end_item j x z :
  l !! j = Some x → range x.1 24 z → S j ≠ length l ∨ range (x.1 + 8) 16 z → ¬ list_end this l z.
Proof using OK.
  intros Hj Hz Hor [[-> Hz']|(y & Hy & Hz')]%list_end_cases; [done|].
  destruct (decide (j = pred (length l))) as [->|Hne].
  - apply lookup_lt_Some in Hj as Hlt. destruct Hor as [Hne|Hr]; [lia|].
    simplify_eq. unfold range in *. lia.
  - pose proof (so_apart _ _ _ _ OK _ _ _ _ Hj Hy Hne). unfold apart, range in *. lia.
Qed.

Lemma list_end_this z : range this 24 z → l ≠ [] ∨ range this 16 z → ¬ list_end this l z.
Proof using OK.
  intros Hz Hor [[-> Hz']|(y & Hy & Hz')]%list_end_cases.
  - destruct Hor; [done|]. unfold range in *. lia.
  - apply list_elem_of_lookup_2 in Hy. pose proof (so_this_apart _ _ _ _ OK _ Hy).
    unfold apart, range in *. lia.
Qed.
End list_end.

(** The scheduler after the item has been linked, from what the last stores did. *)
Lemma appended_intro b s s1 s' this l id process item :
  sched_ok s this l id → new_item b s process item s1 →
  keeps (λ x, list_end this l x ∨ range (item + 8) 8 x) s1 s' → budget b s' →
  vload 8 s' (item + 8) = from_option fst 0 (last l) →
  (∀ y, last l = Some y → vload 8 s' y.1 = item) → (l = [] → vload 8 s' (this + 16) = item) →
  appended b s this l id process item s'.
Proof.
  intros OK NI K Hb Hprev Hlast Hfirst. pose proof NI as [_ Hpos Ho1 Hnew K0' Hpl [HD HS] N1 _ P1].
  pose proof (keeps_mono nowhere (list_end this l) s s1 ltac:(by intros ?) K0') as K0.
  destruct (sched_ok_apart_snoc s this l id item process OK Hnew) as [HA HT].
  assert (keeps (list_end this l) s s') as K1.
  { apply (keeps_comp _ _ _ s s1 s' K0 K). intros x Hx [H|[H|H]]; [done|done|].
    exfalso. apply (Hnew x); [|done]. unfold range in *. lia. }
  assert (∀ z, range item 24 z → ¬ list_end this l z) as Hend.
  { intros z Hz Hl. apply (Hnew z Hz), owned_stable, (list_end_owned s this l id OK z Hl). }
  assert (∀ a, a = 0 ∨ a = 16 → vload 8 s' (item + a) = vload 8 s1 (item + a)) as Hitem.
  { intros a Ha. apply (vload_keeps 8 _ s1 s' _ K). intros z Hz.
    assert (range item 24 z) as Hz' by (unfold range in *; lia).
    split; [by apply owned_stable, Ho1|]. intros [Hl|Hl]; [by apply (Hend z)|].
    unfold range in *. lia. }
  assert (∀ a, a = 8 ∨ a = 16 ∧ l ≠ [] → vload 8 s' (this + a) = vload 8 s (this + a)) as Hthis.
  { intros a Ha. apply (vload_keeps 8 _ s s' _ K1). intros z Hz.
    assert (range this 24 z) as Hz' by (unfold range in *; lia).
    split; [by apply owned_stable, (so_this _ _ _ _ OK)|]. apply (list_end_this s _ _ _ OK); [done|].
    destruct Ha as [->|[-> ?]]; [right; unfold range in *; lia|by left]. }
  pose proof (Hitem 0 ltac:(by left)) as Hi0. rewrite Z.add_0_r in Hi0.
  split; try done; cycle 1.
  { split; [intros x Hx; split; [apply (kp_stable _ _ _ K)|]; by apply HD|].
    rewrite (vload_keeps 8 _ s1 s' _ K); [exact HS|]. intros x Hx. change (Z.of_nat 8) with 8 in Hx.
    destruct (HD x) as [H1 H2]; [unfold range in *; lia|]. split; [done|]. intros [Hl|Hl]; [|unfold range in *; lia].
    by apply H2, owned_stable, (list_end_owned s this l id OK). }
  split; [| | |exact HA|exact HT].
  - by apply (owned_range_keeps _ _ _ _ _ K1), (so_this _ _ _ _ OK).
  - replace (vload 8 s' (this + 16)) with (if decide (l = []) then item else vload 8 s (this + 16)).
    + apply (linked_snoc (list_end this l) s); [done|apply OK| | |lia| | |].
      * intros x z [j Hj]%list_elem_of_lookup Hz. apply (list_end_item s _ _ _ OK j x); [done| |by right].
        unfold range in *. lia.
      * intros j x Hj. case_decide as Hd.
        { apply Hlast. rewrite last_lookup. by replace (pred (length l)) with j by lia. }
        apply (vload_keeps 8 _ s s' _ K1). intros z Hz.
        assert (range x.1 24 z) as Hz' by (unfold range in *; lia). split.
        { apply owned_stable, (item_owned s _ _ _ OK x); [by eapply list_elem_of_lookup_2|done]. }
        { apply (list_end_item s _ _ _ OK j x); [done|done|by left]. }
      * by apply (owned_range_keeps _ _ _ _ _ K).
      * by rewrite Hitem by tauto.
      * by rewrite Hi0.
    + case_decide as Hd; [by rewrite Hfirst|]. by rewrite Hthis by tauto.
  - rewrite Hthis by tauto. apply OK.
Qed.

(** The list as the code finds it once the new item exists. *)
Lemma linked_still b s s1 this l id process item :
  sched_ok s this l id → new_item b s process item s1 →
  owned_range s1 this 24 ∧ linked s1 (vload 8 s1 (this + 16)) l.
Proof.
  intros OK [_ _ _ _ K1 _ _ _ _ _]. split; [apply (owned_range_keeps _ _ _ _ _ K1), OK|].
  rewrite (vload_keeps 8 _ s s1 _ K1).
  - apply (linked_keeps nowhere s); [done|by intros ? ? _ _ []|apply OK].
  - intros z Hz. split; [|by intros []]. apply owned_stable, (so_this _ _ _ _ OK). unfold range in *. lia.
Qed.

(** The item goes behind the last one. *)
Lemma wp_append_behind b s s1 this l id process item y :
  budget b s → 0 ≤ b → sched_ok s this l id → new_item b s process item s1 → last l = Some y →
  wp (store64 y.1 item;; store64 (item ⊞ 8) y.1) (λ _ s', appended b s this l id process item s') s1.
Proof.
  intros Hb Hb0 OK NI El. pose proof NI as [Hb1 Hpos Ho1 Hnew K1 _ _ _ _ _].
  assert (y ∈ l) as Hy by by apply last_Some_elem_of. pose proof (item_owned s this l id OK y Hy) as Hoy.
  assert (owned_range s1 y.1 24) as Hoy1 by by apply (owned_range_keeps _ _ _ _ _ K1).
  apply wp_bind, (wp_storev 8 b); [done|lia| |].
  { intros z Hz. apply Hoy1. unfold range in *. lia. }
  intros s2 St2. pose proof (st_keeps _ _ _ _ _ _ St2) as K2.
  apply (wp_store_field 8 b s2 item 24 8); [apply St2|lia| |lia|lia|lia|].
  { by apply (owned_range_keeps _ _ _ _ _ K2). }
  intros s3 St3 _. pose proof (st_keeps _ _ _ _ _ _ St3) as K3.
  assert (0 ≤ y.1 < 2 ^ 64) as Hy64.
  { assert (stable s y.1) as Hs by (apply owned_stable, Hoy; unfold range; lia).
    pose proof (stable_range s y.1 (budget_0 b s Hb ltac:(lia)) Hs). lia. }
  apply (appended_intro _ s s1); try done.
  - eapply keeps_trans; eapply keeps_mono; [|exact K2| |exact K3]; intros z Hz; [left|by right].
    unfold list_end. by rewrite El.
  - apply St3.
  - rewrite El. by apply (stored_exact _ _ _ _ _ _ St3).
  - intros y' Hy'. assert (y' = y) as -> by congruence. rewrite (vload_keeps 8 _ s2 s3 _ K3).
    + apply (stored_exact _ _ _ _ _ _ St2). change (256 ^ Z.of_nat 8) with (2 ^ 64). lia.
    + intros z Hz. assert (range y.1 24 z) as Hz' by (unfold range in *; lia). split.
      * by apply owned_stable, (kp_owned _ _ _ K2), Hoy1.
      * intros Hr. apply (range_new s item 24 y.1 24 z Hnew Hoy Hz'). unfold range in *. lia.
  - intros ->. done.
Qed.

(** The item is the first one. *)
Lemma wp_append_first b s s1 this id process item :
  0 ≤ b → sched_ok s this [] id → new_item b s process item s1 →
  wp (store64 (this ⊞ 16) item) (λ _ s', appended b s this [] id process item s') s1.
Proof.
  intros Hb0 OK NI. pose proof NI as [Hb1 Hpos Ho1 Hnew K1 _ _ _ Pr1 _].
  apply (wp_store_field 8 b s1 this 24 16); [done|lia|by apply (linked_still b s s1 this [] id process item)|lia|lia|lia|].
  intros s2 St2 _. pose proof (st_keeps _ _ _ _ _ _ St2) as K2. apply (appended_intro _ s s1); try done.
  - eapply keeps_mono; [|exact K2]. intros z Hz. by left.
  - apply St2.
  - rewrite (vload_keeps 8 _ s1 s2 _ K2); [done|]. intros z Hz.
    assert (range item 24 z) as Hz' by (unfold range in *; lia).
    split; [by apply owned_stable, Ho1|]. intros Hr.
    apply (range_new s item 24 this 24 z Hnew (so_this _ _ _ _ OK)); [|done]. unfold range in *. lia.
  - intros _. apply (stored_exact _ _ _ _ _ _ St2). change (256 ^ Z.of_nat 8) with (2 ^ 64). lia.
Qed.

Lemma add_new_process_spec b s this l id process :
  budget b s → 40 ≤ b → 0 ≤ process < 2 ^ 64 → sched_ok s this l id →
  Z.of_nat (length l) ≤ 2 ^ 64 →
  wp (Scheduler_add_new_process this process)
     (λ _ s', ∃ item, appended (b - 40) s this l id process item s') s.
Proof.
  intros Hb Hle Hp OK Hlen. unfold Scheduler_add_new_process.
  apply (wp_new_item b); [done|done|done|]. intros item s1 NI. pose proof (ni_budget _ _ _ _ _ NI) as Hb1.
  destruct (linked_still _ s s1 this l id process item OK NI) as [Ht1 L1].
  apply wp_bind, (wp_load64_field (b - 40) s1 this 24 16); [done|lia|done|lia|lia|].
  destruct (last l) as [y|] eqn:El.
  - assert (vload 8 s1 (this + 16) ≠ 0) as Hnz.
    { rewrite (linked_first _ _ _ L1). destruct l as [|[k q] l']; [done|]. by destruct L1 as (_ & ? & _). }
    rewrite (proj2 (Z.eqb_neq _ _) Hnz). cbn [negb].
    apply wp_bind, (wp_last_item s1 _ l y); [apply (budget_0 (b - 40)); [done|lia]|done|done|done|].
    eapply wp_mono; [apply (wp_append_behind (b - 40) s s1 this l id process item y)|]; try done; [|lia|by intros [] s' H; exists item].
    apply (budget_weaken b); [done|lia].
  - apply last_None in El as ->. rewrite L1. cbn [negb Z.eqb].
    eapply wp_mono; [apply (wp_append_first (b - 40) s s1 this id process item)|]; try done; [lia|by intros [] s' H; exists item].
Qed.

(** ** Choosing the next process *)

(** A process object, field by field. *)
Record pcb := Pcb {
  pcb_id : Z; pcb_state : Z; pcb_cwd : Z; pcb_stack : Z; pcb_heap : Z; pcb_entry : Z
}.

Record process_at (s : kstate) (p : Z) (r : pcb) : Prop := ProcessAt {
  pa_owned : owned_range s p 48;
  pa_id : vload 8 s p = pcb_id r;
  pa_state : vload 4 s (p + 8) = pcb_state r;
  pa_cwd : vload 8 s (p + 16) = pcb_cwd r;
  pa_stack : vload 8 s (p + 24) = pcb_stack r;
  pa_heap : vload 8 s (p + 32) = pcb_heap r;
  pa_entry : vload 8 s (p + 40) = pcb_entry r
}.

Lemma process_at_keeps P s s' p r :
  keeps P s s' → (∀ x, range p 48 x → ¬ P x) → process_at s p r → process_at s' p r.
Proof.
  intros K HP [Ho H0 H8 H16 H24 H32 H40].
  assert (∀ k i, 0 ≤ i → i + Z.of_nat k ≤ 48 → vload k s' (p + i) = vload k s (p + i)) as Hv.
  { intros k i Hi Hk. apply (vload_keeps k P s s' _ K). intros x Hx.
    assert (range p 48 x) as Hr by (unfold range in *; lia).
    split; [by apply owned_stable, Ho|by apply HP]. }
  pose proof (Hv 8%nat 0 ltac:(lia) ltac:(lia)) as E0. rewrite Z.add_0_r in E0.
  split; [by apply (owned_range_keeps _ _ _ _ _ K)|by rewrite E0|..]; by rewrite Hv by lia.
Qed.

Lemma sched_ok_keeps P s s' this l id :
  keeps P s s' → (∀ x, range (this + 8) 16 x → ¬ P x) →
  (∀ y x, y ∈ l → range y.1 24 x → ¬ P x) → sched_ok s this l id → sched_ok s' this l id.
Proof.
  intros K HP HI [Ho Hl Hid HA HT].
  assert (∀ i, i = 8 ∨ i = 16 → vload 8 s' (this + i) = vload 8 s (this + i)) as Hv.
  { intros i Hi. apply (vload_keeps 8 P s s' _ K). intros x Hx. split.
    - apply owned_stable, Ho. unfold range in *. lia.
    - apply HP. unfold range in *. lia. }
  split; [by apply (owned_range_keeps _ _ _ _ _ K)| |by rewrite Hv by lia|done|done].
  rewrite Hv by lia. by apply (linked_keeps P s).
Qed.

(** The scheduler and the process objects behind its list. *)
Record scheduled (s : kstate) (this : Z) (l : list (Z * Z)) (id : Z) (rs : list pcb) : Prop := Scheduled {
  sc_ok : sched_ok s this l id;
  sc_procs : Forall2 (λ x r, process_at s x.2 r) l rs;
  sc_this : ∀ x, x ∈ l → disjoint_range x.2 48 this 24
}.

Lemma scheduled_keeps P s s' this l id rs :
  keeps P s s' → (∀ x, P x → range this 8 x) → scheduled s this l id rs → scheduled s' this l id rs.
Proof.
  intros K HP [OK HF HT]. split; [| |done].
  - apply (sched_ok_keeps P s); [done| | |done].
    + intros x Hx Hpx%HP. unfold range in *. lia.
    + intros y x Hy Hx Hpx%HP. pose proof (so_this_apart _ _ _ _ OK y Hy).
      unfold apart, range in *. lia.
  - apply Forall2_same_length_lookup_2; [by eapply Forall2_length|].
    intros i x r Hx Hr. pose proof (Forall2_lookup_lr _ _ _ _ _ _ HF Hx Hr).
    apply (process_at_keeps P s); [done| |done]. intros z Hz Hpz%HP.
    apply list_elem_of_lookup_2 in Hx. apply (HT x Hx z Hz). unfold range in *. lia.
Qed.

(** The first call of get_instance makes the scheduler, without processes. *)
Lemma wp_first_instance b s (Q : Z → kstate → Prop) :
  budget b s → 40 ≤ b → created (vars s) = false →
  (∀ this s', budget (b - 40) s' → scheduled s' this [] 0 [] → scheduler_instance (vars s') = this →
     keeps nowhere (set_vars (set_scheduler_instance this (vars s)) s) s' → console_more s s' →
     (∀ x, range this 24 x → ¬ stable s x) → Q this s') →
  wp Scheduler_get_instance Q s.
Proof.
  intros Hb Hle Hc HQ. unfold Scheduler_get_instance. apply wp_bind, wp_gets. rewrite Hc.
  unfold operator_new, Scheduler_ctor, sizeof_Scheduler.
  apply wp_bind, wp_bind, (wp_kalloc b); [done|lia|lia|]. intros p s1 Hb1 F1.
  replace (b - 24 - 16) with (b - 40) in Hb1 by lia. apply wp_bind, wp_bind, wp_printf; [done|]. intros o.
  set (s2 := emit o s1). pose proof (owned_range_keeps _ _ _ _ _ (keeps_emit nowhere o s1) (fr_owned _ _ _ _ F1)) as O2.
  assert (budget (b - 40) s2) as Hb2 by by apply budget_emit.
  apply wp_bind, (wp_store_field 8 (b - 40) s2 p 24 8); [done|lia|exact O2|lia..|]. intros s3 T3 O3.
  apply (wp_store_field 8 (b - 40) s3 p 24 16); [apply T3|lia|exact O3|lia..|]. intros s4 T4 O4.
  apply wp_modify, wp_gets.
  assert (keeps nowhere s s4) as K.
  { apply (keeps_fresh (range p 24) 24 p s s1); [done| |done].
    eapply keeps_trans; [apply keeps_emit|]. eapply keeps_comp; [apply T3|apply T4|]. intros x _. unfold range. lia. }
  pose proof (same_mem_vars (set_scheduler_instance p (vars s4)) s4) as SM.
  assert (∀ k va, vload k (set_vars (set_scheduler_instance p (vars s4)) s4) va = vload k s4 va) as Hv.
  { intros k va. apply vload_ext. intros i _. symmetry. by apply vbyte_proper. }
  apply (HQ p); [by rewrite <- (budget_proper _ _ _ SM); apply T4| |done| | |exact (fr_new _ _ _ _ F1)].
  - split; [|constructor|by intros x ?%elem_of_nil]. split.
    + intros x Hx. rewrite <- (owned_proper _ _ SM x x eq_refl). by apply O4.
    + cbn [linked]. rewrite Hv. by apply (stored_exact _ _ _ _ _ _ T4).
    + rewrite Hv. rewrite (field_kept _ 24 8 16 _ _ _ p 8 8 T4 O3) by lia. by apply (stored_exact _ _ _ _ _ _ T3).
    + intros ? ? ? ? Hl. by rewrite lookup_nil in Hl.
    + by intros x ?%elem_of_nil.
  - rewrite (kp_vars _ _ _ K). by apply keeps_vars.
  - etrans; [exact (proj2 (fr_log _ _ _ _ F1))|]. etrans; [apply console_more_emit|].
    etrans; [apply only_mem_more, T3|]. exact (only_mem_more _ _ (st_only _ _ _ _ _ _ T4)).
Qed.

Lemma scheduled_at s this l id rs j x r :
  scheduled s this l id rs → l !! j = Some x → rs !! j = Some r →
  process_at s x.2 r ∧ owned_range s x.1 24 ∧ vload 8 s (x.1 + 16) = x.2 ∧
  vload 8 s x.1 = from_option fst 0 (l !! S j).
Proof.
  intros [OK HF _] Hx Hr. destruct (linked_next _ _ _ _ _ (so_list _ _ _ _ OK) Hx) as (E & Ho & _).
  split_and!; [exact (Forall2_lookup_lr _ _ _ _ _ _ HF Hx Hr)|done| |done].
  by apply (linked_item _ _ _ _ _ (so_list _ _ _ _ OK) Hx).
Qed.

(** is_ready of the process behind an item. *)
Lemma wp_item_ready {B} b s this l id rs j x r (k : bool → K B) (Q : B → kstate → Prop) :
  budget b s → 0 ≤ b → scheduled s this l id rs → l !! j = Some x → rs !! j = Some r →
  wp (k (pcb_state r =? READY)) Q s →
  wp (process ← load64 (x.1 ⊞ 16); ready ← Process_is_ready process; k ready) Q s.
Proof.
  intros Hb Hb0 SC Hx Hr HQ. destruct (scheduled_at _ _ _ _ _ _ _ _ SC Hx Hr) as (PA & Ho & Ep & _).
  apply wp_bind, (wp_load64_field b s x.1 24 16); [done|done|done|lia|lia|]. rewrite Ep.
  apply wp_bind. unfold Process_is_ready.
  apply wp_bind, (wp_load_field 4 b s x.2 48 8); [done|done|apply PA|lia|lia|lia|].
  apply wp_ret. by rewrite (pa_state _ _ _ PA).
Qed.

(** The loop stops at the first item whose process is ready. *)
Lemma wp_find_ready b s this l id rs j x (Q : Z → kstate → Prop) :
  budget b s → 0 ≤ b → scheduled s this l id rs → l !! j = Some x →
  pcb_state <$> rs !! j = Some READY → (∀ i r, (i < j)%nat → rs !! i = Some r → pcb_state r ≠ READY) →
  Z.of_nat (length l) ≤ 2 ^ 64 →
  (∀ s', budget b s' → keeps nowhere s s' → scheduled s' this l id rs → Q x.1 s') →
  wp (loop find_ready (vload 8 s (this + 16))) Q s.
Proof.
  intros Hb Hb0 SC Hx Hj Hbefore Hlen HQ.
  apply (wp_loop_left find_ready (λ n it s', budget b s' ∧ keeps nowhere s s' ∧
    scheduled s' this l id rs ∧ ∃ i y, (i + n = j)%nat ∧ l !! i = Some y ∧ it = y.1) _ j).
  - intros n it s' (Hb' & K & SC' & i & y & Hi & Hy & ->). unfold find_ready.
    assert (is_Some (rs !! i)) as [r Hr].
    { apply lookup_lt_is_Some_2. rewrite <- (Forall2_length _ _ _ (sc_procs _ _ _ _ _ SC')).
      by apply lookup_lt_Some in Hy. }
    apply (wp_item_ready b s' this l id rs i y r); [done|done|done|done|done|].
    destruct n as [|n].
    + rewrite Nat.add_0_r in Hi. subst i. rewrite Hr in Hj. injection Hj as Hj. rewrite Hj. cbn.
      assert (y = x) as -> by congruence. apply wp_ret. by apply HQ.
    + rewrite (proj2 (Z.eqb_neq _ _)) by (apply (Hbefore i); [lia|done]).
      apply wp_bind, wp_printf; [done|]. intros o.
      assert (scheduled (emit o s') this l id rs) as SCo by by apply (scheduled_keeps nowhere s'); [apply keeps_emit|intros ? []|].
      destruct (scheduled_at _ _ _ _ _ _ _ _ SCo Hy Hr) as (_ & Ho & _ & En).
      apply wp_bind, wp_load64; [exact (budget_0 b _ (budget_emit _ _ _ Hb') Hb0)| |].
      { intros z Hz. apply owned_stable, Ho. unfold range in *. lia. }
      rewrite En. apply wp_ret. exists n. split; [done|].
      destruct (lookup_lt_is_Some_2 l (S i)) as [z Hz]; [apply lookup_lt_Some in Hx; lia|].
      rewrite Hz. split_and!; [by apply budget_emit| |done|].
      * eapply keeps_trans; [exact K|apply keeps_emit].
      * exists (S i), z. split_and!; [lia|done|done].
  - split_and!; [done|apply keeps_refl|done|]. destruct l as [|y l]; [done|]. exists 0%nat, y.
    split_and!; [done|done|]. by rewrite (linked_first _ _ _ (so_list _ _ _ _ (sc_ok _ _ _ _ _ SC))).
  - apply lookup_lt_Some in Hx. lia.
Qed.

Lemma run_next_process_spec b s this l id rs j x r :
  budget b s → 0 ≤ b → scheduled s this l id rs → l !! j = Some x → rs !! j = Some r →
  pcb_state r = READY → (∀ i r', (i < j)%nat → rs !! i = Some r' → pcb_state r' ≠ READY) →
  Z.of_nat (length l) ≤ 2 ^ 64 → 0 ≤ x.2 < 2 ^ 64 →
  wp (Scheduler_run_next_process this)
     (λ c s', c = UserContext (pcb_entry r) (pcb_stack r) (pcb_heap r) ∧
        vload 8 s' this = x.2 ∧ keeps (range this 8) s s' ∧ scheduled s' this l id rs ∧ budget b s') s.
Proof.
  intros Hb Hb0 SC Hx Hr Hready Hbefore Hlen Hx64. unfold Scheduler_run_next_process.
  apply wp_bind, (wp_load64_field b s this 24 16); [done|done|apply SC|lia|lia|].
  apply wp_bind, (wp_find_ready b s this l id rs j x); try done; [by rewrite Hr; cbn; rewrite Hready|].
  intros s1 Hb1 K1 SC1. destruct (scheduled_at _ _ _ _ _ _ _ _ SC1 Hx Hr) as (PA & Ho & Ep & _).
  apply wp_bind, (wp_load64_field b s1 x.1 24 16); [done|done|done|lia|lia|]. rewrite Ep.
  apply wp_bind. unfold Process_get_id, Process_get_entry_address, Process_get_stack_pointer,
    Process_get_heap_start_address.
  apply wp_load64; [exact (budget_0 b _ Hb1 Hb0)| |].
  { intros z Hz. apply owned_stable, (pa_owned _ _ _ PA). unfold range in *. lia. }
  apply wp_bind, wp_log; [done|]. intros o.
  assert (scheduled (emit o s1) this l id rs) as SC2 by by apply (scheduled_keeps nowhere s1); [apply keeps_emit|intros ? []|].
  apply wp_bind, (wp_storev 8 b); [by apply budget_emit|done| |].
  { intros z Hz. apply (so_this _ _ _ _ (sc_ok _ _ _ _ _ SC2)). unfold range in *. lia. }
  intros s3 St. pose proof (st_keeps _ _ _ _ _ _ St) as K3.
  assert (scheduled s3 this l id rs) as SC3 by by apply (scheduled_keeps (range this 8) (emit o s1)).
  destruct (scheduled_at _ _ _ _ _ _ _ _ SC3 Hx Hr) as (PA3 & _).
  apply wp_bind, (wp_load64_field b s3 x.2 48 40); [apply St|done|apply PA3|lia|lia|].
  apply wp_bind, (wp_load64_field b s3 x.2 48 24); [apply St|done|apply PA3|lia|lia|].
  apply wp_bind, (wp_load64_field b s3 x.2 48 32); [apply St|done|apply PA3|lia|lia|].
  apply wp_ret. split_and!.
  - by rewrite (pa_entry _ _ _ PA3), (pa_stack _ _ _ PA3), (pa_heap _ _ _ PA3).
  - by apply (stored_exact _ _ _ _ _ _ St).
  - eapply keeps_trans; [eapply keeps_mono; [|exact K1]; by intros ? []|].
    eapply keeps_trans; [apply keeps_emit|exact K3].
  - done.
  - apply St.
Qed.

(** ** Creating a process *)

Record process_created (this path buffer : Z) (home : list Z) (r : pcb) (s s' : kstate) : Prop := ProcessCreated {
  cr_process : process_at s' this r;
  cr_cwd : pcb_cwd r = path ∧ vload 8 s' path = buffer;
  cr_chars : ∀ i c, home !! i = Some c → vbyte s' (buffer + Z.of_nat i) = c;
  cr_new : ∀ x, range path 8 x ∨ range buffer (Z.of_nat (length home)) x → stable s' x ∧ ¬ stable s x;
  cr_place : free_list s' = buffer + Z.of_nat (length home);
  cr_keeps : keeps (range this 48) s s'
}.

Lemma wp_stores_process b s this id entry stack heap_start {B} (k : K B) (Q : B → kstate → Prop) :
  budget b s → 0 ≤ b → owned_range s this 48 →
  (∀ s', budget b s' → process_at s' this
     (Pcb (u64 id) READY (vload 8 s (this + 16)) (u64 stack) (u64 heap_start) (u64 entry)) →
     keeps (range this 48) s s' → wp k Q s') →
  wp (store64 this id;; store64 (this ⊞ 32) heap_start;; store64 (this ⊞ 24) stack;;
      store64 (this ⊞ 40) entry;; store32 (this ⊞ 8) READY;; k) Q s.
Proof.
  intros Hb Hb0 Ho HQ.
  apply wp_bind, (wp_storev 8 b); [done|done|intros x Hx; apply Ho; unfold range in *; lia|].
  intros s1 T1. pose proof (owned_range_keeps _ _ _ _ _ (st_keeps _ _ _ _ _ _ T1) Ho) as O1.
  apply wp_bind, (wp_store_field 8 b s1 this 48 32); [apply T1|done|done|lia|lia|lia|]. intros s2 T2 O2.
  apply wp_bind, (wp_store_field 8 b s2 this 48 24); [apply T2|done|done|lia|lia|lia|]. intros s3 T3 O3.
  apply wp_bind, (wp_store_field 8 b s3 this 48 40); [apply T3|done|done|lia|lia|lia|]. intros s4 T4 O4.
  apply wp_bind, (wp_store_field 4 b s4 this 48 8); [apply T4|done|done|lia|lia|lia|]. intros s5 T5 O5.
  rewrite <- (Z.add_0_r this) in T1.
  apply HQ; [apply T5| |].
  - split; [done| | | | | |]; cbn [pcb_id pcb_state pcb_cwd pcb_stack pcb_heap pcb_entry].
    + rewrite <- (Z.add_0_r this). rewrite (field_kept _ _ _ _ _ _ _ _ 8 0 T5 O4) by lia.
      rewrite (field_kept _ _ _ _ _ _ _ _ 8 0 T4 O3) by lia.
      rewrite (field_kept _ _ _ _ _ _ _ _ 8 0 T3 O2) by lia.
      rewrite (field_kept _ _ _ _ _ _ _ _ 8 0 T2 O1) by lia. apply T1.
    + apply T5.
    + rewrite (field_kept _ _ _ _ _ _ _ _ 8 16 T5 O4) by lia.
      rewrite (field_kept _ _ _ _ _ _ _ _ 8 16 T4 O3) by lia.
      rewrite (field_kept _ _ _ _ _ _ _ _ 8 16 T3 O2) by lia.
      rewrite (field_kept _ _ _ _ _ _ _ _ 8 16 T2 O1) by lia.
      by rewrite (field_kept _ _ _ _ _ _ _ _ 8 16 T1 Ho) by lia.
    + rewrite (field_kept _ _ _ _ _ _ _ _ 8 24 T5 O4) by lia.
      rewrite (field_kept _ _ _ _ _ _ _ _ 8 24 T4 O3) by lia. apply T3.
    + rewrite (field_kept _ _ _ _ _ _ _ _ 8 32 T5 O4) by lia.
      rewrite (field_kept _ _ _ _ _ _ _ _ 8 32 T4 O3) by lia.
      rewrite (field_kept _ _ _ _ _ _ _ _ 8 32 T3 O2) by lia. apply T2.
    + rewrite (field_kept _ _ _ _ _ _ _ _ 8 40 T5 O4) by lia. apply T4.
  - apply st_keeps in T1, T2, T3, T4, T5.
    apply (keeps_trans _ s s1); [|apply (keeps_trans _ s1 s2)]; [| |apply (keeps_trans _ s2 s3)];
      [| | |apply (keeps_trans _ s3 s4)]; (eapply keeps_mono; [|eassumption]; unfold range; intros; lia).
Qed.

Lemma Process_ctor_spec b s home l this id entry stack heap_start :
  budget b s → Z.of_nat (length l) + 40 ≤ b → cstr s home l → owned_range s this 48 →
  (∀ x, range home (Z.of_nat (length l) + 1) x → ¬ range this 48 x) →
  wp (Process_ctor home this id entry stack heap_start)
     (λ _ s', ∃ path buffer, budget (b - Z.of_nat (length l) - 40) s' ∧
        process_created this path buffer l
          (Pcb (u64 id) READY path (u64 stack) (u64 heap_start) (u64 entry)) s s') s.
Proof.
  intros Hb Hle C Ho Hsep. unfold Process_ctor.
  apply (wp_stores_process b); [done|lia|done|]. intros s1 Hb1 PA1 K1.
  assert (cstr s1 home l) as C1 by by apply (cstr_keeps _ _ _ _ _ K1).
  unfold operator_new. apply wp_bind, (wp_kalloc b); [done|done|unfold sizeof_Path; lia|].
  intros path s2 Hb2 F2. unfold sizeof_Path in *. pose proof (fr_keeps _ _ _ _ F2) as K2.
  assert (cstr s2 home l) as C2 by (apply (cstr_keeps _ _ _ _ _ K2); [done|by intros ? ? []]).
  apply wp_bind, (wp_Path_ctor (b - 8 - 16) s2 path home l); [done|lia|done|exact (fr_owned _ _ _ _ F2)|].
  intros buffer s3 Hb3 PC. pose proof (pc_keeps _ _ _ _ _ PC) as K3.
  assert (keeps nowhere s1 s3) as K13.
  { apply (keeps_fresh (range path 8) 8 path s1 s2); done. }
  pose proof (process_at_keeps _ _ _ _ _ K13 ltac:(by intros ? ? []) PA1) as PA3.
  pose proof (pa_owned _ _ _ PA3) as Ho3.
  apply (wp_store_field 8 (b - 8 - 16 - Z.of_nat (length l) - 16) s3 this 48 16); try done; try lia.
  intros s4 T4 Ho4. pose proof (st_keeps _ _ _ _ _ _ T4) as K4.
  assert (∀ x, range path 8 x → ¬ range this 48 x) as Hpt.
  { intros x Hx Ht. apply (fr_new _ _ _ _ F2 x Hx), owned_stable, (pa_owned _ _ _ PA1 x Ht). }
  assert (∀ x, range buffer (Z.of_nat (length l)) x → ¬ range this 48 x) as Hbt.
  { intros x Hx Ht. apply (pc_new _ _ _ _ _ PC x Hx), (kp_stable _ _ _ K2).
    apply owned_stable, (pa_owned _ _ _ PA1 x Ht). }
  exists path, buffer. split; [replace (b - Z.of_nat (length l) - 40) with
    (b - 8 - 16 - Z.of_nat (length l) - 16) by lia; apply T4|].
  destruct PA3 as [_ P0 P8 _ P24 P32 P40]. cbn in P0, P8, P24, P32, P40. split.
  - split; [done| | | | | |]; cbn [pcb_id pcb_state pcb_cwd pcb_stack pcb_heap pcb_entry].
    + rewrite <- (Z.add_0_r this), (field_kept _ _ _ _ _ _ _ _ 8 0 T4 Ho3), Z.add_0_r by lia. done.
    + by rewrite (field_kept _ _ _ _ _ _ _ _ 4 8 T4 Ho3) by lia.
    + apply (stored_exact _ _ _ _ _ _ T4). pose proof (fr_pos _ _ _ _ F2).
      change (256 ^ Z.of_nat 8) with (2 ^ 64). lia.
    + by rewrite (field_kept _ _ _ _ _ _ _ _ 8 24 T4 Ho3) by lia.
    + by rewrite (field_kept _ _ _ _ _ _ _ _ 8 32 T4 Ho3) by lia.
    + by rewrite (field_kept _ _ _ _ _ _ _ _ 8 40 T4 Ho3) by lia.
  - split; [done|]. rewrite (vload_keeps 8 _ s3 s4 _ K4); [apply PC|]. intros x Hx. split.
    + apply (kp_stable _ _ _ K3), owned_stable, (fr_owned _ _ _ _ F2), Hx.
    + intros Hr. apply (Hpt x Hx). unfold range in *. lia.
  - intros i c Hi. pose proof (lookup_lt_Some _ _ _ Hi).
    assert (range buffer (Z.of_nat (length l)) (buffer + Z.of_nat i)) as Hx by (unfold range; lia).
    rewrite (kp_byte _ _ _ K4).
    + by apply (pc_chars _ _ _ _ _ PC).
    + by apply owned_stable, (pc_new _ _ _ _ _ PC).
    + intros Hr. apply (Hbt _ Hx). unfold range in *. lia.
  - intros x Hx. split.
    + apply (kp_stable _ _ _ K4). destruct Hx as [Hx|Hx]; [|by apply owned_stable, (pc_new _ _ _ _ _ PC)].
      by apply (kp_stable _ _ _ K3), owned_stable, (fr_owned _ _ _ _ F2).
    + intros Hs. apply (kp_stable _ _ _ K1) in Hs. destruct Hx as [Hx|Hx]; [by apply (fr_new _ _ _ _ F2 x Hx)|].
      by apply (pc_new _ _ _ _ _ PC x Hx), (kp_stable _ _ _ K2).
  - rewrite <- (pc_place _ _ _ _ _ PC).
    by destruct (only_mem_fields _ _ (st_only _ _ _ _ _ _ T4)) as (_ & _ & _ & _ & -> & _).
  - apply (keeps_trans _ s s1); [done|]. apply (keeps_trans _ s1 s3).
    + eapply keeps_mono; [|exact K13]. by intros ? [].
    + eapply keeps_mono; [|exact K4]. unfold range. intros. lia.
Qed.

(** The directory of a process: the Path object at [path] with the string [l]. *)
Record directory (path text : Z) (l : list Z) (s s' : kstate) : Prop := Directory {
  dy_text : vload 8 s' path = text;
  dy_chars : cstr s' text l;
  dy_new : ∀ x, range path 8 x ∨ range text (Z.of_nat (length l) + 1) x → stable s' x ∧ ¬ stable s x
}.

Lemma directory_keeps P s s1 s2 path text l :
  keeps P s1 s2 → (∀ x, range path 8 x ∨ range text (Z.of_nat (length l) + 1) x → ¬ P x) →
  directory path text l s s1 → directory path text l s s2.
Proof.
  intros K HP [T C N]. split.
  - rewrite <- T. apply (vload_keeps 8 P s1 s2 _ K). intros x Hx. split; [apply N|apply HP]; by left.
  - apply (cstr_keeps P s1); [done|done|]. intros x Hx. apply HP. by right.
  - intros x Hx. destruct (N x Hx). split; [by apply (kp_stable _ _ _ K)|done].
Qed.

Lemma directory_before P s0 s s1 path text l :
  keeps P s0 s → directory path text l s s1 → directory path text l s0 s1.
Proof.
  intros K [T C N]. split; [done|done|]. intros x Hx. destruct (N x Hx) as [H1 H2]. split; [done|].
  intros Hs. by apply H2, (kp_stable _ _ _ K).
Qed.

Lemma directory_vars v s s1 path text l : directory path text l (set_vars v s) s1 → directory path text l s s1.
Proof.
  intros [T C N]. split; [done|done|]. intros x Hx. rewrite (stable_proper _ _ (same_mem_vars v s) x x eq_refl). by apply N.
Qed.

(** The block behind the string is the list item of the process: the first byte of its
    header, the size of an item, continues the string, and the next one ends it. *)
Lemma directory_continued b s s1 s2 p path text home r this l id process item :
  process_created p path text home r s s1 → appended b s1 this l id process item s2 →
  Forall (λ c, c ≠ 0) home → (∀ x, list_end this l x → stable s x) →
  directory path text (home ++ [Z.of_nat sizeof_ProcessListItem]) s s2.
Proof.
  intros CR AP HF Hend. pose proof (ap_keeps _ _ _ _ _ _ _ _ AP) as K. destruct (ap_header _ _ _ _ _ _ _ _ AP) as [HD HS].
  rewrite (cr_place _ _ _ _ _ _ _ CR) in HD, HS. set (n := Z.of_nat (length home)) in *.
  assert (∀ x, range path 8 x ∨ range text n x → stable s1 x ∧ ¬ list_end this l x) as Hold.
  { intros x Hx. destruct (cr_new _ _ _ _ _ _ _ CR x Hx) as [H1 H2]. split; [done|]. intros Hl. by apply H2, Hend. }
  assert (∀ x, range text (n + 2) x → stable s2 x ∧ ¬ stable s x) as Htext.
  { intros x Hx. destruct (decide (x < text + n)).
    - assert (range path 8 x ∨ range text n x) as Hx' by (right; unfold range in *; lia).
      split; [apply (kp_stable _ _ _ K)|]; by apply (cr_new _ _ _ _ _ _ _ CR).
    - destruct (HD x) as [H1 H2]; [unfold range in *; lia|]. split; [done|]. intros Hs. apply H2.
      by apply (kp_stable _ _ _ (cr_keeps _ _ _ _ _ _ _ CR)). }
  assert (vbyte s2 (text + n) = 24 ∧ vbyte s2 (text + n + 1) = 0) as [V24 V0].
  { cbn [vload] in HS. change (Z.of_nat sizeof_ProcessListItem) with 24 in HS.
    pose proof (vbyte_range s2 (text + n)). pose proof (vbyte_range s2 (text + n + 1)).
    pose proof (vload_range 6 s2 (text + n + 1 + 1)). cbn [vload] in *. lia. }
  split.
  - rewrite (vload_keeps 8 _ s1 s2 _ K); [apply CR|]. intros x Hx. apply Hold. by left.
  - split.
    + intros x Hx. apply Htext. rewrite length_app in Hx. cbn [length] in Hx. unfold range in *. lia.
    + intros i c [Hi|[Hi Hc]]%lookup_app_Some.
      * pose proof (lookup_lt_Some _ _ _ Hi). rewrite Forall_lookup in HF. split; [|by apply (HF i c)].
        rewrite <- (cr_chars _ _ _ _ _ _ _ CR i c Hi). apply (kp_byte _ _ _ K); apply Hold; right; unfold range; lia.
      * destruct (i - length home)%nat eqn:E; [|done]. injection Hc as <-.
        replace (Z.of_nat i) with n by lia. split; [exact V24|done].
    + rewrite length_app. cbn [length]. rewrite Nat2Z.inj_add. fold n. by rewrite Z.add_assoc.
  - intros x [Hx|Hx].
    + assert (range path 8 x ∨ range text n x) as Hx' by by left.
      split; [apply (kp_stable _ _ _ K)|]; by apply (cr_new _ _ _ _ _ _ _ CR).
    + apply Htext. rewrite length_app in Hx. cbn [length] in Hx. unfold range in *. lia.
Qed.
End process.

(** * Properties *)

Section properties.
Context `{A : Allocator}.

(** Add_new_process appends the process behind the ones that are listed: it
    links a new item into the list (or makes it the first one), sets its back
    pointer, keeps order, next id and current process, and writes nothing else
    of older memory than the one link. *)
Theorem add_new_process_appends b s this l id process :
  budget b s → 40 ≤ b → 0 ≤ process < 2 ^ 64 → sched_ok s this l id →
  Z.of_nat (length l) ≤ 2 ^ 64 →
  ∃ item s', Scheduler_add_new_process this process s = Done () s' ∧
    appended (b - 40) s this l id process item s'.
Proof.
  intros Hb Hle Hp OK Hlen.
  destruct (wp_inv _ _ _ (add_new_process_spec b s this l id process Hb Hle Hp OK Hlen))
    as ([] & s' & E & item & H). by exists item, s'.
Qed.

(** C36: run_next_process switches to the first process of the list that is ready:
    it enters user space at its entry address with its stack and heap, records it
    as the current process and writes nothing else. *)
Theorem run_next_process_first_ready b s this l id rs j x r :
  budget b s → 0 ≤ b → scheduled s this l id rs → l !! j = Some x → rs !! j = Some r →
  pcb_state r = READY → (∀ i r', (i < j)%nat → rs !! i = Some r' → pcb_state r' ≠ READY) →
  Z.of_nat (length l) ≤ 2 ^ 64 → 0 ≤ x.2 < 2 ^ 64 →
  ∃ s', Scheduler_run_next_process this s =
      Done (UserContext (pcb_entry r) (pcb_stack r) (pcb_heap r)) s' ∧
    vload 8 s' this = x.2 ∧ keeps (range this 8) s s' ∧ scheduled s' this l id rs.
Proof.
  intros Hb Hb0 SC Hx Hr Hready Hbefore Hlen Hx64.
  destruct (wp_inv _ _ _ (run_next_process_spec b s this l id rs j x r
    Hb Hb0 SC Hx Hr Hready Hbefore Hlen Hx64)) as (c & s' & E & -> & H1 & H2 & H3 & _).
  by exists s'.
Qed.

(** The constructor of Process stores its arguments in the fields the accessors
    read, starts the process in state READY with a working directory that holds a
    copy of the characters of the home path, and changes no other memory. *)
Theorem new_process_fields b s home l this id entry stack heap_start :
  budget b s → Z.of_nat (length l) + 40 ≤ b → cstr s home l → owned_range s this 48 →
  (∀ x, range home (Z.of_nat (length l) + 1) x → ¬ range this 48 x) →
  ∃ path buffer s', Process_ctor home this id entry stack heap_start s = Done () s' ∧
    process_created this path buffer l
      (Pcb (u64 id) READY path (u64 stack) (u64 heap_start) (u64 entry)) s s'.
Proof.
  intros Hb Hle C Ho Hsep.
  destruct (wp_inv _ _ _ (Process_ctor_spec b s home l this id entry stack heap_start Hb Hle C Ho Hsep))
    as ([] & s' & E & path & buffer & _ & H). by exists path, buffer, s'.
Qed.
End properties.

(** The last byte a path needs is the status word of the free block. *)
Lemma free_status_odd N root s :
  heap_ok N root s → vbyte s (free_list s) ≠ 0.
Proof.
  intros OK. pose proof (ho_status _ _ _ OK) as H. cbn [vload] in H.
  unfold last_status in H. intros E. rewrite E in H. lia.
Qed.

(** Path reserves no byte for the terminating NUL.  The byte behind the copied
    characters is the first one of the heap's free block, which is never zero: the
    length copy_into computes is not the length of the path. *)
Theorem path_not_terminated N root b s this path l :
  heap_budget N root b s → Z.of_nat (length l) + 16 ≤ b → cstr (A := kernel_heap N root) s path l →
  owned_range (A := kernel_heap N root) s this 8 →
  ∃ p s', Path_ctor this path s = Done () s' ∧ vload 8 s' this = p ∧
    (∀ i c, l !! i = Some c → vbyte s' (p + Z.of_nat i) = c) ∧
    vbyte s' (p + Z.of_nat (length l)) ≠ 0.
Proof.
  intros Hb Hle C Ho.
  assert (wp (Path_ctor this path) (λ _ s', ∃ p, heap_budget N root (b - Z.of_nat (length l) - 16) s' ∧
    path_copied (A := kernel_heap N root) this p l s s') s) as W.
  { apply (wp_Path_ctor (A := kernel_heap N root) b s this path l); try done. eauto. }
  apply wp_inv in W as ([] & s' & E & p & (OK' & _) & PC). exists p, s'.
  split; [done|]. split; [apply PC|]. split; [apply PC|].
  destruct (pc_alloc _ _ _ _ _ PC) as (s1 & E1 & M1).
  destruct Hb as (OK & Hb0 & Hn). pose proof (pages_mono s (Z.of_nat (length l)) b ltac:(lia)).
  destruct (kalloc_done N root s (Z.of_nat (length l)) OK ltac:(lia) ltac:(lia)) as (s1' & E1' & AB).
  assert (p = free_list s + 16 ∧ s1 = s1') as [-> ->] by (split; congruence).
  destruct (only_mem_fields _ _ M1) as (_ & _ & _ & _ & Ef & _).
  rewrite <- (ab_next _ _ _ _ _ AB), <- Ef. by apply (free_status_odd N root).
Qed.

(** * Witnesses *)

#[local] Abbreviation KH := (kernel_heap 64 0x80208000).

Definition home_user : list Z := chars "/home/user/".

(** The heap with the home path in a block of its own. *)
Lemma sample_path :
  ∃ s home, budget (Allocator := KH) 16000 s ∧ cstr (A := KH) s home home_user ∧
    owned_range (A := KH) s home 12.
Proof.
  destruct (make_cstr (A := KH) 16384 heap0 home_user) as (home & s & Hb & C & _ & Ho & _);
    [apply heap0_budget; lia|cbn; lia|by repeat constructor|].
  exists s, home. split; [|done]. apply (budget_weaken _ _ _ Hb). cbn. lia.
Qed.

(** With a block for a process object. *)
Lemma sample_process_block :
  ∃ s home this, budget (Allocator := KH) 15900 s ∧ cstr (A := KH) s home home_user ∧
    owned_range (A := KH) s this 48 ∧ disjoint_range home 12 this 48.
Proof.
  destruct sample_path as (s & home & Hb & C & Ho).
  destruct (kalloc_fresh (A := KH) 16000 48 s Hb) as (this & s1 & _ & Hb1 & F1); [lia|lia|].
  exists s1, home, this. split_and!.
  - apply (budget_weaken _ _ _ Hb1). lia.
  - apply (cstr_keeps _ _ _ _ _ (fr_keeps _ _ _ _ F1) C). by intros ? ? [].
  - exact (fr_owned _ _ _ _ F1).
  - intros x Hx Ht. by apply (fr_new _ _ _ _ F1 x Ht), owned_stable, Ho.
Qed.

Lemma new_process_fields_witness :
  ∃ s home this path buffer s', Process_ctor home this 7 0x10000 0x100FA0 0x12000 s = Done () s' ∧
    process_created (A := KH) this path buffer home_user (Pcb 7 READY path 0x100FA0 0x12000 0x10000) s s'.
Proof.
  destruct sample_process_block as (s & home & this & Hb & C & Ho & Hd). exists s, home, this.
  apply (new_process_fields (A := KH) 15900 s home home_user this 7 0x10000 0x100FA0 0x12000);
    [exact Hb|cbn; lia|exact C|exact Ho|exact Hd].
Defined.

(** A scheduler object without processes. *)
Lemma sample_scheduler :
  ∃ s this, budget (Allocator := KH) 16000 s ∧ sched_ok (A := KH) s this [] 0.
Proof.
  assert (wp (new_zeroed 24) (λ this s, budget (Allocator := KH) 16000 s ∧
    sched_ok (A := KH) s this [] 0) heap0) as W.
  2:{ apply wp_inv in W as (this & s & _ & H). by exists s, this. }
  apply (wp_new_zeroed (A := KH) 16384); [apply heap0_budget; lia|lia|].
  intros this s Hb F Hz. split; [apply (budget_weaken _ _ _ Hb); lia|].
  split; [exact (fr_owned _ _ _ _ F)| | |done|by intros x ?%elem_of_nil].
  - cbn [linked]. apply vload_zero. intros x Hx. apply Hz. unfold range in *. lia.
  - apply vload_zero. intros x Hx. apply Hz. unfold range in *. lia.
Qed.

Lemma add_new_process_appends_witness :
  ∃ s this item s', Scheduler_add_new_process this 0x5000 s = Done () s' ∧
    appended (A := KH) (16000 - 40) s this [] 0 0x5000 item s'.
Proof.
  destruct sample_scheduler as (s & this & Hb & OK). exists s, this.
  apply (add_new_process_appends (A := KH) 16000 s this [] 0 0x5000); [exact Hb|lia|lia|exact OK|done].
Defined.

Lemma path_not_terminated_witness :
  ∃ s this path p s', Path_ctor this path s = Done () s' ∧ vload 8 s' this = p ∧
    (∀ i c, home_user !! i = Some c → vbyte s' (p + Z.of_nat i) = c) ∧ vbyte s' (p + 11) ≠ 0.
Proof.
  destruct sample_process_block as (s & home & this & Hb & C & Ho & Hd). exists s, this, home.
  apply (path_not_terminated 64 0x80208000 15900 s this home home_user); [exact Hb|cbn; lia|exact C|].
  intros x Hx. apply Ho. unfold range in *. lia.
Defined.

Lemma run_next_process_first_ready_witness :
  ∃ s this p s' sp heap entry, Scheduler_run_next_process this s = Done (UserContext entry sp heap) s' ∧
    entry = 0x10000 ∧ vload 8 s' this = p ∧ keeps (A := KH) (range this 8) s s'.
Proof.
  destruct sample_process_block as (s & home & p & Hb & C & Ho & Hd).
  assert (∃ s1 r, budget (Allocator := KH) 15800 s1 ∧ process_at (A := KH) s1 p r ∧
    pcb_state r = READY ∧ pcb_entry r = 0x10000) as (s1 & r & Hb1 & PA & Hr & He).
  { destruct (wp_inv _ _ _ (Process_ctor_spec (A := KH) 15900 s home home_user p 7 0x10000 0x100FA0 0x12000
      Hb ltac:(cbn; lia) C Ho Hd)) as ([] & s1 & _ & path & buffer & Hb1 & CR).
    exists s1. eexists. split; [apply (budget_weaken _ _ _ Hb1); cbn; lia|]. by split; [apply CR|]. }
  assert (wp (new_zeroed 24) (λ this s2, ∃ s3 item, budget (Allocator := KH) 15000 s3 ∧
    scheduled (A := KH) s3 this [(item, p)] 0 [r] ∧ 0 ≤ p < 2 ^ 64) s1) as W.
  2:{ apply wp_inv in W as (this & _ & _ & s3 & item & Hb3 & SC & Hp).
      destruct (run_next_process_first_ready (A := KH) 15000 s3 this [(item, p)] 0 [r] 0 (item, p) r)
        as (s' & E & Hc & K & _); try done; [by intros; lia|].
      exists s3, this, p, s', (pcb_stack r), (pcb_heap r), (pcb_entry r). done. }
  assert (stable (Allocator := KH) s1 p) as Hst
    by (apply (owned_stable (Allocator := KH)), (pa_owned _ _ _ PA); unfold range; lia).
  pose proof (stable_range (Allocator := KH) s1 p (budget_0 (A := KH) _ _ Hb1 ltac:(lia)) Hst) as Hp.
  apply (wp_new_zeroed (A := KH) 15800); [exact Hb1|lia|]. intros this s2 Hb2 F Hz.
  assert (sched_ok (A := KH) s2 this [] 0) as OK.
  { split; [exact (fr_owned _ _ _ _ F)| | |done|by intros x ?%elem_of_nil].
    - cbn [linked]. apply vload_zero. intros x Hx. apply Hz. unfold range in *. lia.
    - apply vload_zero. intros x Hx. apply Hz. unfold range in *. lia. }
  destruct (wp_inv _ _ _ (add_new_process_spec (A := KH) _ s2 this [] 0 p Hb2 ltac:(lia) ltac:(lia) OK ltac:(done)))
    as ([] & s3 & _ & item & AP).
  assert (disjoint_range p 48 this 24) as Hdt.
  { intros x Hx Ht. apply (fr_new _ _ _ _ F x Ht), owned_stable, (pa_owned _ _ _ PA x Hx). }
  exists s3, item. split; [apply (budget_weaken _ _ _ (ap_budget _ _ _ _ _ _ _ _ AP)); lia|].
  split; [|lia]. split; [exact (ap_sched _ _ _ _ _ _ _ _ AP)| |].
  - constructor; [|constructor]. cbn [snd].
    apply (process_at_keeps (list_end this []) s2); [exact (ap_keeps _ _ _ _ _ _ _ _ AP)| |].
    + intros x Hx Hl. apply (Hdt x Hx). unfold list_end, range in *. cbn in Hl. lia.
    + apply (process_at_keeps nowhere s1); [exact (fr_keeps _ _ _ _ F)|by intros ? ? []|done].
  - intros x ->%list_elem_of_singleton. done.
Defined.
