(* ===== verification/Ext2.v ===== *)
(** The ext2 file system: kernel/drivers/ext2.{h,cpp}.

    The driver below it is the interface [BlockDevice]; DiskDriver.v is the VirtIO driver
    the kernel runs it on.  An object is its address, a field the bytes at its
    offset in the class.  32-bit arithmetic wraps as in the source: an offset
    block_size * block is computed in uint32_t before it becomes a uint64_t. *)

From S2P Require Import Prelude Monad Memory Sv48 Machine Layout Stdio Heap KAlloc Allocator Client.

(** VirtIOBlockDevice::read, as the file system calls it: device, offset, length
    and buffer. *)
Class BlockDevice := block_read : Z → Z → Z → Z → K Z.

(** * Layout of the classes *)

Definition sizeof_EXT2SuperBlock : nat := 92.
Definition s_blocks_count (p : Z) : K Z := load32 (p ⊞ 4).
Definition s_log_block_size (p : Z) : K Z := load32 (p ⊞ 24).
Definition s_blocks_per_group (p : Z) : K Z := load32 (p ⊞ 32).
Definition s_inodes_per_group (p : Z) : K Z := load32 (p ⊞ 40).
Definition s_inode_size (p : Z) : K Z := load16 (p ⊞ 88).

Definition sizeof_EXT2BlockGroupDescriptor : nat := 32.
Definition bg_inode_table (p : Z) : K Z := load32 (p ⊞ 8).

Definition sizeof_EXT2Inode : nat := 256.
Definition i_mode (p : Z) : K Z := load16 p.
Definition i_size (p : Z) : K Z := load32 (p ⊞ 4).
Definition i_block_0 (p : Z) : K Z := load32 (p ⊞ 40).

(** EXT2LinkedListDirectory: inode at 0, rec_len at 4, name_len at 6, name at 8. *)
Definition dir_inode (p : Z) : K Z := load32 p.
Definition dir_rec_len (p : Z) : K Z := load16 (p ⊞ 4).
Definition dir_name_len (p : Z) : K Z := load8 (p ⊞ 6).
Definition dir_name (p : Z) : Z := p ⊞ 8.

(** EXT2: block_device at 0, super_block at 8, block_size at 16, inodes_per_block at
    20, group_descs at 24. *)
Definition sizeof_EXT2 : Z := 32.
Definition ext2_block_device (this : Z) : K Z := load64 this.
Definition ext2_super_block (this : Z) : K Z := load64 (this ⊞ 8).
Definition ext2_block_size (this : Z) : K Z := load32 (this ⊞ 16).
Definition ext2_group_descs (this : Z) : K Z := load64 (this ⊞ 24).

(** uint32_t division and remainder with the values rv64's divuw and remuw have
    for the divisor 0. *)
Definition divu32 (a b : Z) : Z := if b =? 0 then 0xFFFFFFFF else a / b.
Definition remu32 (a b : Z) : Z := if b =? 0 then a else a mod b.

(** * ext2.cpp *)

Section ext2.
Context `{BlockDevice}.

Definition EXT2_ctor (this block_device : Z) : K () :=
  store64 this block_device;;
  super_block ← new_zeroed sizeof_EXT2SuperBlock;
  store64 (this ⊞ 8) super_block;;
  super_block ← ext2_super_block this;
  block_read block_device 1024 (Z.of_nat sizeof_EXT2SuperBlock) super_block;;
  super_block ← ext2_super_block this;
  blocks_count ← s_blocks_count super_block;
  blocks_per_group ← s_blocks_per_group super_block;
  let amount_groups := s32 (divu32 blocks_count blocks_per_group) in
  group_descs ← operator_new (8 * 8);
  store64 (this ⊞ 24) group_descs;;
  super_block ← ext2_super_block this;
  log_block_size ← s_log_block_size super_block;
  store32 (this ⊞ 16) (Z.shiftl 1024 (log_block_size mod 32));;
  loop (λ i,
    if i <? u64 amount_groups then
      desc ← new_zeroed sizeof_EXT2BlockGroupDescriptor;
      group_descs ← ext2_group_descs this;
      store64 (group_descs ⊞ 8 * i) desc;;
      mret (inl (i ⊞ 1))
    else mret (inr ())) 0;;
  loop (λ i,
    if i <? u64 amount_groups then
      device ← ext2_block_device this;
      block_size ← ext2_block_size this;
      group_descs ← ext2_group_descs this;
      desc ← load64 (group_descs ⊞ 8 * i);
      block_read device (u32 (block_size * 1) ⊞ i * Z.of_nat sizeof_EXT2BlockGroupDescriptor)
        (Z.of_nat sizeof_EXT2BlockGroupDescriptor) desc;;
      mret (inl (i ⊞ 1))
    else mret (inr ())) 0;;
  block_size ← ext2_block_size this;
  super_block ← ext2_super_block this;
  inode_size ← s_inode_size super_block;
  store32 (this ⊞ 20) (divu32 block_size inode_size);;
  modify (λ s, set_vars (set_ext2_instance this (vars s)) s).

Definition EXT2LinkedListDirectory_matches (this other_name : Z) : K bool :=
  other_len ← strlen_loop other_name;
  name_len ← dir_name_len this;
  if negb (other_len =? name_len) then mret false
  else
    loop (λ i,
      if i <? other_len then
        a ← load8 (other_name ⊞ i);
        b ← load8 (dir_name this ⊞ i);
        if negb (a =? b) then mret (inr false) else mret (inl (i ⊞ 1))
      else mret (inr true)) 0.

(** The search loop of get_inode_in_dir: [current_offset] and [counter]. *)
Definition dir_search (data name : Z) : Z * Z → K ((Z * Z) + (Z * Z)) :=
  λ '(current_offset, counter),
    let dir_entry := data ⊞ current_offset in
    found ← EXT2LinkedListDirectory_matches dir_entry name;
    if negb found && (counter <? 10) then
      rec_len ← dir_rec_len dir_entry;
      mret (inl (current_offset ⊞ rec_len, counter ⊞ 1))
    else mret (inr (current_offset, counter)).

Definition EXT2_get_inode_in_dir (this dir name : Z) : K Z :=
  log LogLevel.FS (chars "Getting inode of dir %s") [name];;
  mode ← i_mode dir;
  if Z.land mode 0x4000 =? 0 then
    log LogLevel.ERROR (chars "get_inode_in_dir can only be called on directories, you called it on %s")
      [name];;
    mret (-1)
  else
    block_size ← ext2_block_size this;
    data ← kalloc block_size;
    device ← ext2_block_device this;
    block_size ← ext2_block_size this;
    block ← i_block_0 dir;
    block_read device (u32 (block_size * block)) block_size data;;
    r ← loop (dir_search data name) (0, 0);
    let '(current_offset, counter) := r in
    if counter =? 10 then
      log LogLevel.ERROR (chars "Could not find the file %s.") [name];;
      mret (-1)
    else
      inode ← dir_inode (data ⊞ current_offset);
      super_block ← ext2_super_block this;
      inodes_per_group ← s_inodes_per_group super_block;
      let desc_index := divu32 (u32 (inode - 1)) inodes_per_group in
      let index := remu32 (u32 (inode - 1)) inodes_per_group in
      device ← ext2_block_device this;
      block_size ← ext2_block_size this;
      group_descs ← ext2_group_descs this;
      desc ← load64 (group_descs ⊞ 8 * desc_index);
      inode_table ← bg_inode_table desc;
      block_read device (u32 (block_size * u32 (inode_table + 0)) ⊞ Z.of_nat sizeof_EXT2Inode * index)
        (Z.of_nat sizeof_EXT2Inode) dir;;
      mret 0.

Definition EXT2_get_root_inode (this inode : Z) : K () :=
  device ← ext2_block_device this;
  block_size ← ext2_block_size this;
  group_descs ← ext2_group_descs this;
  desc ← load64 (group_descs ⊞ 8 * 0);
  inode_table ← bg_inode_table desc;
  block_read device (u32 (block_size * inode_table) ⊞ Z.of_nat sizeof_EXT2Inode * 1)
    (Z.of_nat sizeof_EXT2Inode) inode;;
  mret ().

(** How the walk over the path ends. *)
Inductive walk_end :=
  | WalkReturn (res : Z)        (** [return res] inside the loop *)
  | WalkFolder                  (** the path ends with '/' *)
  | WalkFile (current size : Z) (** the last component is left *).

Definition c_slash : Z := 47.

(** A name of [size] characters from [from] on, as a new C string. *)
Definition copy_name (path from size : Z) : K Z :=
  name ← kalloc (size ⊞ 1);
  loop (λ i,
    if i <? size then
      c ← load8 (path ⊞ (from ⊞ i));
      store8 (name ⊞ i) c;;
      mret (inl (i ⊞ 1))
    else mret (inr ())) 0;;
  store8 (name ⊞ size) 0;;
  mret name.

Definition walk_body (lookup : Z → K Z) (path path_length : Z)
    : Z * Z → K ((Z * Z) + walk_end) := λ '(current, size),
  c ← load8 (path ⊞ current);
  if c =? 0 then mret (inr (WalkFile current size))
  else if c =? c_slash then
    if current =? 0 then mret (inl (current ⊞ 1, size))
    else
      let current := current ⊞ 1 in
      printf (chars "getting inode in  loop, pathlength: %i, current: %i" ++ newline)
        [path_length; current];;
      folder_name ← copy_name path (current ⊟ size ⊟ 1) size;
      res ← lookup folder_name;
      if res <? 0 then mret (inr (WalkReturn res))
      else if path_length =? current then mret (inr WalkFolder)
      else mret (inl (current ⊞ 1, 1))
  else mret (inl (current ⊞ 1, size ⊞ 1)).

(** The walk for any lookup of one name; get_inode_from_dir instantiates it with
    get_inode_in_dir. *)
Definition walk (lookup : Z → K Z) (path : Z) : K Z :=
  path_length ← strlen_loop path;
  e ← loop (walk_body lookup path path_length) (0, 0);
  match e with
  | WalkReturn res => mret res
  | WalkFolder => mret 0
  | WalkFile current size =>
      file_name ← copy_name path (current ⊟ size) size;
      res ← lookup file_name;
      if res <? 0 then mret res else mret 0
  end.

Definition EXT2_get_inode_from_dir (this dir path : Z) : K Z :=
  log LogLevel.FS (chars "Getting inode of file: %s") [path];;
  walk (EXT2_get_inode_in_dir this dir) path.

Definition EXT2_get_file_size (this name : Z) : K Z :=
  inode ← new_zeroed sizeof_EXT2Inode;
  EXT2_get_root_inode this inode;;
  EXT2_get_inode_from_dir this inode name;;
  i_size inode.

Definition EXT2_read_file (this name size data : Z) : K Z :=
  inode ← new_zeroed sizeof_EXT2Inode;
  EXT2_get_root_inode this inode;;
  EXT2_get_inode_from_dir this inode name;;
  device ← ext2_block_device this;
  block_size ← ext2_block_size this;
  block ← i_block_0 inode;
  block_read device (u32 (block_size * block)) size data;;
  operator_delete_sized inode (Z.of_nat sizeof_EXT2Inode);;
  mret 0.

Definition EXT2_get_instance : K Z := gets (λ s, ext2_instance (vars s)).
Definition get_file_size (path : Z) : K Z :=
  instance ← EXT2_get_instance; EXT2_get_file_size instance path.
Definition read_file (path size data : Z) : K Z :=
  instance ← EXT2_get_instance; EXT2_read_file instance path size data.
End ext2.

Definition print_entry_name (entry : Z) : K () :=
  printf (chars "Entry name: ") [];;
  loop (λ i,
    name_len ← dir_name_len entry;
    if i <? name_len then
      c ← load8 (dir_name entry ⊞ i);
      printf (chars "%c") [c];;
      mret (inl (i ⊞ 1))
    else mret (inr ())) 0;;
  printf newline [].

(** * The file system on the disk

    A reference description over the bytes of the partition: an inode is the disk
    address of its 256 bytes. *)

Record geometry := Geometry {
  geo_block_size : Z;
  geo_inodes_per_group : Z;
  geo_groups : Z;
  geo_inode_table : Z → Z      (* block of the inode table, per group *)
}.

Section reference.
Context (disk : Z → Z) (g : geometry).

Fixpoint dload (n : nat) (a : Z) : Z :=
  match n with
  | O => 0
  | S n' => disk a + 0x100 * dload n' (a + 1)
  end.

(** The block an inode's first block pointer names, as the 32-bit arithmetic has it. *)
Definition first_block (a : Z) : Z := u32 (geo_block_size g * dload 4 (a + 40)).
Definition is_directory (a : Z) : bool := negb (Z.land (dload 2 a) 0x4000 =? 0).

(** The entry at address [e] of the disk. *)
Definition entry_name (e : Z) : list Z := disk <$> zseq (e + 8) (Z.to_nat (disk (e + 6))).
Definition entry_rec_len (e : Z) : Z := dload 2 (e + 4).

Inductive search_result :=
  | Found (offset : Z)
  | Missing              (** not among the first ten entries *)
  | Outside              (** the chain of entries leaves the block *).

(** Ten entries are compared; an eleventh match comes too late. *)
Fixpoint dir_find (n : nat) (d o : Z) (name : list Z) : search_result :=
  if geo_block_size g <? o + 8 + disk (d + o + 6) then Outside
  else if decide (entry_name (d + o) = name) then
    match n with O => Missing | S _ => Found o end
  else
    match n with O => Missing | S n' => dir_find n' d (o + entry_rec_len (d + o)) name end.

Definition inode_group (i : Z) : Z := u32 (i - 1) / geo_inodes_per_group g.
Definition inode_address (i : Z) : Z :=
  u32 (geo_block_size g * geo_inode_table g (inode_group i)) +
  256 * (u32 (i - 1) mod geo_inodes_per_group g).

(** One component of a path: from the inode at [a] to the inode [name] names in it.
    [None]: the code leaves the memory it may read; [Some None]: an error. *)
Definition lookup_name (a : Z) (name : list Z) : option (option Z) :=
  if is_directory a then
    match dir_find 10 (first_block a) 0 name with
    | Found o =>
        let i := dload 4 (first_block a + o) in
        if inode_group i <? geo_groups g then Some (Some (inode_address i)) else None
    | Missing => Some None
    | Outside => None
    end
  else Some None.

(** The components in order; the first error ends the walk. *)
Fixpoint lookup_names (a : Z) (names : list (list Z)) : option (option Z) :=
  match names with
  | [] => Some (Some a)
  | n :: names' =>
      r ← lookup_name a n;
      match r with
      | Some a' => lookup_names a' names'
      | None => Some None
      end
  end.

(** The last inode the walk reaches. *)
Fixpoint reached (a : Z) (names : list (list Z)) : Z :=
  match names with
  | [] => a
  | n :: names' =>
      match lookup_name a n with
      | Some (Some a') => reached a' names'
      | _ => a
      end
  end.

Definition root_inode : Z := u32 (geo_block_size g * geo_inode_table g 0) + 256.

Lemma dload_range n a : (∀ x, 0 ≤ disk x < 256) → 0 ≤ dload n a < 256 ^ Z.of_nat n.
Proof using Type.
  intros Hd. revert a. induction n as [|n IH]; intros a; cbn [dload]; [lia|].
  rewrite Nat2Z.inj_succ, Z.pow_succ_r by lia. specialize (IH (a + 1)). specialize (Hd a). lia.
Qed.
End reference.

(** The components a path spells: a leading '/' is skipped, a trailing one ends the
    walk, every other one separates two names. *)
Definition component (name : list Z) : Prop := name ≠ [] ∧ c_slash ∉ name ∧ 0 ∉ name.

Fixpoint join (names : list (list Z)) : list Z :=
  match names with
  | [] => []
  | [n] => n
  | n :: names' => n ++ c_slash :: join names'
  end.

Definition path_text (leading trailing : bool) (names : list (list Z)) : list Z :=
  (if leading then [c_slash] else []) ++ join names ++ (if trailing then [c_slash] else []).

(** * What the file system relies on: the driver below it *)

Class DiskLaws `{A : Allocator} `{D : BlockDevice} (disk : Z → Z) (device : Z) := {
  driver : Z → Prop;             (** the memory the driver itself uses *)
  ready : kstate → Prop;
  read_cost : Z → Z;             (** what one read allocates *)

  read_cost_pos n : 0 ≤ read_cost n;
  disk_byte x : 0 ≤ disk x < 256;
  driver_stable s x : ready s → driver x → stable s x;
  ready_keeps P s s' : keeps P s s' → (∀ x, driver x → ¬ P x) → ready s → ready s';
  ready_vars v s : ready s → ready (set_vars v s);

  (** A read that does not go past the sectors it fetches delivers the bytes of the
      disk and touches nothing but the buffer and the driver's memory. *)
  read_ok b s offset length buffer :
    budget b s → ready s → 0 ≤ length → read_cost length ≤ b → 0 ≤ offset →
    offset mod 512 + length mod 512 ≤ 512 → offset + length ≤ 2 ^ 34 →
    owned_range s buffer length → (∀ x, range buffer length x → ¬ driver x) →
    ∃ r s', block_read device offset length buffer s = Done r s' ∧
      budget (b - read_cost length) s' ∧ ready s' ∧
      keeps (λ x, range buffer length x ∨ driver x) s s' ∧
      ∀ i, 0 ≤ i < length → vbyte s' (buffer + i) = disk (offset + i)
}.
