(* ===== verification/Ext2Walk.v ===== *)
(** Looking up names: the comparison of a directory entry, the search in a directory
    block, get_inode_in_dir, and the walk of get_inode_from_dir over a path, each
    against the reference description of Ext2.v. *)

From S2P Require Import Prelude Monad Memory Sv48 Machine Layout Stdio Heap KAlloc Allocator Client Ext2.

(** [n] bytes at [p] that hold what the disk has at [a]. *)
Definition holds_disk `{A : Allocator} (disk : Z → Z) (s : kstate) (p n a : Z) : Prop :=
  ∀ i, 0 ≤ i < n → stable s (p + i) ∧ vbyte s (p + i) = disk (a + i).

Section matches.
Context `{A : Allocator}.

(** The name in the directory entry at [e]. *)
Definition mem_name (s : kstate) (e : Z) : list Z :=
  vbyte s <$> zseq (e + 8) (Z.to_nat (vbyte s (e + 6))).

Lemma mem_name_lookup s e i :
  0 ≤ i < vbyte s (e + 6) → mem_name s e !! Z.to_nat i = Some (vbyte s (e + 8 + i)).
Proof.
  intros Hi. unfold mem_name, zseq. rewrite !list_lookup_fmap, lookup_seq_lt by lia. cbn.
  do 2 f_equal. lia.
Qed.

Lemma mem_name_length s e : Z.of_nat (length (mem_name s e)) = vbyte s (e + 6).
Proof.
  unfold mem_name, zseq. rewrite !length_fmap, length_seq. pose proof (vbyte_range s (e + 6)). lia.
Qed.

Lemma wp_matches s e other l (Q : bool → kstate → Prop) :
  budget 0 s → cstr s other l → (∀ x, range e (8 + vbyte s (e + 6)) x → stable s x) →
  Q (bool_decide (mem_name s e = l)) s → wp (EXT2LinkedListDirectory_matches e other) Q s.
Proof.
  intros Hb C He HQ. pose proof (vbyte_range s (e + 6)) as Hk. set (k := vbyte s (e + 6)) in *.
  assert (∀ i, 0 ≤ i < 8 + k → e ⊞ i = e + i ∧ stable s (e + i)) as Hadd.
  { intros i Hi. assert (stable s (e + i)) as Hs by (apply He; unfold range; lia). split; [|done].
    apply (stable_add s e i); [done|apply He; unfold range; lia|lia|done]. }
  unfold EXT2LinkedListDirectory_matches. apply wp_bind, (wp_strlen s other l); [done|done|].
  unfold dir_name_len. destruct (Hadd 6 ltac:(lia)) as [E6 S6]. rewrite E6.
  eapply wp_bind_done; [by apply stable_load|]. fold k.
  pose proof (mem_name_length s e) as Hlen. fold k in Hlen.
  destruct (Z.eqb_spec (Z.of_nat (length l)) k) as [Hn|Hn]; cbn [negb].
  2:{ apply wp_ret. rewrite bool_decide_eq_false_2 in HQ; [done|]. intros <-. lia. }
  apply (wp_loop _ (λ i s', s' = s ∧ 0 ≤ i ≤ k ∧ ∀ j, 0 ≤ j < i → mem_name s e !! Z.to_nat j = l !! Z.to_nat j)
    (λ i _, k - i)).
  2:{ split; [done|]. split; [lia|]. intros; lia. }
  2:{ simpl; lia. }
  intros i s' (-> & Hi & Hpre). split; [lia|]. rewrite Hn.
  destruct (Z.ltb_spec i k) as [Hlt|Hge].
  - eapply wp_bind_done; [by apply (cstr_load s other l); [| |lia]|].
    destruct (Hadd 8) as [E8 _]; [lia|]. unfold dir_name. rewrite E8.
    destruct (Hadd (8 + i)) as [_ Si]; [lia|]. rewrite Z.add_assoc in Si.
    destruct (Hadd 8) as [_ S8]; [lia|].
    rewrite (stable_add s (e + 8) i) by (done || lia).
    eapply wp_bind_done; [by apply stable_load|].
    destruct (lookup_lt_is_Some_2 l (Z.to_nat i)) as [c Hc]; [lia|].
    destruct (cs_chars _ _ _ C _ _ Hc) as [Hv _]. rewrite Z2Nat.id in Hv by lia. rewrite Hv.
    pose proof (mem_name_lookup s e i ltac:(fold k; lia)) as Hm.
    destruct (Z.eqb_spec c (vbyte s (e + 8 + i))) as [->|Hne]; cbn [negb]; apply wp_ret.
    + rewrite u64_small by lia. split; [|lia]. split; [done|]. split; [lia|]. intros j Hj.
      destruct (decide (j = i)) as [->|]; [by rewrite Hm, Hc|]. apply Hpre. lia.
    + rewrite bool_decide_eq_false_2 in HQ; [done|]. intros E. rewrite E, Hc in Hm. congruence.
  - apply wp_ret. rewrite bool_decide_eq_true_2 in HQ; [done|]. apply list_eq. intros j.
    destruct (decide (Z.of_nat j < i)) as [Hj|Hj].
    + rewrite <- (Nat2Z.id j). apply Hpre. lia.
    + rewrite !lookup_ge_None_2; [done|lia|lia].
Qed.

(** ** The search in a block *)

Context (disk : Z → Z) (g : geometry) (Hdisk : ∀ x, 0 ≤ disk x < 256).

Lemma vload_dload n s p k a i :
  holds_disk disk s p k a → 0 ≤ i → i + Z.of_nat n ≤ k →
  vload n s (p + i) = dload disk n (a + i).
Proof using Type.
  intros H. revert i. induction n as [|n IH]; intros i Hi Hn; [done|]. cbn [vload dload].
  destruct (H i ltac:(lia)) as [_ ->]. rewrite <- !Z.add_assoc, IH by lia. done.
Qed.

Lemma wp_load_disk n s p k a i (Q : Z → kstate → Prop) :
  budget 0 s → holds_disk disk s p k a → 0 ≤ i < k → i + Z.of_nat n ≤ k →
  Q (dload disk n (a + i)) s → wp (loadv n (p ⊞ i)) Q s.
Proof using Type.
  intros Hb H Hi Hn HQ.
  assert (stable s p) as Hp by (destruct (H 0 ltac:(lia)) as [Hp _]; by rewrite Z.add_0_r in Hp).
  rewrite (stable_add s p i) by (done || lia || apply H; lia).
  rewrite <- (vload_dload n s p k a i H) in HQ by lia. eapply wp_done; [|exact HQ].
  apply loadv_stable; [done|]. intros x Hx. replace x with (p + (x - p)) by lia. apply H.
  unfold range in Hx. lia.
Qed.

Lemma mem_name_disk s p k a o :
  holds_disk disk s p k a → 0 ≤ o → o + 8 + disk (a + o + 6) ≤ k →
  mem_name s (p + o) = entry_name disk (a + o) ∧
  ∀ x, range (p + o) (8 + vbyte s (p + o + 6)) x → stable s x.
Proof using Hdisk.
  intros H Ho Hk. pose proof (Hdisk (a + o + 6)) as Hd.
  assert (∀ i, 0 ≤ i → o + i < k → stable s (p + o + i) ∧ vbyte s (p + o + i) = disk (a + o + i)) as H'.
  { intros i Hi Hlt. rewrite <- !Z.add_assoc. apply H. lia. }
  destruct (H' 6) as [_ E6]; [lia|lia|]. split.
  - unfold mem_name, entry_name. rewrite E6. unfold zseq. rewrite <- !list_fmap_compose.
    apply list_fmap_ext. intros j i Hj. apply lookup_seq in Hj. cbn.
    rewrite <- !(Z.add_assoc _ 8). apply H'; lia.
  - intros x Hx. rewrite E6 in Hx. replace x with (p + o + (x - (p + o))) by lia.
    apply H'; unfold range in Hx; lia.
Qed.

Definition search_post (r : search_result) (res : Z * Z) : Prop :=
  match r with
  | Found o => res.1 = o ∧ res.2 ≠ 10 ∧ 0 ≤ o ∧ o + 8 ≤ geo_block_size g
  | Missing => res.2 = 10
  | Outside => False
  end.

Lemma wp_dir_search s data d name l n o (Q : Z * Z → kstate → Prop) :
  budget 0 s → cstr s name l → holds_disk disk s data (geo_block_size g) d →
  geo_block_size g < 2 ^ 32 → (n ≤ 10)%nat → 0 ≤ o →
  dir_find disk g n d o l ≠ Outside →
  (∀ res, search_post (dir_find disk g n d o l) res → Q res s) →
  wp (loop (dir_search data name) (o, 10 - Z.of_nat n)) Q s.
Proof using Hdisk.
  intros Hb C H Hbs Hn Ho Hout HQ.
  apply (wp_loop_left _ (λ n '(o, c) s', s' = s ∧ c = 10 - Z.of_nat n ∧ (n ≤ 10)%nat ∧ 0 ≤ o ∧
    dir_find disk g n d o l ≠ Outside ∧
    ∀ res, search_post (dir_find disk g n d o l) res → Q res s) _ n).
  2: by split_and!. 2: simpl; lia.
  clear n o Hn Ho Hout HQ. intros n [o c] s' (-> & -> & Hn & Ho & Hout & HQ). unfold dir_search.
  assert (geo_block_size g <? o + 8 + disk (d + o + 6) = false) as Hin.
  { destruct n; cbn [dir_find] in Hout; by destruct (_ <? _). }
  pose proof (Hdisk (d + o + 6)) as Hd. apply Z.ltb_ge in Hin as Hle.
  destruct (mem_name_disk s data _ d o H Ho Hle) as [En Hs].
  assert (data ⊞ o = data + o) as Eo.
  { apply (stable_add s); [done| |done|apply H; lia].
    destruct (H 0) as [H0 _]; [lia|]. by rewrite Z.add_0_r in H0. }
  rewrite Eo. apply wp_bind, (wp_matches s _ name l); [done|done|done|]. rewrite En.
  destruct n as [|n]; cbn [dir_find] in Hout, HQ; rewrite Hin in Hout, HQ;
    destruct (decide (entry_name disk (d + o) = l)) as [Hl|Hl];
    [rewrite bool_decide_eq_true_2 by done|rewrite bool_decide_eq_false_2 by done|
     rewrite bool_decide_eq_true_2 by done|rewrite bool_decide_eq_false_2 by done]; cbn [negb andb].
  - apply wp_ret, HQ. done.
  - apply wp_ret, HQ. done.
  - apply wp_ret, HQ. cbn. lia.
  - replace (10 - Z.of_nat (S n) <? 10) with true by (symmetry; apply Z.ltb_lt; lia). cbn [andb].
    unfold dir_rec_len. rewrite <- Eo. rewrite Eo.
    assert (holds_disk disk s (data + o) 8 (d + o)) as H'.
    { intros i Hi. rewrite <- !Z.add_assoc. apply H. lia. }
    apply wp_bind, (wp_load_disk 2 s (data + o) 8 (d + o) 4); [done|done|lia|lia|].
    apply wp_ret. exists n. split; [done|]. pose proof (dload_range disk 2 (d + o + 4) Hdisk) as Hr.
    change (256 ^ Z.of_nat 2) with 65536 in Hr. fold (entry_rec_len disk (d + o)) in *.
    rewrite (u64_small (o + _)) by lia. rewrite u64_small by lia.
    split_and!; [done|lia|lia|lia|done|done].
Qed.
End matches.

(** * The EXT2 object *)

Record geometry_ok (g : geometry) : Prop := GeometryOk {
  go_block_size : 0 < geo_block_size g < 2 ^ 32 ∧ geo_block_size g mod 1024 = 0;
  go_inodes : 0 < geo_inodes_per_group g ≤ 2 ^ 25;
  go_groups : 0 < geo_groups g < 2 ^ 32;
  go_table i : 0 ≤ geo_inode_table g i < 2 ^ 32
}.

Section object.
Context `{A : Allocator}.

(** The object [this] describes the file system [g] on [device]; all it needs lies at
    addresses in [F]. *)
Record ext2_at (F : Z → Prop) (s : kstate) (this device : Z) (g : geometry) : Prop := Ext2At {
  ea_stable x : F x → stable s x;
  ea_object x : range this 32 x → F x;
  ea_device : vload 8 s this = device;
  ea_block_size : vload 4 s (this + 16) = geo_block_size g;
  ea_super : ∃ sb, vload 8 s (this + 8) = sb ∧ (∀ x, range sb 92 x → F x) ∧
    vload 4 s (sb + 40) = geo_inodes_per_group g;
  ea_groups : ∃ gd, vload 8 s (this + 24) = gd ∧ (∀ x, range gd (8 * geo_groups g) x → F x) ∧
    ∀ i, 0 ≤ i < geo_groups g → ∃ desc, vload 8 s (gd + 8 * i) = desc ∧
      (∀ x, range desc 32 x → F x) ∧ vload 4 s (desc + 8) = geo_inode_table g i
}.

Lemma ext2_at_keeps P F s s' this device g :
  keeps P s s' → (∀ x, F x → ¬ P x) → geometry_ok g → ext2_at F s this device g → ext2_at F s' this device g.
Proof.
  intros K HP GO [S O Dv Bs (sb & Es & Fs & Ip) (gd & Eg & Fg & Hg)].
  assert (∀ k p n i, (∀ x, range p n x → F x) → 0 ≤ i → i + Z.of_nat k ≤ n →
    vload k s' (p + i) = vload k s (p + i)) as Hv.
  { intros k p n i HF Hi Hk. apply (vload_keeps k P s s' _ K). intros x Hx.
    assert (F x) as HFx by (apply HF; unfold range in *; lia). split; [by apply S|by apply HP]. }
  pose proof (Hv 8%nat this 32 0 O ltac:(lia) ltac:(lia)) as E0. rewrite Z.add_0_r in E0.
  split; [by intros x Hx; apply (kp_stable _ _ _ K), S|done|by rewrite E0| | |].
  - by rewrite (Hv 4%nat this 32 16) by (done || lia).
  - exists sb. split; [by rewrite (Hv 8%nat this 32 8) by (done || lia)|]. split; [done|].
    by rewrite (Hv 4%nat sb 92 40) by (done || lia).
  - exists gd. split; [by rewrite (Hv 8%nat this 32 24) by (done || lia)|]. split; [done|]. intros i Hi.
    destruct (Hg i Hi) as (desc & Ed & Fd & Et). exists desc.
    rewrite (Hv 8%nat gd (8 * geo_groups g) (8 * i)) by (done || lia). split; [done|]. split; [done|].
    by rewrite (Hv 4%nat desc 32 8) by (done || lia).
Qed.

Section loads.
Context (F : Z → Prop) (s : kstate) (this device : Z) (g : geometry).
Context (Hb : budget 0 s) (E : ext2_at F s this device g) (GO : geometry_ok g).

Lemma object_stable p n : (∀ x, range p n x → F x) → ∀ x, range p n x → stable s x.
Proof using E. intros H x Hx. by apply (ea_stable _ _ _ _ _ E), H. Qed.

Lemma wp_ext2_block_size Q : Q (geo_block_size g) s → wp (ext2_block_size this) Q s.
Proof using Hb E.
  intros HQ. rewrite <- (ea_block_size _ _ _ _ _ E) in HQ.
  apply (wp_load_in 4 s this 32 16); [done|apply object_stable, E|lia|lia|lia|done].
Qed.

Lemma wp_ext2_block_device Q : Q device s → wp (ext2_block_device this) Q s.
Proof using Hb E.
  intros HQ. rewrite <- (ea_device _ _ _ _ _ E) in HQ. apply wp_load64; [done| |done].
  intros x Hx. apply (object_stable this 32); [apply E|]. unfold range in *. lia.
Qed.

Lemma wp_inodes_per_group {B} (k : Z → K B) Q :
  wp (k (geo_inodes_per_group g)) Q s →
  wp (super_block ← ext2_super_block this; n ← s_inodes_per_group super_block; k n) Q s.
Proof using Hb E.
  intros HQ. destruct (ea_super _ _ _ _ _ E) as (sb & Es & Fs & Ip).
  apply wp_bind, (wp_load_in 8 s this 32 8); [done|apply object_stable, E|lia|lia|lia|]. rewrite Es.
  apply wp_bind, (wp_load_in 4 s sb 92 40); [done|by apply object_stable|lia|lia|lia|]. by rewrite Ip.
Qed.

Lemma wp_inode_table {B} i (k : Z → K B) Q :
  0 ≤ i < geo_groups g → wp (k (geo_inode_table g i)) Q s →
  wp (group_descs ← ext2_group_descs this; desc ← load64 (group_descs ⊞ 8 * i);
      t ← bg_inode_table desc; k t) Q s.
Proof using Hb E.
  intros Hi HQ. destruct (ea_groups _ _ _ _ _ E) as (gd & Eg & Fg & Hg).
  destruct (Hg i Hi) as (desc & Ed & Fd & Et).
  apply wp_bind, (wp_load_in 8 s this 32 24); [done|apply object_stable, E|lia|lia|lia|]. rewrite Eg.
  apply wp_bind, (wp_load_in 8 s gd (8 * geo_groups g) (8 * i)); [done|by apply object_stable|lia|lia|lia|].
  rewrite Ed. apply wp_bind, (wp_load_in 4 s desc 32 8); [done|by apply object_stable|lia|lia|lia|]. by rewrite Et.
Qed.
End loads.
End object.

(** * get_inode_in_dir *)

Section lookup.
Context `{A : Allocator} `{D : BlockDevice} (disk : Z → Z) (device : Z).
Context {DL : DiskLaws disk device}.
Context (F : Z → Prop) (this : Z) (g : geometry) (GO : geometry_ok g).

(** The file system is mounted: its object is in place, the driver is ready, and the
    two share no memory. *)
Record mounted (s : kstate) : Prop := Mounted {
  mo_object : ext2_at F s this device g;
  mo_ready : ready s;
  mo_apart x : F x → ¬ driver x
}.

(** Memory a client hands in: apart from the file system's and the driver's. *)
Definition client_mem (p n : Z) : Prop :=
  ∀ x, range p n x → ¬ F x ∧ ¬ driver x.

Lemma mounted_keeps P s s' :
  keeps P s s' → (∀ x, P x → ¬ F x ∧ ¬ driver x) → mounted s → mounted s'.
Proof using GO.
  intros K HP [O R Ap]. split; [|apply (ready_keeps P s s' K); [|done]|done].
  - apply (ext2_at_keeps P F s); [done| |done|done]. intros x Hx Hpx. by destruct (HP x Hpx).
  - intros x Hx Hpx. by destruct (HP x Hpx).
Qed.

(** A read of the driver, as the file system sees it. *)
Lemma wp_block_read b s offset length buffer (Q : Z → kstate → Prop) :
  budget b s → mounted s → 0 ≤ length → read_cost length ≤ b → 0 ≤ offset →
  offset mod 512 + length mod 512 ≤ 512 → offset + length ≤ 2 ^ 34 →
  owned_range s buffer length → client_mem buffer length →
  (∀ r s', budget (b - read_cost length) s' → mounted s' →
     keeps (λ x, range buffer length x ∨ driver x) s s' → holds_disk disk s' buffer length offset →
     Q r s') → wp (block_read device offset length buffer) Q s.
Proof using GO.
  intros Hb M Hl Hle Ho Hmod Hend Hown Hc HQ.
  destruct (read_ok b s offset length buffer) as (r & s' & E & Hb' & R' & K & V);
    [done|apply M|done|done|done|done|done|done|intros x Hx; by destruct (Hc x Hx)|].
  eapply wp_done; [exact E|]. apply HQ; [done| |done|].
  - split; [|done|apply M].
    apply (ext2_at_keeps (λ x, range buffer length x ∨ driver x) F s); [done| |done|apply M].
    intros x Hx [Hr|Hr]; [by destruct (Hc x Hr)|by apply (mo_apart _ M x Hx)].
  - intros i Hi. split; [|by apply V]. apply (kp_stable _ _ _ K), owned_stable, Hown. unfold range. lia.
Qed.

Definition lookup_cost : Z :=
  geo_block_size g + 16 + read_cost (geo_block_size g) + read_cost 256.

(** What looking up one name leaves. *)
Record looked_up (b : Z) (s : kstate) (dir a : Z) (r : option Z) (res : Z) (s' : kstate) : Prop := LookedUp {
  lu_budget : budget (b - lookup_cost) s';
  lu_mounted : mounted s';
  lu_keeps : keeps (λ x, range dir 256 x ∨ driver x) s s';
  lu_result : res = match r with Some _ => 0 | None => -1 end;
  lu_inode : holds_disk disk s' dir 256 (default a r)
}.

Lemma holds_disk_keeps P s s' p n a :
  keeps P s s' → (∀ x, range p n x → ¬ P x) → holds_disk disk s p n a → holds_disk disk s' p n a.
Proof using Type.
  intros K HP H i Hi. destruct (H i Hi) as [H1 H2]. split; [by apply (kp_stable _ _ _ K)|].
  rewrite <- H2. apply (kp_byte _ _ _ K); [done|]. apply HP. unfold range. lia.
Qed.

(** The inode of number [i] replaces the directory's. *)
Lemma wp_fetch_inode b s dir i (Q : Z → kstate → Prop) :
  budget b s → mounted s → read_cost 256 ≤ b → 0 ≤ i < 2 ^ 32 → inode_group g i < geo_groups g →
  owned_range s dir 256 → client_mem dir 256 →
  (∀ s', budget (b - read_cost 256) s' → mounted s' → keeps (λ x, range dir 256 x ∨ driver x) s s' →
     holds_disk disk s' dir 256 (inode_address g i) → Q 0 s') →
  wp (super_block ← ext2_super_block this;
      inodes_per_group ← s_inodes_per_group super_block;
      let desc_index := divu32 (u32 (i - 1)) inodes_per_group in
      let index := remu32 (u32 (i - 1)) inodes_per_group in
      device ← ext2_block_device this;
      block_size ← ext2_block_size this;
      group_descs ← ext2_group_descs this;
      desc ← load64 (group_descs ⊞ 8 * desc_index);
      inode_table ← bg_inode_table desc;
      block_read device (u32 (block_size * u32 (inode_table + 0)) ⊞ Z.of_nat sizeof_EXT2Inode * index)
        (Z.of_nat sizeof_EXT2Inode) dir;;
      mret 0) Q s.
Proof using GO.
  intros Hb M Hle Hi Hgrp Ho Hc HQ. pose proof (mo_object _ M) as E. destruct GO as [[Hbs Hal] Hipg Hgr Ht].
  assert (budget 0 s) as Hz by (apply (budget_0 b); [done|pose proof (read_cost_pos 256); lia]).
  eapply (wp_inodes_per_group F); [exact Hz|exact E|]. cbv zeta.
  unfold divu32, remu32. rewrite (proj2 (Z.eqb_neq (geo_inodes_per_group g) 0)) by lia.
  fold (inode_group g i). pose proof (u32_range (i - 1)) as Hu.
  assert (0 ≤ inode_group g i) as Hg0 by (apply Z.div_pos; lia).
  apply wp_bind. eapply (wp_ext2_block_device F); [exact Hz|exact E|].
  apply wp_bind. eapply (wp_ext2_block_size F); [exact Hz|exact E|].
  eapply (wp_inode_table F); [exact Hz|exact E|lia|].
  rewrite Z.add_0_r, (u32_small (geo_inode_table g _)) by apply Ht. unfold sizeof_EXT2Inode.
  set (index := u32 (i - 1) mod geo_inodes_per_group g).
  assert (0 ≤ index < 2 ^ 25) as Hx.
  { pose proof (Z.mod_pos_bound (u32 (i - 1)) (geo_inodes_per_group g) ltac:(lia)). unfold index. lia. }
  pose proof (u32_range (geo_block_size g * geo_inode_table g (inode_group g i))) as Hbase.
  change (Z.of_nat 256) with 256. rewrite u64_small by lia.
  change (u32 _ + 256 * index) with (inode_address g i).
  assert (inode_address g i mod 256 = 0) as Hmod.
  { unfold inode_address. fold index. rewrite (Z.mul_comm 256), Z_mod_plus_full. unfold u32.
    rewrite <- (Znumtheory.Zmod_div_mod 256 0x100000000) by (try lia; by exists 0x1000000).
    rewrite Z.mul_mod, (Znumtheory.Zmod_div_mod 256 1024 (geo_block_size g)), Hal by (try lia; by exists 4).
    done. }
  apply wp_bind, (wp_block_read b s _ 256 dir); try done; try lia.
  - unfold inode_address. fold index. lia.
  - change (256 mod 512) with 256. zlia.
  - unfold inode_address. fold index. lia.
Qed.

Lemma lookup_cost_pos : 0 ≤ read_cost (geo_block_size g) ∧ 0 ≤ read_cost 256.
Proof using Type. split; apply read_cost_pos. Qed.

(** Reading the directory's block and searching it. *)
Lemma wp_read_and_search {B} b s dir a name l (k : Z → Z * Z → K B) (Q : B → kstate → Prop) :
  budget b s → mounted s → geo_block_size g + 16 + read_cost (geo_block_size g) ≤ b →
  holds_disk disk s dir 256 a → (∀ x, range dir 256 x → ¬ driver x) → cstr s name l →
  (∀ x, range name (Z.of_nat (length l) + 1) x → ¬ driver x) →
  dir_find disk g 10 (first_block disk g a) 0 l ≠ Outside →
  (∀ data res s', budget (b - (geo_block_size g + 16) - read_cost (geo_block_size g)) s' → mounted s' →
     keeps driver s s' → holds_disk disk s' data (geo_block_size g) (first_block disk g a) →
     search_post g (dir_find disk g 10 (first_block disk g a) 0 l) res → wp (k data res) Q s') →
  wp (block_size ← ext2_block_size this;
      data ← kalloc block_size;
      device ← ext2_block_device this;
      block_size ← ext2_block_size this;
      block ← i_block_0 dir;
      block_read device (u32 (block_size * block)) block_size data;;
      r ← loop (dir_search data name) (0, 0);
      k data r) Q s.
Proof using GO.
  intros Hb M Hle Hdir Hdd C Hnd Hout HQ. pose proof (mo_object _ M) as E. destruct GO as [[Hbs Hal] _ _ _].
  destruct lookup_cost_pos as [Hc1 _]. assert (budget 0 s) as Hz by (apply (budget_0 b); [done|lia]).
  apply wp_bind. eapply (wp_ext2_block_size F); [exact Hz|exact E|].
  apply wp_bind, (wp_kalloc b); [done|lia|lia|]. intros data s1 Hb1 F1.
  pose proof (fr_keeps _ _ _ _ F1) as K1.
  assert (mounted s1) as M1 by (apply (mounted_keeps nowhere s); [done|by intros ? []|done]).
  pose proof (mo_object _ M1) as E1. assert (budget 0 s1) as Hz1 by (apply (budget_0 _ _ Hb1); lia).
  assert (∀ x, range data (geo_block_size g) x → ¬ F x ∧ ¬ driver x) as Hnew.
  { intros x Hx. split; intros H; apply (fr_new _ _ _ _ F1 x Hx).
    - by apply (ea_stable _ _ _ _ _ E).
    - by apply driver_stable; [apply M|]. }
  apply wp_bind. eapply (wp_ext2_block_device F); [exact Hz1|exact E1|].
  apply wp_bind. eapply (wp_ext2_block_size F); [exact Hz1|exact E1|].
  assert (holds_disk disk s1 dir 256 a) as Hdir1.
  { apply (holds_disk_keeps nowhere s); [done|by intros ? ? []|done]. }
  apply wp_bind, (wp_load_disk disk 4 s1 dir 256 a 40); [done|done|lia|lia|].
  fold (first_block disk g a). pose proof (u32_range (geo_block_size g * dload disk 4 (a + 40))) as Hr.
  fold (first_block disk g a) in Hr.
  assert (first_block disk g a mod 512 = 0) as Hmod.
  { unfold first_block, u32. rewrite <- (Znumtheory.Zmod_div_mod 512 0x100000000) by (try lia; by exists 0x800000).
    rewrite Z.mul_mod, (Znumtheory.Zmod_div_mod 512 1024 (geo_block_size g)), Hal by (try lia; by exists 2).
    done. }
  apply wp_bind, (wp_block_read (b - geo_block_size g - 16) s1 _ (geo_block_size g) data); try done; try lia.
  { rewrite Hmod. pose proof (Z.mod_pos_bound (geo_block_size g) 512). lia. }
  { exact (fr_owned _ _ _ _ F1). }
  intros r s2 Hb2 M2 K2 H2. assert (budget 0 s2) as Hz2 by (apply (budget_0 _ _ Hb2); lia).
  assert (keeps driver s s2) as K.
  { apply (keeps_comp _ _ _ s s1 s2 K1 K2). intros x Hx [[]|[Hd|Hd]]; [|done].
    by destruct (fr_new _ _ _ _ F1 x Hd). }
  apply wp_bind. change 0 with (10 - Z.of_nat 10) at 2.
  apply (wp_dir_search disk g disk_byte s2 data (first_block disk g a) name l 10 0); try done; try lia.
  - by apply (cstr_keeps _ _ _ _ _ K).
  - intros res Hres. apply HQ; try done.
    apply (budget_weaken _ _ _ Hb2). lia.
Qed.

Lemma get_inode_in_dir_spec b s dir a name l r :
  budget b s → mounted s → lookup_cost ≤ b → owned_range s dir 256 → client_mem dir 256 →
  holds_disk disk s dir 256 a → cstr s name l →
  (∀ x, range name (Z.of_nat (length l) + 1) x → ¬ driver x) →
  lookup_name disk g a l = Some r →
  wp (EXT2_get_inode_in_dir this dir name) (λ res s', looked_up b s dir a r res s') s.
Proof using GO.
  intros Hb M Hle Ho Hc Hdir C Hnd Hl. destruct lookup_cost_pos as [Hc1 Hc2]. pose proof (go_block_size _ GO) as [Hbs _].
  unfold lookup_cost in Hle. assert (budget 0 s) as Hz by (apply (budget_0 b); [done|lia]).
  assert (∀ s' o, mounted s' → mounted (emit o s')) as Hme.
  { intros s' o M'. apply (mounted_keeps nowhere s'); [apply keeps_emit|by intros ? []|done]. }
  assert (∀ s' o, holds_disk disk s' dir 256 a → holds_disk disk (emit o s') dir 256 a) as Hhe.
  { intros s' o H'. apply (holds_disk_keeps nowhere s'); [apply keeps_emit|by intros ? ? []|done]. }
  unfold EXT2_get_inode_in_dir. apply wp_bind, (wp_log_str _ (chars "Getting inode of dir ") [] _ name l); [done|done|done|done|].
  intros o. assert (cstr (emit o s) name l) as C1.
  { apply (cstr_keeps nowhere s); [apply keeps_emit|done|by intros ? ? []]. }
  assert (∀ x, range dir 256 x → ¬ driver x) as Hdd by (intros x Hx; by destruct (Hc x Hx)).
  apply wp_bind. unfold i_mode. eapply wp_done.
  { apply loadv_stable; [by apply budget_emit|]. intros x Hx.
    apply owned_stable, (owned_range_keeps nowhere s (emit o s) dir 256 (keeps_emit _ _ _) Ho). unfold range in *. lia. }
  rewrite <- (Z.add_0_r dir), (vload_dload disk 2 _ dir 256 a 0 (Hhe _ _ Hdir)), !Z.add_0_r by lia.
  unfold lookup_name, is_directory in Hl. destruct (Z.eqb_spec (Z.land (dload disk 2 a) 0x4000) 0) as [Hm|Hm];
    cbn [negb] in Hl.
  - injection Hl as <-. apply wp_bind, (wp_log_str _
      (chars "get_inode_in_dir can only be called on directories, you called it on ") [] _ name l);
      [by apply budget_emit|done|done|done|].
    intros o'. apply wp_ret. split; [|by apply Hme, Hme| |done|by apply Hhe, Hhe].
    + apply budget_emit, budget_emit, (budget_weaken b); [done|unfold lookup_cost; lia].
    + eapply keeps_trans; apply keeps_emit.
  - apply (wp_read_and_search b _ dir a name l); try done; [by apply budget_emit|by apply Hme|lia|by apply Hhe| |].
    { intros Hf. by rewrite Hf in Hl. }
    intros data res s' Hb' M' K' H' Hres.
    assert (keeps (λ x, range dir 256 x ∨ driver x) s s') as K.
    { eapply keeps_trans; [apply (keeps_emit _ o)|]. eapply keeps_mono; [|exact K']. by right. }
    destruct res as [off cnt]. destruct (dir_find disk g 10 (first_block disk g a) 0 l) as [off'| |]; [| |done];
      cbn [search_post fst snd] in Hres.
    + destruct Hres as (-> & Hcnt & Hoff & Hoff'). rewrite (proj2 (Z.eqb_neq _ _) Hcnt).
      set (i := dload disk 4 (first_block disk g a + off')) in *.
      destruct (inode_group g i <? geo_groups g) eqn:Hgi; [|done]. injection Hl as <-. apply Z.ltb_lt in Hgi.
      assert (budget 0 s') as Hz' by (apply (budget_0 _ _ Hb'); lia).
      assert (owned_range s' dir 256) as Ho' by by apply (owned_range_keeps _ _ _ _ _ K).
      apply wp_bind. unfold dir_inode. apply (wp_load_disk disk 4 s' data (geo_block_size g) (first_block disk g a) off');
        [done|done|lia|lia|]. fold i.
      pose proof (dload_range disk 4 (first_block disk g a + off') disk_byte) as Hir. fold i in Hir.
      eapply (wp_fetch_inode _ s' dir i); [exact Hb'|done|lia|exact Hir|done|done|done|].
      intros s2 Hb2 M2 K2 H2. split; [|done| |done|done].
      * apply (budget_weaken _ _ _ Hb2). unfold lookup_cost. lia.
      * by eapply keeps_trans.
    + rewrite Hres. injection Hl as <-.
      assert (cstr s' name l) as C2 by by apply (cstr_keeps _ _ _ _ _ K').
      apply wp_bind, (wp_log_str _ (chars "Could not find the file ") (chars ".") _ name l);
        [apply (budget_0 _ _ Hb'); lia|done|done|done|].
      intros o'. apply wp_ret. split; [|by apply Hme| |done|].
      * apply budget_emit, (budget_weaken _ _ _ Hb'). unfold lookup_cost. lia.
      * eapply keeps_trans; [exact K|apply keeps_emit].
      * apply Hhe. apply (holds_disk_keeps _ _ _ _ _ _ K'); [done|by apply Hhe].
Qed.
End lookup.

(** * The walk over a path *)

Section names.
Context `{A : Allocator}.

(** The loop of copy_name, into a buffer with a byte more. *)
Lemma wp_copy_chars b s path pre name post p (Q : () → kstate → Prop) :
  let n := Z.of_nat (length name) in
  cstr s path (pre ++ name ++ post) → reading b p (n + 1) [] s s → 0 ≤ b →
  (∀ x, range path (Z.of_nat (length (pre ++ name ++ post)) + 1) x → ¬ range p (n + 1) x) →
  (∀ s', reading b p (n + 1) name s s' → Q () s') →
  wp (loop (λ i,
    if i <? n then
      c ← load8 (path ⊞ (Z.of_nat (length pre) ⊞ i));
      store8 (p ⊞ i) c;;
      mret (inl (i ⊞ 1))
    else mret (inr ())) 0) Q s.
Proof.
  intros n C R Hb0 Hsep HQ. pose proof (budget_0 b s (rg_budget _ _ _ _ _ _ R) Hb0) as Hz.
  pose proof (cstr_length _ _ _ Hz C) as Hlen. rewrite !length_app in Hlen. change (2 ^ 64) with 0x10000000000000000 in Hlen.
  apply (wp_loop_left _ (λ k i s', ∃ m1 m2, name = m1 ++ m2 ∧ k = length m2 ∧ i = Z.of_nat (length m1) ∧
    reading b p (n + 1) m1 s s') _ (length name)); [|by exists [], name|lia].
  intros k i s1 (m1 & m2 & En & -> & -> & R1). pose proof (budget_0 b s1 (rg_budget _ _ _ _ _ _ R1) Hb0) as Hz1.
  assert (length name = length m1 + length m2)%nat as Hname by (by rewrite En, length_app).
  assert (n = Z.of_nat (length m1 + length m2)) as Hn by (unfold n; lia).
  destruct m2 as [|c m2]; cbn [length] in Hn, Hname.
  - rewrite (proj2 (Z.ltb_ge _ _)) by lia. apply wp_ret, HQ. by rewrite En, app_nil_r.
  - rewrite (proj2 (Z.ltb_lt _ _)) by lia. rewrite (u64_small (Z.of_nat (length pre) + _)) by lia.
    assert (cstr s1 path (pre ++ name ++ post)) as C1.
    { apply (cstr_keeps _ _ _ _ _ (rg_keeps _ _ _ _ _ _ R1) C). intros x Hx Hr. apply (Hsep x Hx). unfold range in *. lia. }
    eapply wp_bind_done; [apply (cstr_load _ _ _ _ Hz1 C1); rewrite !length_app; lia|].
    rewrite <- Nat2Z.inj_add. destruct (cs_chars _ _ _ C1 (length pre + length m1) c) as [<- _].
    { rewrite En, lookup_app_r, <- app_assoc by lia. apply list_lookup_middle. lia. }
    set (c := vbyte _ _) in *. destruct (store_next b s s1 p (n + 1) m1 c R1 Hb0 ltac:(lia)) as (s2 & E & R2 & _).
    eapply wp_bind_done; [exact E|]. apply wp_ret. exists (length m2). split; [done|]. exists (m1 ++ [c]), m2.
    rewrite (u8_small c) in R2 by apply vbyte_range. rewrite u64_small by lia.
    split_and!; [by rewrite <- app_assoc|done|rewrite length_app; cbn [length]; lia|done].
Qed.

(** A new string with [size] characters of an old one. *)
Lemma wp_copy_name b s path L pre name post (Q : Z → kstate → Prop) :
  budget b s → cstr s path L → L = pre ++ name ++ post →
  Z.of_nat (length name) + 1 + 16 ≤ b →
  (∀ p s', budget (b - (Z.of_nat (length name) + 1) - 16) s' → keeps nowhere s s' → cstr s' p name →
     (∀ x, range p (Z.of_nat (length name) + 1) x → ¬ stable s x) → Q p s') →
  wp (copy_name path (Z.of_nat (length pre)) (Z.of_nat (length name))) Q s.
Proof.
  intros Hb C -> Hle HQ. set (n := Z.of_nat (length name)) in *.
  pose proof (budget_0 b s Hb ltac:(lia)) as Hz. pose proof (cstr_length _ _ _ Hz C) as Hlen.
  rewrite !length_app in Hlen. change (2 ^ 64) with 0x10000000000000000 in Hlen.
  unfold copy_name. rewrite (u64_small (n + 1)) by lia.
  apply wp_bind, (wp_kalloc b); [done|lia|lia|]. intros p s1 Hb1 F1.
  pose proof (fr_keeps _ _ _ _ F1) as K1.
  assert (reading (b - (n + 1) - 16) p (n + 1) [] s1 s1) as R1.
  { split; [done|exact (fr_owned _ _ _ _ F1)|apply keeps_refl|]. split; [|done]. cbn. unfold range. lia. }
  apply wp_bind, (wp_copy_chars (b - (n + 1) - 16) s1 path pre name post p); [|done|lia| |].
  { apply (cstr_keeps _ _ _ _ _ K1 C). by intros ? ? []. }
  { intros x Hx Hr. apply (fr_new _ _ _ _ F1 x Hr). by apply (cs_stable _ _ _ C). }
  intros s2 R2. destruct (store_next _ _ _ _ _ _ 0 R2 ltac:(lia) ltac:(lia)) as (s3 & E3 & [Hb3 _ K3 B3] & _).
  eapply wp_bind_done; [exact E3|]. apply wp_ret, HQ; [done| | |exact (fr_new _ _ _ _ F1)].
  - apply (keeps_fresh (range p (n + 1)) (n + 1) p s s1); [done| |done].
    eapply keeps_mono; [|exact K3]. intros x. rewrite length_app. cbn [length]. unfold range. lia.
  - apply line_cstr; [done|]. apply Forall_lookup. intros i c Hi.
    destruct (cs_chars _ _ _ C (length pre + i) c) as [_ H]; [|done].
    rewrite lookup_app_r, lookup_app_l by (pose proof (lookup_lt_Some _ _ _ Hi); lia). by replace (_ - _)%nat with i by lia.
Qed.
End names.

Definition tail_text (trailing : bool) (names : list (list Z)) : list Z :=
  match names with
  | [] => if trailing then [c_slash] else []
  | _ => c_slash :: path_text false trailing names
  end.

Lemma path_text_cons trailing n names :
  path_text false trailing (n :: names) = n ++ tail_text trailing names.
Proof. unfold path_text. destruct names; [done|]. cbn [join app tail_text]. by rewrite <- app_assoc. Qed.

Section walk.
Context `{A : Allocator} `{D : BlockDevice} (disk : Z → Z) (device : Z).
Context {DL : DiskLaws disk device}.
Context (F : Z → Prop) (this : Z) (g : geometry) (GO : geometry_ok g).
Context (dir path : Z) (L : list Z) (trailing : bool) (s0 : kstate).

(** What the walk may write of the memory that is already in use. *)
Definition walk_mem (x : Z) : Prop := range dir 256 x ∨ driver x.

Context (C0 : cstr s0 path L) (Ho0 : owned_range s0 dir 256) (Hc0 : client_mem disk device F dir 256).
Context (Hpath : ∀ x, range path (Z.of_nat (length L) + 1) x → ¬ walk_mem x).

Definition name_cost (name : list Z) : Z := Z.of_nat (length name) + 17 + lookup_cost disk device g.
Definition walk_cost (names : list (list Z)) : Z := foldr (λ n c, name_cost n + c) 0 names.

(** Between two names: the inode at [a] is in [dir]; [bo] is left in the end. *)
Record between (bo : Z) (a : Z) (names : list (list Z)) (s : kstate) : Prop := Between {
  bt_budget : budget (bo + walk_cost names) s;
  bt_mounted : mounted disk device F this g s;
  bt_dir : holds_disk disk s dir 256 a;
  bt_keeps : keeps walk_mem s0 s
}.

Lemma lookup_cost_nonneg : 0 ≤ lookup_cost disk device g.
Proof using GO.
  pose proof (go_block_size _ GO). destruct (lookup_cost_pos disk device g). unfold lookup_cost. lia.
Qed.

Lemma walk_cost_pos names : 0 ≤ walk_cost names.
Proof using GO.
  pose proof lookup_cost_nonneg. induction names as [|n names IH]; cbn [walk_cost foldr]; [lia|].
  fold (walk_cost names). unfold name_cost. lia.
Qed.

Lemma between_emit bo a names o s : between bo a names s → between bo a names (emit o s).
Proof using GO.
  intros [B M H K]. split; [by apply budget_emit| | |eapply keeps_trans; [exact K|apply keeps_emit]].
  - eapply mounted_keeps; [done|apply (keeps_emit nowhere)|by intros ? []|done].
  - by apply (holds_disk_keeps disk nowhere s); [apply keeps_emit|intros ? ? []|].
Qed.

(** One component: its name is copied and looked up. *)
Lemma wp_component {B} bo a pre name post names r s (k : Z → K B) (Q : B → kstate → Prop) :
  0 ≤ bo → between bo a (name :: names) s → L = pre ++ name ++ post →
  lookup_name disk g a name = Some r →
  (∀ res s', res = match r with Some _ => 0 | None => -1 end →
     between bo (default a r) names s' → wp (k res) Q s') →
  wp (copied ← copy_name path (Z.of_nat (length pre)) (Z.of_nat (length name));
      res ← EXT2_get_inode_in_dir this dir copied; k res) Q s.
Proof using C0 Ho0 Hc0 Hpath GO.
  intros Hbo [Hb M Hdir K] HL Hr HQ. cbn [walk_cost foldr] in Hb. fold (walk_cost names) in Hb.
  pose proof (walk_cost_pos names) as Hwc. pose proof lookup_cost_nonneg as Hlc. unfold name_cost in Hb.
  apply wp_bind. eapply (wp_copy_name _ s path L); [exact Hb|by apply (cstr_keeps _ _ _ _ _ K)|exact HL|lia|].
  intros p s1 Hb1 K1 C1 Hnew. assert (mounted disk device F this g s1) as M1.
  { apply (mounted_keeps disk device F this g GO nowhere s); [done|by intros ? []|done]. }
  pose proof (owned_range_keeps _ _ _ _ _ K Ho0) as Ho.
  apply wp_bind. eapply wp_mono.
  { eapply (get_inode_in_dir_spec disk device F this g GO _ s1 dir a p name r); [exact Hb1|done|lia| |done| |done| |done].
    - by apply (owned_range_keeps _ _ _ _ _ K1).
    - apply (holds_disk_keeps disk nowhere s); [done|by intros ? ? []|done].
    - intros x Hx Hd. apply (Hnew x Hx). by apply driver_stable; [apply M|]. }
  intros res s2 LU. apply HQ; [apply LU|]. split; [|apply LU|apply LU|].
  - apply (budget_weaken _ _ _ (lu_budget _ _ _ _ _ _ _ _ _ _ _ _ LU)). lia.
  - eapply keeps_trans; [exact K|]. eapply keeps_trans; [|apply LU].
    eapply keeps_mono; [|exact K1]. by intros ? [].
Qed.

(** Inside a component: [cur] of it has been passed, [nrest] is still to come. *)
Record inside (bo : Z) (r : option Z) (t : Z) (pre cur nrest : list Z) (names : list (list Z)) (a : Z)
    (s : kstate) : Prop := Inside {
  in_text : L = pre ++ cur ++ nrest ++ tail_text trailing names;
  in_names : Forall component ((cur ++ nrest) :: names);
  in_result : lookup_names disk g a ((cur ++ nrest) :: names) = Some r;
  in_reached : reached disk g a ((cur ++ nrest) :: names) = t;
  in_between : between bo a ((cur ++ nrest) :: names) s
}.

Definition finished (bo : Z) (r : option Z) (t res : Z) (s : kstate) : Prop :=
  res = match r with Some _ => 0 | None => -1 end ∧ budget bo s ∧
  mounted disk device F this g s ∧ keeps walk_mem s0 s ∧
  holds_disk disk s dir 256 t.

Lemma finished_intro bo r a names res s :
  0 ≤ bo → between bo a names s → res = match r with Some _ => 0 | None => -1 end →
  finished bo r a res s.
Proof using GO.
  intros Hbo [Hb M H K] ->. split; [done|]. pose proof (walk_cost_pos names).
  split; [apply (budget_weaken _ _ _ Hb); lia|done].
Qed.

Definition walk_post (bo : Z) (r : option Z) (t : Z) (e : walk_end) (s : kstate) : Prop :=
  match e with
  | WalkReturn res => finished bo r t res s
  | WalkFolder => finished bo r t 0 s
  | WalkFile current size => ∃ pre cur a,
      current = Z.of_nat (length pre + length cur) ∧ size = Z.of_nat (length cur) ∧
      trailing = false ∧ inside bo r t pre cur [] [] a s
  end.

(** The next character of a component. *)
Lemma inside_char bo r t pre cur c nrest names a s :
  inside bo r t pre cur (c :: nrest) names a s →
  c ≠ c_slash ∧ inside bo r t pre (cur ++ [c]) nrest names a s ∧
  L !! (length pre + length cur)%nat = Some c.
Proof using Type.
  intros [HL HN HR HT HB]. pose proof HN as [(Hne & Hs & _) _]%Forall_cons. split_and!.
  - intros ->. apply Hs, elem_of_app. right. by left.
  - assert (∀ k, cur ++ c :: k = (cur ++ [c]) ++ k) as E by (intros k; by rewrite <- app_assoc).
    split; rewrite <- ?E; try done.
  - rewrite HL, lookup_app_r, lookup_app_r by lia. by replace (_ - _ - _)%nat with 0%nat by lia.
Qed.

(** The '/' behind a component: it is looked up, and the walk ends or goes on
    inside the next one. *)
Lemma walk_slash bo r t pre cur names a s (Q : (Z * Z) + walk_end → kstate → Prop) :
  0 ≤ bo → inside bo r t pre cur [] names a s → tail_text trailing names ≠ [] →
  let current := Z.of_nat (length pre + length cur) in
  (∀ e s', walk_post bo r t e s' → Q (inr e) s') →
  (∀ c n names' a' s', inside bo r t (pre ++ cur ++ [c_slash]) [c] n names' a' s' →
     Q (inl (current + 2, 1)) s') →
  wp (walk_body (EXT2_get_inode_in_dir this dir) path (Z.of_nat (length L)) (current, Z.of_nat (length cur))) Q s.
Proof using C0 Ho0 Hc0 Hpath GO.
  intros Hbo [HL HN HR HT HB] Htail current Hend Hnext. rewrite app_nil_r in HN, HR, HT, HB. cbn [app] in HL.
  pose proof (walk_cost_pos (cur :: names)) as Hwc.
  pose proof (budget_0 _ _ (bt_budget _ _ _ _ HB) ltac:(lia)) as Hz.
  assert (cstr s path L) as C by (by apply (cstr_keeps _ _ _ _ _ (bt_keeps _ _ _ _ HB))).
  pose proof (cstr_length _ _ _ Hz C) as Hlen. change (2 ^ 64) with 0x10000000000000000 in Hlen.
  apply Forall_cons in HN as [(Hne & Hs & H0) HN'].
  assert (L !! (length pre + length cur)%nat = Some c_slash ∧ (length pre + length cur < length L)%nat) as [Hch Hlt].
  { assert (L !! (length pre + length cur)%nat = Some c_slash) as E.
    { rewrite HL, lookup_app_r, lookup_app_r by lia. replace (_ - _ - _)%nat with 0%nat by lia.
      destruct names; cbn in *; [by destruct trailing|done]. }
    split; [done|by apply lookup_lt_Some in E]. }
  assert (0 < Z.of_nat (length cur)) as Hcur by (destruct cur; [done|cbn; lia]).
  unfold walk_body. eapply wp_bind_done; [apply (cstr_load _ _ _ _ Hz C); lia|].
  destruct (cs_chars _ _ _ C _ _ Hch) as [Ev _]. fold current in Ev. rewrite Ev.
  change (c_slash =? 0) with false. change (c_slash =? c_slash) with true. cbv iota. rewrite (proj2 (Z.eqb_neq current 0)) by lia. rewrite (u64_small (current + 1)) by lia.
  apply wp_bind, wp_printf; [done|]. intros o.
  replace (current + 1 ⊟ Z.of_nat (length cur) ⊟ 1) with (Z.of_nat (length pre)).
  2:{ rewrite (u64_small (_ + 1 - _)), u64_small by lia. lia. }
  destruct (lookup_names disk g a (cur :: names)) as [r'|] eqn:Er; [|done]. injection HR as <-.
  cbn [lookup_names reached] in Er, HT. destruct (lookup_name disk g a cur) as [r1|] eqn:E1; [|done]. cbn in Er.
  apply (wp_component bo a pre cur (tail_text trailing names) names r1 (emit o s));
    [done|by apply between_emit|done|done|].
  intros res s2 -> HB2. destruct r1 as [a'|]; cbn [default Z.ltb Z.compare] in *.
  2:{ injection Er as <-. apply wp_ret, Hend. cbn [walk_post].
      subst t. by apply (finished_intro bo None a names). }
  destruct names as [|n names].
  - cbn [tail_text] in *. destruct trailing; [|done]. injection Er as <-.
    assert (length L = length pre + length cur + 1)%nat as EL by (rewrite HL, !length_app; cbn; lia).
    rewrite (proj2 (Z.eqb_eq _ _)) by lia. apply wp_ret, Hend. cbn [walk_post].
    cbn [reached] in HT. subst t. by apply (finished_intro bo (Some a') a' []).
  - pose proof HN' as HN1. apply Forall_cons in HN' as [(Hne' & Hs' & H0') HN'']. destruct n as [|c n]; [done|].
    cbn [tail_text] in HL. rewrite path_text_cons in HL.
    assert (length pre + length cur + 1 < length L)%nat as HltL by (rewrite HL, !length_app; cbn; lia).
    rewrite (proj2 (Z.eqb_neq _ _)) by lia. apply wp_ret.
    rewrite (u64_small (current + 1 + 1)) by lia. replace (current + 1 + 1) with (current + 2) by lia.
    apply (Hnext c n names a'). split; [|done|done|done|done].
    by rewrite HL, <- !app_assoc.
Qed.

Lemma between_facts bo a names s :
  0 ≤ bo → between bo a names s →
  budget 0 s ∧ cstr s path L ∧ Z.of_nat (length L) < 0x10000000000000000 - 1.
Proof using C0 Hpath GO.
  intros Hbo [Hb _ _ K]. pose proof (walk_cost_pos names). assert (budget 0 s) as Hz by (apply (budget_0 _ _ Hb); lia).
  assert (cstr s path L) as C by by apply (cstr_keeps _ _ _ _ _ K). split_and!; [done|done|].
  apply (cstr_length _ _ _ Hz C).
Qed.

(** The loop, from any point inside a component. *)
Lemma walk_loop bo r t (Q : walk_end → kstate → Prop) current size s :
  0 ≤ bo →
  (current = 0 ∧ size = 0 ∧ ∃ n names a, inside bo r t [c_slash] [] n names a s) ∨
  (∃ pre cur nrest names a, current = Z.of_nat (length pre + length cur) ∧ size = Z.of_nat (length cur) ∧
     inside bo r t pre cur nrest names a s) →
  (∀ e s', walk_post bo r t e s' → Q e s') →
  wp (loop (walk_body (EXT2_get_inode_in_dir this dir) path (Z.of_nat (length L))) (current, size)) Q s.
Proof using C0 Ho0 Hc0 Hpath GO.
  intros Hbo Hstart HQ.
  apply (wp_loop _ (λ '(current, size) s',
    (current = 0 ∧ size = 0 ∧ ∃ n names a, inside bo r t [c_slash] [] n names a s') ∨
    (∃ pre cur nrest names a, current = Z.of_nat (length pre + length cur) ∧ size = Z.of_nat (length cur) ∧
       inside bo r t pre cur nrest names a s')) (λ '(current, _) _, Z.of_nat (length L) - current)); [|done|].
  2:{ destruct Hstart as [(-> & _ & n & names & a & IN)|(pre & cur & nrest & names & a & -> & _ & IN)];
        destruct (between_facts _ _ _ _ Hbo (in_between _ _ _ _ _ _ _ _ _ IN)) as (_ & _ & Hlen); lia. }
  clear current size s Hstart. intros [current size] s
    [(-> & -> & n & names & a & IN)|(pre & cur & nrest & names & a & -> & -> & IN)];
    destruct (between_facts _ _ _ _ Hbo (in_between _ _ _ _ _ _ _ _ _ IN)) as (Hz & C & Hlen);
    pose proof (in_text _ _ _ _ _ _ _ _ _ IN) as HL.
  { assert (0 < length L)%nat as H0 by (rewrite HL; cbn; lia). split; [lia|]. unfold walk_body.
    eapply wp_bind_done; [apply (cstr_load _ _ _ _ Hz C); lia|].
    destruct (cs_chars _ _ _ C 0%nat c_slash) as [Ev _]; [by rewrite HL|]. change (Z.of_nat 0) with 0 in Ev. rewrite Ev.
    change (c_slash =? 0) with false. change (c_slash =? c_slash) with true. change (0 =? 0) with true. cbv iota.
    apply wp_ret. rewrite u64_small by lia. split; [|lia]. right. by exists [c_slash], [], n, names, a. }
  assert (length pre + length cur ≤ length L)%nat as Hle by (rewrite HL, !length_app; lia). split; [lia|].
  destruct nrest as [|c nrest].
  - destruct (decide (tail_text trailing names = [])) as [Ht|Ht].
    + assert (names = [] ∧ trailing = false) as [-> Htr] by (destruct names; [by destruct trailing|done]).
      assert (length L = length pre + length cur)%nat as EL
        by (rewrite HL, Ht, !length_app; cbn; lia).
      unfold walk_body. eapply wp_bind_done; [apply (cstr_load _ _ _ _ Hz C); lia|].
      rewrite <- EL, (cs_nul _ _ _ C). apply wp_ret, HQ. exists pre, cur, a. by rewrite EL.
    + apply (walk_slash bo r t pre cur names a s); [done|done|done|by auto|].
      intros c n names' a' s' IN'. split; [|lia]. right.
      exists (pre ++ cur ++ [c_slash]), [c], n, names', a'. split_and!; [|done|done].
      rewrite !length_app. cbn. lia.
  - destruct (inside_char _ _ _ _ _ _ _ _ _ _ IN) as (Hc & IN' & Hch). pose proof (lookup_lt_Some _ _ _ Hch).
    destruct (cs_chars _ _ _ C _ _ Hch) as [Ev Hc0'].
    unfold walk_body. eapply wp_bind_done; [apply (cstr_load _ _ _ _ Hz C); lia|]. rewrite Ev.
    rewrite (proj2 (Z.eqb_neq c 0)), (proj2 (Z.eqb_neq c c_slash)) by done.
    apply wp_ret. rewrite !u64_small by lia. split; [|lia]. right.
    exists pre, (cur ++ [c]), nrest, names, a. rewrite length_app. cbn [length]. split_and!; [lia|lia|done].
Qed.

Lemma walk_spec b a leading names r :
  budget b s0 → walk_cost names ≤ b → mounted disk device F this g s0 → holds_disk disk s0 dir 256 a →
  names ≠ [] → Forall component names → L = path_text leading trailing names →
  lookup_names disk g a names = Some r →
  wp (walk (EXT2_get_inode_in_dir this dir) path) (λ res s', finished (b - walk_cost names) r (reached disk g a names) res s') s0.
Proof using C0 Ho0 Hc0 Hpath GO.
  intros Hb Hle M Hdir Hne HN HL Hr. pose proof (walk_cost_pos names).
  set (t := reached disk g a names).
  assert (0 ≤ b - walk_cost names) as Hbo by lia. set (bo := b - walk_cost names) in *.
  assert (between bo a names s0) as HB.
  { split; [|done|done|apply keeps_refl]. by replace (bo + walk_cost names) with b by (unfold bo; lia). }
  destruct (between_facts _ _ _ _ Hbo HB) as (Hz & C & Hlen). destruct names as [|n names]; [done|].
  unfold walk. apply wp_bind, (wp_strlen s0 path L); [done|done|].
  apply wp_bind, (walk_loop bo r t); [done| |].
  { assert (∀ pre, L = pre ++ path_text false trailing (n :: names) → inside bo r t pre [] n names a s0) as HI.
    { intros pre E. split; [|done|done|done|done]. by rewrite E, path_text_cons. }
    destruct leading; [left; split_and!; [done|done|]; exists n, names, a; by apply HI|].
    right. exists [], [], n, names, a. split_and!; [done|done|by apply HI]. }
  intros e s' HP. destruct e as [res| |current size]; cbn [walk_post] in HP.
  - by apply wp_ret.
  - by apply wp_ret.
  - destruct HP as (pre & cur & a' & -> & -> & Htr & [HL' HN' HR HT HB']). rewrite app_nil_r in HN', HR, HT, HB'.
    replace (Z.of_nat (length pre + length cur) ⊟ Z.of_nat (length cur)) with (Z.of_nat (length pre)).
    2:{ assert (length pre ≤ length L)%nat by (rewrite HL', !length_app; lia). rewrite u64_small; lia. }
    cbn [lookup_names reached] in HR, HT. destruct (lookup_name disk g a' cur) as [r1|] eqn:E1; [|done]. cbn in HR.
    apply (wp_component bo a' pre cur ([] ++ tail_text trailing []) [] r1 s'); [done|done|done|done|].
    intros res s2 -> HB2. destruct r1 as [a2|]; injection HR as <-; apply wp_ret; rewrite <- HT;
      by apply (finished_intro bo _ _ [] _ _ Hbo HB2).
Qed.
End walk.

(** C21: get_inode_in_dir replaces the inode of a directory by the one its entry
    [name] refers to, when one of the first ten entries of the first block has that
    name; otherwise it returns -1 and leaves the inode alone. *)
Theorem get_inode_in_dir_correct `{A : Allocator} `{D : BlockDevice} (disk : Z → Z) (device : Z)
    {DL : DiskLaws disk device} (F : Z → Prop) (this : Z) (g : geometry) b s dir a name l r :
  geometry_ok g → budget b s → mounted disk device F this g s → lookup_cost disk device g ≤ b →
  owned_range s dir 256 → client_mem disk device F dir 256 → holds_disk disk s dir 256 a →
  cstr s name l → (∀ x, range name (Z.of_nat (length l) + 1) x → ¬ driver x) →
  lookup_name disk g a l = Some r →
  ∃ s', EXT2_get_inode_in_dir this dir name s = Done (if r then 0 else -1) s' ∧
    holds_disk disk s' dir 256 (default a r) ∧ mounted disk device F this g s' ∧
    keeps (walk_mem disk device dir) s s'.
Proof.
  intros GO Hb M Hle Ho Hc H C Hn Hl.
  destruct (wp_inv _ _ _ (get_inode_in_dir_spec disk device F this g GO b s dir a name l r Hb M Hle Ho Hc H C Hn Hl))
    as (res & s' & E & [_ M' K' -> H']). exists s'. by destruct r.
Qed.
