(* ===== verification/Ext2Mount.v ===== *)
(** Mounting: the constructor of EXT2 builds the object the other methods need
    ([mounted]), and a small concrete disk for the witnesses. *)

From S2P Require Import Prelude Monad Memory Sv48 Machine Layout Stdio Heap KAlloc Allocator Client Ext2 Ext2Walk.

(** * Mounting: the constructor *)

Section mount.
Context `{A : Allocator} `{D : BlockDevice} (disk : Z → Z) (device : Z).
Context {DL : DiskLaws disk device}.
Context (this : Z).

(** The geometry the superblock and the group descriptors on the disk describe. *)
Definition disk_block_size : Z := u32 (Z.shiftl 1024 (dload disk 4 (1024 + 24) mod 32)).
Definition disk_groups : Z := dload disk 4 (1024 + 4) / dload disk 4 (1024 + 32).
Definition disk_geometry : geometry := Geometry disk_block_size (dload disk 4 (1024 + 40)) disk_groups
  (λ i, dload disk 4 (disk_block_size + 32 * i + 8)).

(** Objects with their sizes: owned, apart from each other and from the driver. *)
Record objects (s : kstate) (l : list (Z * Z)) : Prop := Objects {
  ob_owned j o : l !! j = Some o → owned_range s o.1 o.2;
  ob_apart i j o p : l !! i = Some o → l !! j = Some p → i ≠ j → disjoint_range o.1 o.2 p.1 p.2;
  ob_driver j o x : l !! j = Some o → range o.1 o.2 x → ¬ driver x
}.

Lemma objects_keeps P s s' l : keeps P s s' → objects s l → objects s' l.
Proof using Type.
  intros K [O Ap Dr]. split; [|done|done]. intros j o Hj. by apply (owned_range_keeps _ _ _ _ _ K), (O j).
Qed.

Lemma objects_new n p s s' l : ready s → fresh n p s s' → objects s l → objects s' (l ++ [(p, n)]).
Proof using Type.
  intros R Fr OB. pose proof (objects_keeps _ _ _ _ (fr_keeps _ _ _ _ Fr) OB) as [O' _ _]. destruct OB as [O Ap Dr].
  assert (∀ j o x, l !! j = Some o → range o.1 o.2 x → ¬ range p n x) as Hnew.
  { intros j o x Hj Hx Hp. by apply (fr_new _ _ _ _ Fr x Hp), owned_stable, (O j o Hj). }
  split.
  - intros j o [Hj|[_ <-]]%lookup_snoc_Some; [by apply (O' j); destruct Hj|exact (fr_owned _ _ _ _ Fr)].
  - intros i j o q [[_ Hi]|[-> <-]]%lookup_snoc_Some [[_ Hj]|[-> <-]]%lookup_snoc_Some Hne x Hx Hy.
    + by apply (Ap i j o q Hi Hj Hne x).
    + by apply (Hnew i o x).
    + by apply (Hnew j q x).
    + done.
  - intros j o x [[_ Hj]|[_ <-]]%lookup_snoc_Some Hx Hd; [by apply (Dr j o x)|].
    apply (fr_new _ _ _ _ Fr x Hx). by apply driver_stable.
Qed.

(** What a write to one object leaves of another. *)
Definition write_to (o : Z * Z) (x : Z) : Prop := range o.1 o.2 x ∨ driver x.

Lemma objects_other s l i j o p x :
  objects s l → l !! i = Some o → l !! j = Some p → i ≠ j → range p.1 p.2 x → ¬ write_to o x.
Proof using Type.
  intros [_ Ap Dr] Hi Hj Hne Hx [Ho|Hd]; [by apply (Ap i j o p Hi Hj Hne x)|by apply (Dr j p x Hj)].
Qed.

Lemma objects_vload k s s' l i j o q m off :
  objects s l → keeps (write_to o) s s' → l !! i = Some o → l !! j = Some (q, m) → i ≠ j →
  0 ≤ off → off + Z.of_nat k ≤ m → vload k s' (q + off) = vload k s (q + off).
Proof using Type.
  intros OB K Hi Hj Hne H0 Hm. apply (vload_keeps k _ s s' _ K). intros x Hx.
  assert (range q m x) as Hr by (unfold range in *; lia). split.
  - by apply owned_stable, (ob_owned _ _ OB j (q, m)).
  - by apply (objects_other s l i j o (q, m)).
Qed.

Lemma objects_holds s s' l i j o q m a :
  objects s l → keeps (write_to o) s s' → l !! i = Some o → l !! j = Some (q, m) → i ≠ j →
  holds_disk disk s q m a → holds_disk disk s' q m a.
Proof using Type.
  intros OB K Hi Hj Hne. apply (holds_disk_keeps disk _ s s' q m a K). intros x Hx.
  by apply (objects_other s l i j o (q, m)).
Qed.

Definition ext2_objects (sb gd : Z) (ds : list Z) : list (Z * Z) :=
  [(this, 32); (sb, 92); (gd, 64)] ++ ((λ d, (d, 32)) <$> ds).

(** The object's own fields and the superblock, once they are set. *)
Record header (sb gd : Z) (s : kstate) : Prop := Header {
  hd_device : vload 8 s this = device;
  hd_sb : vload 8 s (this + 8) = sb;
  hd_gd : vload 8 s (this + 24) = gd;
  hd_bs : vload 4 s (this + 16) = disk_block_size;
  hd_super : holds_disk disk s sb 92 1024
}.

(** The object while it is being built: the descriptors [ds] are allocated, the first
    [k] of them are read. *)
Record mounting (sb gd : Z) (ds : list Z) (k : nat) (bud : Z) (s : kstate) : Prop := Mounting {
  mg_len : (length ds ≤ 8)%nat;
  mg_budget : budget bud s;
  mg_ready : ready s;
  mg_objs : objects s (ext2_objects sb gd ds);
  mg_header : header sb gd s;
  mg_ptr j d : ds !! j = Some d → vload 8 s (gd + 8 * Z.of_nat j) = d;
  mg_read j d : (j < k)%nat → ds !! j = Some d →
    holds_disk disk s d 32 (disk_block_size + 32 * Z.of_nat j)
}.

Lemma objects_lookup_desc sb gd ds j d :
  ds !! j = Some d → ext2_objects sb gd ds !! (3 + j)%nat = Some (d, 32).
Proof using Type.
  intros Hj. unfold ext2_objects. rewrite lookup_app_r by (cbn; lia). cbn [length].
  replace (3 + j - 3)%nat with j by lia. by rewrite list_lookup_fmap, Hj.
Qed.

Lemma ext2_objects_snoc sb gd ds d :
  ext2_objects sb gd (ds ++ [d]) = ext2_objects sb gd ds ++ [(d, 32)].
Proof using Type. unfold ext2_objects. by rewrite fmap_app, app_assoc. Qed.

(** A change outside an object leaves its fields. *)
Lemma object_kept P s s' l j p m k off :
  objects s l → keeps P s s' → l !! j = Some (p, m) → (∀ x, range p m x → ¬ P x) →
  0 ≤ off → off + Z.of_nat k ≤ m → vload k s' (p + off) = vload k s (p + off).
Proof using Type.
  intros OB K Hj HP H0 Hm. apply (vload_keeps k _ s s' _ K). intros x Hx.
  assert (range p m x) as Hr by (unfold range in *; lia).
  split; [by apply owned_stable, (ob_owned _ _ OB j (p, m))|by apply HP].
Qed.

Lemma header_keeps P s s' sb gd ds :
  objects s (ext2_objects sb gd ds) → keeps P s s' → header sb gd s →
  (∀ x, range this 32 x ∨ range sb 92 x → ¬ P x) → header sb gd s'.
Proof using Type.
  intros OB K [Hd Hs Hg Hb Hsu] HP.
  assert (∀ k off, 0 ≤ off → off + Z.of_nat k ≤ 32 → vload k s' (this + off) = vload k s (this + off)) as Hv.
  { intros k off. apply (object_kept P s s' _ 0 this 32 k off OB K eq_refl). auto. }
  pose proof (Hv 8%nat 0 ltac:(lia) ltac:(lia)) as E0. rewrite Z.add_0_r in E0.
  split; [by rewrite E0|by rewrite Hv by lia|by rewrite Hv by lia|by rewrite Hv by lia|].
  apply (holds_disk_keeps disk P s); [done|auto|done].
Qed.

Lemma write_apart s sb gd ds i o :
  objects s (ext2_objects sb gd ds) → ext2_objects sb gd ds !! i = Some o → (2 ≤ i)%nat →
  ∀ x, range this 32 x ∨ range sb 92 x → ¬ write_to o x.
Proof using Type.
  intros OB Hi H2 x [Hx|Hx]; [apply (objects_other s _ i 0 o (this, 32) x OB Hi eq_refl)|
    apply (objects_other s _ i 1 o (sb, 92) x OB Hi eq_refl)]; done || lia.
Qed.

(** One round of the first loop: a descriptor is allocated and entered. *)
Lemma wp_new_desc {B} sb gd ds bud s (k : K B) (Q : B → kstate → Prop) :
  mounting sb gd ds 0 bud s → (length ds < 8)%nat → 48 ≤ bud →
  (∀ d s', mounting sb gd (ds ++ [d]) 0 (bud - 48) s' → wp k Q s') →
  wp (desc ← new_zeroed sizeof_EXT2BlockGroupDescriptor;
      group_descs ← ext2_group_descs this;
      store64 (group_descs ⊞ 8 * Z.of_nat (length ds)) desc;; k) Q s.
Proof using Type.
  intros [Hl B1 R OB HD Hp Hr] Hlen Hbud HQ. set (n := Z.of_nat (length ds)).
  apply wp_bind, (wp_new_zeroed bud); [done|unfold sizeof_EXT2BlockGroupDescriptor; lia|].
  intros d s1 Hb1 F1 _. change (Z.of_nat sizeof_EXT2BlockGroupDescriptor) with 32 in *.
  replace (bud - 32 - 16) with (bud - 48) in Hb1 by lia. pose proof (fr_keeps _ _ _ _ F1) as K1.
  pose proof (objects_new _ _ _ _ _ R F1 OB) as OB1. rewrite <- ext2_objects_snoc in OB1.
  assert (header sb gd s1) as HD1 by (apply (header_keeps nowhere s _ _ _ ds); [done|done|done|by intros ? _ []]).
  assert (owned_range s1 gd 64) as Hogd by exact (ob_owned _ _ OB1 2 (gd, 64) eq_refl).
  apply wp_bind, (wp_load64_field (bud - 48) s1 this 32 24); [done|lia|exact (ob_owned _ _ OB1 0 (this, 32) eq_refl)|lia|lia|].
  rewrite (hd_gd _ _ _ HD1).
  apply wp_bind, (wp_store_field 8 (bud - 48) s1 gd 64 (8 * n)); [done|lia|done|lia|lia|lia|].
  intros s2 T2 _. pose proof (st_keeps _ _ _ _ _ _ T2) as K2.
  assert (keeps (write_to (gd, 64)) s1 s2) as K2'.
  { eapply keeps_mono; [|exact K2]. intros x Hx. left. unfold range in *. cbn. lia. }
  pose proof (fr_pos _ _ _ _ F1) as Hpos. apply (HQ d). split.
  - rewrite length_app. cbn. lia.
  - apply T2.
  - apply (ready_keeps _ s1 s2 K2); [|apply (ready_keeps _ s s1 K1); [by intros ? _ []|done]].
    intros x Hd Hx. apply (ob_driver _ _ OB1 2 (gd, 64) x); [done| |done]. unfold range in *. cbn. lia.
  - by apply (objects_keeps _ _ _ _ K2).
  - apply (header_keeps _ s1 _ _ _ _ OB1 K2' HD1). by apply (write_apart s1 sb gd (ds ++ [d]) 2).
  - intros j d' [[Hj Hd']|[-> <-]]%lookup_snoc_Some.
    + rewrite (field_kept _ _ _ _ _ _ _ _ 8 (8 * Z.of_nat j) T2 Hogd) by lia.
      pose proof (lookup_lt_Some _ _ _ Hd').
      rewrite (object_kept nowhere s s1 (ext2_objects sb gd ds) 2 gd 64 8);
        [by apply Hp|done|done|done|by intros ? _ []|lia|lia].
    + apply (stored_exact _ _ _ _ _ _ T2). change (256 ^ Z.of_nat 8) with (2 ^ 64). lia.
  - intros j d' Hj. lia.
Qed.

(** One round of the second loop: a descriptor is read. *)
Lemma wp_read_desc {B} sb gd ds j bud s (k : K B) (Q : B → kstate → Prop) :
  mounting sb gd ds j bud s → (j < length ds)%nat → read_cost 32 ≤ bud →
  0 ≤ disk_block_size < 2 ^ 32 → disk_block_size mod 1024 = 0 →
  (∀ s', mounting sb gd ds (S j) (bud - read_cost 32) s' → wp k Q s') →
  wp (device ← ext2_block_device this;
      block_size ← ext2_block_size this;
      group_descs ← ext2_group_descs this;
      desc ← load64 (group_descs ⊞ 8 * Z.of_nat j);
      block_read device (u32 (block_size * 1) ⊞ Z.of_nat j * Z.of_nat sizeof_EXT2BlockGroupDescriptor)
        (Z.of_nat sizeof_EXT2BlockGroupDescriptor) desc;; k) Q s.
Proof using Type.
  intros [Hl B1 R OB HD Hp Hr] Hj Hbud Hbs Hmod HQ. pose proof (read_cost_pos 32) as Hc.
  assert (budget 0 s) as Hz by (apply (budget_0 bud); [done|lia]).
  assert (owned_range s this 32) as Hot by exact (ob_owned _ _ OB 0 (this, 32) eq_refl).
  assert (owned_range s gd 64) as Hogd by exact (ob_owned _ _ OB 2 (gd, 64) eq_refl).
  destruct (lookup_lt_is_Some_2 ds j Hj) as [d Hd]. pose proof (objects_lookup_desc sb gd ds j d Hd) as Hdo.
  apply wp_bind, wp_load64; [done|intros x Hx; apply owned_stable, Hot; unfold range in *; lia|].
  rewrite (hd_device _ _ _ HD).
  apply wp_bind, (wp_load_field 4 bud s this 32 16); [done|lia|done|lia|lia|lia|]. rewrite (hd_bs _ _ _ HD).
  apply wp_bind, (wp_load_field 8 bud s this 32 24); [done|lia|done|lia|lia|lia|]. rewrite (hd_gd _ _ _ HD).
  apply wp_bind, (wp_load_field 8 bud s gd 64 (8 * Z.of_nat j)); [done|lia|done|lia|lia|lia|].
  rewrite (Hp j d Hd). change (Z.of_nat sizeof_EXT2BlockGroupDescriptor) with 32.
  rewrite Z.mul_1_r, u32_small by lia. rewrite u64_small by lia. rewrite (Z.mul_comm _ 32).
  destruct (read_ok bud s (disk_block_size + 32 * Z.of_nat j) 32 d) as (r & s' & E & Hb' & R' & K & V);
    [done|done|lia|lia|lia| |lia|exact (ob_owned _ _ OB _ _ Hdo)|intros x; exact (ob_driver _ _ OB _ _ x Hdo)|].
  { change (32 mod 512) with 32. zlia. }
  eapply wp_bind_done; [exact E|]. apply HQ.
  assert (∀ i o, ext2_objects sb gd ds !! i = Some o → i ≠ (3 + j)%nat → ∀ x, range o.1 o.2 x → ¬ write_to (d, 32) x) as Hap.
  { intros i o Hi Hne x Hx. by apply (objects_other s _ (3 + j) i (d, 32) o x OB Hdo Hi). }
  split; [done|done|done|by apply (objects_keeps _ _ _ _ K)| | |].
  - apply (header_keeps _ s _ _ _ _ OB K HD). apply (write_apart s sb gd ds (3 + j) (d, 32)); [done|done|lia].
  - intros i d' Hi. pose proof (lookup_lt_Some _ _ _ Hi).
    rewrite (object_kept _ s s' _ 2 gd 64 8 _ OB K eq_refl); [by apply Hp| |lia|lia].
    intros x Hx. by apply (Hap 2%nat (gd, 64)).
  - intros i d' Hi Hd'. destruct (decide (i = j)) as [->|Hne].
    + assert (d' = d) as -> by congruence. intros o Ho. split; [|by apply V].
      apply owned_stable, (kp_owned _ _ _ K), (ob_owned _ _ OB _ _ Hdo). unfold range. cbn. lia.
    + apply (holds_disk_keeps disk _ s s' _ _ _ K); [|by apply Hr; [lia|]].
      intros x Hx. apply (Hap (3 + i)%nat (d', 32)); [by apply objects_lookup_desc|lia|done].
Qed.

Lemma ready_store b k o n v s s' j l :
  objects s l → l !! j = Some o → ready s → stored b k (o.1 + n) v s s' → 0 ≤ n →
  n + Z.of_nat k ≤ o.2 → ready s' ∧ keeps (write_to o) s s' ∧ objects s' l.
Proof using Type.
  intros OB Hj R T H0 Hn. pose proof (st_keeps _ _ _ _ _ _ T) as K.
  assert (keeps (write_to o) s s') as K' by (eapply keeps_mono; [|exact K]; left; unfold range in *; lia).
  split; [|by split; [|apply (objects_keeps _ _ _ _ K)]].
  apply (ready_keeps _ s s' K); [|done]. intros x Hd Hx. apply (ob_driver _ _ OB j o x Hj); [|done].
  unfold range in *. lia.
Qed.

(** The part of the constructor before the superblock is interpreted. *)
Lemma wp_read_super {B} b s (k : Z → K B) (Q : B → kstate → Prop) :
  budget b s → ready s → objects s [(this, 32)] → 108 + read_cost 92 ≤ b → 0 ≤ device < 2 ^ 64 →
  (∀ sb s', budget (b - 108 - read_cost 92) s' → ready s' → objects s' [(this, 32); (sb, 92)] →
     vload 8 s' this = device → vload 8 s' (this + 8) = sb → holds_disk disk s' sb 92 1024 → wp (k sb) Q s') →
  wp (store64 this device;;
      super_block ← new_zeroed sizeof_EXT2SuperBlock;
      store64 (this ⊞ 8) super_block;;
      super_block ← ext2_super_block this;
      block_read device 1024 (Z.of_nat sizeof_EXT2SuperBlock) super_block;;
      super_block ← ext2_super_block this;
      k super_block) Q s.
Proof using Type.
  intros Hb R OB Hle Hdev HQ. pose proof (read_cost_pos 92) as Hc.
  assert (owned_range s this 32) as Ho by exact (ob_owned _ _ OB 0 (this, 32) eq_refl).
  apply wp_bind, (wp_storev 8 b); [done|lia|intros x Hx; apply Ho; unfold range in *; lia|].
  intros s1 T1. rewrite <- (Z.add_0_r this) in T1.
  destruct (ready_store _ _ (this, 32) _ _ _ _ 0 _ OB eq_refl R T1) as (R1 & K1 & OB1); [lia|cbn; lia|].
  assert (vload 8 s1 this = device) as D1.
  { rewrite <- (Z.add_0_r this). by apply (stored_exact _ _ _ _ _ _ T1). }
  apply wp_bind, (wp_new_zeroed b); [apply T1|unfold sizeof_EXT2SuperBlock; lia|]. intros sb s2 Hb2 F2 _.
  change (Z.of_nat sizeof_EXT2SuperBlock) with 92 in *. replace (b - 92 - 16) with (b - 108) in Hb2 by lia.
  pose proof (fr_keeps _ _ _ _ F2) as K2. pose proof (fr_pos _ _ _ _ F2) as Hpos.
  pose proof (objects_new _ _ _ _ _ R1 F2 OB1) as OB2. cbn [app] in OB2.
  assert (ready s2) as R2 by (apply (ready_keeps _ s1 s2 K2); [by intros ? _ []|done]).
  pose proof (ob_owned _ _ OB2 0 (this, 32) eq_refl) as Ho2. cbn [fst snd] in Ho2.
  apply wp_bind, (wp_store_field 8 (b - 108) s2 this 32 8); [done|lia|done|lia|lia|lia|]. intros s3 T3 Ho3.
  destruct (ready_store _ _ (this, 32) _ _ _ _ 0 _ OB2 eq_refl R2 T3) as (R3 & K3 & OB3); [lia|cbn; lia|].
  assert (vload 8 s3 this = device) as D3.
  { rewrite <- (Z.add_0_r this), (field_kept _ _ _ _ _ _ _ _ 8 0 T3 Ho2) by lia.
    rewrite (object_kept nowhere s1 s2 _ 0 this 32 8 0 OB1 K2 eq_refl); [by rewrite Z.add_0_r|by intros ? _ []|lia|lia]. }
  assert (vload 8 s3 (this + 8) = sb) as S3.
  { apply (stored_exact _ _ _ _ _ _ T3). change (256 ^ Z.of_nat 8) with (2 ^ 64). lia. }
  apply wp_bind, (wp_load_field 8 (b - 108) s3 this 32 8); [apply T3|lia|done|lia|lia|lia|]. rewrite S3.
  destruct (read_ok (b - 108) s3 1024 92 sb) as (r & s4 & E & Hb4 & R4 & K4 & V4);
    [apply T3|done|lia|lia|lia|by vm_compute|lia|exact (ob_owned _ _ OB3 1 (sb, 92) eq_refl)|
     intros x; exact (ob_driver _ _ OB3 1 (sb, 92) x eq_refl)|].
  eapply wp_bind_done; [exact E|]. change (keeps (write_to (sb, 92)) s3 s4) in K4.
  pose proof (objects_keeps _ _ _ _ K4 OB3) as OB4.
  assert (∀ o, o = 0 ∨ o = 8 → vload 8 s4 (this + o) = vload 8 s3 (this + o)) as Hv.
  { intros o Hoo. apply (objects_vload 8 s3 s4 _ 1 0 (sb, 92) this 32 o OB3 K4); done || lia. }
  apply wp_bind, (wp_load_field 8 (b - 108 - read_cost 92) s4 this 32 8);
    [done|lia|exact (ob_owned _ _ OB4 0 (this, 32) eq_refl)|lia|lia|lia|].
  rewrite Hv, S3 by lia. apply HQ; [done|done|done| |by rewrite Hv, S3 by lia|].
  - pose proof (Hv 0 ltac:(lia)) as E0. rewrite Z.add_0_r in E0. by rewrite E0.
  - intros i Hi. split; [|by apply V4]. apply owned_stable, (ob_owned _ _ OB4 1 (sb, 92) eq_refl). unfold range. cbn. lia.
Qed.

(** The superblock's numbers, the array of descriptors, and the block size. *)
Lemma wp_super_fields {B} b sb s (k : Z → Z → K B) (Q : B → kstate → Prop) :
  budget b s → ready s → objects s [(this, 32); (sb, 92)] → 80 ≤ b →
  vload 8 s this = device → vload 8 s (this + 8) = sb → holds_disk disk s sb 92 1024 →
  (∀ gd s', mounting sb gd [] 0 (b - 80) s' →
     wp (k (dload disk 4 (1024 + 4)) (dload disk 4 (1024 + 32))) Q s') →
  wp (blocks_count ← s_blocks_count sb;
      blocks_per_group ← s_blocks_per_group sb;
      group_descs ← operator_new (8 * 8);
      store64 (this ⊞ 24) group_descs;;
      super_block ← ext2_super_block this;
      log_block_size ← s_log_block_size super_block;
      store32 (this ⊞ 16) (Z.shiftl 1024 (log_block_size mod 32));; k blocks_count blocks_per_group) Q s.
Proof using Type.
  intros Hb R OB Hle D1 S1 H1 HQ. assert (budget 0 s) as Hz by (apply (budget_0 b); [done|lia]).
  apply wp_bind, (wp_load_disk disk 4 s sb 92 1024 4); [done|done|lia|lia|].
  apply wp_bind, (wp_load_disk disk 4 s sb 92 1024 32); [done|done|lia|lia|].
  unfold operator_new. change (8 * 8) with 64.
  apply wp_bind, (wp_kalloc b); [done|lia|lia|]. intros gd s2 Hb2 F2.
  replace (b - 64 - 16) with (b - 80) in Hb2 by lia.
  pose proof (fr_keeps _ _ _ _ F2) as K2. pose proof (fr_pos _ _ _ _ F2) as Hpos.
  pose proof (objects_new _ _ _ _ _ R F2 OB) as OB2. change (objects s2 (ext2_objects sb gd [])) in OB2.
  assert (ready s2) as R2 by (apply (ready_keeps _ s s2 K2); [by intros ? _ []|done]).
  assert (∀ o, o = 0 ∨ o = 8 → vload 8 s2 (this + o) = vload 8 s (this + o)) as V2.
  { intros o Hoo. apply (object_kept nowhere s s2 _ 0 this 32 8 o OB K2 eq_refl); [by intros ? _ []|lia|lia]. }
  pose proof (ob_owned _ _ OB2 0 (this, 32) eq_refl) as Ho2. cbn [fst snd] in Ho2.
  apply wp_bind, (wp_store_field 8 (b - 80) s2 this 32 24); [done|lia|done|lia|lia|lia|]. intros s3 T3 Ho3.
  destruct (ready_store _ _ (this, 32) _ _ _ _ 0 _ OB2 eq_refl R2 T3) as (R3 & K3 & OB3); [lia|cbn; lia|].
  assert (holds_disk disk s3 sb 92 1024) as H3.
  { apply (objects_holds s2 s3 _ 0 1 (this, 32) sb 92 _ OB2 K3); [done|done|lia|].
    apply (holds_disk_keeps disk _ s s2 _ _ _ K2); [by intros ? _ []|done]. }
  apply wp_bind, (wp_load_field 8 (b - 80) s3 this 32 8); [apply T3|lia|done|lia|lia|lia|].
  rewrite (field_kept _ _ _ _ _ _ _ _ 8 8 T3 Ho2), V2, S1 by lia.
  assert (budget 0 s3) as Hz3 by (apply (budget_0 (b - 80)); [apply T3|lia]).
  apply wp_bind, (wp_load_disk disk 4 s3 sb 92 1024 24); [done|done|lia|lia|].
  apply wp_bind, (wp_store_field 4 (b - 80) s3 this 32 16); [apply T3|lia|done|lia|lia|lia|]. intros s4 T4 Ho4.
  destruct (ready_store _ _ (this, 32) _ _ _ _ 0 _ OB3 eq_refl R3 T4) as (R4 & K4 & OB4); [lia|cbn; lia|].
  apply (HQ gd). split; [cbn; lia|apply T4|done|done| |by intros|by intros; lia]. split.
  - rewrite <- (Z.add_0_r this), (field_kept _ _ _ _ _ _ _ _ 8 0 T4 Ho3), (field_kept _ _ _ _ _ _ _ _ 8 0 T3 Ho2), V2 by lia.
    by rewrite Z.add_0_r.
  - by rewrite (field_kept _ _ _ _ _ _ _ _ 8 8 T4 Ho3), (field_kept _ _ _ _ _ _ _ _ 8 8 T3 Ho2), V2, S1 by lia.
  - rewrite (field_kept _ _ _ _ _ _ _ _ 8 24 T4 Ho3) by lia. apply (stored_exact _ _ _ _ _ _ T3).
    change (256 ^ Z.of_nat 8) with (2 ^ 64). lia.
  - rewrite (st_value _ _ _ _ _ _ T4). done.
  - apply (objects_holds s3 s4 _ 0 1 (this, 32) sb 92 _ OB3 K4); [done|done|lia|done].
Qed.

(** What the disk must hold for the constructor: between one and eight groups, which
    is what the array of descriptors has room for, and some inodes in a group (their
    bitmap is one block of at most 64 KiB, so there are at most 2^19 of them; the
    theorems need no more than 2^25). *)
Record disk_ok : Prop := DiskOk {
  do_groups : dload disk 4 (1024 + 32) ≠ 0 ∧ 1 ≤ disk_groups ≤ 8;
  do_block_size : disk_block_size ≠ 0;
  do_inodes : 0 < dload disk 4 (1024 + 40) ≤ 2 ^ 25
}.

Lemma disk_geometry_ok : disk_ok → geometry_ok disk_geometry.
Proof using DL.
  intros [[_ Hg] Hb Hi]. pose proof (u32_range (Z.shiftl 1024 (dload disk 4 (1024 + 24) mod 32))) as Hr.
  fold disk_block_size in Hr. split; cbn.
  - split; [lia|]. unfold disk_block_size, u32. rewrite Z.shiftl_mul_pow2 by (apply Z.mod_pos_bound; lia).
    rewrite <- (Znumtheory.Zmod_div_mod 1024 0x100000000) by (try lia; by exists 0x400000).
    rewrite Z.mul_comm. apply Z_mod_mult.
  - done.
  - lia.
  - intros i. apply (dload_range disk 4 _ disk_byte).
Qed.

Lemma disk_groups_value : disk_ok → s32 (divu32 (dload disk 4 (1024 + 4)) (dload disk 4 (1024 + 32))) = disk_groups.
Proof using Type.
  intros [[Hn Hg] _ _]. unfold divu32. rewrite (proj2 (Z.eqb_neq _ _) Hn). fold disk_groups.
  unfold s32. rewrite u32_small by lia. destruct (Z.ltb_spec disk_groups 0x80000000); lia.
Qed.

(** The object the constructor leaves, as the methods need it. *)
Definition ext2_memory (sb gd : Z) (ds : list Z) (x : Z) : Prop :=
  ∃ j o, ext2_objects sb gd ds !! j = Some o ∧ range o.1 o.2 x.

Lemma mounting_done sb gd ds bud s :
  mounting sb gd ds (length ds) bud s → Z.of_nat (length ds) = disk_groups →
  mounted disk device (ext2_memory sb gd ds) this disk_geometry s.
Proof using Type.
  intros [Hl B1 R OB HD Hp Hr] Hlen.
  assert (∀ j o x, ext2_objects sb gd ds !! j = Some o → range o.1 o.2 x → ext2_memory sb gd ds x) as HM.
  { intros j o x Hj Hx. by exists j, o. }
  split; [|done|intros x (j & o & Hj & Hx); by apply (ob_driver _ _ OB j o x)]. split.
  - intros x (j & o & Hj & Hx). by apply owned_stable, (ob_owned _ _ OB j o Hj).
  - intros x. by apply (HM 0%nat (this, 32)).
  - apply HD.
  - apply HD.
  - exists sb. split; [apply HD|]. split; [intros x; by apply (HM 1%nat (sb, 92))|].
    apply (vload_dload disk 4 s sb 92 1024 40 (hd_super _ _ _ HD)); lia.
  - exists gd. split; [apply HD|]. split.
    { intros x Hx. apply (HM 2%nat (gd, 64)); [done|]. unfold range in *. cbn in *. lia. }
    intros i Hi. cbn [geo_groups disk_geometry] in Hi.
    destruct (lookup_lt_is_Some_2 ds (Z.to_nat i)) as [d Hd]; [lia|]. exists d.
    pose proof (Hp _ _ Hd) as Hpd. rewrite Z2Nat.id in Hpd by lia. split; [done|]. split.
    { intros x. by apply (HM (3 + Z.to_nat i)%nat (d, 32)), objects_lookup_desc. }
    cbn [geo_inode_table disk_geometry]. rewrite <- (Z2Nat.id i) by lia.
    apply (vload_dload disk 4 s d 32 _ 8); [|lia|lia]. apply Hr; [by apply lookup_lt_Some in Hd|done].
Qed.

Definition mount_cost : Z := 188 + read_cost 92 + disk_groups * (48 + read_cost 32).

(** inodes_per_block, which nothing reads, is stored last. *)
Lemma mounting_last sb gd ds k bud s s' :
  mounting sb gd ds k bud s → stored bud 4 (this + 20) (divu32 disk_block_size (dload disk 2 (1024 + 88))) s s' →
  mounting sb gd ds k bud s'.
Proof using Type.
  intros [Hl B1 R OB HD Hp Hr] T.
  destruct (ready_store _ _ (this, 32) _ _ _ _ 0 _ OB eq_refl R T) as (R' & K & OB'); [lia|cbn; lia|].
  pose proof (ob_owned _ _ OB 0 (this, 32) eq_refl) as Ho. cbn [fst snd] in Ho.
  assert (∀ j o, ext2_objects sb gd ds !! j = Some o → j ≠ 0%nat → ∀ x, range o.1 o.2 x → ¬ write_to (this, 32) x) as Hap.
  { intros j o Hj Hne x Hx. by apply (objects_other s _ 0 j (this, 32) o x OB eq_refl Hj). }
  split; [done|apply T|done|done| | |].
  - destruct HD as [Hd Hs Hg Hbs Hsu]. split.
    + by rewrite <- (Z.add_0_r this), (field_kept _ _ _ _ _ _ _ _ 8 0 T Ho), Z.add_0_r by lia.
    + by rewrite (field_kept _ _ _ _ _ _ _ _ 8 8 T Ho) by lia.
    + by rewrite (field_kept _ _ _ _ _ _ _ _ 8 24 T Ho) by lia.
    + by rewrite (field_kept _ _ _ _ _ _ _ _ 4 16 T Ho) by lia.
    + apply (holds_disk_keeps disk _ s s' _ _ _ K); [|done]. intros x. by apply (Hap 1%nat (sb, 92)).
  - intros j d Hj. pose proof (lookup_lt_Some _ _ _ Hj).
    rewrite (object_kept _ s s' _ 2 gd 64 8 _ OB K eq_refl); [by apply Hp| |lia|lia].
    intros x. by apply (Hap 2%nat (gd, 64)).
  - intros j d Hj Hd. apply (holds_disk_keeps disk _ s s' _ _ _ K); [|by apply Hr].
    intros x. apply (Hap (3 + j)%nat (d, 32)); [by apply objects_lookup_desc|lia].
Qed.

Lemma mounted_vars F g s v :
  mounted disk device F this g s → mounted disk device F this g (set_vars v s).
Proof using Type.
  intros [[S O Dv Bs Su Gr] R Ap]. assert (same_mem s (set_vars v s)) as SM by apply same_mem_vars.
  split; [|by apply ready_vars|done].
  assert (∀ k va, vload k (set_vars v s) va = vload k s va) as Hv.
  { intros k va. apply vload_ext. intros i _. symmetry. by apply vbyte_proper. }
  split; [|done|by rewrite Hv|by rewrite Hv| |].
  - intros x Hx. apply (stable_proper s _ SM x x eq_refl). by apply S.
  - destruct Su as (sb & E1 & HF & E2). exists sb. by rewrite !Hv.
  - destruct Gr as (gd & E1 & HF & HG). exists gd. rewrite Hv. split; [done|]. split; [done|].
    intros i Hi. destruct (HG i Hi) as (d & E2 & HF2 & E3). exists d. by rewrite !Hv.
Qed.

(** The two loops. *)
Lemma wp_desc_loop sb gd bud s (Q : () → kstate → Prop) :
  mounting sb gd [] 0 bud s → 1 ≤ disk_groups ≤ 8 → 48 * disk_groups ≤ bud →
  (∀ ds s', Z.of_nat (length ds) = disk_groups → mounting sb gd ds 0 (bud - 48 * disk_groups) s' → Q () s') →
  wp (loop (λ i,
    if i <? disk_groups then
      desc ← new_zeroed sizeof_EXT2BlockGroupDescriptor;
      group_descs ← ext2_group_descs this;
      store64 (group_descs ⊞ 8 * i) desc;;
      mret (inl (i ⊞ 1))
    else mret (inr ())) 0) Q s.
Proof using Type.
  intros M0 Hg Hle HQ. generalize dependent disk_groups. intros q Hg Hle HQ.
  apply (wp_loop_left _ (λ n i s', ∃ ds, i = Z.of_nat (length ds) ∧ Z.of_nat (length ds + n) = q ∧
    mounting sb gd ds 0 (bud - 48 * i) s') _ (Z.to_nat q)); [|exists []|lia].
  2:{ cbn. split; [done|]. split; [lia|]. by rewrite Z.sub_0_r. }
  intros n i s' (ds & -> & Hn & M). destruct n as [|n].
  - rewrite Nat.add_0_r in Hn. rewrite Hn, Z.ltb_irrefl. apply wp_ret, (HQ ds); [done|]. by rewrite <- Hn in *.
  - rewrite (proj2 (Z.ltb_lt _ _)) by lia.
    apply (wp_new_desc sb gd ds (bud - 48 * Z.of_nat (length ds))); [done|lia|lia|].
    intros d s4 M4. apply wp_ret. rewrite u64_small by lia. exists n. split; [done|]. exists (ds ++ [d]).
    rewrite length_app. cbn [length]. split; [lia|]. split; [lia|].
    replace (bud - 48 * (Z.of_nat (length ds) + 1)) with (bud - 48 * Z.of_nat (length ds) - 48) by lia. done.
Qed.

Lemma wp_read_loop sb gd ds bud s (Q : () → kstate → Prop) :
  mounting sb gd ds 0 bud s → Z.of_nat (length ds) = disk_groups → 1 ≤ disk_groups ≤ 8 →
  read_cost 32 * disk_groups ≤ bud → 0 ≤ disk_block_size < 2 ^ 32 → disk_block_size mod 1024 = 0 →
  (∀ s', mounting sb gd ds (length ds) (bud - read_cost 32 * disk_groups) s' → Q () s') →
  wp (loop (λ i,
    if i <? disk_groups then
      device ← ext2_block_device this;
      block_size ← ext2_block_size this;
      group_descs ← ext2_group_descs this;
      desc ← load64 (group_descs ⊞ 8 * i);
      block_read device (u32 (block_size * 1) ⊞ i * Z.of_nat sizeof_EXT2BlockGroupDescriptor)
        (Z.of_nat sizeof_EXT2BlockGroupDescriptor) desc;;
      mret (inl (i ⊞ 1))
    else mret (inr ())) 0) Q s.
Proof using Type.
  intros M0 Hn Hg Hle Hbs Hmod HQ. pose proof (read_cost_pos 32) as Hc.
  generalize dependent disk_groups. intros q Hn Hg Hle HQ.
  apply (wp_loop_left _ (λ n i s', ∃ j, i = Z.of_nat j ∧ (j + n = length ds)%nat ∧
    mounting sb gd ds j (bud - read_cost 32 * i) s') _ (length ds)); [|exists 0%nat|lia].
  2:{ split; [done|]. split; [done|]. by rewrite Z.mul_0_r, Z.sub_0_r. }
  intros n i s' (j & -> & Hj & M). destruct n as [|n].
  - assert (j = length ds) as -> by lia. rewrite Hn, Z.ltb_irrefl. apply wp_ret, HQ. by rewrite <- Hn.
  - rewrite (proj2 (Z.ltb_lt _ _)) by lia.
    apply (wp_read_desc sb gd ds j (bud - read_cost 32 * Z.of_nat j)); [done|lia|nia|lia|done|].
    intros s4 M4. apply wp_ret. rewrite u64_small by lia. exists n. split; [done|]. exists (S j).
    split; [lia|]. split; [lia|]. replace (Z.of_nat (S j)) with (Z.of_nat j + 1) by lia.
    by replace (bud - read_cost 32 * (Z.of_nat j + 1)) with (bud - read_cost 32 * Z.of_nat j - read_cost 32) by lia.
Qed.

Lemma EXT2_ctor_spec b s :
  budget b s → ready s → objects s [(this, 32)] → 0 ≤ device < 2 ^ 64 → disk_ok → mount_cost ≤ b →
  wp (EXT2_ctor this device) (λ _ s', ∃ F, mounted disk device F this disk_geometry s' ∧
    ext2_instance (vars s') = this ∧ budget (b - mount_cost) s') s.
Proof using Type.
  intros Hb R OB Hdev DO Hle. unfold mount_cost in *. pose proof (disk_geometry_ok DO) as GO.
  pose proof (read_cost_pos 92) as Hc1. pose proof (read_cost_pos 32) as Hc2.
  pose proof (do_groups DO) as [_ Hg]. destruct (go_block_size _ GO) as [Hbs Hmod]. cbn in Hbs, Hmod.
  assert (0 ≤ disk_groups * (48 + read_cost 32)) as Hq by nia.
  unfold EXT2_ctor. apply (wp_read_super b); [done|done|done|lia|done|]. intros sb s1 Hb1 R1 OB1 D1 S1 H1.
  apply (wp_super_fields (b - 108 - read_cost 92)); [done|done|done|lia|done|done|done|]. intros gd s2 M2.
  rewrite (disk_groups_value DO), (u64_small disk_groups) by lia.
  apply wp_bind, (wp_desc_loop sb gd _ s2 _ M2); [done|nia|]. intros ds s3 Hn M3.
  apply wp_bind, (wp_read_loop sb gd ds _ s3 _ M3); [done|done|nia|lia|done|]. intros s4 M4.
  set (b4 := b - 108 - read_cost 92 - 80 - 48 * disk_groups - read_cost 32 * disk_groups) in *.
  assert (0 ≤ b4) as Hb4 by (unfold b4; nia).
  assert (budget 0 s4) as Hz by (apply (budget_0 _ _ (mg_budget _ _ _ _ _ _ M4)); nia).
  pose proof (ob_owned _ _ (mg_objs _ _ _ _ _ _ M4) 0 (this, 32) eq_refl) as Ho. cbn [fst snd] in Ho.
  pose proof (mg_header _ _ _ _ _ _ M4) as HD.
  apply wp_bind, (wp_load_field 4 b4 s4 this 32 16); [apply M4|done|done|lia|lia|lia|]. rewrite (hd_bs _ _ _ HD).
  apply wp_bind, (wp_load_field 8 b4 s4 this 32 8); [apply M4|done|done|lia|lia|lia|]. rewrite (hd_sb _ _ _ HD).
  apply wp_bind, (wp_load_disk disk 2 s4 sb 92 1024 88); [done|apply HD|lia|lia|].
  apply wp_bind, (wp_store_field 4 b4 s4 this 32 20); [apply M4|done|done|lia|lia|lia|]. intros s5 T5 _.
  pose proof (mounting_last _ _ _ _ _ _ _ M4 T5) as M5.
  apply wp_modify. exists (ext2_memory sb gd ds).
  split; [by apply mounted_vars, (mounting_done _ _ _ b4)|]. split; [done|].
  apply (budget_proper _ _ _ (same_mem_vars _ s5)). apply (budget_weaken b4); [apply T5|]. unfold b4. nia.
Qed.
End mount.

(** ** What mounting leaves alone

    The constructor is proved for every driver that keeps the laws.  A driver that also
    claims the memory the caller wants to keep, and is ready while that memory is
    unchanged, keeps them too: so the constructor does not touch it. *)

Section watch.
Context `{A : Allocator} `{D : BlockDevice} (disk : Z → Z) (device : Z).
Context {DL : DiskLaws disk device} (s0 : kstate) (W : Z → Prop).
Context (HW : ∀ x, W x → ¬ driver x).

Definition unchanged (s : kstate) : Prop := ∀ x, W x → stable s x ∧ vbyte s x = vbyte s0 x.

Lemma unchanged_keeps P s s' : keeps P s s' → (∀ x, W x → ¬ P x) → unchanged s → unchanged s'.
Proof using Type.
  intros K HP U x Hx. destruct (U x Hx) as [S V]. split; [by apply (kp_stable _ _ _ K)|].
  rewrite <- V. by apply (kp_byte _ _ _ K); [|apply HP].
Qed.

Program Definition watching : DiskLaws disk device := {|
  driver x := driver x ∨ W x; ready s := ready s ∧ unchanged s; read_cost := read_cost
|}.
Next Obligation. apply read_cost_pos. Qed.
Next Obligation. apply disk_byte. Qed.
Next Obligation. intros s x [R U] [Hx|Hx]; [by apply driver_stable|by apply U]. Qed.
Next Obligation.
  intros P s s' K HP [R U]. split; [apply (ready_keeps P s); auto|apply (unchanged_keeps P s); auto].
Qed.
Next Obligation.
  intros v s [R U]. split; [by apply ready_vars|]. intros x Hx. destruct (U x Hx) as [S V].
  pose proof (same_mem_vars v s) as SM. split; [by rewrite <- (stable_proper _ _ SM x x eq_refl)|].
  rewrite <- V. symmetry. by apply vbyte_proper.
Qed.
Next Obligation.
  intros b s offset length buffer Hb [R U] Hl Hle Ho Hmod Hend Hown Hcl.
  destruct (read_ok b s offset length buffer) as (r & s' & E & Hb' & R' & K & V); try done.
  { intros x Hx Hd. apply (Hcl x Hx). by left. }
  exists r, s'. split_and!; try done.
  - apply (unchanged_keeps _ s s' K); [|done]. intros x Hx [Hr|Hd]; [apply (Hcl x Hr); by right|by apply (HW x)].
  - eapply keeps_mono; [|exact K]. intros x [Hx|Hx]; auto.
Qed.

Lemma mounted_unwatch F this g s :
  mounted (DL := watching) disk device F this g s → mounted disk device F this g s ∧ unchanged s ∧ ∀ x, F x → ¬ W x.
Proof using Type.
  intros [O [R U] Ap]. split_and!; [|done|intros x HF Hx; apply (Ap x HF); by right].
  split; [|done|intros x HF Hx; apply (Ap x HF); by left]. destruct O. by split.
Qed.
End watch.

(** Mounting, with what stays as it is: all of the memory in use but the object's own
    and the driver's. *)
Lemma wp_mount `{A : Allocator} `{D : BlockDevice} (disk : Z → Z) (device : Z) {DL : DiskLaws disk device}
    (this b : Z) (s : kstate) :
  budget b s → ready s → owned_range s this 32 → (∀ x, range this 32 x → ¬ driver x) →
  0 ≤ device < 2 ^ 64 → disk_ok disk → mount_cost disk device ≤ b →
  wp (EXT2_ctor this device) (λ _ s', ∃ F, mounted disk device F this (disk_geometry disk) s' ∧
    ext2_instance (vars s') = this ∧ budget (b - mount_cost disk device) s' ∧
    unchanged s (λ x, stable s x ∧ ¬ range this 32 x ∧ ¬ driver x) s' ∧
    ∀ x, F x → ¬ (stable s x ∧ ¬ range this 32 x ∧ ¬ driver x)) s.
Proof.
  intros Hb R Ho Hd Hdev DO Hle. set (W x := stable s x ∧ ¬ range this 32 x ∧ ¬ driver x).
  assert (∀ x, W x → ¬ driver x) as HW by (by intros x (_ & _ & H)).
  set (WL := watching disk device s W HW).
  eapply wp_mono; [apply (EXT2_ctor_spec disk device (DL := WL) this b s)|]; try done.
  - split; [done|]. intros x [Hx _]. by split.
  - split.
    + by intros [|j] o; [intros [= <-]|].
    + intros [|i] [|j] o p; done.
    + intros [|j] o x; [|done]. intros [= <-] Hx [H|(_ & H & _)]; [by apply (Hd x)|done].
  - intros _ s' (F & M & Ei & Hb'). exists F. destruct (mounted_unwatch disk device s W HW F this _ s' M). done.
Qed.


(** C20: the constructor of EXT2 ends and mounts the file system with the geometry
    as the code reads it: block size and inodes per group are the ones of the
    superblock, the inode tables the ones of the descriptors at byte block_size, of
    as many groups as blocks_count / blocks_per_group rounded down, one to eight; the
    instance is recorded. *)
Theorem EXT2_ctor_mounts `{A : Allocator} `{D : BlockDevice} (disk : Z → Z) (device : Z)
    {DL : DiskLaws disk device} (this b : Z) (s : kstate) :
  budget b s → ready s → owned_range s this 32 → (∀ x, range this 32 x → ¬ driver x) →
  0 ≤ device < 2 ^ 64 → disk_ok disk → mount_cost disk device ≤ b →
  ∃ F s', EXT2_ctor this device s = Done () s' ∧
    mounted disk device F this (disk_geometry disk) s' ∧ ext2_instance (vars s') = this ∧
    budget (b - mount_cost disk device) s'.
Proof.
  intros Hb R Ho Hd Hdev DO Hle.
  assert (objects disk device s [(this, 32)]) as OB.
  { split.
    - by intros [|j] o; [intros [= <-]|].
    - intros [|i] [|j] o p; done.
    - by intros [|j] o x; [intros [= <-]; apply Hd|]. }
  destruct (wp_inv _ _ _ (EXT2_ctor_spec disk device this b s Hb R OB Hdev DO Hle)) as ([] & s' & E & F & H).
  by exists F, s'.
Qed.

(** * A disk in memory, and the witnesses *)

Section memory_disk.
Context (disk : Z → Z).

(** A driver that copies the bytes of [disk]. *)
Definition memory_read : BlockDevice := λ device offset length buffer,
  loop (λ i,
    if i <? length then store8 (buffer ⊞ i) (disk (offset + i));; mret (inl (i ⊞ 1))
    else mret (inr 0)) 0.

Lemma memory_read_ok `{A : Allocator} b s device offset length buffer :
  (∀ x, 0 ≤ disk x < 256) →
  budget b s → 0 ≤ b → 0 ≤ length → offset + length ≤ 2 ^ 34 → 0 ≤ offset → owned_range s buffer length →
  wp (memory_read device offset length buffer) (λ _ s', budget b s' ∧ keeps (range buffer length) s s' ∧
    ∀ i, 0 ≤ i < length → vbyte s' (buffer + i) = disk (offset + i)) s.
Proof.
  intros Hd Hb Hb0 Hl Hend Ho Hown. unfold memory_read.
  apply (wp_loop _ (λ i s', 0 ≤ i ≤ length ∧ budget b s' ∧ keeps (range buffer length) s s' ∧
    ∀ j, 0 ≤ j < i → vbyte s' (buffer + j) = disk (offset + j)) (λ i _, length - i)).
  2:{ split_and!; [lia|lia|done|apply keeps_refl|lia]. }
  2:{ lia. }
  intros i s' (Hi & Hb' & K & V). split; [lia|]. destruct (Z.ltb_spec i length) as [Hlt|Hge].
  2:{ apply wp_ret. assert (i = length) as -> by lia. done. }
  pose proof (owned_range_keeps _ _ _ _ _ K Hown) as Ho'.
  rewrite (owned_range_add s' buffer length i) by (done || lia || by apply (budget_0 b)).
  destruct (store8_owned b s' (buffer + i) (disk (offset + i)) Hb' Hb0) as (s2 & E2 & Hb2 & V2 & K2 & S2 & M2).
  { apply Ho'. unfold range. lia. }
  eapply wp_bind_done; [exact E2|]. apply wp_ret. rewrite u64_small by lia. split; [|lia].
  split_and!; [lia|lia|done| |].
  - apply (keeps_comp _ _ _ _ _ _ K K2). intros x _ [Hx| ->]; [done|]. unfold range. lia.
  - intros j Hj. destruct (decide (j = i)) as [->|Hne]; [rewrite V2; apply u8_small, Hd|].
    rewrite (kp_byte _ _ _ K2); [apply V; lia| |lia]. apply owned_stable, Ho'. unfold range. lia.
Qed.

Program Definition memory_laws `{A : Allocator} (Hd : ∀ x, 0 ≤ disk x < 256) device :
    DiskLaws (D := memory_read) disk device := {|
  driver x := False; ready s := True; read_cost n := 0
|}.
Next Obligation. done. Qed.
Next Obligation. done. Qed.
Next Obligation. done. Qed.
Next Obligation. done. Qed.
Next Obligation. done. Qed.
Next Obligation.
  intros A Hd device b s offset length buffer Hb _ Hl Hc Ho Hmod Hend Hown Hn.
  destruct (wp_inv _ _ _ (memory_read_ok b s device offset length buffer Hd Hb Hc Hl Hend Ho Hown))
    as (r & s' & E & Hb' & K & V).
  exists r, s'. rewrite Z.sub_0_r. split_and!; [done|done|done| |done].
  eapply keeps_mono; [|exact K]. by left.
Qed.
End memory_disk.

(** A small image with 2 KiB blocks: /a.txt holds "hello". *)
Definition place (a : Z) (l : list Z) : list (Z * Z) := zip (zseq a (length l)) l.
Definition le (n : nat) (v : Z) : list Z := (λ i, (v / 256 ^ i) mod 256) <$> zseq 0 n.
Definition image : gmap Z Z := list_to_map (concat
  [place (1024 + 4) (le 4 64); place (1024 + 24) (le 4 1); place (1024 + 32) (le 4 64);
   place (1024 + 40) (le 4 16); place (2048 + 8) (le 4 5);
   place (10240 + 256) (le 2 0x41ED); place (10240 + 256 + 40) (le 4 8);
   place 16384 (le 4 12 ++ le 2 16 ++ [5; 1] ++ chars "a.txt");
   place (10240 + 256 * 11) (le 2 0x81A4); place (10240 + 256 * 11 + 4) (le 4 5);
   place (10240 + 256 * 11 + 40) (le 4 9); place 18432 (chars "hello")]).
Definition sample_disk (x : Z) : Z := u8 (default 0 (image !! x)).

Lemma sample_disk_byte x : 0 ≤ sample_disk x < 256.
Proof. apply u8_range. Qed.
Lemma sample_disk_ok : disk_ok sample_disk.
Proof. split; [by vm_compute|by vm_compute|by vm_compute]. Qed.

#[local] Abbreviation KH := (kernel_heap 64 0x80208000).
#[local] Abbreviation MD := (memory_read sample_disk).
#[local] Abbreviation ML := (memory_laws (A := KH) sample_disk sample_disk_byte 0).

Lemma EXT2_ctor_mounts_witness :
  ∃ s this F s', EXT2_ctor (H := MD) this 0 s = Done () s' ∧
    mounted (A := KH) (D := MD) sample_disk 0 (DL := ML) F this (disk_geometry sample_disk) s' ∧
    ext2_instance (vars s') = this ∧ budget (Allocator := KH) (16000 - 236) s'.
Proof.
  destruct (kalloc_fresh (A := KH) 16384 32 heap0) as (this & s & _ & Hb & Fr);
    [apply heap0_budget; lia|lia|lia|]. exists s, this.
  apply (EXT2_ctor_mounts (A := KH) (D := MD) sample_disk 0 (DL := ML) this 16000 s).
  - apply (budget_weaken _ _ _ Hb). lia.
  - exact I.
  - exact (fr_owned _ _ _ _ Fr).
  - by intros x _ [].
  - lia.
  - exact sample_disk_ok.
  - by vm_compute.
Defined.

(** The image, mounted. *)
Lemma sample_mounted :
  ∃ s this F, budget (Allocator := KH) 15000 s ∧
    mounted (A := KH) (D := MD) sample_disk 0 (DL := ML) F this (disk_geometry sample_disk) s ∧
    ext2_instance (vars s) = this.
Proof.
  destruct (kalloc_fresh (A := KH) 16384 32 heap0) as (this & s & _ & Hb & Fr);
    [apply heap0_budget; lia|lia|lia|].
  assert (objects (A := KH) (D := MD) sample_disk 0 (DL := ML) s [(this, 32)]) as OB.
  { split.
    - intros [|j] o; [|done]. intros [= <-]. exact (fr_owned _ _ _ _ Fr).
    - by intros [|i] [|j].
    - by intros j o x _ _ []. }
  destruct (wp_inv _ _ _ (EXT2_ctor_spec (A := KH) (D := MD) (DL := ML) sample_disk 0 this _ s Hb I OB
    ltac:(lia) sample_disk_ok ltac:(by vm_compute))) as ([] & s' & _ & F & M & Ei & Hb').
  exists s', this, F. split; [|split; [exact M|exact Ei]]. apply (budget_weaken _ _ _ Hb'). by vm_compute.
Qed.
