(* ===== verification/Ext2Files.v ===== *)
(** Whole files: get_file_size and read_file from the path to the bytes. *)

From S2P Require Import Prelude Monad Memory Sv48 Machine Layout Stdio Heap KAlloc Allocator Client Ext2 Ext2Walk Ext2Mount.

(** * Whole files *)

Section files.
Context `{A : Allocator} `{D : BlockDevice} (disk : Z → Z) (device : Z).
Context {DL : DiskLaws disk device}.
Context (F : Z → Prop) (this : Z) (g : geometry) (GO : geometry_ok g).

Lemma block_offset_mod block : u32 (geo_block_size g * block) mod 512 = 0.
Proof using GO.
  destruct (go_block_size _ GO) as [Hbs Hal]. unfold u32.
  rewrite <- (Znumtheory.Zmod_div_mod 512 0x100000000) by (try lia; by exists 0x800000).
  rewrite Z.mul_mod, (Znumtheory.Zmod_div_mod 512 1024 (geo_block_size g)), Hal by (try lia; by exists 2).
  done.
Qed.

Lemma wp_get_root_inode b s inode (Q : () → kstate → Prop) :
  budget b s → mounted disk device F this g s → read_cost 256 ≤ b → owned_range s inode 256 →
  client_mem disk device F inode 256 →
  (∀ s', budget (b - read_cost 256) s' → mounted disk device F this g s' →
     keeps (walk_mem disk device inode) s s' → holds_disk disk s' inode 256 (root_inode g) → Q () s') →
  wp (EXT2_get_root_inode this inode) Q s.
Proof using GO.
  intros Hb M Hle Ho Hc HQ. pose proof (mo_object _ _ _ _ _ _ M) as E. pose proof (go_groups _ GO) as Hgr.
  assert (budget 0 s) as Hz by (apply (budget_0 b); [done|pose proof (read_cost_pos 256); lia]).
  unfold EXT2_get_root_inode. apply wp_bind. eapply (wp_ext2_block_device F); [exact Hz|exact E|].
  apply wp_bind. eapply (wp_ext2_block_size F); [exact Hz|exact E|].
  eapply (wp_inode_table F); [exact Hz|exact E|lia|].
  pose proof (u32_range (geo_block_size g * geo_inode_table g 0)) as Hr.
  pose proof (block_offset_mod (geo_inode_table g 0)) as Hmod.
  unfold sizeof_EXT2Inode. change (Z.of_nat 256) with 256. rewrite u64_small by lia.
  apply wp_bind, (wp_block_read disk device F this g GO b s _ 256 inode); try done; try lia.
  change (256 mod 512) with 256. change (256 * 1) with 256. zlia.
Qed.

Definition open_cost (names : list (list Z)) : Z :=
  272 + read_cost 256 + walk_cost disk device g names.

(** A new inode object, the root read into it, and the walk: the common part of
    get_file_size and read_file. *)
Lemma wp_open {B} b s path L leading trailing names r (k : Z → K B) (Q : B → kstate → Prop) :
  budget b s → mounted disk device F this g s → cstr s path L → L = path_text leading trailing names →
  (∀ x, range path (Z.of_nat (length L) + 1) x → ¬ driver x) →
  names ≠ [] → Forall component names → open_cost names ≤ b →
  lookup_names disk g (root_inode g) names = Some r →
  (∀ inode s', budget (b - open_cost names) s' → mounted disk device F this g s' → keeps driver s s' →
     (∀ x, range inode 256 x → ¬ stable s x) →
     holds_disk disk s' inode 256 (reached disk g (root_inode g) names) → wp (k inode) Q s') →
  wp (inode ← new_zeroed sizeof_EXT2Inode; EXT2_get_root_inode this inode;;
      EXT2_get_inode_from_dir this inode path;; k inode) Q s.
Proof using GO.
  intros Hb M C HL Hp Hne HN Hle Hr HQ. unfold open_cost in *.
  pose proof (walk_cost_pos disk device g GO names) as Hwc. pose proof (read_cost_pos (DiskLaws := DL) 256) as Hrc.
  apply wp_bind, (wp_new_zeroed b); [done|unfold sizeof_EXT2Inode; lia|]. intros inode s1 Hb1 F1 _.
  change (Z.of_nat sizeof_EXT2Inode) with 256 in *. pose proof (fr_keeps _ _ _ _ F1) as K1.
  assert (mounted disk device F this g s1) as M1.
  { apply (mounted_keeps disk device F this g GO nowhere s); [done|by intros ? []|done]. }
  assert (client_mem disk device F inode 256) as Hc.
  { intros x Hx. split; intros H; apply (fr_new _ _ _ _ F1 x Hx).
    - by apply (ea_stable _ _ _ _ _ (mo_object _ _ _ _ _ _ M)).
    - by apply driver_stable; [apply M|]. }
  apply wp_bind, (wp_get_root_inode (b - 256 - 16) s1 inode); [done|done|lia|exact (fr_owned _ _ _ _ F1)|done|].
  intros s2 Hb2 M2 K2 H2. assert (keeps driver s s2) as K.
  { apply (keeps_comp _ _ _ _ _ _ K1 K2). intros x Hx [[]|[Hr'|Hd]]; [|done].
    by destruct (fr_new _ _ _ _ F1 x Hr'). }
  assert (∀ o, keeps driver s (emit o s2)) as Ko by (intros o; eapply keeps_trans; [exact K|apply keeps_emit]).
  unfold EXT2_get_inode_from_dir. apply wp_bind, wp_bind.
  apply (wp_log_str _ (chars "Getting inode of file: ") [] _ path L);
    [apply (budget_0 _ _ Hb2); lia|by apply (cstr_keeps _ _ _ _ _ K)|done|done|]. intros o.
  assert (∀ x, range path (Z.of_nat (length L) + 1) x → ¬ walk_mem disk device inode x) as Hpm.
  { intros x Hx [Hi|Hd]; [|by apply (Hp x Hx)]. apply (fr_new _ _ _ _ F1 x Hi). by apply (cs_stable _ _ _ C). }
  eapply wp_mono.
  { apply (walk_spec disk device F this g GO inode path L trailing (emit o s2)) with (b := b - 272 - read_cost 256)
      (a := root_inode g) (leading := leading) (names := names) (r := r); try done.
    - apply (cstr_keeps _ _ _ _ _ (Ko o) C). intros x Hx. by apply Hp.
    - apply (owned_range_keeps nowhere s2); [apply keeps_emit|]. apply (owned_range_keeps _ _ _ _ _ K2).
      exact (fr_owned _ _ _ _ F1).
    - apply budget_emit, (budget_weaken _ _ _ Hb2). lia.
    - lia.
    - apply (mounted_keeps disk device F this g GO nowhere s2); [apply keeps_emit|by intros ? []|done].
    - apply (holds_disk_keeps disk nowhere s2); [apply keeps_emit|by intros ? ? []|done]. }
  intros res s3 (_ & Hb3 & M3 & K3 & H3). apply (HQ inode); [|done| |exact (fr_new _ _ _ _ F1)|done].
  - apply (budget_weaken _ _ _ Hb3). lia.
  - apply (keeps_comp _ _ _ _ _ _ (Ko o) K3). intros x Hx [Hd|[Hi|Hd]]; [done| |done].
    by destruct (fr_new _ _ _ _ F1 x Hi).
Qed.

Section path.
Context (b : Z) (s : kstate) (path : Z) (leading trailing : bool) (names : list (list Z)) (r : option Z).
Let text := path_text leading trailing names.
Context (Hb : budget b s) (M : mounted disk device F this g s) (C : cstr s path text).
Context (Hp : ∀ x, range path (Z.of_nat (length text) + 1) x → ¬ driver x).
Context (Hne : names ≠ []) (HN : Forall component names).
Context (Hr : lookup_names disk g (root_inode g) names = Some r).
Let t := reached disk g (root_inode g) names.

Lemma wp_get_file_size (Q : Z → kstate → Prop) :
  open_cost names ≤ b →
  (∀ s', budget (b - open_cost names) s' → mounted disk device F this g s' → keeps driver s s' →
     Q (dload disk 4 (t + 4)) s') →
  wp (EXT2_get_file_size this path) Q s.
Proof using All.
  intros Hle HQ. apply (wp_open b s path text leading trailing names r); try done. intros inode s' Hb' M' K' _ H'.
  pose proof (walk_cost_pos disk device g GO names). pose proof (read_cost_pos (DiskLaws := DL) 256).
  unfold i_size. apply (wp_load_disk disk 4 s' inode 256 t 4); [|done|lia|lia|by apply HQ].
  apply (budget_0 _ _ Hb'). lia.
Qed.

Lemma wp_read_file size data (Q : Z → kstate → Prop) :
  open_cost names + read_cost size ≤ b → 0 ≤ size < 2 ^ 33 → owned_range s data size →
  client_mem disk device F data size →
  (∀ s', budget (b - open_cost names - read_cost size) s' → mounted disk device F this g s' →
     keeps (λ x, range data size x ∨ driver x) s s' → holds_disk disk s' data size (first_block disk g t) →
     Q 0 s') →
  wp (EXT2_read_file this path size data) Q s.
Proof using All.
  intros Hle Hs Ho Hc HQ.
  pose proof (walk_cost_pos disk device g GO names) as Hwc. pose proof (read_cost_pos (DiskLaws := DL) 256) as Hrc.
  pose proof (read_cost_pos (DiskLaws := DL) size) as Hrs.
  apply (wp_open b s path text leading trailing names r); try done; [lia|]. intros inode s1 Hb1 M1 K1 _ H1.
  fold t in H1. pose proof (mo_object _ _ _ _ _ _ M1) as E1.
  assert (budget 0 s1) as Hz1 by (apply (budget_0 _ _ Hb1); lia).
  apply wp_bind. eapply (wp_ext2_block_device F); [exact Hz1|exact E1|].
  apply wp_bind. eapply (wp_ext2_block_size F); [exact Hz1|exact E1|].
  apply wp_bind, (wp_load_disk disk 4 s1 inode 256 t 40); [done|done|lia|lia|]. fold (first_block disk g t).
  pose proof (u32_range (geo_block_size g * dload disk 4 (t + 40))) as Hf. fold (first_block disk g t) in Hf.
  apply wp_bind, (wp_block_read disk device F this g GO (b - open_cost names) s1 _ size data); try done; try lia.
  { unfold first_block. rewrite block_offset_mod. pose proof (Z.mod_pos_bound size 512). lia. }
  { by apply (owned_range_keeps _ _ _ _ _ K1). }
  intros _ s2 Hb2 M2 K2 H2. apply wp_bind. unfold operator_delete_sized. apply wp_log; [done|]. intros o.
  apply wp_ret. apply HQ.
  - by apply budget_emit.
  - apply (mounted_keeps disk device F this g GO nowhere s2); [apply keeps_emit|by intros ? []|done].
  - eapply keeps_trans; [eapply keeps_mono; [|exact K1]; by right|].
    eapply keeps_trans; [exact K2|apply keeps_emit].
  - apply (holds_disk_keeps disk nowhere s2); [apply keeps_emit|by intros ? ? []|done].
Qed.
End path.

(** C18: get_file_size returns the size field of the inode the path leads to, for
    every path of non-empty components, with or without leading and trailing '/': the
    walk of the code is the component-wise walk over the bytes of the disk.  An error
    on the way is ignored: the result is then the size of the last inode reached. *)
Theorem get_file_size_correct b s path leading trailing names r :
  budget b s → mounted disk device F this g s → cstr s path (path_text leading trailing names) →
  (∀ x, range path (Z.of_nat (length (path_text leading trailing names)) + 1) x → ¬ driver x) →
  names ≠ [] → Forall component names → open_cost names ≤ b →
  lookup_names disk g (root_inode g) names = Some r →
  ∃ s', EXT2_get_file_size this path s =
      Done (dload disk 4 (reached disk g (root_inode g) names + 4)) s' ∧
    mounted disk device F this g s' ∧ keeps driver s s' ∧ budget (b - open_cost names) s'.
Proof using GO.
  intros Hb M C Hp Hne HN Hle Hr.
  destruct (wp_inv _ _ _ (wp_get_file_size b s path leading trailing names r Hb M C Hp Hne HN Hr
    (λ n s', n = dload disk 4 (reached disk g (root_inode g) names + 4) ∧
       mounted disk device F this g s' ∧ keeps driver s s' ∧ budget (b - open_cost names) s') Hle ltac:(done)))
    as (n & s' & E & -> & H). by exists s'.
Qed.

(** C19: read_file delivers the first [size] bytes of the block the inode's first block
    pointer names, for the inode the path leads to (the last one reached when a
    component is missing), and of the memory in use changes nothing but the caller's
    buffer and the driver's own memory. *)
Theorem read_file_correct b s path leading trailing names r size data :
  budget b s → mounted disk device F this g s → cstr s path (path_text leading trailing names) →
  (∀ x, range path (Z.of_nat (length (path_text leading trailing names)) + 1) x → ¬ driver x) →
  names ≠ [] → Forall component names → open_cost names + read_cost size ≤ b →
  lookup_names disk g (root_inode g) names = Some r →
  0 ≤ size < 2 ^ 33 → owned_range s data size → client_mem disk device F data size →
  ∃ s', EXT2_read_file this path size data s = Done 0 s' ∧
    (∀ i, 0 ≤ i < size →
       vbyte s' (data + i) = disk (first_block disk g (reached disk g (root_inode g) names) + i)) ∧
    mounted disk device F this g s' ∧ keeps (λ x, range data size x ∨ driver x) s s'.
Proof using GO.
  intros Hb M C Hp Hne HN Hle Hr Hs Ho Hc. set (t := reached disk g (root_inode g) names).
  destruct (wp_inv _ _ _ (wp_read_file b s path leading trailing names r Hb M C Hp Hne HN Hr size data
    (λ n s', n = 0 ∧ holds_disk disk s' data size (first_block disk g t) ∧ mounted disk device F this g s' ∧
       keeps (λ x, range data size x ∨ driver x) s s') Hle Hs Ho Hc ltac:(done)))
    as (n & s' & E & -> & H & H2). exists s'. split; [done|]. split; [|done]. intros i Hi. by apply H.
Qed.
End files.

(** * Witnesses *)

#[local] Abbreviation KH := (kernel_heap 64 0x80208000).
#[local] Abbreviation MD := (memory_read sample_disk).
#[local] Abbreviation ML := (memory_laws (A := KH) sample_disk sample_disk_byte 0).

Definition a_txt : list Z := chars "a.txt".

(** With the path "/a.txt" and a buffer in memory. *)
Lemma sample_file :
  ∃ s this F path data, budget (Allocator := KH) 14000 s ∧
    mounted (A := KH) (D := MD) sample_disk 0 (DL := ML) F this (disk_geometry sample_disk) s ∧
    cstr (A := KH) s path (path_text true false [a_txt]) ∧ owned_range (A := KH) s data 5 ∧
    client_mem (A := KH) (D := MD) sample_disk 0 (DL := ML) F data 5.
Proof.
  destruct sample_mounted as (s & this & F & Hb & M & _).
  destruct (make_cstr (A := KH) 15000 s (path_text true false [a_txt]) Hb) as (path & s1 & Hb1 & C & K1 & _);
    [cbn; lia|by repeat constructor|].
  destruct (kalloc_fresh (A := KH) _ 5 s1 Hb1) as (data & s2 & _ & Hb2 & F2); [lia|cbn; lia|].
  pose proof (disk_geometry_ok (A := KH) (D := MD) sample_disk 0 (DL := ML) sample_disk_ok) as GO.
  pose proof (mounted_keeps (A := KH) (D := MD) sample_disk 0 (DL := ML) F this _ GO nowhere s s1 K1
    ltac:(by intros ? []) M) as M1.
  exists s2, this, F, path, data. split_and!.
  - apply (budget_weaken _ _ _ Hb2). cbn. lia.
  - apply (mounted_keeps (A := KH) (D := MD) sample_disk 0 (DL := ML) F this _ GO nowhere s1 s2
      (fr_keeps _ _ _ _ F2)); [by intros ? []|exact M1].
  - apply (cstr_keeps _ _ _ _ _ (fr_keeps _ _ _ _ F2) C). by intros ? ? [].
  - exact (fr_owned _ _ _ _ F2).
  - intros x Hx. split; [|by intros []]. intros HF. apply (fr_new _ _ _ _ F2 x Hx).
    by apply (ea_stable _ _ _ _ _ (mo_object _ _ _ _ _ _ M1)).
Qed.

Lemma get_file_size_correct_witness :
  ∃ s this path F s', EXT2_get_file_size (H := MD) this path s = Done 5 s' ∧
    mounted (A := KH) (D := MD) sample_disk 0 (DL := ML) F this (disk_geometry sample_disk) s'.
Proof.
  destruct sample_file as (s & this & F & path & data & Hb & M & C & _).
  destruct (get_file_size_correct (A := KH) (D := MD) sample_disk 0 (DL := ML) F this (disk_geometry sample_disk)
    (disk_geometry_ok (A := KH) (D := MD) sample_disk 0 (DL := ML) sample_disk_ok)
    14000 s path true false [a_txt] (Some 13056) Hb M C)
    as (s' & E & M' & _).
  - by intros x _ [].
  - done.
  - repeat constructor; [done|apply (bool_decide_unpack _); by vm_compute|apply (bool_decide_unpack _); by vm_compute].
  - by vm_compute.
  - by vm_compute.
  - exists s, this, path, F, s'. split; [|exact M']. rewrite E. f_equal.
Defined.

Lemma read_file_correct_witness :
  ∃ s this path data s', EXT2_read_file (H := MD) this path 5 data s = Done 0 s' ∧
    (∀ i, 0 ≤ i < 5 → vbyte s' (data + i) = sample_disk (18432 + i)).
Proof.
  destruct sample_file as (s & this & F & path & data & Hb & M & C & Ho & Hc).
  destruct (read_file_correct (A := KH) (D := MD) sample_disk 0 (DL := ML) F this (disk_geometry sample_disk)
    (disk_geometry_ok (A := KH) (D := MD) sample_disk 0 (DL := ML) sample_disk_ok)
    14000 s path true false [a_txt] (Some 13056) 5 data Hb M C)
    as (s' & E & V & _).
  - by intros x _ [].
  - done.
  - repeat constructor; [done|apply (bool_decide_unpack _); by vm_compute|apply (bool_decide_unpack _); by vm_compute].
  - by vm_compute.
  - by vm_compute.
  - lia.
  - exact Ho.
  - exact Hc.
  - exists s, this, path, data, s'. split; [exact E|]. exact V.
Defined.

Lemma get_inode_in_dir_correct_witness :
  ∃ s this F dir name s', EXT2_get_inode_in_dir (H := MD) this dir name s = Done 0 s' ∧
    holds_disk (A := KH) sample_disk s' dir 256 13056 ∧
    mounted (A := KH) (D := MD) sample_disk 0 (DL := ML) F this (disk_geometry sample_disk) s'.
Proof.
  destruct sample_mounted as (s & this & F & Hb & M & _).
  pose proof (disk_geometry_ok (A := KH) (D := MD) sample_disk 0 (DL := ML) sample_disk_ok) as GO.
  destruct (make_cstr (A := KH) 15000 s a_txt Hb) as (name & s1 & Hb1 & C & K1 & _);
    [cbn; lia|by repeat constructor|].
  pose proof (mounted_keeps (A := KH) (D := MD) sample_disk 0 (DL := ML) F this _ GO nowhere s s1 K1
    ltac:(by intros ? []) M) as M1.
  destruct (kalloc_fresh (A := KH) _ 256 s1 Hb1) as (dir & s2 & _ & Hb2 & F2); [lia|cbn; lia|].
  assert (client_mem (A := KH) (D := MD) sample_disk 0 (DL := ML) F dir 256) as Hc.
  { intros x Hx. split; [|by intros []]. intros HF. apply (fr_new _ _ _ _ F2 x Hx).
    by apply (ea_stable _ _ _ _ _ (mo_object _ _ _ _ _ _ M1)). }
  assert (wp (EXT2_get_root_inode (H := MD) this dir) (λ _ s3, budget (Allocator := KH) 14000 s3 ∧
    mounted (A := KH) (D := MD) sample_disk 0 (DL := ML) F this (disk_geometry sample_disk) s3 ∧
    holds_disk (A := KH) sample_disk s3 dir 256 10496 ∧ cstr (A := KH) s3 name a_txt ∧
    owned_range (A := KH) s3 dir 256) s2) as W.
  { apply (wp_get_root_inode (A := KH) (D := MD) sample_disk 0 (DL := ML) F this (disk_geometry sample_disk) GO _ _ _ _ Hb2).
    - apply (mounted_keeps (A := KH) (D := MD) sample_disk 0 (DL := ML) F this _ GO nowhere s1 s2
        (fr_keeps _ _ _ _ F2)); [by intros ? []|exact M1].
    - by vm_compute.
    - exact (fr_owned _ _ _ _ F2).
    - exact Hc.
    - intros s3 Hb3 M3 K3 H3. split_and!; [|done|done| |].
      + apply (budget_weaken _ _ _ Hb3). by vm_compute.
      + apply (cstr_keeps _ _ _ _ _ K3); [apply (cstr_keeps _ _ _ _ _ (fr_keeps _ _ _ _ F2) C); by intros ? ? []|].
        intros x Hx [Hr|[]]. apply (fr_new _ _ _ _ F2 x Hr). by apply (cs_stable _ _ _ C).
      + apply (owned_range_keeps _ _ _ _ _ K3). exact (fr_owned _ _ _ _ F2). }
  destruct (wp_inv _ _ _ W) as ([] & s3 & _ & Hb3 & M3 & H3 & C3 & Ho3).
  destruct (get_inode_in_dir_correct (A := KH) (D := MD) sample_disk 0 (DL := ML) F this (disk_geometry sample_disk)
    14000 s3 dir 10496 name a_txt (Some 13056) GO Hb3 M3) as (s4 & E & H4 & M4 & _);
    [by vm_compute|exact Ho3|exact Hc|exact H3|exact C3|by intros x _ []|by vm_compute|].
  exists s3, this, F, dir, name, s4. split; [exact E|]. split; [exact H4|exact M4].
Defined.
