(* ===== verification/Loader.v ===== *)
(** Loading a program: Scheduler::submit_new_process of
    kernel/process/scheduler.cpp, the ELF structures of kernel/process/elf.h and the
    sstatus routines of kernel/process/process.s.

    The file is read into a heap buffer, its PT_LOAD segments are copied to user
    pages, a heap and a stack page are mapped, and a process is created.  The
    reference is a function from the bytes of the file to the contents of user
    memory ([user_image]). *)

From S2P Require Import Prelude Monad Memory Sv48 Machine Layout Samples Stdio PhysAlloc Paging AddressSpace Heap KAlloc Allocator Client Dma UserSpace Process Ext2 Ext2Walk Ext2Mount Ext2Files.

(** * process.s *)

Definition set_sum_bit : K () :=
  modify (λ s, set_vars (set_sstatus (Z.lor (Z.shiftl 1 18) (sstatus (vars s))) (vars s)) s).
Definition set_spp_zero : K () :=
  modify (λ s, set_vars (set_sstatus (Z.land (sstatus (vars s)) (u64 (Z.lnot (Z.shiftl 1 8)))) (vars s)) s).

(** * elf.h *)

(** struct Elf64_Ehdr *)
Definition e_entry (p : Z) : K Z := load64 (p ⊞ 24).
Definition e_phoff (p : Z) : K Z := load64 (p ⊞ 32).
Definition e_phentsize (p : Z) : K Z := load16 (p ⊞ 54).
Definition e_phnum (p : Z) : K Z := load16 (p ⊞ 56).

(** struct Elf64_Phdr *)
Definition sizeof_Elf64_Phdr : Z := 56.
Definition p_type (p : Z) : K Z := load32 p.
Definition p_offset (p : Z) : K Z := load64 (p ⊞ 8).
Definition p_vaddr (p : Z) : K Z := load64 (p ⊞ 16).
Definition p_filesz (p : Z) : K Z := load64 (p ⊞ 32).
Definition p_memsz (p : Z) : K Z := load64 (p ⊞ 40).

(** * scheduler.cpp *)

(** A fresh frame for a user page: the two calls the function makes each time. *)
Definition map_user (page : Z) : K () :=
  physical_frame ← kalloc_frame;
  map_page page physical_frame 0x1F.

(** [for (int i = 0; i < amount_pages_to_map; i++)] *)
Definition map_pages (page amount_pages_to_map : Z) : K () :=
  loop (λ i,
    if i <? amount_pages_to_map then map_user page;; mret (inl (i + 1))
    else mret (inr ())) 0.

(** The body of the loop over the program headers; the result is [data_end]. *)
Definition load_segment (contents phdr data_end : Z) : K Z :=
  type ← p_type phdr;
  if negb (type =? 1) then mret data_end
  else
    memsz ← p_memsz phdr;
    let amount_pages_to_map := memsz / PAGE_SIZE + 1 in
    vaddr ← p_vaddr phdr;
    let virtual_address_start_address := vaddr ⊟ vaddr mod PAGE_SIZE in
    map_pages virtual_address_start_address amount_pages_to_map;;
    offset ← p_offset phdr;
    filesz ← p_filesz phdr;
    memcpy (virtual_address_start_address ⊞ vaddr mod PAGE_SIZE) (contents ⊞ offset) filesz;;
    v ← p_vaddr phdr;
    m ← p_memsz phdr;
    if data_end <? v ⊞ m then
      v' ← p_vaddr phdr;
      m' ← p_memsz phdr;
      mret (v' ⊞ m')
    else mret data_end.

Definition load_segments (contents program_headers program_headers_amount : Z) : K Z :=
  loop (λ '(i, data_end),
    if i <? program_headers_amount then
      d ← load_segment contents (program_headers ⊞ i * sizeof_Elf64_Phdr) data_end;
      mret (inl (i ⊞ 1, d))
    else mret (inr data_end)) (0, 0).

(** The new process; [home] is the literal "/home/user/" of its constructor. *)
Definition create_process (home this contents stack_pointer data_end : Z) : K () :=
  process ← operator_new sizeof_Process;
  id ← Scheduler_get_next_process_id this;
  entry ← e_entry contents;
  Process_ctor home process id entry stack_pointer data_end;;
  Scheduler_add_new_process this process.

Definition Scheduler_submit_new_process `{BlockDevice} (home this file : Z) : K Z :=
  log LogLevel.PROCESS (chars "Creating process %s") [file];;
  _ ← kalloc_frame;
  file_size ← get_file_size file;
  contents ← kalloc file_size;
  read_file file file_size contents;;
  program_headers_offset ← e_phoff contents;
  program_headers_amount ← e_phnum contents;
  _ ← e_phentsize contents;
  set_sum_bit;;
  let program_headers := contents ⊞ program_headers_offset in
  data_end ← load_segments contents program_headers program_headers_amount;
  let data_end := (data_end ⊞ PAGE_SIZE) ⊟ data_end mod PAGE_SIZE in
  map_user data_end;;
  let stack_page := 0x100000 in
  map_user stack_page;;
  let stack_pointer := stack_page + 4000 in
  set_spp_zero;;
  create_process home this contents stack_pointer data_end;;
  mret 0.

(** * What an executable asks for *)

(** User memory: the value of each mapped byte. *)
Definition umem := Z → option Z.

Definition um_map (va : Z) (um : umem) : umem := λ x,
  if x / 4096 =? va / 4096 then Some 0 else um x.
Definition um_write (dest n : Z) (g : Z → Z) (um : umem) : umem := λ x,
  if (dest <=? x) && (x <? dest + n) then Some (g (x - dest)) else um x.

Record phdr := Phdr { ph_type : Z; ph_offset : Z; ph_vaddr : Z; ph_filesz : Z; ph_memsz : Z }.

Section image.
Context (file : Z → Z).

Definition phdr_at (a : Z) : phdr :=
  Phdr (dload file 4 a) (dload file 8 (a + 8)) (dload file 8 (a + 16)) (dload file 8 (a + 32))
    (dload file 8 (a + 40)).
Definition ehdr_phoff : Z := dload file 8 32.
Definition ehdr_phnum : Z := dload file 2 56.
Definition ehdr_entry : Z := dload file 8 24.
Definition phdrs : list phdr := (λ i, phdr_at (ehdr_phoff + i * 56)) <$> zseq 0 (Z.to_nat ehdr_phnum).

Definition pt_load (ph : phdr) : bool := ph_type ph =? 1.

(** One header, as the loop treats it: the page the segment starts in is mapped, and
    the bytes of the segment are stored. *)
Definition place_segment (um : umem) (ph : phdr) : umem :=
  if pt_load ph then
    um_write (ph_vaddr ph) (ph_filesz ph) (λ i, file (ph_offset ph + i)) (um_map (ph_vaddr ph) um)
  else um.
Definition place_segments (um : umem) (l : list phdr) : umem := foldl place_segment um l.

Definition segment_end (d : Z) (ph : phdr) : Z :=
  if pt_load ph then Z.max d (ph_vaddr ph + ph_memsz ph) else d.
Definition segments_end (l : list phdr) : Z := foldl segment_end 0 l.

(** The heap starts at the next page boundary behind the end of the segments. *)
Definition heap_start (l : list phdr) : Z := segments_end l + 4096 - segments_end l mod 4096.

(** User memory once the heap page and the stack page are mapped too. *)
Definition user_image (um : umem) (l : list phdr) : umem :=
  um_map 0x100000 (um_map (heap_start l) (place_segments um l)).

(** The copy of a segment stays inside mapped pages, and its bytes inside the file. *)
Record segment_ok (size : Z) (um : umem) (ph : phdr) : Prop := SegmentOk {
  sk_end : ph_vaddr ph + ph_memsz ph < 2 ^ 47 - 4096;
  sk_file : ph_offset ph + ph_filesz ph ≤ size;
  sk_mapped : ∀ i, 0 ≤ i < ph_filesz ph → is_Some (um_map (ph_vaddr ph) um (ph_vaddr ph + i))
}.

Fixpoint segments_ok (size : Z) (um : umem) (l : list phdr) : Prop :=
  match l with
  | [] => True
  | ph :: l' => (pt_load ph = true → segment_ok size um ph) ∧ segments_ok size (place_segment um ph) l'
  end.

Definition segment_frames (ph : phdr) : nat :=
  if pt_load ph then Z.to_nat (ph_memsz ph / 4096 + 1) else 0.
Definition segments_frames (l : list phdr) : nat := foldr (λ ph n, segment_frames ph + n)%nat 0%nat l.
End image.

Lemma ptr_add p i j : p ⊞ i ⊞ j = p ⊞ (i + j).
Proof. unfold u64. rewrite Zplus_mod_idemp_l. f_equal. lia. Qed.

(** * Creating the process *)

Section create.
Context `{A : Allocator}.

Lemma wp_next_id b s this l id (Q : Z → kstate → Prop) :
  budget b s → 0 ≤ b → sched_ok s this l id →
  (∀ s', budget b s' → keeps (range (this + 8) 8) s s' → sched_ok s' this l (u64 (id + 1)) → Q id s') →
  wp (Scheduler_get_next_process_id this) Q s.
Proof.
  intros Hb Hb0 [Ho Hl Hid HA HT] HQ. unfold Scheduler_get_next_process_id.
  apply wp_bind, (wp_load64_field b s this 24 8); [done|done|done|lia|lia|]. rewrite Hid.
  apply wp_bind, (wp_store_field 8 b s this 24 8); [done|done|done|lia|lia|lia|].
  intros s' St Ho'. pose proof (st_keeps _ _ _ _ _ _ St) as K. change (Z.of_nat 8) with 8 in K.
  apply wp_ret, HQ; [apply St|done|]. split; [done| | |done|done].
  - rewrite (field_kept _ _ _ _ _ _ _ _ 8 16 St Ho) by lia.
    apply (linked_keeps _ s s' _ l K); [|done]. intros x a Hx Ha Hr.
    pose proof (HT x Hx). unfold apart, range in *. lia.
  - rewrite (st_value _ _ _ _ _ _ St). apply Z.mod_small. apply u64_range.
Qed.

Lemma sched_ok_stable s this l id :
  sched_ok s this l id → ∀ x, range this 24 x ∨ (∃ y, y ∈ l ∧ range y.1 24 x) → owned s x.
Proof.
  intros OK x [Hx|(y & Hy & Hx)]; [by apply (so_this _ _ _ _ OK)|].
  by apply (item_owned s this l id OK y Hy).
Qed.

(** The memory of the scheduler: its object and its list. *)
Definition sched_mem (this : Z) (l : list (Z * Z)) (x : Z) : Prop :=
  range this 24 x ∨ ∃ y, y ∈ l ∧ range y.1 24 x.

Lemma list_end_mem s this l id x : sched_ok s this l id → list_end this l x → sched_mem this l x.
Proof.
  intros OK [[-> Hx]|(y & Hy & Hx)]%(list_end_cases this l).
  - left. unfold range in *. lia.
  - right. exists y. split; [by eapply list_elem_of_lookup_2|]. unfold range in *. lia.
Qed.

Lemma sched_ok_apart P s s' this l id :
  keeps P s s' → (∀ x, sched_mem this l x → ¬ P x) → sched_ok s this l id → sched_ok s' this l id.
Proof.
  intros K HP. apply (sched_ok_keeps P s s' this l id K).
  - intros x Hx. apply HP. left. unfold range in *. lia.
  - intros y x Hy Hx. apply HP. right. by exists y.
Qed.

(** The new process with its place in the list. *)
(** The directory a process has: the string it was given and the byte behind it. *)
Definition started_in (lhome : list Z) : list Z := lhome ++ [Z.of_nat sizeof_ProcessListItem].

Record process_added (b : Z) (this : Z) (l : list (Z * Z)) (id entry stack heap : Z) (lhome : list Z) (s s' : kstate) : Prop :=
  ProcessAdded {
  pd_budget : budget b s';
  pd_added : ∃ item process path,
    sched_ok s' this (l ++ [(item, process)]) (u64 (id + 1)) ∧
    process_at s' process (Pcb id READY path stack heap entry) ∧
    (∀ x, range process 48 x → ¬ stable s x) ∧ 0 ≤ process < 2 ^ 64 ∧
    ∃ text, directory path text (started_in lhome) s s';
  pd_keeps : keeps (sched_mem this l) s s'
}.

Definition create_cost (n : nat) : Z := 144 + Z.of_nat n.

Lemma wp_create_process b s home lhome this l id contents entry stack heap :
  budget b s → create_cost (length lhome) ≤ b → cstr s home lhome → sched_ok s this l id →
  (∀ x, range home (Z.of_nat (length lhome) + 1) x → ¬ range this 24 x) →
  (∀ x, range (contents ⊞ 24) 8 x → stable s x ∧ ¬ range this 24 x) → vload 8 s (contents ⊞ 24) = entry →
  0 ≤ id < 2 ^ 64 → 0 ≤ entry < 2 ^ 64 → 0 ≤ stack < 2 ^ 64 → 0 ≤ heap < 2 ^ 64 → Z.of_nat (length l) ≤ 2 ^ 64 →
  wp (create_process home this contents stack heap)
    (λ _ s', process_added (b - create_cost (length lhome)) this l id entry stack heap lhome s s') s.
Proof.
  intros Hb Hle C OK Hht He Ev Hid Hen Hst Hhe Hlen. unfold create_cost in *. unfold create_process, operator_new.
  apply wp_bind, (wp_kalloc b); [done|done|unfold sizeof_Process; lia|]. intros p s1 Hb1 F1.
  pose proof (fr_keeps _ _ _ _ F1) as K1. unfold sizeof_Process in *.
  assert (sched_ok s1 this l id) as OK1 by (apply (sched_ok_apart nowhere s); [done|by intros ? ? []|done]).
  apply wp_bind, (wp_next_id (b - 48 - 16) s1 this l id); [done|lia|done|]. intros s2 Hb2 K2 OK2.
  assert (∀ x, range (this + 8) 8 x → range this 24 x) as Hsub by (unfold range; intros; lia).
  assert (keeps (range this 24) s s2) as K12.
  { apply (keeps_comp _ _ _ s s1 s2 K1 K2). intros x _ [[]|Hx]. by apply Hsub. }
  assert (∀ x, range p 48 x → ¬ range this 24 x) as Hpt.
  { intros x Hx Ht. apply (fr_new _ _ _ _ F1 x Hx), owned_stable, (so_this _ _ _ _ OK x Ht). }
  unfold e_entry. apply wp_bind, wp_load64; [apply (budget_0 _ _ Hb2); lia| |].
  { intros x Hx. by apply (kp_stable _ _ _ K12), He. }
  rewrite (vload_keeps 8 _ s s2 _ K12 He), Ev.
  assert (cstr s2 home lhome) as C2 by by apply (cstr_keeps _ _ _ _ _ K12).
  assert (owned_range s2 p 48) as Ho2 by (apply (owned_range_keeps _ s1 _ _ _ K2); exact (fr_owned _ _ _ _ F1)).
  apply wp_bind. eapply wp_mono.
  { apply (Process_ctor_spec (b - 48 - 16) s2 home lhome p); [done|lia|done|done|].
    intros x Hx Hp. apply (fr_new _ _ _ _ F1 x Hp). by apply (cs_stable _ _ _ C). }
  intros [] s3 (path & buffer & Hb3 & CR). change (2 ^ 64) with 0x10000000000000000 in *.
  rewrite !u64_small in CR by lia. pose proof (cr_keeps _ _ _ _ _ _ _ CR) as K3.
  assert (keeps (range this 24) s s3) as K13.
  { apply (keeps_comp _ _ _ s s2 s3 K12 K3). intros x Hx [H|H]; [done|]. by destruct (fr_new _ _ _ _ F1 x H). }
  assert (sched_ok s3 this l (u64 (id + 1))) as OK3.
  { apply (sched_ok_apart (range p 48) s2); [done| |done]. intros x Hx Hp.
    apply (fr_new _ _ _ _ F1 x Hp), owned_stable, (sched_ok_stable s this l id OK x Hx). }
  eapply wp_mono.
  { apply (add_new_process_spec _ s3 this l (u64 (id + 1)) p Hb3); [lia| |exact OK3|done].
    pose proof (fr_pos _ _ _ _ F1). simpl in *. lia. }
  intros [] s4 (item & AP). pose proof (ap_keeps _ _ _ _ _ _ _ _ AP) as K4.
  assert (∀ x, list_end this l x → sched_mem this l x) as Hend.
  { intros x. by apply (list_end_mem s3 this l (u64 (id + 1)) x OK3). }
  split.
  - apply (budget_weaken _ _ _ (ap_budget _ _ _ _ _ _ _ _ AP)). lia.
  - exists item, p, path. split; [apply AP|]. split; [|split; [|split]].
    + apply (process_at_keeps _ s3 s4 _ _ K4); [|apply CR]. intros x Hx Hl. apply (fr_new _ _ _ _ F1 x Hx).
      by apply owned_stable, (sched_ok_stable s this l id OK), Hend.
    + exact (fr_new _ _ _ _ F1).
    + pose proof (fr_pos _ _ _ _ F1). simpl in *. lia.
    + exists buffer. apply (directory_before _ _ _ _ _ _ _ K12).
      eapply directory_continued; [exact CR|exact AP| |].
      * apply Forall_lookup. intros i c Hi. by apply (cs_chars _ _ _ C2 i c).
      * intros x Hx. apply (kp_stable _ _ _ K12), owned_stable, (sched_ok_stable s this l id OK), Hend, Hx.
  - apply (keeps_comp _ _ _ s s3 s4 K13 K4). intros x _ [Hx|Hx]; [by left|by apply Hend].
Qed.

(** Assignments to file-scope variables do not matter to objects. *)
Lemma vload_vars n v s x : vload n (set_vars v s) x = vload n s x.
Proof. by apply vload_ext. Qed.

Lemma owned_range_vars v s p n : owned_range s p n → owned_range (set_vars v s) p n.
Proof. intros H x Hx. rewrite <- (owned_proper s _ (same_mem_vars v s) x x eq_refl). by apply H. Qed.

Lemma linked_vars v s it l : linked s it l → linked (set_vars v s) it l.
Proof.
  revert it. induction l as [|[i p] l IH]; intros it; [done|]. intros (-> & Hi & Ho & Hp & Hl).
  cbn [linked]. rewrite !vload_vars. split_and!; try done; [by apply owned_range_vars|by apply IH].
Qed.

Lemma sched_ok_vars v s this l id : sched_ok s this l id → sched_ok (set_vars v s) this l id.
Proof.
  intros [Ho Hl Hid HA HT]. split; try done; [by apply owned_range_vars|rewrite vload_vars; by apply linked_vars].
Qed.

Lemma cstr_vars v s p l : cstr s p l → cstr (set_vars v s) p l.
Proof.
  intros [H1 H2 H3]. split; [|done|done].
  intros x Hx. rewrite <- (stable_proper s _ (same_mem_vars v s) x x eq_refl). by apply H1.
Qed.
End create.

(** The same objects in an interface with more memory. *)
Section more.
Context (A B : Allocator) (s : kstate).
Context (Hs : ∀ x, stable (Allocator := A) s x → stable (Allocator := B) s x)
  (Ho : ∀ x, owned (Allocator := A) s x → owned (Allocator := B) s x).

Lemma cstr_more p l : cstr (A := A) s p l → cstr (A := B) s p l.
Proof using Hs. intros [H1 H2 H3]. split; auto. Qed.

Lemma linked_more it l : linked (A := A) s it l → linked (A := B) s it l.
Proof using Ho.
  revert it. induction l as [|[i p] l IH]; intros it; [done|]. intros (-> & Hi & H & Hp & Hl).
  cbn [linked]. split_and!; try done; [intros x Hx; apply Ho, H, Hx|by apply IH].
Qed.

Lemma sched_ok_more this l id : sched_ok (A := A) s this l id → sched_ok (A := B) s this l id.
Proof using Ho.
  intros [H Hl Hid HA HT]. split; try done; [intros x Hx; apply Ho, H, Hx|by apply linked_more].
Qed.
End more.

(** * User memory in the machine *)

Section load.
Context (N : nat) (root : Z).
#[local] Abbreviation KH := (kernel_heap N root).

Definition mapped_in (um : umem) (x : Z) : Prop := is_Some (um x).

(** The user pages of [s] are those of [um], with its contents. *)
Record user_state (k : nat) (b : Z) (um : umem) (s : kstate) : Prop := UserState {
  us_budget : user_budget N root k (mapped_in um) b s;
  us_value : ∀ x v, um x = Some v → vbyte s x = v
}.

Lemma user_state_ext k b um um' s : (∀ x, um x = um' x) → user_state k b um s → user_state k b um' s.
Proof.
  intros E [B V]. split.
  - apply (user_budget_ext N root k (mapped_in um)); [|done]. intros x. unfold mapped_in. by rewrite E.
  - intros x v. rewrite <- E. apply V.
Qed.

Lemma user_state_same k b um s s' : same_mem s s' → user_state k b um s → user_state k b um s'.
Proof.
  intros SM [B V]. split; [by apply (user_budget_proper N root k _ b s s' SM)|].
  intros x v Hx. rewrite <- (vbyte_proper s s' SM x x eq_refl). by apply V.
Qed.

Lemma um_map_mapped va um x : mapped_in (um_map va um) x ↔ with_page (mapped_in um) va x.
Proof.
  unfold mapped_in, um_map, with_page, page_of. destruct (Z.eqb_spec (x / 4096) (va / 4096)); split; eauto.
  by intros [H|H].
Qed.

(** Nothing outside the page of [va] is mapped or unmapped. *)
Definition other_pages (va : Z) (s s' : kstate) : Prop :=
  ∀ x, 0 ≤ x < 2 ^ 64 → ¬ page_of va x → resolve s' x = resolve s x.

Lemma wp_map_user k b um va s (Q : () → kstate → Prop) :
  user_state (S k) b um s → 0 ≤ va < 2 ^ 47 →
  (∀ s', user_state k b (um_map va um) s' → keeps (A := KH) nowhere s s' → other_pages va s s' → Q () s') →
  wp (map_user va) Q s.
Proof.
  intros [B V] Hva HQ. destruct (add_user_page N root k _ b va s B Hva) as (f & s1 & s2 & E1 & E2 & UP).
  unfold map_user. eapply wp_bind_done; [exact E1|]. eapply wp_done; [exact E2|]. apply HQ.
  - split.
    + apply (user_budget_ext N root k (with_page (mapped_in um) va)); [|apply UP].
      intros x. by rewrite um_map_mapped.
    + intros x v. unfold um_map. destruct (Z.eqb_spec (x / 4096) (va / 4096)) as [Hp|Hp].
      * intros [= <-]. by apply (up_zero _ _ _ _ _ _ _ _ UP).
      * intros Hx. rewrite <- (V x v Hx). apply (up_keep _ _ _ _ _ _ _ _ UP); [|done]. right. by exists v.
  - by apply (up_kernel N root k (mapped_in um) b va).
  - exact (up_other _ _ _ _ _ _ _ _ UP).
Qed.

(** Mapping a page again replaces its frame by a fresh one. *)
Lemma wp_map_pages k n b um va s (Q : () → kstate → Prop) :
  user_state (k + S n) b um s → 0 ≤ va < 2 ^ 47 → Z.of_nat n < 2 ^ 63 →
  (∀ s', user_state k b (um_map va um) s' → keeps (A := KH) nowhere s s' → other_pages va s s' → Q () s') →
  wp (map_pages va (Z.of_nat (S n))) Q s.
Proof.
  intros U Hva Hn HQ. unfold map_pages.
  apply (wp_loop_left _ (λ m i s', i = Z.of_nat (S n) - Z.of_nat m ∧ 0 ≤ i ∧
    user_state (k + m) b (if i =? 0 then um else um_map va um) s' ∧ keeps (A := KH) nowhere s s' ∧
    other_pages va s s') _ (S n)).
  - intros m i s' (Hi & Hi0 & U' & K & O). destruct m as [|m].
    + rewrite (proj2 (Z.ltb_ge _ _)) by lia. apply wp_ret, HQ; [|done|done].
      rewrite Nat.add_0_r, (proj2 (Z.eqb_neq _ _)) in U' by lia. done.
    + rewrite (proj2 (Z.ltb_lt _ _)) by lia. rewrite Nat.add_succ_r in U'.
      apply wp_bind, (wp_map_user _ _ _ _ _ _ U' Hva). intros s2 U2 K2 O2. apply wp_ret. exists m.
      split; [done|]. split; [lia|]. split; [lia|]. rewrite (proj2 (Z.eqb_neq (i + 1) 0)) by lia. split_and!.
      * apply (user_state_ext _ _ (um_map va (if i =? 0 then um else um_map va um))); [|done].
        intros x. unfold um_map. destruct (i =? 0), (x / 4096 =? va / 4096); done.
      * by apply (keeps_trans nowhere s s').
      * intros x Hx Hp. by rewrite O2, O.
  - split; [lia|]. split; [lia|]. split; [done|]. split; [apply keeps_refl|done].
  - simpl in *. lia.
Qed.

(** Storing bytes of the kernel in mapped user memory. *)
Lemma wp_copy_out k b um dest src n (g : Z → Z) s (Q : Z → kstate → Prop) :
  user_state k b um s → 0 ≤ b → 0 ≤ n < 2 ^ 64 → (∀ i, 0 ≤ i < n → mapped_in um (dest + i)) →
  (∀ i, 0 ≤ i < n → heap_stable s (src + i) ∧ vbyte s (src + i) = g i) →
  (∀ s', user_state k b (um_write dest n g um) s' → keeps (A := KH) nowhere s s' → Q dest s') →
  wp (memcpy dest src n) Q s.
Proof.
  intros [B V] Hb Hn Hd Hs HQ.
  assert (∀ x, range dest n x → mapped_in um x) as Hd'.
  { intros x Hx. replace x with (dest + (x - dest)) by lia. apply Hd. unfold range in Hx. lia. }
  apply (wp_memcpy (A := user_heap N root k (mapped_in um)) b); [done|done|done|intros x Hx; right; by apply Hd'| |].
  { intros x Hx. destruct (Hs (x - src)) as [H1 _]; [unfold range in Hx; lia|].
    replace (src + (x - src)) with x in H1 by lia. split; [by left|]. intros H2.
    by apply (heap_stable_low N root k (mapped_in um) b s x B H1), Hd'. }
  intros s' B' K _ _ Hv. apply HQ.
  - assert (∀ x, mapped_in um x ↔ mapped_in (um_write dest n g um) x) as E.
    { intros x. unfold um_write, mapped_in. destruct (andb _ _) eqn:E; [|done].
      apply andb_prop in E as [E1%Z.leb_le E2%Z.ltb_lt]. split; [by eexists|]. intros _. apply Hd'. unfold range. lia. }
    split; [by apply (user_budget_ext N root k (mapped_in um))|].
    intros x v. unfold um_write. destruct (andb _ _) eqn:Ex.
    + apply andb_prop in Ex as [E1%Z.leb_le E2%Z.ltb_lt]. intros [= <-].
      replace x with (dest + (x - dest)) at 1 by lia. rewrite Hv by lia. apply Hs. lia.
    + intros Hx. rewrite <- (V x v Hx). apply (kp_byte _ _ _ K); [right; by exists v|].
      unfold range. intros [H1 H2]. apply andb_false_iff in Ex. rewrite Z.leb_gt, Z.ltb_ge in Ex. lia.
  - apply (keeps_kernel N root k (mapped_in um) b (range dest n)); [done|done|].
    intros x Hx. right. destruct (user_low N root k (mapped_in um) b s B x (Hd' x Hx)). lia.
Qed.

(** ** The file in its buffer *)

Section file.
Context (file : Z → Z) (Hfile : ∀ x, 0 ≤ file x < 256) (size contents : Z).

Definition file_at (s : kstate) : Prop := holds_disk (A := KH) file s contents size 0.

Lemma file_keeps P s s' :
  keeps (A := KH) P s s' → (∀ x, range contents size x → ¬ P x) → file_at s → file_at s'.
Proof.
  intros K HP H i Hi. destruct (H i Hi) as [H1 H2]. split; [by apply (kp_stable _ _ _ K)|].
  rewrite <- H2. apply (kp_byte _ _ _ K); [done|]. apply HP. unfold range. lia.
Qed.

Lemma wp_file n k b um s a (Q : Z → kstate → Prop) :
  user_state k b um s → file_at s → 0 ≤ a < size → a + Z.of_nat n ≤ size →
  Q (dload file n a) s → wp (loadv n (contents ⊞ a)) Q s.
Proof.
  intros [(HB & _) _] H Ha Hn HQ.
  apply (wp_load_disk (A := KH) file n s contents size 0 a); [|done|done|done|done].
  apply (budget_0 (A := KH) b); [exact HB|]. by destruct HB as (_ & Hb & _).
Qed.

(** A field of the header at [contents ⊞ a]. *)
Lemma wp_field n k b um s a i (Q : Z → kstate → Prop) :
  user_state k b um s → file_at s → 0 ≤ a → a + 56 ≤ size → 0 ≤ i → i + Z.of_nat n ≤ 56 → (0 < n)%nat →
  Q (dload file n (a + i)) s → wp (loadv n (contents ⊞ a ⊞ i)) Q s.
Proof. intros U H Ha Hs Hi Hin Hn HQ. rewrite ptr_add. apply (wp_file n k b um); try done; lia. Qed.

(** ** One segment *)

Section segment.
Context (a : Z) (Ha : 0 ≤ a) (Hs : a + 56 ≤ size).
Let ph := phdr_at file a.

Lemma phdr_range : 0 ≤ ph_vaddr ph ∧ 0 ≤ ph_memsz ph ∧ 0 ≤ ph_offset ph ∧ 0 ≤ ph_filesz ph < 2 ^ 64.
Proof using Hfile.
  pose proof (dload_range file 8 (a + 8) Hfile). pose proof (dload_range file 8 (a + 16) Hfile).
  pose proof (dload_range file 8 (a + 32) Hfile). pose proof (dload_range file 8 (a + 40) Hfile).
  cbn [ph phdr_at ph_vaddr ph_memsz ph_offset ph_filesz]. change (2 ^ 64) with (256 ^ Z.of_nat 8). lia.
Qed.

Lemma page_base v : 0 ≤ v < 2 ^ 63 → v ⊟ v mod PAGE_SIZE = v - v mod 4096 ∧ (v - v mod 4096) ⊞ v mod PAGE_SIZE = v ∧
  0 ≤ v - v mod 4096 ≤ v ∧ (v - v mod 4096) / 4096 = v / 4096.
Proof using Type.
  intros Hv. simpl in Hv. unfold PAGE_SIZE. rewrite !u64_small by zlia. split_and!; zlia.
Qed.

Lemma wp_load_segment k b um s d (Q : Z → kstate → Prop) :
  user_state (k + segment_frames ph) b um s → 0 ≤ b → file_at s → (pt_load ph = true → segment_ok size um ph) →
  (∀ s', user_state k b (place_segment file um ph) s' → keeps (A := KH) nowhere s s' → Q (segment_end d ph) s') →
  wp (load_segment contents (contents ⊞ a) d) Q s.
Proof using All.
  intros U Hb F Hok HQ. destruct phdr_range as (R1 & R2 & R3 & R4). unfold load_segment, p_type.
  apply wp_bind, (wp_file 4 (k + segment_frames ph) b um s a); [done|done|lia|lia|].
  change (dload file 4 a) with (ph_type ph). unfold segment_frames, place_segment, segment_end, pt_load in *.
  destruct (ph_type ph =? 1); cbn [negb].
  2:{ apply wp_ret. rewrite Nat.add_0_r in U. apply HQ; [done|apply keeps_refl]. }
  destruct (Hok eq_refl) as [Hend Hfs Hmap]. set (n := Z.to_nat (ph_memsz ph / 4096)).
  assert (Z.to_nat (ph_memsz ph / 4096 + 1) = S n) as En by (subst n; zlia). rewrite En in U.
  apply wp_bind, (wp_field 8 _ b um s a 40 _ U F); try lia. change (dload file 8 (a + 40)) with (ph_memsz ph).
  apply wp_bind, (wp_field 8 _ b um s a 16 _ U F); try lia. change (dload file 8 (a + 16)) with (ph_vaddr ph).
  destruct (page_base (ph_vaddr ph)) as (E1 & E2 & E3 & E4); [simpl in *; lia|]. cbv zeta. rewrite E1.
  replace (ph_memsz ph / PAGE_SIZE + 1) with (Z.of_nat (S n)) by (unfold PAGE_SIZE; subst n; zlia).
  apply wp_bind, (wp_map_pages k n b um _ s _ U); [simpl in *; lia|simpl in *; zlia|].
  intros s1 U1 K1 _. assert (file_at s1) as F1 by (apply (file_keeps nowhere s); [done|by intros ? ? []|done]).
  apply (user_state_ext _ _ _ (um_map (ph_vaddr ph) um)) in U1; [|intros x; unfold um_map; by rewrite E4].
  apply wp_bind, (wp_field 8 _ b _ s1 a 8 _ U1 F1); try lia. change (dload file 8 (a + 8)) with (ph_offset ph).
  apply wp_bind, (wp_field 8 _ b _ s1 a 32 _ U1 F1); try lia. change (dload file 8 (a + 32)) with (ph_filesz ph).
  rewrite E2. assert (∀ i, 0 ≤ i < ph_filesz ph → heap_stable s1 ((contents ⊞ ph_offset ph) + i) ∧
    vbyte s1 ((contents ⊞ ph_offset ph) + i) = file (ph_offset ph + i)) as Hsrc.
  { intros i Hi. destruct (F1 (ph_offset ph)) as [S1 _]; [lia|]. destruct (F1 0) as [S0 _]; [lia|].
    rewrite Z.add_0_r in S0. pose proof U1 as [(HB & _) _].
    assert (budget (Allocator := KH) 0 s1) as Hz.
    { apply (budget_0 (A := KH) b); [exact HB|done]. }
    rewrite (stable_add (A := KH) s1 contents (ph_offset ph) Hz S0) by done. rewrite <- Z.add_assoc. apply F1. lia. }
  apply wp_bind, (wp_copy_out k b _ _ _ _ (λ i, file (ph_offset ph + i)) s1 _ U1); [done|done|done|done|].
  intros s2 U2 K2. assert (file_at s2) as F2 by (apply (file_keeps nowhere s1); [done|by intros ? ? []|done]).
  assert (keeps (A := KH) nowhere s s2) as K by (by apply (keeps_trans nowhere s s1)).
  apply wp_bind, (wp_field 8 _ b _ s2 a 16 _ U2 F2); try lia. change (dload file 8 (a + 16)) with (ph_vaddr ph).
  apply wp_bind, (wp_field 8 _ b _ s2 a 40 _ U2 F2); try lia. change (dload file 8 (a + 40)) with (ph_memsz ph).
  assert (ph_vaddr ph ⊞ ph_memsz ph = ph_vaddr ph + ph_memsz ph) as Ee by (simpl in *; rewrite u64_small; lia).
  rewrite Ee. destruct (Z.ltb_spec d (ph_vaddr ph + ph_memsz ph)) as [Hd|Hd].
  - apply wp_bind, (wp_field 8 _ b _ s2 a 16 _ U2 F2); try lia. change (dload file 8 (a + 16)) with (ph_vaddr ph).
    apply wp_bind, (wp_field 8 _ b _ s2 a 40 _ U2 F2); try lia. change (dload file 8 (a + 40)) with (ph_memsz ph).
    apply wp_ret. rewrite Ee. rewrite Z.max_r in HQ by lia. by apply HQ.
  - apply wp_ret. rewrite Z.max_l in HQ by lia. by apply HQ.
Qed.
End segment.

(** ** All segments *)

Lemma phdrs_lookup i ph : phdrs file !! i = Some ph →
  ph = phdr_at file (ehdr_phoff file + Z.of_nat i * 56) ∧ Z.of_nat i < ehdr_phnum file.
Proof using Type.
  unfold phdrs, zseq. intros H. apply list_lookup_fmap_Some in H as (j & -> & Hj).
  apply list_lookup_fmap_Some in Hj as (m & -> & Hm). apply lookup_seq in Hm as [-> Hm]. split; [do 2 f_equal; lia|lia].
Qed.

Lemma phdrs_length : Z.of_nat (length (phdrs file)) = ehdr_phnum file.
Proof using Hfile.
  unfold phdrs, zseq. rewrite !length_fmap, length_seq. unfold ehdr_phnum.
  pose proof (dload_range file 2 56 Hfile). lia.
Qed.

Lemma place_segments_snoc um l ph :
  place_segments file um (l ++ [ph]) = place_segment file (place_segments file um l) ph.
Proof using Type. unfold place_segments. by rewrite foldl_app. Qed.

Lemma segments_end_snoc l ph : segments_end (l ++ [ph]) = segment_end (segments_end l) ph.
Proof using Type. unfold segments_end. by rewrite foldl_app. Qed.

Lemma wp_load_segments k b um s (Q : Z → kstate → Prop) :
  user_state (k + segments_frames (phdrs file)) b um s → 0 ≤ b → file_at s →
  ehdr_phoff file + 56 * ehdr_phnum file ≤ size → segments_ok file size um (phdrs file) →
  (∀ s', user_state k b (place_segments file um (phdrs file)) s' → keeps (A := KH) nowhere s s' →
     Q (segments_end (phdrs file)) s') →
  wp (load_segments contents (contents ⊞ ehdr_phoff file) (ehdr_phnum file)) Q s.
Proof using Hfile.
  intros U Hb F Hsize Hok HQ. unfold load_segments.
  pose proof (dload_range file 2 56 Hfile) as Hnum. fold (ehdr_phnum file) in Hnum.
  pose proof (dload_range file 8 32 Hfile) as Hoff. fold (ehdr_phoff file) in Hoff.
  apply (wp_loop_left _ (λ m st s', ∃ l rest, phdrs file = l ++ rest ∧ length rest = m ∧
    st = (Z.of_nat (length l), segments_end l) ∧
    user_state (k + segments_frames rest) b (place_segments file um l) s' ∧
    segments_ok file size (place_segments file um l) rest ∧ keeps (A := KH) nowhere s s') _ (length (phdrs file))).
  - intros m st s' (l & rest & El & Hm & -> & U' & Hok' & K).
    assert (Z.of_nat (length l) + Z.of_nat (length rest) = ehdr_phnum file) as Hlen.
    { rewrite <- phdrs_length, El, length_app. lia. }
    destruct rest as [|ph rest].
    + rewrite (proj2 (Z.ltb_ge _ _)) by (cbn [length] in Hlen; lia). apply wp_ret.
      rewrite app_nil_r in El. cbn [segments_frames foldr] in U'. rewrite Nat.add_0_r in U'. rewrite El in HQ. by apply HQ.
    + rewrite (proj2 (Z.ltb_lt _ _)) by (cbn [length] in Hlen; lia).
      destruct (phdrs_lookup (length l) ph) as [Eph Hi]; [by rewrite El, list_lookup_middle|].
      unfold sizeof_Elf64_Phdr. rewrite ptr_add. cbn [segments_frames foldr] in U'. destruct Hok' as [Hph Hok'].
      assert (file_at s') as F' by (apply (file_keeps nowhere s); [done|by intros ? ? []|done]).
      apply wp_bind, (wp_load_segment (ehdr_phoff file + Z.of_nat (length l) * 56) ltac:(lia) ltac:(lia)
        (k + segments_frames rest) b (place_segments file um l) s'); rewrite <- ?Eph; [|done|done|done|].
      { by replace (k + segments_frames rest + segment_frames ph)%nat
          with (k + (segment_frames ph + segments_frames rest))%nat by lia. }
      intros s2 U2 K2. apply wp_ret. exists (length rest). split; [done|]. exists (l ++ [ph]), rest.
      rewrite <- app_assoc, length_app, segments_end_snoc, place_segments_snoc. cbn [length app].
      split_and!; try done; [|by apply (keeps_trans nowhere s s')].
      f_equal. change (256 ^ Z.of_nat 2) with 65536 in Hnum. rewrite u64_small by lia. lia.
  - exists [], (phdrs file). split_and!; try done.
  - pose proof phdrs_length. change (256 ^ Z.of_nat 2) with 65536 in Hnum. simpl. lia.
Qed.
End file.

(** ** submit_new_process *)

Lemma segments_end_bound file size um l d :
  (∀ ph, ph ∈ l → 0 ≤ ph_vaddr ph + ph_memsz ph) →
  segments_ok file size um l → 0 ≤ d < 2 ^ 47 - 4096 → 0 ≤ foldl segment_end d l < 2 ^ 47 - 4096.
Proof using Type.
  revert um d. induction l as [|ph l IH]; intros um d Hpos Hok Hd; [done|]. destruct Hok as [Hph Hok].
  cbn [foldl]. apply (IH (place_segment file um ph)); [intros p Hp; apply Hpos; by right|done|].
  unfold segment_end. destruct (pt_load ph) eqn:E; [|done].
  pose proof (sk_end _ _ _ (Hph eq_refl)). pose proof (Hpos ph ltac:(by left)). lia.
Qed.

Lemma next_page d : 0 ≤ d < 2 ^ 47 - 4096 →
  (d ⊞ PAGE_SIZE) ⊟ d mod PAGE_SIZE = d + 4096 - d mod 4096 ∧ 0 ≤ d + 4096 - d mod 4096 < 2 ^ 47.
Proof using Type.
  clear. intros Hd. simpl in *. unfold PAGE_SIZE. rewrite (u64_small (d + 4096)) by lia.
  pose proof (Z.mod_pos_bound d 4096). rewrite u64_small by lia. lia.
Qed.

(** What the loader asks of an executable of [size] bytes. *)
Record executable (file : Z → Z) (size : Z) (um : umem) : Prop := Executable {
  ee_header : 64 ≤ size < 2 ^ 32;
  ee_table : ehdr_phoff file + 56 * ehdr_phnum file ≤ size;
  ee_segments : segments_ok file size um (phdrs file)
}.

(** The pages: segments, heap, stack. *)
Lemma wp_load_image {B} file size contents um b s (k : Z → K B) (Q : B → kstate → Prop) :
  (∀ x, 0 ≤ file x < 256) → executable file size um →
  user_state (segments_frames (phdrs file) + 2) b um s → 0 ≤ b → file_at file size contents s →
  (∀ s', user_state 0 b (user_image file um (phdrs file)) s' → keeps (A := KH) nowhere s s' →
     wp (k (heap_start (phdrs file))) Q s') →
  wp (data_end ← load_segments contents (contents ⊞ ehdr_phoff file) (ehdr_phnum file);
      let data_end := (data_end ⊞ PAGE_SIZE) ⊟ data_end mod PAGE_SIZE in
      map_user data_end;;
      map_user 0x100000;;
      k data_end) Q s.
Proof using Type.
  intros Hf EX U Hb F HQ. destruct EX as [Hh Ht Hs].
  assert (0 ≤ segments_end (phdrs file) < 2 ^ 47 - 4096) as Hend.
  { apply (segments_end_bound file size um); [|done|simpl; lia]. intros ph [i Hi]%list_elem_of_lookup.
    apply phdrs_lookup in Hi as [-> _]. destruct (phdr_range file Hf (ehdr_phoff file + Z.of_nat i * 56)). lia. }
  apply wp_bind, (wp_load_segments file Hf size contents 2 b um s); [|done|done|done|done|].
  { by rewrite Nat.add_comm. }
  intros s1 U1 K1. destruct (next_page _ Hend) as [E Hhs]. cbv zeta. rewrite E.
  fold (heap_start (phdrs file)) in Hhs |- *.
  apply wp_bind, (wp_map_user _ _ _ _ _ _ U1 Hhs). intros s2 U2 K2 _.
  apply wp_bind, (wp_map_user _ _ _ _ _ _ U2); [simpl; lia|]. intros s3 U3 K3 _.
  apply HQ; [exact U3|]. apply (keeps_trans nowhere s s1); [done|].
  by apply (keeps_trans nowhere s1 s2).
Qed.

(** ** From the path to the process *)

Section submit.
Context `{D : BlockDevice} (disk : Z → Z) (device : Z) (k : nat) (um : umem).
#[local] Abbreviation A1 := (user_heap N root k (mapped_in um)).
Context {DL : DiskLaws (A := A1) disk device}.
Context (F : Z → Prop) (fs : Z) (g : geometry) (GO : geometry_ok g).

(** The file a path leads to: its size, and its bytes as read_file delivers them. *)
Definition file_size_of (names : list (list Z)) : Z := dload disk 4 (reached disk g (root_inode g) names + 4).
Definition file_of (names : list (list Z)) (i : Z) : Z :=
  disk (first_block disk g (reached disk g (root_inode g) names) + i).

Definition read_program_cost (names : list (list Z)) : Z :=
  2 * open_cost (A := A1) disk device g names + file_size_of names + 16 +
  read_cost (DiskLaws := DL) (file_size_of names).

(** The scheduler and the strings the call starts from; none of it is the driver's. *)
Record submit_pre (b : Z) (path : Z) (leading trailing : bool) (names : list (list Z)) (r : option Z)
    (home : Z) (lhome : list Z) (this : Z) (l : list (Z * Z)) (id : Z) (s : kstate) : Prop := SubmitPre {
  sp_state : user_state (S k) b um s;
  sp_mounted : mounted (A := A1) disk device F fs g s;
  sp_instance : ext2_instance (vars s) = fs;
  sp_path : cstr (A := A1) s path (path_text leading trailing names);
  sp_home : cstr (A := KH) s home lhome;
  sp_sched : sched_ok (A := KH) s this l id;
  sp_names : names ≠ [] ∧ Forall component names ∧ lookup_names disk g (root_inode g) names = Some r;
  sp_driver : ∀ x, driver (DiskLaws := DL) x → ¬ mapped_in um x ∧ ¬ sched_mem this l x ∧
    ¬ range path (Z.of_nat (length (path_text leading trailing names)) + 1) x ∧
    ¬ range home (Z.of_nat (length lhome) + 1) x;
  sp_apart : ∀ x, range home (Z.of_nat (length lhome) + 1) x → ¬ range this 24 x;
  sp_length : Z.of_nat (length l) ≤ 2 ^ 64;
  sp_exec : executable (file_of names) (file_size_of names) um;
  sp_frames : k = (segments_frames (phdrs (file_of names)) + 2)%nat;
  sp_budget : read_program_cost names + create_cost (length lhome) ≤ b
}.

(** Up to the size of the file: the frame the code takes and forgets is taken. *)
Lemma wp_program_size {B} b path leading trailing names r home lhome this l id s (K0 : Z → K B) (Q : B → kstate → Prop) :
  submit_pre b path leading trailing names r home lhome this l id s →
  (∀ s', budget (Allocator := A1) (b - open_cost (A := A1) disk device g names) s' →
     mounted (A := A1) disk device F fs g s' → keeps (A := A1) (driver (DiskLaws := DL)) s s' →
     wp (K0 (file_size_of names)) Q s') →
  wp (log LogLevel.PROCESS (chars "Creating process %s") [path];;
      _ ← kalloc_frame;
      file_size ← get_file_size path;
      K0 file_size) Q s.
Proof using GO.
  intros [[B0 V] M Ei C Ch OK (Hne & HN & Hr) Hdr Hap Hlen EX Hk Hb] HQ.
  unfold read_program_cost, create_cost in *. set (n := file_size_of names) in *. set (text := path_text leading trailing names) in *.
  pose proof (walk_cost_pos (A := A1) disk device g GO names) as Hwc.
  pose proof (read_cost_pos (DiskLaws := DL) 256) as Hrc. pose proof (read_cost_pos (DiskLaws := DL) n) as Hrn.
  assert (0 ≤ open_cost (A := A1) disk device g names) as Hoc by (unfold open_cost; lia).
  pose proof (ee_header _ _ _ EX) as Hn. fold n in Hn.
  assert (∀ x, range path (Z.of_nat (length text) + 1) x → ¬ driver x) as Hp by (intros x Hx Hd; destruct (Hdr x Hd) as (_ & _ & H1 & _); by apply H1).
  apply wp_bind, (wp_log_str (A := A1) _ (chars "Creating process ") [] _ path text);
    [|done|done|done|].
  { apply (budget_0 (A := A1) b); [apply (user_budget_fewer N root (S k)); [lia|done]|lia]. }
  intros o. assert (user_budget N root (S k) (mapped_in um) b (emit o s)) as Bo.
  { by apply (user_budget_proper N root _ _ _ s). }
  destruct (take_frame N root k _ b _ Bo) as (f & s1 & E1 & B1 & K1). eapply wp_bind_done; [exact E1|].
  assert (keeps (A := A1) nowhere s s1) as K01.
  { apply (keeps_trans nowhere s (emit o s)); [apply keeps_emit|done]. }
  assert (mounted (A := A1) disk device F fs g s1) as M1.
  { apply (mounted_keeps (A := A1) disk device F fs g GO nowhere s); [done|by intros ? []|done]. }
  assert (cstr (A := A1) s1 path text) as C1 by (apply (cstr_keeps nowhere s); [done|done|by intros ? ? []]).
  unfold get_file_size, EXT2_get_instance. apply wp_bind, wp_bind, wp_gets.
  rewrite (kp_vars _ _ _ K01), Ei.
  apply (wp_get_file_size (A := A1) disk device F fs g GO b s1 path leading trailing names r); try done; [lia|].
  intros s2 B2 M2 K2. apply HQ; [done|done|]. apply (keeps_comp _ _ _ s s1 s2 K01 K2). by intros x _ [[]|].
Qed.

(** The file in a new buffer: the first statements of the function. *)
Lemma wp_read_program {B} b path leading trailing names r home lhome this l id s (K0 : Z → K B) (Q : B → kstate → Prop) :
  submit_pre b path leading trailing names r home lhome this l id s →
  (∀ contents s', user_state k (b - read_program_cost names) um s' →
     file_at (file_of names) (file_size_of names) contents s' →
     (∀ x, range contents (file_size_of names) x → ¬ heap_stable s x) →
     keeps (A := KH) (driver (DiskLaws := DL)) s s' → mounted (A := A1) disk device F fs g s' → wp (K0 contents) Q s') →
  wp (log LogLevel.PROCESS (chars "Creating process %s") [path];;
      _ ← kalloc_frame;
      file_size ← get_file_size path;
      contents ← kalloc file_size;
      read_file path file_size contents;;
      K0 contents) Q s.
Proof using GO.
  intros SP HQ. apply (wp_program_size b path leading trailing names r home lhome this l id s _ Q SP). intros s2 B2 M2 K02.
  destruct SP as [[B0 V] M Ei C Ch OK (Hne & HN & Hr) Hdr Hap Hlen EX Hk Hb].
  unfold read_program_cost, create_cost in *. set (n := file_size_of names) in *. set (text := path_text leading trailing names) in *.
  pose proof (walk_cost_pos (A := A1) disk device g GO names) as Hwc.
  pose proof (read_cost_pos (DiskLaws := DL) 256) as Hrc. pose proof (read_cost_pos (DiskLaws := DL) n) as Hrn.
  assert (0 ≤ open_cost (A := A1) disk device g names) as Hoc by (unfold open_cost; lia).
  pose proof (ee_header _ _ _ EX) as Hn. fold n in Hn.
  assert (∀ x, range path (Z.of_nat (length text) + 1) x → ¬ driver x) as Hp by (intros x Hx Hd; destruct (Hdr x Hd) as (_ & _ & H1 & _); by apply H1).
  apply wp_bind, (wp_kalloc (A := A1) (b - open_cost (A := A1) disk device g names)); [done|lia|lia|].
  intros contents s3 B3 F3. pose proof (fr_keeps _ _ _ _ F3) as K3.
  assert (keeps (A := A1) (driver (DiskLaws := DL)) s s3) as K03.
  { apply (keeps_comp _ _ _ s s2 s3 K02 K3). by intros x _ [|[]]. }
  assert (mounted (A := A1) disk device F fs g s3) as M3.
  { apply (mounted_keeps (A := A1) disk device F fs g GO nowhere s2); [done|by intros ? []|done]. }
  assert (cstr (A := A1) s3 path text) as C3 by (apply (cstr_keeps _ s _ _ _ K03 C); exact Hp).
  unfold read_file, EXT2_get_instance. apply wp_bind, wp_bind, wp_gets. rewrite (kp_vars _ _ _ K03), Ei.
  apply (wp_read_file (A := A1) disk device F fs g GO (b - open_cost (A := A1) disk device g names - n - 16) s3 path
    leading trailing names r); try done; [lia|simpl in *; lia|exact (fr_owned _ _ _ _ F3)| |].
  { intros x Hx. pose proof (fr_new _ _ _ _ F3 x Hx) as Hnew. split; intros H; apply Hnew.
    - by apply (ea_stable _ _ _ _ _ (mo_object _ _ _ _ _ _ M2)).
    - apply driver_stable; [apply M2|done]. }
  intros s4 B4 M4 K4 H4.
  assert (∀ x, range contents n x → ¬ user_stable (mapped_in um) s x) as Hnew.
  { intros x Hx Hs. apply (fr_new _ _ _ _ F3 x Hx). by apply (kp_stable _ _ _ K02). }
  assert (keeps (A := A1) (driver (DiskLaws := DL)) s s4) as K04.
  { apply (keeps_comp _ _ _ s s3 s4 K03 K4). intros x Hx [H|[H|H]]; [done| |done]. by destruct (Hnew x H). }
  apply HQ.
  - split.
    + apply (budget_weaken (Allocator := A1) _ _ _ B4). unfold create_cost in Hb. lia.
    + intros x v Hx. rewrite <- (V x v Hx). apply (kp_byte _ _ _ K04); [right; by exists v|].
      intros Hd. destruct (Hdr x Hd) as [Hm _]. apply Hm. by exists v.
  - intros i Hi. destruct (H4 i Hi) as [[Hs|Hs] Hv]; [done|].
    exfalso. apply (Hnew (contents + i)); [unfold range; lia|by right].
  - intros x Hx Hs. apply (Hnew x Hx). by left.
  - apply (keeps_kernel N root k (mapped_in um) _ _ _ s s4 B4 K04). by left.
  - done.

Qed.

Lemma file_vars file size contents v s : file_at file size contents s → file_at file size contents (set_vars v s).
Proof using Type. intros H i Hi. by destruct (H i Hi). Qed.

(** What submit_new_process leaves in [s']. *)
Record submitted (b : Z) (names : list (list Z)) (lhome : list Z) (this : Z) (l : list (Z * Z)) (id : Z) (s s' : kstate) : Prop :=
  Submitted {
  sb_image : user_state 0 (b - read_program_cost names - create_cost (length lhome))
    (user_image (file_of names) um (phdrs (file_of names))) s';
  sb_process : ∃ item process cwd text,
    sched_ok (A := KH) s' this (l ++ [(item, process)]) (u64 (id + 1)) ∧
    process_at (A := KH) s' process (Pcb id READY cwd (0x100000 + 4000) (heap_start (phdrs (file_of names)))
      (ehdr_entry (file_of names))) ∧
    (∀ x, range process 48 x → ¬ heap_stable s x) ∧ 0 ≤ process < 2 ^ 64 ∧
    directory (A := KH) cwd text (started_in lhome) s s';
  sb_sstatus : vars s' = set_sstatus (Z.land (Z.lor (Z.shiftl 1 18) (sstatus (vars s))) (u64 (Z.lnot (Z.shiftl 1 8)))) (vars s);
  sb_keeps : keeps (A := KH) (λ x, driver (DiskLaws := DL) x ∨ sched_mem this l x) (set_vars (vars s') s) s';
  sb_mounted : (∀ x, ¬ mapped_in um x) → (∀ x, F x → ¬ sched_mem this l x) → mounted (A := A1) disk device F fs g s'
}.

(** Without user pages the interface with them keeps what the heap keeps. *)
Lemma keeps_no_pages k' R P s s' :
  (∀ x, ¬ R x) → keeps (A := KH) P s s' → keeps (A := user_heap N root k' R) P s s'.
Proof using Type.
  intros HR [S B O M V]. split; [| | | |done].
  - intros x [Hx|Hx]; [left; by apply S|by destruct (HR x)].
  - intros x [Hx|Hx]; [by apply B|by destruct (HR x)].
  - intros x [Hx|Hx]; [left; by apply O|by destruct (HR x)].
  - intros x [Hx|Hx]; [by apply M|by destruct (HR x)].
Qed.

(** The last statements, in the kernel heap and next to the user pages at once. *)
Lemma wp_create_next_to_user um' b s file size home lhome this l id contents stack heap (Q : () → kstate → Prop) :
  user_state 0 b um' s → create_cost (length lhome) ≤ b → cstr (A := KH) s home lhome →
  sched_ok (A := KH) s this l id → file_at file size contents s → (∀ x, 0 ≤ file x < 256) → 64 ≤ size →
  (∀ x, range contents size x → ¬ sched_mem this l x) →
  (∀ x, range home (Z.of_nat (length lhome) + 1) x → ¬ range this 24 x) →
  0 ≤ stack < 2 ^ 64 → 0 ≤ heap < 2 ^ 64 → Z.of_nat (length l) ≤ 2 ^ 64 →
  (∀ s', user_state 0 (b - create_cost (length lhome)) um' s' →
     process_added (A := KH) (b - create_cost (length lhome)) this l id (ehdr_entry file) stack heap lhome s s' → Q () s') →
  wp (create_process home this contents stack heap) Q s.
Proof using Type.
  intros [B V] Hb C OK Hf Hbytes Hsz Hcm Hht Hst Hhe Hlen HQ. pose proof B as (HB & _ & _).
  assert (budget (Allocator := KH) 0 s) as Hz.
  { apply (budget_0 (A := KH) b); [exact HB|unfold create_cost in Hb; lia]. }
  assert (contents ⊞ 24 = contents + 24) as Ec.
  { destruct (Hf 0 ltac:(lia)) as [H0 _]. rewrite Z.add_0_r in H0.
    apply (stable_add (A := KH) s contents 24 Hz H0); [lia|]. apply Hf. lia. }
  assert (∀ x, range (contents ⊞ 24) 8 x → heap_stable s x ∧ ¬ sched_mem this l x) as Hfield.
  { intros x Hx. rewrite Ec in Hx. split.
    - replace x with (contents + (x - contents)) by lia. apply Hf. unfold range in Hx. lia.
    - apply Hcm. unfold range in *. lia. }
  assert (vload 8 s (contents ⊞ 24) = ehdr_entry file) as Ev.
  { rewrite Ec. apply (vload_dload (A := KH) file 8 s contents size 0 24 Hf); lia. }
  assert (0 ≤ id < 2 ^ 64) as Hid.
  { rewrite <- (so_id _ _ _ _ OK). apply (vload_range 8). }
  assert (0 ≤ ehdr_entry file < 2 ^ 64) as Hen by apply (dload_range file 8 24 Hbytes).
  set (A2 := user_heap N root 0 (mapped_in um')).
  pose proof (wp_create_process (A := KH) b s home lhome this l id contents (ehdr_entry file) stack heap HB Hb C OK Hht) as W1.
  pose proof (wp_create_process (A := A2) b s home lhome this l id contents (ehdr_entry file) stack heap B Hb
    (cstr_more KH A2 s (λ x H, or_introl H) home lhome C) (sched_ok_more KH A2 s (λ x H, or_introl H) this l id OK) Hht) as W2.
  destruct (wp_inv _ _ _ (W1 ltac:(intros x Hx; destruct (Hfield x Hx) as [H1 H2]; split; [done|intros H; by apply H2; left])
    Ev Hid Hen Hst Hhe Hlen)) as ([] & s1 & E1 & P1).
  destruct (wp_inv _ _ _ (W2 ltac:(intros x Hx; destruct (Hfield x Hx) as [H1 H2]; split; [by left|intros H; by apply H2; left])
    Ev Hid Hen Hst Hhe Hlen)) as ([] & s2 & E2 & P2).
  rewrite E1 in E2. injection E2 as <-. eapply wp_done; [exact E1|]. apply HQ; [|exact P1].
  destruct P2 as [B2 _ K2]. split; [exact B2|]. intros x v Hx. rewrite <- (V x v Hx).
  apply (kp_byte _ _ _ K2); [right; by exists v|]. intros Hm.
  assert (heap_owned s x) as Ho by apply (sched_ok_stable (A := KH) s this l id OK x Hm).
  destruct (heap_stable_low N root 0 (mapped_in um') b s x B (or_intror Ho)) as [_ Hn]. apply Hn. by exists v.
Qed.

Lemma file_of_range names x : 0 ≤ file_of names x < 256.
Proof using DL. apply (disk_byte (DiskLaws := DL)). Qed.

(** From the buffer to the process: what follows read_file. *)
Lemma wp_from_buffer b path leading trailing names r home lhome this l id s contents s4 (Q : Z → kstate → Prop) :
  submit_pre b path leading trailing names r home lhome this l id s →
  user_state k (b - read_program_cost names) um s4 → file_at (file_of names) (file_size_of names) contents s4 →
  (∀ x, range contents (file_size_of names) x → ¬ heap_stable s x) →
  keeps (A := KH) (driver (DiskLaws := DL)) s s4 → mounted (A := A1) disk device F fs g s4 →
  (∀ s', submitted b names lhome this l id s s' → Q 0 s') →
  wp (program_headers_offset ← e_phoff contents;
      program_headers_amount ← e_phnum contents;
      _ ← e_phentsize contents;
      set_sum_bit;;
      let program_headers := contents ⊞ program_headers_offset in
      data_end ← load_segments contents program_headers program_headers_amount;
      let data_end := (data_end ⊞ PAGE_SIZE) ⊟ data_end mod PAGE_SIZE in
      map_user data_end;;
      let stack_page := 0x100000 in
      map_user stack_page;;
      let stack_pointer := stack_page + 4000 in
      set_spp_zero;;
      create_process home this contents stack_pointer data_end;;
      mret 0) Q s4.
Proof using GO.
  intros SP U4 F4 Hnew K4 M4 HQ. pose proof (sp_exec _ _ _ _ _ _ _ _ _ _ _ _ SP) as EX.
  pose proof (file_of_range names) as Hf. set (file := file_of names) in *. set (n := file_size_of names) in *.
  pose proof (sp_budget _ _ _ _ _ _ _ _ _ _ _ _ SP) as Hb. pose proof (ee_header _ _ _ EX) as Hn.
  set (b4 := b - read_program_cost names) in *. assert (0 ≤ b4) as Hb4 by (unfold b4, create_cost in *; lia).
  unfold e_phoff, e_phnum, e_phentsize.
  apply wp_bind, (wp_file file n contents 8 k b4 um s4 32 _ U4 F4); [lia|lia|].
  apply wp_bind, (wp_file file n contents 2 k b4 um s4 56 _ U4 F4); [lia|lia|].
  apply wp_bind, (wp_file file n contents 2 k b4 um s4 54 _ U4 F4); [lia|lia|].
  unfold set_sum_bit. apply wp_bind, wp_modify. set (v1 := set_sstatus _ (vars s4)). set (s5 := set_vars v1 s4).
  assert (user_state k b4 um s5) as U5 by by apply (user_state_same k b4 um s4).
  assert (file_at file n contents s5) as F5 by by apply file_vars.
  rewrite (sp_frames _ _ _ _ _ _ _ _ _ _ _ _ SP) in U5.
  fold (ehdr_phoff file) (ehdr_phnum file). cbv zeta.
  apply (wp_load_image file n contents um b4 s5 (λ d, set_spp_zero;;
    create_process home this contents (0x100000 + 4000) d;; mret 0)); [done|done|done|done|done|].
  intros s6 U6 K6. unfold set_spp_zero. apply wp_bind, wp_modify.
  set (v2 := set_sstatus _ (vars s6)). set (s7 := set_vars v2 s6). set (um' := user_image file um (phdrs file)) in *.
  assert (user_state 0 b4 um' s7) as U7 by by apply (user_state_same 0 b4 um' s6).
  assert (file_at file n contents s7) as F7.
  { apply file_vars. apply (file_keeps file n contents nowhere s5); [done|by intros ? ? []|done]. }
  assert (∀ x, sched_mem this l x → ¬ driver (DiskLaws := DL) x) as Hsd.
  { intros x Hx Hd. by destruct (sp_driver _ _ _ _ _ _ _ _ _ _ _ _ SP x Hd) as (_ & H & _). }
  assert (sched_ok (A := KH) s7 this l id) as OK7.
  { apply sched_ok_vars, (sched_ok_apart (A := KH) nowhere s5); [done|by intros ? ? []|].
    apply sched_ok_vars, (sched_ok_apart (A := KH) _ s _ this l id K4); [done|apply SP]. }
  assert (cstr (A := KH) s7 home lhome) as C7.
  { apply cstr_vars, (cstr_keeps (A := KH) nowhere s5); [done| |by intros ? ? []].
    apply cstr_vars, (cstr_keeps (A := KH) _ s _ home lhome K4); [apply SP|].
    intros x Hx Hd. by destruct (sp_driver _ _ _ _ _ _ _ _ _ _ _ _ SP x Hd) as (_ & _ & _ & H). }
  assert (keeps (A := KH) (driver (DiskLaws := DL)) (set_vars v2 s) s7) as K7.
  { apply (keeps_vars _ v2 (set_vars v1 s) s6).
    apply (keeps_comp (A := KH) _ _ _ _ s5 _ (keeps_vars _ v1 s s4 K4) K6). by intros x _ [|[]]. }
  assert (∀ x, sched_mem this l x → heap_stable s x) as Hss.
  { intros x Hx. right. exact (sched_ok_stable (A := KH) s this l id (sp_sched _ _ _ _ _ _ _ _ _ _ _ _ SP) x Hx). }
  assert (0 ≤ heap_start (phdrs file) < 2 ^ 64) as Hheap.
  { destruct (next_page (segments_end (phdrs file))) as [_ Hnp]; [|unfold heap_start; simpl in *; lia].
    apply (segments_end_bound file n um); [|apply EX|simpl; lia]. intros ph [i Hi]%list_elem_of_lookup.
    apply phdrs_lookup in Hi as [-> _]. destruct (phdr_range file Hf (ehdr_phoff file + Z.of_nat i * 56)). lia. }
  apply wp_bind, (wp_create_next_to_user um' b4 s7 file n home lhome this l id); try done; try lia.
  { intros x Hx Hm. apply (Hnew x Hx). by apply Hss. }
  { apply SP. }
  { apply SP. }
  intros s8 U8 [_ (item & process & cwd & OK8 & P8 & Hfr & Hpr & text & D8) K8]. apply wp_ret, HQ.
  assert (keeps (A := KH) (sched_mem this l) (set_vars (vars s8) s4) s8) as K48.
  { rewrite (kp_vars _ _ _ K8). apply (keeps_comp (A := KH) nowhere (sched_mem this l) _ _ s7 s8); [|exact K8|by intros x _ [[]|]].
    apply (keeps_vars _ v2 (set_vars v1 s4) s6). exact K6. }
  split.
  - exact U8.
  - exists item, process, cwd, text. split; [exact OK8|]. split; [exact P8|]. split; [|split; [exact Hpr|]].
    + intros x Hx Hs. apply (Hfr x Hx). by apply (kp_stable _ _ _ K7).
    + by apply (directory_vars v2), (directory_before (A := KH) _ _ _ _ _ _ _ K7).
  - rewrite (kp_vars _ _ _ K8). change (vars s7) with v2. unfold v2. rewrite (kp_vars _ _ _ K6).
    change (vars s5) with v1. unfold v1. rewrite (kp_vars _ _ _ K4). done.
  - apply (keeps_comp (A := KH) (driver (DiskLaws := DL)) (sched_mem this l) _ _ s7 s8); [|exact K8|by intros x _ H].
    by rewrite (kp_vars _ _ _ K8).
  - intros Hum HF. apply (mounted_keeps (A := A1) disk device F fs g GO (sched_mem this l) (set_vars (vars s8) s4)).
    + by apply keeps_no_pages.
    + intros x Hx. split; [intros Hfx; by apply (HF x Hfx)|by apply Hsd].
    + by apply mounted_vars.
Qed.

Lemma submit_new_process_spec b path leading trailing names r home lhome this l id s :
  submit_pre b path leading trailing names r home lhome this l id s →
  wp (Scheduler_submit_new_process home this path)
    (λ res s', res = 0 ∧ submitted b names lhome this l id s s') s.
Proof using GO.
  intros SP. unfold Scheduler_submit_new_process.
  apply (wp_read_program b path leading trailing names r home lhome this l id s); [done|].
  intros contents s4 U4 F4 Hnew K4 M4.
  by apply (wp_from_buffer b path leading trailing names r home lhome this l id s contents s4).
Qed.
End submit.
End load.
