(* ===== verification/Programs.v ===== *)
(** What becomes of a program: the end-to-end properties of the loader.

    For executables whose segments each lie in one page the user memory has the
    contents the ELF header asks for, and the first process starts at its entry
    point; a segment that crosses a page boundary is not loaded but makes the kernel
    fault. *)

From S2P Require Import Prelude Monad Memory Sv48 Machine Layout Samples Stdio PhysAlloc Paging AddressSpace Heap KAlloc Allocator Client Dma UserSpace Process Ext2 Ext2Walk Ext2Mount Ext2Files Loader.

(** The last statements of os_start (kernel/os.cpp). *)
Definition start_program `{BlockDevice} (home this path : Z) : K user_context :=
  Scheduler_submit_new_process home this path;;
  printf (chars "submitted process" ++ newline) [];;
  Scheduler_run_next_process this.

(** Executables whose loadable segments have a page of their own each, which is not
    the stack's. *)
Record simple_executable (file : Z → Z) (size : Z) : Prop := SimpleExecutable {
  se_header : 64 ≤ size < 2 ^ 32;
  se_table : ehdr_phoff file + 56 * ehdr_phnum file ≤ size;
  se_segment : ∀ ph, ph ∈ phdrs file → pt_load ph = true →
    ph_filesz ph ≤ ph_memsz ph ∧ ph_vaddr ph mod 4096 + ph_memsz ph ≤ 4096 ∧
    ph_vaddr ph + ph_memsz ph < 2 ^ 47 - 4096 ∧ ph_offset ph + ph_filesz ph ≤ size ∧
    ph_vaddr ph / 4096 ≠ 256;
  se_pages : NoDup ((λ ph, ph_vaddr ph / 4096) <$> filter (λ ph, pt_load ph = true) (phdrs file))
}.

(** A segment whose bytes reach into the page behind the one it starts in. *)
Definition crosses_page (ph : phdr) : Prop := 4096 < ph_vaddr ph mod 4096 + ph_filesz ph.
Definition second_page (ph : phdr) : Z := 4096 * (ph_vaddr ph / 4096 + 1).

(** * The image of a simple executable *)

Section image.
Context (file : Z → Z).

(** The contents ELF prescribes for an address of the page of [ph]. *)
Definition segment_byte (ph : phdr) (x : Z) : Z :=
  if (ph_vaddr ph <=? x) && (x <? ph_vaddr ph + ph_filesz ph) then file (ph_offset ph + (x - ph_vaddr ph)) else 0.

Definition in_one_page (ph : phdr) : Prop := ph_vaddr ph mod 4096 + ph_filesz ph ≤ 4096.

Lemma place_segment_other um ph x :
  (pt_load ph = true → in_one_page ph ∧ 0 ≤ ph_filesz ph ∧ x / 4096 ≠ ph_vaddr ph / 4096) →
  place_segment file um ph x = um x.
Proof.
  intros H. unfold place_segment. destruct (pt_load ph); [|done]. destruct (H eq_refl) as (H1 & H2 & H3).
  unfold um_write, um_map, in_one_page in *. rewrite (proj2 (Z.eqb_neq _ _) H3).
  destruct (andb _ _) eqn:E; [|done]. apply andb_prop in E as [E1%Z.leb_le E2%Z.ltb_lt]. exfalso. zlia.
Qed.

Lemma place_segment_at um ph x :
  pt_load ph = true → x / 4096 = ph_vaddr ph / 4096 → place_segment file um ph x = Some (segment_byte ph x).
Proof.
  intros Hl Hx. unfold place_segment, um_write, um_map, segment_byte. rewrite Hl, Hx, Z.eqb_refl.
  by destruct (andb _ _).
Qed.

Lemma place_segments_at um l ph x :
  (∀ p, p ∈ l → pt_load p = true → in_one_page p ∧ 0 ≤ ph_filesz p) →
  NoDup ((λ p, ph_vaddr p / 4096) <$> filter (λ p, pt_load p = true) l) →
  ph ∈ l → pt_load ph = true → x / 4096 = ph_vaddr ph / 4096 →
  place_segments file um l x = Some (segment_byte ph x).
Proof.
  intros Hone HN Hin Hl Hx. induction l as [|p l IH] using rev_ind; [by apply elem_of_nil in Hin|].
  rewrite filter_app, fmap_app in HN. apply NoDup_app in HN as (HN & Hdis & _).
  unfold place_segments. rewrite foldl_app. cbn [foldl]. apply elem_of_app in Hin as [Hin|Hin].
  - rewrite place_segment_other; [apply IH; [|done|done]|].
    + intros q Hq. apply Hone, elem_of_app. by left.
    + intros Hp. destruct (Hone p) as [H1 H2]; [apply elem_of_app; right; by left|done|]. split; [done|]. split; [done|].
      rewrite Hx. intros E. apply (Hdis (ph_vaddr ph / 4096)).
      * apply list_elem_of_fmap. exists ph. split; [done|]. by apply list_elem_of_filter.
      * rewrite filter_cons_True by done. rewrite E. by left.
  - apply list_elem_of_singleton in Hin as ->. by apply place_segment_at.
Qed.

Lemma segments_end_ge l d ph : ph ∈ l → pt_load ph = true → ph_vaddr ph + ph_memsz ph ≤ foldl segment_end d l.
Proof.
  revert d. assert (∀ l d, d ≤ foldl segment_end d l) as Hmono.
  { clear. intros l. induction l as [|p l IH]; intros d; cbn [foldl]; [lia|].
    etrans; [|apply IH]. unfold segment_end. destruct (pt_load p); lia. }
  induction l as [|p l IH]; intros d Hin Hl; [by apply elem_of_nil in Hin|]. cbn [foldl].
  apply elem_of_cons in Hin as [->|Hin]; [|by apply IH].
  etrans; [|apply Hmono]. unfold segment_end. rewrite Hl. lia.
Qed.

Context (Hf : ∀ x, 0 ≤ file x < 256) (size : Z) (SE : simple_executable file size).

Lemma header_range ph : ph ∈ phdrs file →
  0 ≤ ph_vaddr ph ∧ 0 ≤ ph_memsz ph ∧ 0 ≤ ph_offset ph ∧ 0 ≤ ph_filesz ph < 2 ^ 64.
Proof using Hf. intros [i Hi]%list_elem_of_lookup. apply phdrs_lookup in Hi as [-> _]. by apply phdr_range. Qed.

Lemma simple_one_page ph : ph ∈ phdrs file → pt_load ph = true → in_one_page ph ∧ 0 ≤ ph_filesz ph.
Proof using Hf SE.
  intros Hin Hl. destruct (se_segment _ _ SE ph Hin Hl) as (H1 & H2 & _).
  pose proof (header_range ph Hin). unfold in_one_page. lia.
Qed.

Lemma simple_segments_ok um l : (∀ ph, ph ∈ l → ph ∈ phdrs file) → segments_ok file size um l.
Proof using Hf SE.
  revert um. induction l as [|ph l IH]; intros um Hsub; [done|]. cbn [segments_ok].
  assert (ph ∈ phdrs file) as Hin by (apply Hsub; by left). split; [|apply IH; intros p Hp; apply Hsub; by right].
  intros Hl. destruct (se_segment _ _ SE ph Hin Hl) as (H1 & H2 & H3 & H4 & _).
  pose proof (header_range ph Hin) as Hr. split; [done|done|]. intros i Hi. unfold um_map.
  assert ((ph_vaddr ph + i) / 4096 = ph_vaddr ph / 4096) as -> by zlia. rewrite Z.eqb_refl. by eexists.
Qed.

Lemma simple_is_executable um : executable file size um.
Proof using Hf SE. split; [apply SE|apply SE|by apply simple_segments_ok]. Qed.

(** What a simple executable finds in memory: the bytes of its segments, zero behind
    them. *)
Lemma simple_image um ph i :
  ph ∈ phdrs file → pt_load ph = true → 0 ≤ i < ph_memsz ph →
  user_image file um (phdrs file) (ph_vaddr ph + i) =
  Some (if i <? ph_filesz ph then file (ph_offset ph + i) else 0).
Proof using Hf SE.
  intros Hin Hl Hi. destruct (se_segment _ _ SE ph Hin Hl) as (H1 & H2 & H3 & H4 & H5).
  pose proof (header_range ph Hin) as Hr. pose proof (segments_end_ge (phdrs file) 0 ph Hin Hl) as He.
  fold (segments_end (phdrs file)) in He.
  assert ((ph_vaddr ph + i) / 4096 = ph_vaddr ph / 4096) as Ep by zlia.
  unfold user_image, um_map at 1 2. rewrite Ep. change (0x100000 / 4096) with 256.
  rewrite (proj2 (Z.eqb_neq _ _) H5).
  assert (ph_vaddr ph / 4096 ≠ heap_start (phdrs file) / 4096) as Hh by (unfold heap_start; zlia).
  rewrite (proj2 (Z.eqb_neq _ _) Hh), (place_segments_at um (phdrs file) ph); [|exact simple_one_page|apply SE|done|done|done].
  unfold segment_byte. f_equal. replace (ph_vaddr ph + i - ph_vaddr ph) with i by lia.
  rewrite (proj2 (Z.leb_le _ _)) by lia. cbn [andb].
  destruct (Z.ltb_spec i (ph_filesz ph)), (Z.ltb_spec (ph_vaddr ph + i) (ph_vaddr ph + ph_filesz ph)); done || lia.
Qed.
End image.

(** * Faults *)

Section fault.
Context {S : Type}.

(** A computation that fails behind a prefix that ends. *)
Lemma fault_after {A B} (m : M S A) (f : A → M S B) (P : A → S → Prop) e s :
  wp m P s → (∀ a s', P a s' → ∃ s2, f a s' = Fault e s2) → ∃ s2, (m ≫= f) s = Fault e s2.
Proof.
  intros W H. destruct (wp_inv _ _ _ W) as (a & s' & E & HP). rewrite (bind_done _ _ _ _ _ E). by apply H.
Qed.

Lemma fault_here {A B} (m : M S A) (f : A → M S B) e s :
  (∃ s2, m s = Fault e s2) → ∃ s2, (m ≫= f) s = Fault e s2.
Proof. intros [s2 E]. exists s2. by apply bind_fault. Qed.
End fault.

(** Objects of the heap in an interface with more memory, and between states that
    differ in output. *)
Lemma process_at_more (A B : Allocator) s p r :
  (∀ x, owned (Allocator := A) s x → owned (Allocator := B) s x) → process_at (A := A) s p r → process_at (A := B) s p r.
Proof. intros Ho [H P1 P2 P3 P4 P5 P6]. split; try done. intros x Hx. apply Ho, H, Hx. Qed.

Lemma scheduled_more (A B : Allocator) s this l id rs :
  (∀ x, owned (Allocator := A) s x → owned (Allocator := B) s x) →
  scheduled (A := A) s this l id rs → scheduled (A := B) s this l id rs.
Proof.
  intros Ho [OK HF HT]. split; [by apply (sched_ok_more A B)| |done].
  eapply Forall2_impl; [exact HF|]. intros x r. by apply process_at_more.
Qed.

Section programs.
Context (N : nat) (root : Z).
#[local] Abbreviation KH := (kernel_heap N root).

(** Copying to user memory stops at the first address that is not mapped. *)
Lemma copy_faults k b um dest src n bad s :
  user_state N root k b um s → 0 ≤ b → 0 ≤ dest → dest ≤ bad < dest + n → bad < 2 ^ 47 → n < 2 ^ 64 →
  (∀ i, dest ≤ i < bad → mapped_in um i) → resolve s bad = None → (∀ i, 0 ≤ i < n → heap_stable s (src + i)) →
  ∃ s', memcpy dest src n s = Fault (PageFault bad) s'.
Proof.
  intros [B V] Hb Hd Hbad Hlow Hn Hmap Hnone Hsrc. unfold memcpy. apply fault_here.
  set (R := mapped_in um) in *. set (A := user_heap N root k R).
  destruct (loop_fails (λ i, if i <? n then c ← load8 (src ⊞ i); store8 (dest ⊞ i) c;; mret (inl (i ⊞ 1)) else mret (inr ()))
    (λ i s', 0 ≤ i ≤ bad - dest ∧ user_budget N root k R b s' ∧ (∀ x, heap_stable s x → heap_stable s' x) ∧
       resolve s' bad = None) (λ i _, n - i) (λ e _, e = PageFault bad) 0 s) as (e & s' & E & ->).
  - intros i s' (Hi & B' & St & Hr). split; [lia|]. rewrite (proj2 (Z.ltb_lt _ _)) by lia.
    assert (budget (Allocator := A) 0 s') as Hz by (apply (budget_0 (A := A) b); [exact B'|done]).
    assert (stable (Allocator := A) s' (src + i)) as Hs by (left; apply St, Hsrc; lia).
    assert (stable (Allocator := A) s' src) as Hs0.
    { left. apply St. pose proof (Hsrc 0 ltac:(lia)) as H. by rewrite Z.add_0_r in H. }
    assert (src ⊞ i = src + i) as Es by (apply (stable_add (A := A) s' src i); done || lia).
    assert (dest ⊞ i = dest + i) as Ed by (simpl in *; rewrite u64_small; lia).
    rewrite Es, Ed. rewrite (bind_done _ _ _ _ _ (stable_load (Allocator := A) s' (src + i) Hz Hs)).
    destruct (decide (i = bad - dest)) as [->|Hne].
    + right. replace (dest + (bad - dest)) with bad by lia. exists (PageFault bad), s'. split; [|done].
      apply bind_fault. unfold store8. by rewrite Hr.
    + left. destruct (user_owned_store N root k R b s' B' (dest + i) (vbyte s' (src + i)))
        as (s2 & E2 & B2 & _ & _ & S2 & _ & M2 & R2); [right; apply Hmap; lia|].
      rewrite (bind_done _ _ _ _ _ E2). exists (i ⊞ 1), s2. split; [done|].
      rewrite u64_small by (simpl in *; lia). split; [|lia]. split_and!; [lia|lia|exact B2| |by rewrite R2].
      intros x Hx%St. destruct (only_mem_fields _ _ M2) as (_ & _ & _ & _ & El & _).
      destruct (only_mem_frames _ _ M2) as [Eb _].
      unfold heap_stable, static in *. by rewrite El, Eb.
  - split_and!; try done; lia.
  - lia.
  - by exists s'.
Qed.

(** C33: a segment whose file contents cross a page boundary is not loaded: the loop
    over its pages maps the first page again and again, since the address never
    advances, and the copy faults at the start of the second page. *)
Theorem multi_page_segment_faults file size contents a k b um s d :
  let ph := phdr_at file a in
  (∀ x, 0 ≤ file x < 256) → 0 ≤ a → a + 56 ≤ size → file_at N root file size contents s →
  user_state N root (k + segment_frames ph) b um s → 0 ≤ b → pt_load ph = true → crosses_page ph →
  ph_filesz ph ≤ ph_memsz ph → ph_vaddr ph + ph_memsz ph < 2 ^ 47 - 4096 → ph_offset ph + ph_filesz ph ≤ size →
  resolve s (second_page ph) = None →
  ∃ s', load_segment contents (contents ⊞ a) d s = Fault (PageFault (second_page ph)) s'.
Proof.
  intros ph Hf Ha Hs F U Hb Hl Hc Hfm Hend Hfs Hnone.
  destruct (phdr_range file Hf a) as (R1 & R2 & R3 & R4). fold ph in R1, R2, R3, R4.
  unfold load_segment, p_type.
  apply (fault_after _ _ (λ t s', t = ph_type ph ∧ s' = s)); [apply (wp_file N root file size contents 4 (k + segment_frames ph) b um s a); done || lia|].
  intros t s0 [-> ->]. unfold pt_load in Hl. rewrite Hl. cbn [negb]. unfold segment_frames, pt_load in U. rewrite Hl in U.
  set (n := Z.to_nat (ph_memsz ph / 4096)).
  assert (Z.to_nat (ph_memsz ph / 4096 + 1) = S n) as En by (subst n; zlia). rewrite En in U.
  apply (fault_after _ _ (λ v s', v = ph_memsz ph ∧ s' = s)); [apply (wp_field N root file size contents 8 _ b um s a 40 _ U F); done || lia|].
  intros v s0 [-> ->].
  apply (fault_after _ _ (λ v s', v = ph_vaddr ph ∧ s' = s)); [apply (wp_field N root file size contents 8 _ b um s a 16 _ U F); done || lia|].
  intros v s0 [-> ->]. cbv zeta.
  destruct (page_base (ph_vaddr ph)) as (E1 & E2 & E3 & E4); [simpl in *; lia|]. rewrite E1.
  replace (ph_memsz ph / PAGE_SIZE + 1) with (Z.of_nat (S n)) by (unfold PAGE_SIZE; subst n; zlia).
  unfold crosses_page, second_page in *.
  apply (fault_after _ _ (λ _ s', user_state N root k b (um_map (ph_vaddr ph) um) s' ∧
    keeps (A := KH) nowhere s s' ∧ resolve s' (4096 * (ph_vaddr ph / 4096 + 1)) = None)).
  { apply (wp_map_pages N root k n b um _ s _ U); [simpl in *; lia|simpl in *; zlia|].
    intros s' U' K O. split; [|split; [done|]].
    - apply (user_state_ext N root _ _ (um_map (ph_vaddr ph - ph_vaddr ph mod 4096) um)); [|done].
      intros x. unfold um_map. by rewrite E4.
    - rewrite O, Hnone; [done|simpl in *; zlia|]. unfold page_of. zlia. }
  intros [] s1 (U1 & K1 & N1).
  assert (file_at N root file size contents s1) as F1
    by (apply (file_keeps N root file size contents nowhere s); [done|by intros ? ? []|done]).
  apply (fault_after _ _ (λ v s', v = ph_offset ph ∧ s' = s1)); [apply (wp_field N root file size contents 8 _ b _ s1 a 8 _ U1 F1); done || lia|].
  intros v s0 [-> ->].
  apply (fault_after _ _ (λ v s', v = ph_filesz ph ∧ s' = s1)); [apply (wp_field N root file size contents 8 _ b _ s1 a 32 _ U1 F1); done || lia|].
  intros v s0 [-> ->]. apply fault_here. rewrite E2.
  apply (copy_faults k b (um_map (ph_vaddr ph) um)); try done; [zlia|simpl in *; zlia|apply R4| |].
  - intros i Hi. unfold mapped_in, um_map. rewrite (proj2 (Z.eqb_eq _ _)) by zlia. by eexists.
  - intros i Hi. destruct (F1 (ph_offset ph)) as [S1 _]; [lia|]. destruct (F1 0) as [S0 _]; [lia|].
    rewrite Z.add_0_r in S0. pose proof U1 as [(HB & _) _].
    assert (budget (Allocator := KH) 0 s1) as Hz by (apply (budget_0 (A := KH) b); [exact HB|done]).
    rewrite (stable_add (A := KH) s1 contents (ph_offset ph) Hz S0) by done. rewrite <- Z.add_assoc. apply F1. lia.
Qed.

Section start.
Context `{D : BlockDevice} (disk : Z → Z) (device : Z) (k : nat) (um : umem).
#[local] Abbreviation A1 := (user_heap N root k (mapped_in um)).
Context {DL : DiskLaws (A := A1) disk device}.
Context (F : Z → Prop) (fs : Z) (g : geometry) (GO : geometry_ok g).
#[local] Abbreviation file names := (file_of disk g names).

(** C7: submit_new_process loads a simple executable: it returns 0, and every byte of
    every loadable segment is in user memory at its virtual address, the bytes the
    file does not hold being zero. *)
Theorem simple_executable_loaded b path leading trailing names r home lhome this l id s :
  submit_pre N root disk device k um F fs g (DL := DL) b path leading trailing names r home lhome this l id s →
  simple_executable (file names) (file_size_of disk g names) →
  ∃ s', Scheduler_submit_new_process home this path s = Done 0 s' ∧
    ∀ ph i, ph ∈ phdrs (file names) → pt_load ph = true → 0 ≤ i < ph_memsz ph →
      vbyte s' (ph_vaddr ph + i) = if i <? ph_filesz ph then file names (ph_offset ph + i) else 0.
Proof using GO.
  intros SP SE.
  destruct (wp_inv _ _ _ (submit_new_process_spec N root disk device k um F fs g GO b path leading trailing names r
    home lhome this l id s SP)) as (res & s' & E & -> & SB).
  exists s'. split; [done|]. intros ph i Hin Hl Hi. destruct SB as [U _ _ _ _].
  apply (us_value _ _ _ _ _ _ U).
  apply (simple_image _ (file_of_range N root disk device k um g (DL := DL) names) (file_size_of disk g names)); done.
Qed.

(** run_next_process next to user pages: it leaves them alone. *)
Lemma wp_run_first um' b s this item process id r (Q : user_context → kstate → Prop) :
  user_state N root 0 b um' s → 0 ≤ b → scheduled (A := KH) s this [(item, process)] id [r] → pcb_state r = READY →
  0 ≤ process < 2 ^ 64 →
  (∀ s', user_state N root 0 b um' s' → vload 8 s' this = process →
     scheduled (A := KH) s' this [(item, process)] id [r] → keeps (A := KH) (range this 8) s s' → Q (UserContext (pcb_entry r) (pcb_stack r) (pcb_heap r)) s') →
  wp (Scheduler_run_next_process this) Q s.
Proof using Type.
  intros [B V] Hb SC Hr Hp HQ. pose proof B as (HB & _ & _).
  set (A2 := user_heap N root 0 (mapped_in um')).
  pose proof (scheduled_more KH A2 s this _ id [r] (λ x H, or_introl H) SC) as SC2.
  assert (∀ i r', (i < 0)%nat → [r] !! i = Some r' → pcb_state r' ≠ READY) as Hbefore by (intros i r' Hi; lia).
  destruct (wp_inv _ _ _ (run_next_process_spec (A := KH) b s this [(item, process)] id [r] 0 (item, process) r
    HB Hb SC eq_refl eq_refl Hr Hbefore ltac:(done) Hp)) as (c & s1 & E1 & -> & H1 & K1 & SC1 & _).
  destruct (wp_inv _ _ _ (run_next_process_spec (A := A2) b s this [(item, process)] id [r] 0 (item, process) r
    B Hb SC2 eq_refl eq_refl Hr Hbefore ltac:(done) Hp)) as (c & s2 & E2 & -> & _ & K2 & _ & B2).
  rewrite E1 in E2. injection E2 as <-. eapply wp_done; [exact E1|]. apply HQ; [|done|done|done].
  split; [exact B2|]. intros x v Hx. rewrite <- (V x v Hx). apply (kp_byte _ _ _ K2); [right; by exists v|].
  intros Ht. assert (heap_owned s x) as Ho.
  { apply (so_this _ _ _ _ (sc_ok _ _ _ _ _ SC)). unfold range in *. lia. }
  destruct (heap_stable_low N root 0 (mapped_in um') b s x B (or_intror Ho)) as [_ Hn]. apply Hn. by exists v.
Qed.

(** The first process, entered. *)
Record started (b : Z) (names : list (list Z)) (lhome : list Z) (this id : Z) (s s' : kstate) (process path text : Z) : Prop :=
  Started {
  sd_image : user_state N root 0 (b - read_program_cost N root disk device k um g (DL := DL) names - create_cost (length lhome))
    (user_image (file names) um (phdrs (file names))) s';
  sd_current : vload 8 s' this = process;
  sd_process : process_at (A := KH) s' process
    (Pcb id READY path (0x100000 + 4000) (heap_start (phdrs (file names))) (ehdr_entry (file names)));
  sd_new : ∀ x, range process 48 x → ¬ heap_stable s x;
  sd_directory : directory (A := KH) path text (started_in lhome) s s';
  sd_vars : vars s' = set_sstatus (Z.land (Z.lor (Z.shiftl 1 18) (sstatus (vars s))) (u64 (Z.lnot (Z.shiftl 1 8)))) (vars s);
  sd_keeps : keeps (A := KH) (λ x, driver (DiskLaws := DL) x ∨ range this 24 x) (set_vars (vars s') s) s';
  sd_mounted : (∀ x, ¬ mapped_in um x) → (∀ x, F x → ¬ range this 24 x) → mounted (A := A1) disk device F fs g s'
}.

Lemma wp_start_program b path leading trailing names r home lhome this id s (Q : user_context → kstate → Prop) :
  submit_pre N root disk device k um F fs g (DL := DL) b path leading trailing names r home lhome this [] id s →
  (∀ s' process dir text, started b names lhome this id s s' process dir text →
     Q (UserContext (ehdr_entry (file names)) (0x100000 + 4000) (heap_start (phdrs (file names)))) s') →
  wp (start_program home this path) Q s.
Proof using GO.
  intros SP HQ. pose proof SP as [_ _ _ _ _ OK _ Hdr _ _ _ _ Hb]. unfold start_program. apply wp_bind.
  eapply wp_mono; [by apply (submit_new_process_spec N root disk device k um F fs g GO b path leading trailing names r home lhome this [] id s)|].
  intros res s1 (_ & [U1 (item & process & cwd & text & OK1 & P1 & Hnew & Hp & D1) V1 K1 M1]). cbn [app] in OK1.
  apply wp_bind, wp_printf; [done|]. intros o. set (um' := user_image _ _ _) in *.
  assert (∀ x, sched_mem this [] x → range this 24 x) as Hsm by (intros x [Hx|(y & Hy & _)]; [done|by apply elem_of_nil in Hy]).
  assert (scheduled (A := KH) (emit o s1) this [(item, process)] (u64 (id + 1)) [Pcb id READY cwd (0x100000 + 4000)
    (heap_start (phdrs (file names))) (ehdr_entry (file names))]) as SC.
  { apply (scheduled_keeps (A := KH) nowhere s1); [apply keeps_emit|by intros ? []|]. split; [exact OK1| |].
    - constructor; [exact P1|constructor].
    - intros x ->%list_elem_of_singleton y Hy Ht. apply (Hnew y Hy).
      right. by apply (so_this _ _ _ _ OK). }
  assert (∀ x, range this 8 x → heap_stable s x ∧ range this 24 x) as Hthis.
  { intros x Hx. assert (range this 24 x) by (unfold range in *; lia). split; [|done].
    right. by apply (so_this _ _ _ _ OK). }
  eapply (wp_run_first um'); [by apply (user_state_same N root _ _ _ s1)|lia|exact SC|done|done|].
  intros s2 U2 Hc SC2 K2. pose proof (keeps_trans (A := KH) _ _ _ _ (keeps_emit (range this 8) o s1) K2) as K12.
  apply (HQ s2 process cwd text). split; [done|done| |done| | | |].
  - destruct SC2 as [_ HF _]. by apply Forall2_cons in HF as [P2 _].
  - apply (directory_keeps (A := KH) _ _ _ _ _ _ _ K12); [|done]. intros x Hx Hr.
    by apply (dy_new _ _ _ _ _ D1 x Hx), Hthis.
  - by rewrite (kp_vars _ _ _ K12).
  - rewrite (kp_vars _ _ _ K12). apply (keeps_comp (A := KH) _ _ _ _ s1 s2 K1 K12).
    intros x _ [[Hd|Hs]|Hr]; [by left|right; by apply Hsm|right; by apply Hthis].
  - intros Hum HF. apply (mounted_keeps (A := A1) disk device F fs g GO (range this 8) s1).
    + by apply (keeps_no_pages N root).
    + intros x Hx. destruct (Hthis x Hx) as [_ Hx']. split; [intros Hf; by apply (HF x Hf)|].
      intros Hd. destruct (Hdr x Hd) as (_ & H & _). apply H. by left.
    + apply M1; [done|]. intros x Hf Hs. by apply (HF x Hf), Hsm.
Qed.

(** C8: on a scheduler without processes the end of os_start enters user space at the
    entry address of the executable, with the stack pointer 4000 bytes into the stack
    page and the address behind the segments as heap, in the user memory the program
    headers describe; the process is recorded as the current one. *)
Theorem first_process_starts b path leading trailing names r home lhome this id s :
  submit_pre N root disk device k um F fs g (DL := DL) b path leading trailing names r home lhome this [] id s →
  ∃ process s', start_program home this path s =
      Done (UserContext (ehdr_entry (file names)) (0x100000 + 4000) (heap_start (phdrs (file names)))) s' ∧
    vload 8 s' this = process ∧ process_at (A := KH) s' process
      (Pcb id READY (vload 8 s' (process + 16)) (0x100000 + 4000) (heap_start (phdrs (file names))) (ehdr_entry (file names))) ∧
    ∀ x v, user_image (file names) um (phdrs (file names)) x = Some v → vbyte s' x = v.
Proof using GO.
  intros SP.
  assert (wp (start_program home this path)
    (λ c s', c = UserContext (ehdr_entry (file names)) (0x100000 + 4000) (heap_start (phdrs (file names))) ∧
      ∃ process dir text, started b names lhome this id s s' process dir text) s) as W.
  { apply (wp_start_program b path leading trailing names r home lhome this id s); [exact SP|].
    intros s' process dir text SD. split; [done|]. by exists process, dir, text. }
  destruct (wp_inv _ _ _ W) as (c & s' & E & -> & process & dir & text & SD).
  exists process, s'. destruct SD as [U2 Hc P2 _ _ _ _ _]. split; [done|]. split; [done|]. split.
  - pose proof (pa_cwd _ _ _ P2) as Ec. cbn [pcb_cwd] in Ec. by rewrite Ec.
  - apply U2.
Qed.
End start.
End programs.
