(* ===== verification/ProgramsSample.v ===== *)
(** A small executable on a disk in memory, and one whose segment crosses a page: the
    concrete inputs for the properties of Programs.v. *)

From S2P Require Import Prelude Monad Memory Sv48 Machine Layout Samples Stdio PhysAlloc Paging AddressSpace Heap KAlloc Allocator Client Dma UserSpace Process Ext2 Ext2Walk Ext2Mount Ext2Files Loader Programs.

(** The ELF file: one segment of 8 bytes, 16 in memory, at 0x10078. *)
Definition elf_bytes : list Z :=
  [0x7F; 69; 76; 70] ++ repeat 0 12 ++ le 2 2 ++ le 2 243 ++ le 4 1 ++ le 8 0x10078 ++ le 8 64 ++ le 8 0 ++
  le 4 0 ++ le 2 64 ++ le 2 56 ++ le 2 1 ++ le 2 0 ++ le 2 0 ++ le 2 0 ++
  le 4 1 ++ le 4 5 ++ le 8 120 ++ le 8 0x10078 ++ le 8 0x10078 ++ le 8 8 ++ le 8 16 ++ le 8 4096 ++
  [0x13; 0; 0; 0; 0x6F; 0; 0; 0].

(** The image of Ext2Mount.v with this file at /a.txt. *)
Definition elf_image : gmap Z Z :=
  list_to_map (place (10240 + 256 * 11 + 4) (le 4 128) ++ place 18432 elf_bytes) ∪ image.
Definition elf_disk (x : Z) : Z := u8 (default 0 (elf_image !! x)).

Lemma elf_disk_byte x : 0 ≤ elf_disk x < 256.
Proof. apply u8_range. Qed.
Lemma elf_disk_ok : disk_ok elf_disk.
Proof. split; [by vm_compute|by vm_compute|by vm_compute]. Qed.

Definition no_pages : umem := λ _, None.
Definition a_txt_path : list Z := path_text true false [a_txt].
Definition home_path : list Z := chars "/home/user/".

#[local] Abbreviation KH := (kernel_heap 64 0x80208000).
#[local] Abbreviation UH k := (user_heap 64 0x80208000 k (mapped_in no_pages)).
#[local] Abbreviation MD := (memory_read elf_disk).
#[local] Abbreviation ML k := (memory_laws (A := UH k) elf_disk elf_disk_byte 0).
#[local] Abbreviation geo := (disk_geometry elf_disk).

Lemma no_pages_mapped x : ¬ mapped_in no_pages x.
Proof. by intros [v [=]]. Qed.

Lemma heap0_user b : 0 ≤ b ≤ 16384 → user_budget 64 0x80208000 4 (mapped_in no_pages) b heap0.
Proof.
  intros Hb. apply (user_budget_ext _ _ _ (λ _, False)).
  { intros x. split; [done|]. apply no_pages_mapped. }
  apply user_none; [by apply heap0_budget|]. rewrite heap0_free, heap0_pages. zlia.
Qed.

Lemma geo_ok : geometry_ok geo.
Proof. apply (disk_geometry_ok (A := UH 4) (D := MD) elf_disk 0 (DL := ML 4)), elf_disk_ok. Qed.

(** The interface with another page budget is the same memory. *)
Lemma mounted_pages F this s :
  mounted (A := UH 4) (D := MD) elf_disk 0 (DL := ML 4) F this geo s →
  mounted (A := UH 3) (D := MD) elf_disk 0 (DL := ML 3) F this geo s.
Proof. intros [[E1 E2 E3 E4 E5 E6] R Ap]. split; [by split|done|by intros x _ []]. Qed.

Lemma elf_mounted :
  ∃ s this F, budget (Allocator := UH 4) 15500 s ∧ ext2_instance (vars s) = this ∧
    mounted (A := UH 4) (D := MD) elf_disk 0 (DL := ML 4) F this geo s.
Proof.
  destruct (kalloc_fresh (A := UH 4) 16384 32 heap0) as (this & s & _ & Hb & Fr);
    [apply heap0_user; lia|lia|lia|].
  assert (objects (A := UH 4) (D := MD) elf_disk 0 (DL := ML 4) s [(this, 32)]) as OB.
  { split.
    - intros [|j] o; [|done]. intros [= <-]. exact (fr_owned _ _ _ _ Fr).
    - by intros [|i] [|j].
    - by intros j o x _ _ []. }
  destruct (wp_inv _ _ _ (EXT2_ctor_spec (A := UH 4) (D := MD) (DL := ML 4) elf_disk 0 this _ s Hb I OB
    ltac:(lia) elf_disk_ok ltac:(by vm_compute))) as ([] & s' & _ & F & M & Ei & Hb').
  exists s', this, F. split; [|by split]. apply (budget_weaken _ _ _ Hb'). by vm_compute.
Qed.

(** What the program is started with: the two strings and a scheduler without
    processes, in a state with the file system mounted. *)
Record elf_ready (s : kstate) (fs : Z) (F : Z → Prop) (path home this : Z) : Prop := ElfReady {
  er_budget : budget (Allocator := UH 4) 15000 s;
  er_instance : ext2_instance (vars s) = fs;
  er_mounted : mounted (A := UH 4) (D := MD) elf_disk 0 (DL := ML 4) F fs geo s;
  er_path : cstr (A := UH 4) s path a_txt_path;
  er_home : cstr (A := UH 4) s home home_path;
  er_sched : sched_ok (A := UH 4) s this [] 0;
  er_apart : ∀ x, range home 12 x → ¬ range this 24 x
}.

(** They are made in new memory. *)
Lemma elf_objects b s fs F :
  budget (Allocator := UH 4) b s → 15300 ≤ b → ext2_instance (vars s) = fs →
  mounted (A := UH 4) (D := MD) elf_disk 0 (DL := ML 4) F fs geo s →
  ∃ s' path home this, elf_ready s' fs F path home this ∧ keeps (A := UH 4) nowhere s s' ∧
    ∀ x, range this 24 x → ¬ stable (Allocator := UH 4) s x.
Proof.
  intros Hb Hle Ei M.
  destruct (make_cstr (A := UH 4) b s a_txt_path Hb) as (path & s1 & Hb1 & C1 & K1 & _);
    [cbn; lia|by repeat constructor|].
  destruct (make_cstr (A := UH 4) _ s1 home_path Hb1) as (home & s2 & Hb2 & C2 & K2 & Ho2 & Hn2);
    [cbn; lia|by repeat constructor|].
  assert (wp (new_zeroed 24) (λ this s3, budget (Allocator := UH 4) 15000 s3 ∧ keeps (A := UH 4) nowhere s2 s3 ∧
    sched_ok (A := UH 4) s3 this [] 0 ∧ ∀ x, range this 24 x → ¬ stable (Allocator := UH 4) s2 x) s2) as W.
  { apply (wp_new_zeroed (A := UH 4) _ _ _ _ Hb2); [cbn; lia|].
    intros this s3 Hb3 F3 Z3. split_and!; [|exact (fr_keeps _ _ _ _ F3)| |exact (fr_new _ _ _ _ F3)].
    - apply (budget_weaken _ _ _ Hb3). cbn. lia.
    - split; [exact (fr_owned _ _ _ _ F3)| | |done|by intros x ?%elem_of_nil].
      + cbn [linked]. apply vload_zero. intros x Hx. apply Z3. unfold range in *. lia.
      + apply vload_zero. intros x Hx. apply Z3. unfold range in *. lia. }
  destruct (wp_inv _ _ _ W) as (this & s3 & _ & Hb3 & K3 & OK3 & Hnew).
  pose proof (keeps_trans _ _ _ _ K1 K2) as K12. pose proof (keeps_trans _ _ _ _ K12 K3) as K13.
  exists s3, path, home, this. split; [split|split; [exact K13|]].
  - exact Hb3.
  - by rewrite (kp_vars _ _ _ K13).
  - apply (mounted_keeps (A := UH 4) (D := MD) elf_disk 0 (DL := ML 4) F fs _ geo_ok nowhere s s3 K13); [by intros ? []|done].
  - apply (cstr_keeps _ _ _ _ _ K3); [apply (cstr_keeps _ _ _ _ _ K2 C1)|]; by intros ? ? [].
  - apply (cstr_keeps _ _ _ _ _ K3 C2). by intros ? ? [].
  - exact OK3.
  - intros x Hx Ht. apply (Hnew x Ht), owned_stable, Ho2. exact Hx.
  - intros x Hx Hs. by apply (Hnew x Hx), (kp_stable _ _ _ K12).
Qed.

Lemma a_txt_component : Forall component [a_txt].
Proof.
  repeat constructor; [done|apply (bool_decide_unpack _); by vm_compute|apply (bool_decide_unpack _); by vm_compute].
Qed.

(** The bytes of the file, as the file system delivers them. *)
#[local] Abbreviation elf := (file_of elf_disk geo [a_txt]).
#[local] Abbreviation elf_size := (file_size_of elf_disk geo [a_txt]).

Lemma elf_phdrs : phdrs elf = [Phdr 1 120 0x10078 8 16].
Proof. by vm_compute. Qed.
Lemma elf_size_value : elf_size = 128.
Proof. by vm_compute. Qed.

Lemma elf_simple : simple_executable elf elf_size.
Proof.
  rewrite elf_size_value. split.
  - simpl. lia.
  - assert (ehdr_phoff elf + 56 * ehdr_phnum elf = 120) as -> by (by vm_compute). lia.
  - rewrite elf_phdrs. intros ph ->%list_elem_of_singleton _. cbn -[Z.pow Z.div Z.modulo].
    change (0x10078 mod 4096) with 120. change (0x10078 / 4096) with 16. simpl. lia.
  - rewrite elf_phdrs. cbn. apply NoDup_singleton.
Qed.

Lemma elf_ready_submit s fs F path home this : elf_ready s fs F path home this →
  submit_pre 64 0x80208000 (D := MD) elf_disk 0 3 no_pages (DL := ML 3) F fs geo 15000
    path true false [a_txt] (Some 13056) home home_path this [] 0 s.
Proof.
  intros [Hb Ei M C1 C2 OK Hap].
  assert (∀ x, user_stable (mapped_in no_pages) s x → heap_stable s x) as Hs.
  { intros x [Hx|Hx]; [done|by apply no_pages_mapped in Hx]. }
  split.
  - split; [exact Hb|done].
  - by apply mounted_pages.
  - done.
  - by apply (cstr_more (UH 4) (UH 3)).
  - by apply (cstr_more (UH 4) KH).
  - apply (sched_ok_more (UH 4) KH); [|done]. intros x [Hx|Hx]; [done|by apply no_pages_mapped in Hx].
  - split; [done|]. split; [exact a_txt_component|by vm_compute].
  - by intros x [].
  - exact Hap.
  - done.
  - apply simple_is_executable; [intros x; apply elf_disk_byte|exact elf_simple].
  - by rewrite elf_phdrs.
  - by vm_compute.
Qed.

Lemma elf_submit :
  ∃ s F fs path home this, submit_pre 64 0x80208000 (D := MD) elf_disk 0 3 no_pages (DL := ML 3) F fs geo 15000
    path true false [a_txt] (Some 13056) home home_path this [] 0 s.
Proof.
  destruct elf_mounted as (s & fs & F & Hb & Ei & M).
  destruct (elf_objects 15500 s fs F Hb ltac:(lia) Ei M) as (s' & path & home & this & ER & _).
  exists s', F, fs, path, home, this. by apply elf_ready_submit.
Qed.

Lemma simple_executable_loaded_witness :
  ∃ s home this path s', Scheduler_submit_new_process (H := MD) home this path s = Done 0 s' ∧
    vbyte s' 0x10078 = 0x13 ∧ vbyte s' 0x1007C = 0x6F ∧ vbyte s' 0x10080 = 0.
Proof.
  destruct elf_submit as (s & F & fs & path & home & this & SP). exists s, home, this, path.
  destruct (simple_executable_loaded 64 0x80208000 (D := MD) elf_disk 0 3 no_pages (DL := ML 3) F fs geo geo_ok 15000
    path true false [a_txt] (Some 13056) home home_path this [] 0 s SP elf_simple) as (s' & E & V).
  exists s'. split; [exact E|]. rewrite elf_phdrs in V.
  pose proof (λ i, V (Phdr 1 120 0x10078 8 16) i ltac:(by left) eq_refl) as V'. cbn [ph_vaddr ph_memsz ph_filesz ph_offset] in V'.
  split_and!.
  - change 0x10078 with (0x10078 + 0). rewrite (V' 0 ltac:(lia)). by vm_compute.
  - change 0x1007C with (0x10078 + 4). rewrite (V' 4 ltac:(lia)). by vm_compute.
  - change 0x10080 with (0x10078 + 8). rewrite (V' 8 ltac:(lia)). by vm_compute.
Defined.

Lemma first_process_starts_witness :
  ∃ s home this path s', start_program (H := MD) home this path s =
    Done (UserContext 0x10078 0x100FA0 0x11000) s' ∧ vbyte s' 0x10078 = 0x13 ∧ vbyte s' 0x11000 = 0.
Proof.
  destruct elf_submit as (s & F & fs & path & home & this & SP). exists s, home, this, path.
  destruct (first_process_starts 64 0x80208000 (D := MD) elf_disk 0 3 no_pages (DL := ML 3) F fs geo geo_ok 15000
    path true false [a_txt] (Some 13056) home home_path this 0 s SP) as (process & s' & E & _ & _ & V).
  exists s'. split; [|split].
  - rewrite E. by vm_compute.
  - apply V. by vm_compute.
  - apply V. by vm_compute.
Defined.

(** * A segment of 8 bytes from 0x10FFC on *)

(** An equality on an interval, by evaluation. *)
Lemma bytes_equal f g n :
  forallb (λ i, f i =? g i) (zseq 0 (Z.to_nat n)) = true → ∀ i, 0 ≤ i < n → f i = g i.
Proof.
  intros H i Hi. rewrite forallb_forall in H. apply Z.eqb_eq, H, list_elem_of_In, elem_of_zseq. lia.
Qed.

Definition bad_bytes : list Z :=
  le 4 1 ++ le 4 5 ++ le 8 56 ++ le 8 0x10FFC ++ le 8 0x10FFC ++ le 8 8 ++ le 8 8 ++ le 8 4096 ++
  [1; 2; 3; 4; 5; 6; 7; 8].
Definition bad_file (x : Z) : Z := u8 (default 0 (bad_bytes !! Z.to_nat x)).

(** In the image, at 1 MiB. *)
Definition bad_mem : mem :=
  list_to_map (place 0x80100000 bad_bytes) ∪ pmem heap0.
Definition bad_state : kstate := set_pmem bad_mem heap0.
Definition bad_contents : Z := VIRTUAL_OFFSET + 0x80100000.

Lemma bad_agree : agree (λ a, ¬ 0 ≤ a < flags_base heap0) (pmem heap0) bad_mem.
Proof.
  intros a Ha. unfold rd8, bad_mem. rewrite lookup_union_r; [done|]. apply not_elem_of_list_to_map_1.
  intros Hin. apply Ha. clear -Hin. assert (0x80100000 ≤ a < 0x80100040) as H.
  { apply list_elem_of_fmap in Hin as (y & -> & Hy). unfold place in Hy. destruct y as [y z].
    apply elem_of_zip_l in Hy. apply elem_of_zseq in Hy. cbn in *. lia. }
  assert (flags_base heap0 = 0x80200000) as -> by (by vm_compute). lia.
Qed.

Lemma bad_user : user_state 64 0x80208000 3 16000 no_pages bad_state.
Proof.
  split; [|done]. pose proof (heap0_user 16000 ltac:(lia)) as B.
  apply (user_budget_fewer 64 0x80208000 4 3); [lia|].
  apply (user_loose_budget 64 0x80208000 4 _ 16000 heap0 B bad_mem).
  - eapply agree_mono; [|exact bad_agree]. intros a Hn Ha. by apply Hn, (low_loose 64 0x80208000 16000 heap0 (proj1 B)).
  - apply bytes_equal. by vm_compute.
Qed.

Lemma bad_file_at : file_at 64 0x80208000 bad_file 64 bad_contents bad_state.
Proof.
  intros i Hi. split.
  - left. unfold static, bad_contents. assert (flags_base bad_state = 0x80200000) as -> by (by vm_compute).
    lia.
  - revert i Hi. apply (bytes_equal (λ i, vbyte bad_state (bad_contents + i)) (λ i, bad_file (0 + i))). by vm_compute.
Qed.

Lemma multi_page_segment_faults_witness :
  ∃ s', load_segment bad_contents (bad_contents ⊞ 0) 0 bad_state = Fault (PageFault 0x11000) s'.
Proof.
  apply (multi_page_segment_faults 64 0x80208000 bad_file 64 bad_contents 0 2 16000 no_pages bad_state 0).
  - intros x. apply u8_range.
  - lia.
  - lia.
  - exact bad_file_at.
  - exact bad_user.
  - lia.
  - by vm_compute.
  - by vm_compute.
  - by vm_compute.
  - by vm_compute.
  - by vm_compute.
  - by vm_compute.
Defined.
