(* ===== verification/Vfs.v ===== *)
(** The virtual file system: kernel/vfs.{h,cpp}.

    The class keeps a counter of descriptors; open_file walks the path, takes a
    descriptor and then returns 3.  Proved over the interfaces of the heap and of the
    block driver, like the file system below it. *)

From S2P Require Import Prelude Monad Memory Sv48 Machine Layout Stdio Heap KAlloc Allocator Client Ext2 Ext2Walk Ext2Mount Ext2Files.

(** class VFS: open_files[10] at 0, next_descriptor at 80, fs at 88. *)
Definition sizeof_VFS : Z := 96.

(** The member initialiser of next_descriptor and the body of the constructor. *)
Definition VFS_ctor (this : Z) : K () :=
  store64 (this ⊞ 80) 3;;
  store64 (this ⊞ 80) 3;;
  modify (λ s, set_vars (set_vfs_instance this (vars s)) s).

Definition VFS_get_instance : K Z := gets (λ s, vfs_instance (vars s)).

Definition VFS_get_next_descriptor (this : Z) : K Z :=
  d ← load64 (this ⊞ 80);
  store64 (this ⊞ 80) (d ⊞ 1);;
  mret (s32 d).

Definition VFS_open_file `{BlockDevice} (this file_name : Z) : K Z :=
  ext2 ← EXT2_get_instance;
  inode ← new_zeroed sizeof_EXT2Inode;
  EXT2_get_root_inode ext2 inode;;
  EXT2_get_inode_from_dir ext2 inode file_name;;
  _ ← VFS_get_next_descriptor this;
  mret 3.

Section vfs.
Context `{A : Allocator}.

(** The object [this], registered, with [n] as the next descriptor. *)
Record vfs_at (s : kstate) (this n : Z) : Prop := VfsAt {
  va_object : owned_range s this sizeof_VFS;
  va_next : vload 8 s (this + 80) = n;
  va_instance : vfs_instance (vars s) = this
}.

Definition counter_of (this : Z) : Z → Prop := range (this + 80) 8.

Lemma vfs_at_vars v s this n : vfs_instance v = vfs_instance (vars s) → vfs_at s this n → vfs_at (set_vars v s) this n.
Proof.
  pose proof (same_mem_vars v s) as SM. intros Ev [O N I]. split; [|rewrite <- N|by cbn; rewrite Ev].
  - intros x Hx. rewrite <- (owned_proper _ _ SM x x eq_refl). by apply O.
  - apply vload_ext. intros i _. symmetry. by apply vbyte_proper.
Qed.

Lemma vfs_at_keeps P s s' this n :
  keeps P s s' → (∀ x, range this sizeof_VFS x → ¬ P x) → vfs_at s this n → vfs_at s' this n.
Proof.
  intros K HP [O N I]. split.
  - by apply (owned_range_keeps P s).
  - rewrite <- N. apply (vload_keeps 8 P s s' _ K). intros x Hx.
    assert (range this sizeof_VFS x) as Hr by (unfold range, sizeof_VFS in *; lia).
    split; [by apply owned_stable, O|by apply HP].
  - by rewrite (kp_vars _ _ _ K).
Qed.

(** [new VFS()] as os_start calls it. *)
Lemma wp_new_vfs b s (Q : Z → kstate → Prop) :
  budget b s → 112 ≤ b →
  (∀ this s', budget (b - 112) s' → vfs_at s' this 3 →
     keeps nowhere (set_vars (set_vfs_instance this (vars s)) s) s' →
     (∀ x, range this sizeof_VFS x → ¬ stable s x) → Q this s') →
  wp (vfs ← operator_new sizeof_VFS; VFS_ctor vfs;; mret vfs) Q s.
Proof.
  intros Hb Hle HQ. unfold operator_new. apply wp_bind, (wp_kalloc b); [done|done|unfold sizeof_VFS; lia|].
  intros p s1 Hb1 F1. unfold sizeof_VFS in *. replace (b - 96 - 16) with (b - 112) in Hb1 by lia.
  pose proof (fr_owned _ _ _ _ F1) as O1.
  apply wp_bind. unfold VFS_ctor. apply wp_bind, (wp_store_field 8 (b - 112) s1 p 96 80); [done|lia|exact O1|lia..|].
  intros s2 St2 O2. apply wp_bind, (wp_store_field 8 (b - 112) s2 p 96 80); [apply St2|lia|exact O2|lia..|].
  intros s3 St3 O3. apply wp_modify, wp_ret. set (v := set_vfs_instance p (vars s)).
  assert (keeps (range p 96) s1 s3) as K13.
  { apply (keeps_comp _ _ _ _ _ _ (st_keeps _ _ _ _ _ _ St2) (st_keeps _ _ _ _ _ _ St3)).
    intros x _. unfold range. lia. }
  pose proof (keeps_fresh _ _ _ _ _ _ F1 K13 ltac:(done)) as K.
  assert (set_vfs_instance p (vars s3) = v) as -> by (subst v; by rewrite (kp_vars _ _ _ K)).
  apply HQ.
  - rewrite <- (budget_proper _ s3) by apply same_mem_vars. apply St3.
  - split.
    + intros x Hx. rewrite <- (owned_proper s3 _ (same_mem_vars v s3) x x eq_refl). by apply O3.
    + transitivity (vload 8 s3 (p + 80)); [|by apply (stored_exact _ _ _ _ _ _ St3)].
      apply vload_ext. intros i _. symmetry. by apply vbyte_proper.
    + done.
  - by apply keeps_vars.
  - exact (fr_new _ _ _ _ F1).
Qed.

(** The counter wraps around at 2^64. *)
Lemma wp_next_descriptor b s this n (Q : Z → kstate → Prop) :
  budget b s → 0 ≤ b → vfs_at s this n →
  (∀ s', budget b s' → vfs_at s' this (n ⊞ 1) → keeps (counter_of this) s s' → only_mem s s' → Q (s32 n) s') →
  wp (VFS_get_next_descriptor this) Q s.
Proof.
  intros Hb Hb0 [O N I] HQ. unfold VFS_get_next_descriptor.
  apply wp_bind, (wp_load64_field b s this 96 80); [done|done|exact O|lia|lia|]. rewrite N.
  apply wp_bind, (wp_store_field 8 b s this 96 80); [done|done|exact O|lia..|]. intros s' St O'.
  apply wp_ret, HQ.
  - apply St.
  - split; [done| |].
    + apply (stored_exact _ _ _ _ _ _ St). apply u64_range.
    + by rewrite (kp_vars _ _ _ (st_keeps _ _ _ _ _ _ St)).
  - exact (st_keeps _ _ _ _ _ _ St).
  - apply St.
Qed.
End vfs.

Section open.
Context `{A : Allocator} `{D : BlockDevice} (disk : Z → Z) (device : Z).
Context {DL : DiskLaws disk device}.
Context (F : Z → Prop) (fs : Z) (g : geometry) (GO : geometry_ok g).

(** What open_file leaves behind. *)
Record opened (b : Z) (names : list (list Z)) (vfs n : Z) (s s' : kstate) : Prop := Opened {
  op_budget : budget (b - open_cost disk device g names) s';
  op_vfs : vfs_at s' vfs (n ⊞ 1);
  op_mounted : mounted disk device F fs g s';
  op_keeps : keeps (λ x, driver x ∨ counter_of vfs x) s s'
}.

Lemma wp_open_file b s vfs n path leading trailing names r (Q : Z → kstate → Prop) :
  budget b s → mounted disk device F fs g s → ext2_instance (vars s) = fs → vfs_at s vfs n →
  client_mem disk device F vfs sizeof_VFS →
  cstr s path (path_text leading trailing names) →
  (∀ x, range path (Z.of_nat (length (path_text leading trailing names)) + 1) x → ¬ driver x) →
  names ≠ [] → Forall component names → open_cost disk device g names ≤ b →
  lookup_names disk g (root_inode g) names = Some r →
  (∀ s', opened b names vfs n s s' → Q 3 s') → wp (VFS_open_file vfs path) Q s.
Proof using GO.
  intros Hb M Ei V Hc C Hp Hne HN Hle Hr HQ. unfold VFS_open_file, EXT2_get_instance.
  apply wp_bind, wp_gets. rewrite Ei.
  apply (wp_open disk device F fs g GO b s path (path_text leading trailing names) leading trailing names r); try done.
  intros inode s1 Hb1 M1 K1 _ _.
  assert (vfs_at s1 vfs n) as V1.
  { apply (vfs_at_keeps driver s); [done| |done]. intros x Hx. by apply Hc. }
  apply wp_bind, (wp_next_descriptor (b - open_cost disk device g names) s1 vfs n); [done|lia|done|].
  intros s2 Hb2 V2 K2 _. apply wp_ret, HQ. split; [done|done| |].
  - apply (mounted_keeps disk device F fs g GO (counter_of vfs) s1); [done| |done].
    intros x Hx. apply Hc. unfold counter_of, range, sizeof_VFS in *. lia.
  - apply (keeps_comp _ _ _ _ _ _ K1 K2). auto.
Qed.
(** C38: open_file returns 3 whatever the path leads to, also when a component is missing:
    the descriptor it takes from the counter is not used.  The counter is one higher
    (modulo 2^64), the file system stays mounted and no other memory in use changes. *)
Theorem open_file_returns_3 b s vfs n path leading trailing names r :
  budget b s → mounted disk device F fs g s → ext2_instance (vars s) = fs → vfs_at s vfs n →
  client_mem disk device F vfs sizeof_VFS →
  cstr s path (path_text leading trailing names) →
  (∀ x, range path (Z.of_nat (length (path_text leading trailing names)) + 1) x → ¬ driver x) →
  names ≠ [] → Forall component names → open_cost disk device g names ≤ b →
  lookup_names disk g (root_inode g) names = Some r →
  ∃ s', VFS_open_file vfs path s = Done 3 s' ∧ opened b names vfs n s s'.
Proof using GO.
  intros Hb M Ei V Hc C Hp Hne HN Hle Hr.
  destruct (wp_inv _ _ _ (wp_open_file b s vfs n path leading trailing names r
    (λ d s', d = 3 ∧ opened b names vfs n s s') Hb M Ei V Hc C Hp Hne HN Hle Hr ltac:(done)))
    as (d & s' & E & -> & H). by exists s'.
Qed.
End open.

(** * Witness *)

#[local] Abbreviation KH := (kernel_heap 64 0x80208000).
#[local] Abbreviation MD := (memory_read sample_disk).
#[local] Abbreviation ML := (memory_laws (A := KH) sample_disk sample_disk_byte 0).

(** The sample image mounted, a new VFS object, and the path "/b.txt", which is not
    there. *)
Definition b_txt : list Z := chars "b.txt".

Lemma sample_vfs :
  ∃ s fs F vfs path, budget (Allocator := KH) 14000 s ∧
    mounted (A := KH) (D := MD) sample_disk 0 (DL := ML) F fs (disk_geometry sample_disk) s ∧
    ext2_instance (vars s) = fs ∧ vfs_at (A := KH) s vfs 3 ∧
    client_mem (A := KH) (D := MD) sample_disk 0 (DL := ML) F vfs sizeof_VFS ∧
    cstr (A := KH) s path (path_text true false [b_txt]).
Proof.
  destruct sample_mounted as (s & fs & F & Hb & M & Ei).
  pose proof (disk_geometry_ok (A := KH) (D := MD) sample_disk 0 (DL := ML) sample_disk_ok) as GO.
  pose proof (ea_stable _ _ _ _ _ (mo_object _ _ _ _ _ _ M)) as HF.
  assert (wp (vfs ← operator_new sizeof_VFS; VFS_ctor vfs;; mret vfs) (λ vfs s1,
    budget (Allocator := KH) 14888 s1 ∧ vfs_at (A := KH) s1 vfs 3 ∧
    keeps (A := KH) nowhere (set_vars (set_vfs_instance vfs (vars s)) s) s1 ∧
    ∀ x, range vfs sizeof_VFS x → ¬ stable (Allocator := KH) s x) s) as W.
  { apply (wp_new_vfs (A := KH) 15000); [exact Hb|lia|]. intros vfs s1 Hb1 V1 K1 N1. split; [|done].
    apply (budget_weaken _ _ _ Hb1). lia. }
  destruct (wp_inv _ _ _ W) as (vfs & s1 & _ & Hb1 & V1 & K1 & N1).
  assert (mounted (A := KH) (D := MD) sample_disk 0 (DL := ML) F fs (disk_geometry sample_disk) s1) as M1.
  { eapply (mounted_keeps (A := KH) (D := MD) sample_disk 0 (DL := ML) F fs _ GO nowhere); [exact K1|by intros ? []|].
    by apply mounted_vars. }
  destruct (make_cstr (A := KH) _ s1 (path_text true false [b_txt]) Hb1) as (path & s2 & Hb2 & C & K2 & _);
    [by vm_compute|by repeat constructor|].
  exists s2, fs, F, vfs, path. split; [apply (budget_weaken _ _ _ Hb2); by vm_compute|]. split; [|split; [|split; [|split]]].
  - apply (mounted_keeps (A := KH) (D := MD) sample_disk 0 (DL := ML) F fs _ GO nowhere s1); [exact K2|by intros ? []|done].
  - rewrite (kp_vars _ _ _ K2), (kp_vars _ _ _ K1). exact Ei.
  - apply (vfs_at_keeps (A := KH) nowhere s1); [exact K2|by intros ? ? []|exact V1].
  - intros x Hx. split; [|by intros []]. intros Hf. by apply (N1 x Hx), HF.
  - exact C.
Qed.

Lemma open_file_returns_3_witness :
  ∃ s vfs path s', lookup_names sample_disk (disk_geometry sample_disk) (root_inode (disk_geometry sample_disk)) [b_txt]
      = Some None ∧
    VFS_open_file (H := MD) vfs path s = Done 3 s' ∧ vfs_at (A := KH) s' vfs 4.
Proof.
  destruct sample_vfs as (s & fs & F & vfs & path & Hb & M & Ei & V & Hc & C).
  destruct (open_file_returns_3 (A := KH) (D := MD) sample_disk 0 (DL := ML) F fs (disk_geometry sample_disk)
    (disk_geometry_ok (A := KH) (D := MD) sample_disk 0 (DL := ML) sample_disk_ok)
    14000 s vfs 3 path true false [b_txt] None Hb M Ei V Hc C) as (s' & E & O).
  - by intros x _ [].
  - done.
  - repeat constructor; [done|apply (bool_decide_unpack _); by vm_compute|apply (bool_decide_unpack _); by vm_compute].
  - by vm_compute.
  - by vm_compute.
  - exists s, vfs, path, s'. split; [by vm_compute|]. split; [exact E|]. exact (op_vfs _ _ _ _ _ _ _ _ _ _ _ O).
Defined.
