(* ===== verification/Syscall.v ===== *)
(** System calls: kernel/syscalls/syscall.{h,cpp}.

    [handle_syscall] dispatches on register a7.  The arguments are addresses of user
    buffers; what is said here holds for every buffer in client memory of the
    [Allocator] interface, which UserSpace.v implements for user pages. *)

From S2P Require Import Prelude Monad Memory Sv48 Machine Layout Stdio Heap KAlloc Allocator Client Process Ext2 Ext2Walk Ext2Mount Ext2Files Vfs.

(** struct SyscallParameters of kernel/exception.h *)
Record SyscallParameters := {
  a0 : Z; a1 : Z; a2 : Z; a3 : Z; a4 : Z; a5 : Z; a7 : Z
}.

(** The cases of handle_syscall, one definition each. *)
Definition sys_read (params : SyscallParameters) : K () :=
  _ ← read (a1 params) (a2 params);
  mret ().

Definition sys_write (params : SyscallParameters) : K () :=
  buffer ← kalloc (a2 params ⊞ 1);
  memcpy buffer (a1 params) (a2 params);;
  store8 (buffer ⊞ a2 params) 0;;
  printf (chars "%s") [buffer].

Definition sys_open `{BlockDevice} (params : SyscallParameters) : K () :=
  printf (chars "syscall open" ++ newline) [];;
  vfs ← VFS_get_instance;
  _ ← VFS_open_file vfs (a0 params);
  mret ().

Definition sys_getcwd (params : SyscallParameters) : K () :=
  printf (chars "got getcwd syscall" ++ newline) [];;
  scheduler ← Scheduler_get_instance;
  printf (chars "a" ++ newline) [];;
  current_process ← Scheduler_get_running_process scheduler;
  printf (chars "b" ++ newline) [];;
  path ← Process_get_cwd current_process;
  printf (chars "c" ++ newline) [];;
  Path_copy_into path (a0 params);;
  printf (chars "d" ++ newline) [].

Definition handle_syscall `{BlockDevice} (params : SyscallParameters) : K () :=
  log LogLevel.SYSCALL (chars "Handling system call with parameter %i") [a7 params];;
  if a7 params =? 0 then sys_read params
  else if a7 params =? 1 then sys_write params
  else if a7 params =? 2 then sys_open params
  else if a7 params =? 79 then sys_getcwd params
  else mret ().

(** * Buffers of bytes *)

(** What a string function sees of the bytes [l]. *)
Fixpoint until_nul (l : list Z) : list Z :=
  match l with
  | [] => []
  | c :: l' => if c =? 0 then [] else c :: until_nul l'
  end.

Lemma until_nul_plain l : Forall (λ c, c ≠ 0) l → until_nul l = l.
Proof. induction 1 as [|c l Hc _ IH]; [done|]. cbn [until_nul]. by rewrite (proj2 (Z.eqb_neq _ _) Hc), IH. Qed.

Lemma until_nul_lookup l i c : until_nul l !! i = Some c → l !! i = Some c ∧ c ≠ 0.
Proof.
  revert i. induction l as [|d l IH]; intros i; [done|]. cbn [until_nul]. destruct (Z.eqb_spec d 0); [done|].
  destruct i as [|i]; [by intros [= <-]|apply IH].
Qed.

(** Behind it there is a NUL, or nothing more. *)
Lemma until_nul_end l :
  (length (until_nul l) < length l)%nat ∧ l !! length (until_nul l) = Some 0 ∨ until_nul l = l.
Proof.
  induction l as [|d l IH]; [by right|]. cbn [until_nul]. destruct (Z.eqb_spec d 0) as [->|Hd]; cbn [length].
  - left. split; [lia|done].
  - destruct IH as [(H1 & H2)|E]; [left; split; [lia|done]|right; by rewrite E].
Qed.

Lemma until_nul_length l : (length (until_nul l) ≤ length l)%nat.
Proof. destruct (until_nul_end l) as [(H & _)| ->]; lia. Qed.

Section syscalls.
Context `{A : Allocator}.

(** Bytes with a NUL behind them. *)
Lemma bytes_cstr s p l :
  bytes_at s p l → stable s (p + Z.of_nat (length l)) → vbyte s (p + Z.of_nat (length l)) = 0 →
  cstr s p (until_nul l).
Proof.
  intros [H1 H2] Hs H0. pose proof (until_nul_length l). split.
  - intros x Hx. destruct (decide (x = p + Z.of_nat (length l))) as [->|Hne]; [done|].
    apply H1. unfold range in *. lia.
  - intros i c [Hi Hc]%until_nul_lookup. split; [by apply H2|done].
  - destruct (until_nul_end l) as [(Hlt & Hl)|E]; [by apply H2|by rewrite E].
Qed.

(** Its characters are bytes. *)
Lemma cstr_plain s p l : cstr s p l → map to_char l = l.
Proof.
  intros C. transitivity (map (λ c, c) l); [|apply map_id]. apply map_ext_in. intros c Hin%list_elem_of_In.
  apply list_elem_of_lookup in Hin as (i & Hi). destruct (cs_chars _ _ _ C i c Hi) as [<- _].
  apply u8_small, vbyte_range.
Qed.

Lemma wp_print_cstr s p l (Q : () → kstate → Prop) :
  budget 0 s → cstr s p l → Q () (emit l s) → wp (printf (chars "%s") [p]) Q s.
Proof.
  intros Hb C HQ. set (str q := if decide (q = p) then Some l else None).
  eapply wp_done; [|exact HQ]. apply (vprintf_done str).
  - intros q k. unfold str. case_decide as Hq; [|done]. intros [= <-]. subst q.
    split; [by apply cstr_cstring|by apply (cstr_length s p)].
  - cbn. unfold str. rewrite decide_True by done. cbn. rewrite app_nil_r. f_equal.
    by apply (cstr_plain s p).
Qed.

(** ** write *)

(** The bytes of the buffer come out, up to the first NUL, after what kalloc logs; their
    copy, with a NUL behind it, is left in a new block, and no earlier memory changes. *)
Record written (b : Z) (l : list Z) (s s' : kstate) : Prop := Written {
  wr_budget : budget (b - Z.of_nat (length l) - 17) s';
  wr_keeps : keeps nowhere s s';
  wr_copy : ∃ p, owned_range s' p (Z.of_nat (length l) + 1) ∧
    (∀ x, range p (Z.of_nat (length l) + 1) x → ¬ stable s x) ∧
    bytes_at s' p l ∧ vbyte s' (p + Z.of_nat (length l)) = 0;
  wr_in : console_in s' = console_in s;
  wr_out : ∃ o, console_out s' = console_out s ++ o ++ until_nul l
}.

Lemma wp_sys_write b s params l (Q : () → kstate → Prop) :
  budget b s → Z.of_nat (length l) + 17 ≤ b → a2 params = Z.of_nat (length l) →
  Z.of_nat (length l) < 2 ^ 64 - 1 → bytes_at s (a1 params) l →
  (∀ s', written b l s s' → Q () s') → wp (sys_write params) Q s.
Proof.
  intros Hb Hle E2 Hlt L HQ. unfold sys_write. rewrite E2. set (n := Z.of_nat (length l)) in *.
  change (2 ^ 64) with 0x10000000000000000 in Hlt. rewrite u64_small by lia.
  apply wp_bind, (wp_kalloc b); [done|lia|lia|]. intros p s1 Hb1 F1.
  replace (b - (n + 1) - 16) with (b - n - 17) in Hb1 by lia. pose proof (fr_keeps _ _ _ _ F1) as K1.
  apply wp_bind, (wp_memcpy (b - n - 17)); [done|lia|simpl; lia| | |].
  { intros x Hx. apply (fr_owned _ _ _ _ F1). unfold range in *. lia. }
  { intros x Hx. pose proof (by_stable _ _ _ L x Hx) as Hs. split; [by apply (kp_stable _ _ _ K1)|].
    intros Hp. apply (fr_new _ _ _ _ F1 x); [unfold range in *; lia|done]. }
  intros s2 Hb2 K2 _ M2 V2.
  assert (owned_range s2 p (n + 1)) as O2 by (apply (owned_range_keeps _ _ _ _ _ K2); exact (fr_owned _ _ _ _ F1)).
  rewrite (owned_range_add s2 p (n + 1) n) by (done || lia || by apply (budget_0 _ _ Hb2); lia).
  destruct (store8_owned (b - n - 17) s2 (p + n) 0 Hb2) as (s3 & E3 & Hb3 & V3 & K3 & _ & M3);
    [lia|by apply O2; unfold range; lia|].
  eapply wp_bind_done; [exact E3|].
  assert (bytes_at s2 p l) as L2.
  { split.
    - intros x Hx. apply owned_stable, O2. unfold range in *. lia.
    - intros i c Hi. pose proof (lookup_lt_Some _ _ _ Hi). rewrite V2 by lia.
      rewrite (kp_byte _ _ _ K1); [by apply (by_bytes _ _ _ L)| |by intros []].
      apply (by_stable _ _ _ L). unfold range. lia. }
  assert (bytes_at s3 p l) as L3 by (apply (bytes_at_keeps _ s2 _ _ _ K3); [unfold range; lia|done]).
  apply (wp_print_cstr _ _ (until_nul l)); [by apply (budget_0 _ _ Hb3); lia| |].
  { apply bytes_cstr; [done|by apply owned_stable, (kp_owned _ _ _ K3), O2; unfold range; lia|done]. }
  assert (keeps (range p (n + 1)) s1 s3) as K23.
  { apply (keeps_comp _ _ _ _ _ _ K2 K3). unfold range. lia. }
  assert (console_more s s3) as [Ei [o Eo]].
  { etrans; [apply F1|]. etrans; [exact (only_mem_more _ _ M2)|exact (only_mem_more _ _ M3)]. }
  apply HQ. split.
  - by apply budget_emit.
  - eapply keeps_trans; [|apply keeps_emit]. by apply (keeps_fresh _ _ _ _ _ _ F1 K23).
  - exists p. fold n. set (o' := until_nul l). pose proof (keeps_emit nowhere o' s3) as Ke. split_and!.
    + apply (owned_range_keeps _ _ _ _ _ Ke), (owned_range_keeps _ _ _ _ _ K3), O2.
    + exact (fr_new _ _ _ _ F1).
    + by apply (bytes_at_keeps _ s3 _ _ _ Ke); [by intros ? ? []|].
    + transitivity (vbyte s3 (p + n)); [symmetry; apply vbyte_proper; [apply same_mem_emit|done]|exact V3].
  - done.
  - exists o. cbn. by rewrite Eo, app_assoc.
Qed.
(** ** read *)

(** The line is consumed, echoed and stored, [stored] being what the buffer gets. *)
Record line_read (b p : Z) (line stored echo rest : list Z) (s s' : kstate) : Prop := LineRead {
  lr_budget : budget b s';
  lr_in : console_in s' = rest;
  lr_out : console_out s' = console_out s ++ echo;
  lr_bytes : bytes_at s' p stored;
  lr_keeps : keeps (range p (Z.of_nat (length stored))) s s'
}.

(** The serial line only changes the console. *)
Lemma same_mem_console o i s : same_mem s (set_console o i s).
Proof. by split. Qed.

Lemma keeps_console P o i s : keeps P s (set_console o i s).
Proof. by apply keeps_same; [apply same_mem_console|]. Qed.

Lemma reading_console o i b p size l s0 s : reading b p size l s0 s → reading b p size l s0 (set_console o i s).
Proof.
  intros [H1 H2 H3 H4]. pose proof (keeps_console nowhere o i s) as K. split.
  - by rewrite <- (budget_proper b _ _ (same_mem_console o i s)).
  - by apply (owned_range_keeps _ _ _ _ _ K).
  - eapply keeps_trans; [exact H3|apply keeps_console].
  - apply (bytes_at_keeps _ _ _ _ _ K); [by intros ? ? []|done].
Qed.

(** A line that ends with carriage return before the buffer is full, or fills it; then
    come what follows the line in the input, what is stored and what is echoed. *)
Inductive line_ends (size : Z) (line rest : list Z) : list Z → list Z → list Z → Prop :=
  | ends_cr : Z.of_nat (length line) < size →
      line_ends size line rest (c_cr :: rest) (line ++ [0]) (line ++ [c_nl])
  | ends_full : Z.of_nat (length line) = size → line_ends size line rest rest line line.

Lemma wp_read b s p size line rest tail stored echo (Q : Z → kstate → Prop) :
  budget b s → 0 ≤ b → 0 ≤ size < 2 ^ 64 → owned_range s p size → Forall plain_char line →
  line_ends size line rest tail stored echo → console_in s = line ++ tail →
  (∀ s', line_read b p line stored echo rest s s' → Q (Z.of_nat (length line)) s') →
  wp (read p size) Q s.
Proof.
  intros Hb Hb0 Hsz O HF HE Hin HQ.
  assert (Z.of_nat (length line) ≤ size) as Hlen by (destruct HE; lia).
  unfold read. apply (wp_loop_left _ (λ n k s', ∃ l l', line = l ++ l' ∧ n = length l' ∧ k = Z.of_nat (length l) ∧
    reading b p size l s s' ∧ console_in s' = l' ++ tail ∧ console_out s' = console_out s ++ l) _ (length line));
    [|exists [], line|lia].
  - intros n k s1 (l & l' & El & -> & -> & R1 & I1 & C1). unfold read_body, console_put.
    rewrite El, length_app in Hlen. destruct l' as [|c l'].
    + rewrite app_nil_r in El. subst l. cbn [app length] in I1. destruct HE as [Hlt|Hfull].
      * rewrite (proj2 (Z.ltb_lt _ _)) by done. set (s2 := set_console (console_out s1) rest s1).
        eapply (wp_bind_done _ _ _ _ c_cr s2); [unfold console_get; by rewrite I1|]. rewrite Z.eqb_refl.
        destruct (store_next b s s2 p size line 0) as (s3 & E3 & R3 & I3 & C3);
          [by apply reading_console|done|done|].
        eapply wp_bind_done; [exact E3|]. apply wp_bind, wp_modify, wp_ret, HQ.
        destruct (reading_console (console_out s3 ++ [c_nl]) (console_in s3) _ _ _ _ _ _ R3). split; try done.
        cbn. rewrite C3. cbn. by rewrite C1, <- app_assoc.
      * rewrite (proj2 (Z.ltb_ge _ _)) by lia. apply wp_ret, HQ. destruct R1. by split.
    + rewrite El in HF. apply Forall_app in HF as [_ [[Hc Hcr] _]%Forall_cons].
      cbn [length app] in Hlen, I1. rewrite (proj2 (Z.ltb_lt _ _)) by lia.
      set (s2 := set_console (console_out s1) (l' ++ tail) s1). assert (to_char c = c) as Ec by (by apply u8_small).
      eapply (wp_bind_done _ _ _ _ c s2); [unfold console_get; by rewrite I1, Ec|].
      rewrite (proj2 (Z.eqb_neq _ _) Hcr). apply wp_bind, wp_modify. rewrite Ec.
      destruct (store_next b s (emit [c] s2) p size l c) as (s3 & E3 & R3 & I3 & C3);
        [by apply reading_console, reading_console|done|lia|]. unfold to_char in Ec. rewrite Ec in R3.
      eapply wp_bind_done; [exact E3|]. apply wp_ret. exists (length l'). split; [done|].
      exists (l ++ [c]), l'. split_and!; [by rewrite <- app_assoc|done| |done|done|].
      * rewrite length_app. cbn [length]. simpl in Hsz. rewrite u64_small by lia. lia.
      * rewrite C3. cbn. by rewrite C1, <- app_assoc.
  - split_and!; try done; [|by rewrite app_nil_r].
    split; [done|done|apply keeps_refl|]. split; [unfold range; cbn; lia|done].
Qed.
(** ** getcwd *)

(** The process that runs: its object, its Path object, and the text behind it. *)
Record running (s : kstate) (scheduler process path text : Z) (l : list Z) : Prop := Running {
  rn_created : created (vars s) = true;
  rn_instance : scheduler_instance (vars s) = scheduler;
  rn_scheduler : ∀ x, range scheduler 8 x → stable s x;
  rn_current : vload 8 s scheduler = process;
  rn_process : ∀ x, range process sizeof_Process x → stable s x;
  rn_cwd : vload 8 s (process + 16) = path;
  rn_path : ∀ x, range path 8 x → stable s x;
  rn_text : vload 8 s path = text;
  rn_chars : cstr s text l
}.

(** The memory this is about. *)
Definition running_memory (scheduler process path text : Z) (l : list Z) (x : Z) : Prop :=
  range scheduler 8 x ∨ range process sizeof_Process x ∨ range path 8 x ∨ range text (Z.of_nat (length l) + 1) x.

Lemma running_apart P s s' scheduler process path text l :
  keeps P s s' → (∀ x, P x → ¬ running_memory scheduler process path text l x) →
  running s scheduler process path text l → running s' scheduler process path text l.
Proof.
  intros K HP [C I S1 E1 S2 E2 S3 E3 T]. pose proof (kp_vars _ _ _ K) as V.
  assert (∀ n va, (∀ x, range va (Z.of_nat n) x → stable s x ∧ running_memory scheduler process path text l x) →
    vload n s' va = vload n s va) as Hv.
  { intros n va Hs. apply (vload_keeps n P s s' va K). intros x Hx. destruct (Hs x Hx) as [H1 H2].
    split; [done|]. intros Hp. by apply (HP x Hp). }
  unfold running_memory in *. split; [by rewrite V|by rewrite V| | | | | | |].
  - intros x Hx. by apply (kp_stable _ _ _ K), S1.
  - rewrite Hv; [done|]. intros x Hx. split; [by apply S1|by left].
  - intros x Hx. by apply (kp_stable _ _ _ K), S2.
  - rewrite Hv; [done|]. intros x Hx. assert (range process sizeof_Process x) as Hx' by (unfold range, sizeof_Process in *; lia).
    split; [by apply S2|by right; left].
  - intros x Hx. by apply (kp_stable _ _ _ K), S3.
  - rewrite Hv; [done|]. intros x Hx. split; [by apply S3|by right; right; left].
  - apply (cstr_keeps _ _ _ _ _ K T). intros x Hx Hp. apply (HP x Hp). by right; right; right.
Qed.

Lemma running_keeps s s' scheduler process path text l :
  keeps nowhere s s' → running s scheduler process path text l → running s' scheduler process path text l.
Proof. intros K. by apply (running_apart nowhere). Qed.

Lemma wp_stable_string s this text l (Q : Z → kstate → Prop) :
  budget 0 s → (∀ x, range this 8 x → stable s x) → vload 8 s this = text → cstr s text l →
  Q (Z.of_nat (length l)) s →
  wp (loop (λ size, path_string ← load64 this; c ← load8 (path_string ⊞ size);
        mret (if c =? 0 then inr size else inl (size ⊞ 1))) 0) Q s.
Proof.
  intros Hb Hs Ht C HQ. pose proof (cstr_length s text l Hb C) as Hlen. simpl in Hlen.
  apply (wp_loop_left _ (λ n k s', s' = s ∧ k + Z.of_nat n = Z.of_nat (length l) ∧ 0 ≤ k) _ (length l));
    [|done|simpl; lia].
  intros n k s1 (-> & Hk & Hk0). apply wp_bind, wp_load64; [done|done|]. rewrite Ht.
  eapply wp_bind_done; [by apply (cstr_load s text l); [| |lia]|]. apply wp_ret. destruct n as [|n].
  - replace k with (Z.of_nat (length l)) by lia. by rewrite (cs_nul _ _ _ C).
  - destruct (lookup_lt_is_Some_2 l (Z.to_nat k)) as [c Hc]; [lia|].
    destruct (cs_chars _ _ _ C _ _ Hc) as [Hv Hz]. rewrite Z2Nat.id in Hv by lia. rewrite Hv.
    rewrite (proj2 (Z.eqb_neq _ _) Hz), u64_small by lia. exists n. split_and!; done || lia.
Qed.

(** The text is copied, without a NUL behind it. *)
Record copied (b buffer : Z) (l : list Z) (s s' : kstate) : Prop := Copied {
  co_budget : budget b s';
  co_bytes : bytes_at s' buffer l;
  co_keeps : keeps (range buffer (Z.of_nat (length l))) s s';
  co_console : console_more s s'
}.

Lemma wp_copy_into b s this text l buffer (Q : () → kstate → Prop) :
  budget b s → 0 ≤ b → (∀ x, range this 8 x → stable s x) → vload 8 s this = text → cstr s text l →
  owned_range s buffer (Z.of_nat (length l)) →
  disjoint_range text (Z.of_nat (length l)) buffer (Z.of_nat (length l)) →
  (∀ s', copied b buffer l s s' → Q () s') → wp (Path_copy_into this buffer) Q s.
Proof.
  intros Hb Hb0 Hs Ht C O Hd HQ. pose proof (budget_0 b s Hb Hb0) as Hz.
  pose proof (cstr_length s text l Hz C) as Hlen. unfold Path_copy_into.
  apply wp_bind, wp_printf; [done|]. intros o1. set (s1 := emit o1 s).
  assert (keeps nowhere s s1) as K1 by apply keeps_emit.
  assert (vload 8 s1 this = text) as Ht1.
  { rewrite <- Ht. apply (vload_keeps 8 nowhere s s1 _ K1). intros x Hx. split; [by apply Hs|by intros []]. }
  assert (∀ x, range this 8 x → stable s1 x) as Hs1 by (intros x Hx; by apply (kp_stable _ _ _ K1), Hs).
  assert (cstr s1 text l) as C1 by (apply (cstr_keeps _ _ _ _ _ K1 C); by intros ? ? []).
  apply wp_bind, (wp_stable_string s1 this text l); [by apply budget_emit|done|done|done|].
  apply wp_bind, wp_printf; [done|]. intros o2. set (s2 := emit o2 s1).
  assert (keeps nowhere s1 s2) as K2 by apply keeps_emit.
  assert (cstr s2 text l) as C2 by (apply (cstr_keeps _ _ _ _ _ K2 C1); by intros ? ? []).
  apply wp_bind, wp_load64; [by apply budget_emit, budget_emit|by intros x Hx; apply (kp_stable _ _ _ K2), Hs1|].
  rewrite (vload_keeps 8 nowhere s1 s2 this K2), Ht1 by (intros x Hx; split; [by apply Hs1|by intros []]).
  pose proof (keeps_trans _ _ _ _ K1 K2) as K12.
  apply wp_bind, (wp_memcpy b); [by apply budget_emit, budget_emit|done|simpl in *; lia| | |].
  { exact (owned_range_keeps _ _ _ _ _ K12 O). }
  { intros x Hx. split; [|by apply Hd]. apply (cs_stable _ _ _ C2). unfold range in *. lia. }
  intros s3 Hb3 K3 _ M3 V3. apply wp_ret, HQ.
  split; [done| | |etrans; [|exact (only_mem_more _ _ M3)]; unfold s2, s1; rewrite emit_emit; apply console_more_emit].
  - split.
    + intros x Hx. apply owned_stable, (kp_owned _ _ _ K3), (kp_owned _ _ _ K12), O, Hx.
    + intros i c Hi. pose proof (lookup_lt_Some _ _ _ Hi). rewrite V3 by lia. by apply (cs_chars _ _ _ C2).
  - apply (keeps_comp _ _ _ _ _ _ K12 K3). by intros x _ [[]|Hx].
Qed.

Lemma wp_sys_getcwd b s params scheduler process path text l (Q : () → kstate → Prop) :
  budget b s → 0 ≤ b → running s scheduler process path text l →
  owned_range s (a0 params) (Z.of_nat (length l)) →
  disjoint_range text (Z.of_nat (length l)) (a0 params) (Z.of_nat (length l)) →
  (∀ s', copied b (a0 params) l s s' → Q () s') → wp (sys_getcwd params) Q s.
Proof.
  intros Hb Hb0 RN O Hd HQ. unfold sys_getcwd, Scheduler_get_instance, Scheduler_get_running_process, Process_get_cwd.
  assert (∀ o, running (emit o s) scheduler process path text l) as RNo.
  { intros o. by apply (running_keeps s); [apply keeps_emit|]. }
  assert (∀ o, budget b (emit o s)) as Hbo by (intros o; by apply budget_emit).
  assert (∀ o, budget 0 (emit o s)) as Hzo by (intros o; apply (budget_0 b); done).
  apply wp_bind, wp_printf; [done|]. intros o1. apply wp_bind, wp_bind, wp_gets.
  rewrite (rn_created _ _ _ _ _ _ (RNo o1)). apply wp_bind, wp_ret, wp_gets.
  rewrite (rn_instance _ _ _ _ _ _ (RNo o1)). apply wp_bind, wp_printf; [done|]. intros o2. rewrite emit_emit.
  set (o3 := o1 ++ o2). destruct (RNo o3) as [_ _ S1 E1 S2 E2 S3 E3 T].
  apply wp_bind, wp_load64; [done|done|]. rewrite E1.
  apply wp_bind, wp_printf; [done|]. intros o4. rewrite emit_emit. clear S1 E1 S2 E2 S3 E3 T.
  set (o5 := o3 ++ o4). destruct (RNo o5) as [_ _ S1 E1 S2 E2 S3 E3 T].
  apply wp_bind, (wp_load_in 8 _ process sizeof_Process 16); [done|done|done|done|done|]. rewrite E2.
  apply wp_bind, wp_printf; [done|]. intros o6. rewrite emit_emit. clear S1 E1 S2 E2 S3 E3 T.
  set (o7 := o5 ++ o6). destruct (RNo o7) as [_ _ S1 E1 S2 E2 S3 E3 T].
  apply wp_bind, (wp_copy_into b (emit o7 s) path text l); try done.
  { by apply (owned_range_keeps nowhere s); [apply keeps_emit|]. }
  intros s1 [Hb1 L1 K1 M1]. apply wp_printf; [done|]. intros o8. apply HQ. split.
  - by apply budget_emit.
  - apply (bytes_at_keeps nowhere s1); [apply keeps_emit|by intros ? ? []|done].
  - eapply keeps_trans; [apply keeps_emit|]. eapply keeps_trans; [exact K1|apply keeps_emit].
  - etrans; [apply console_more_emit|]. etrans; [exact M1|apply console_more_emit].
Qed.
(** ** The dispatch *)

(** The number is logged, as an int, before the case is chosen. *)
Lemma wp_handle `{D : BlockDevice} params s (Q : () → kstate → Prop) :
  (∀ o, wp (if a7 params =? 0 then sys_read params
     else if a7 params =? 1 then sys_write params
     else if a7 params =? 2 then sys_open params
     else if a7 params =? 79 then sys_getcwd params else mret ()) Q (emit o s)) →
  wp (handle_syscall params) Q s.
Proof. intros H. unfold handle_syscall. by apply wp_bind, wp_log. Qed.

Lemma written_emit b l o s s' : written b l (emit o s) s' → written b l s s'.
Proof.
  intros [H1 H2 (p & O & Hn & L & Z) H3 [o' H4]]. split; [done| | |done|].
  - eapply keeps_trans; [apply keeps_emit|exact H2].
  - exists p. split_and!; [done| |done|done]. intros x Hx Hs. apply (Hn x Hx).
    by rewrite <- (stable_proper _ _ (same_mem_emit o s) x x eq_refl).
  - exists (o ++ o'). rewrite H4. cbn. by rewrite <- !app_assoc.
Qed.

Lemma line_read_emit b p line stored echo rest o s s' :
  line_read b p line stored echo rest (emit o s) s' → line_read b p line stored (o ++ echo) rest s s'.
Proof.
  intros [H1 H2 H3 H4 H5]. split; [done|done| |done|].
  - rewrite H3. cbn. by rewrite <- app_assoc.
  - eapply keeps_trans; [apply keeps_emit|exact H5].
Qed.

Lemma copied_emit b p l o s s' : copied b p l (emit o s) s' → copied b p l s s'.
Proof.
  intros [H1 H2 H3 H4]. split; [done|done| |].
  - eapply keeps_trans; [apply keeps_emit|exact H3].
  - etrans; [apply console_more_emit|exact H4].
Qed.
End syscalls.

(** * Properties *)

Section properties.
Context `{A : Allocator} `{D : BlockDevice}.

Lemma wp_handle_write b s params l (Q : () → kstate → Prop) :
  budget b s → Z.of_nat (length l) + 17 ≤ b → a7 params = 1 → a2 params = Z.of_nat (length l) →
  Z.of_nat (length l) < 2 ^ 64 - 1 → bytes_at s (a1 params) l →
  (∀ s', written b l s s' → Q () s') → wp (handle_syscall params) Q s.
Proof.
  intros Hb Hle E7 E2 Hl L HQ. apply wp_handle. intros o. rewrite E7. cbn.
  apply (wp_sys_write b _ params l); try done; [by apply budget_emit| |].
  - apply (bytes_at_keeps nowhere s); [apply keeps_emit|by intros ? ? []|done].
  - intros s' W. apply HQ. by eapply written_emit.
Qed.

Lemma wp_handle_read b s params line rest tail stored echo (Q : () → kstate → Prop) :
  budget b s → 0 ≤ b → a7 params = 0 → 0 ≤ a2 params < 2 ^ 64 → owned_range s (a1 params) (a2 params) →
  Forall plain_char line → line_ends (a2 params) line rest tail stored echo → console_in s = line ++ tail →
  (∀ s' o, line_read b (a1 params) line stored (o ++ echo) rest s s' → Q () s') → wp (handle_syscall params) Q s.
Proof.
  intros Hb Hb0 E7 H2 O HF HE Hin HQ. apply wp_handle. intros o. rewrite E7. cbn -[read]. unfold sys_read.
  apply wp_bind, (wp_read b _ _ _ line rest tail stored echo); try done; [by apply budget_emit| |].
  - by apply (owned_range_keeps nowhere s); [apply keeps_emit|].
  - intros s' R. apply wp_ret, (HQ s' o). by apply line_read_emit.
Qed.

Lemma wp_handle_getcwd b s params scheduler process path text l (Q : () → kstate → Prop) :
  budget b s → 0 ≤ b → a7 params = 79 → running s scheduler process path text l →
  owned_range s (a0 params) (Z.of_nat (length l)) →
  disjoint_range text (Z.of_nat (length l)) (a0 params) (Z.of_nat (length l)) →
  (∀ s', copied b (a0 params) l s s' → Q () s') → wp (handle_syscall params) Q s.
Proof.
  intros Hb Hb0 E7 RN O Hd HQ. apply wp_handle. intros o. rewrite E7. cbn -[sys_getcwd].
  apply (wp_sys_getcwd b _ params scheduler process path text l); try done; [by apply budget_emit|..].
  - by apply (running_keeps s); [apply keeps_emit|].
  - by apply (owned_range_keeps nowhere s); [apply keeps_emit|].
  - intros s' C. apply HQ. by eapply copied_emit.
Qed.

(** C34: system call 1 (write) prints the bytes of the user's buffer up to the first
    NUL, whatever the kernel logs coming before them, and changes no memory that was in
    use; the copy it made of them, with a NUL behind it, is left in a block that was
    not in use before. *)
Theorem syscall_write_prints b s params l :
  budget b s → Z.of_nat (length l) + 17 ≤ b → a7 params = 1 → a2 params = Z.of_nat (length l) →
  Z.of_nat (length l) < 2 ^ 64 - 1 → bytes_at s (a1 params) l →
  ∃ s', handle_syscall params s = Done () s' ∧ written b l s s'.
Proof.
  intros Hb Hle E7 E2 Hl L.
  destruct (wp_inv _ _ _ (wp_handle_write b s params l (λ _ s', written b l s s') Hb Hle E7 E2 Hl L (λ _ W, W))) as ([] & s' & H).
  by exists s'.
Qed.

(** C35: system call 0 (read) takes one line from the console: the characters up to the
    carriage return and a NUL, or as many as the buffer holds, are in the user's
    buffer, the line is echoed, the rest of the input is left, and no other memory
    changes. *)
Theorem syscall_read_line b s params line rest tail stored echo :
  budget b s → 0 ≤ b → a7 params = 0 → 0 ≤ a2 params < 2 ^ 64 → owned_range s (a1 params) (a2 params) →
  Forall plain_char line → line_ends (a2 params) line rest tail stored echo → console_in s = line ++ tail →
  ∃ s' o, handle_syscall params s = Done () s' ∧ line_read b (a1 params) line stored (o ++ echo) rest s s'.
Proof.
  intros Hb Hb0 E7 H2 O HF HE Hin.
  destruct (wp_inv _ _ _ (wp_handle_read b s params line rest tail stored echo
    (λ _ s', ∃ o, line_read b (a1 params) line stored (o ++ echo) rest s s')
    Hb Hb0 E7 H2 O HF HE Hin (λ s' o R, ex_intro _ o R))) as ([] & s' & E & o & H). by exists s', o.
Qed.

(** C37: system call 79 (getcwd) copies the text of the working directory of the running
    process to the user's buffer, but not its NUL: the byte behind the text keeps what
    it held, and so does all other memory. *)
Theorem syscall_getcwd_copies b s params scheduler process path text l :
  budget b s → 0 ≤ b → a7 params = 79 → running s scheduler process path text l →
  owned_range s (a0 params) (Z.of_nat (length l)) →
  disjoint_range text (Z.of_nat (length l)) (a0 params) (Z.of_nat (length l)) →
  ∃ s', handle_syscall params s = Done () s' ∧ copied b (a0 params) l s s'.
Proof.
  intros Hb Hb0 E7 RN O Hd.
  destruct (wp_inv _ _ _ (wp_handle_getcwd b s params scheduler process path text l
    (λ _ s', copied b (a0 params) l s s') Hb Hb0 E7 RN O Hd (λ _ C, C)))
    as ([] & s' & H). by exists s'.
Qed.

(** System call 2 (open) is [VFS_open_file] on the registered object; its result is
    dropped. *)
Lemma syscall_open_opens (disk : Z → Z) (device : Z) {DL : DiskLaws disk device} F fs g (GO : geometry_ok g)
    b s params vfs n leading trailing names r :
  budget b s → a7 params = 2 → mounted disk device F fs g s → ext2_instance (vars s) = fs → vfs_at s vfs n →
  client_mem disk device F vfs sizeof_VFS →
  cstr s (a0 params) (path_text leading trailing names) →
  (∀ x, range (a0 params) (Z.of_nat (length (path_text leading trailing names)) + 1) x → ¬ driver x) →
  names ≠ [] → Forall component names → open_cost disk device g names ≤ b →
  lookup_names disk g (root_inode g) names = Some r →
  ∃ s', handle_syscall params s = Done () s' ∧ opened disk device F fs g b names vfs n s s'.
Proof.
  intros Hb E7 M Ei V Hc C Hp Hne HN Hle Hr.
  assert (wp (handle_syscall params) (λ _ s', opened disk device F fs g b names vfs n s s') s) as W.
  { apply wp_handle. intros o. rewrite E7. cbn -[sys_open]. unfold sys_open, VFS_get_instance.
    apply wp_bind, wp_printf; [done|]. intros o'. rewrite emit_emit. set (s1 := emit (o ++ o') s).
    assert (keeps nowhere s s1) as K by apply keeps_emit.
    apply wp_bind, wp_gets. rewrite (va_instance s1 vfs n) by (by apply (vfs_at_keeps nowhere s); [done|intros ? ? []|]).
    apply wp_bind, (wp_open_file disk device F fs g GO b s1 vfs n (a0 params) leading trailing names r); try done.
    - by apply budget_emit.
    - by apply (mounted_keeps disk device F fs g GO nowhere s); [done|intros ? []|].
    - by apply (vfs_at_keeps nowhere s); [done|intros ? ? []|].
    - by apply (cstr_keeps nowhere s); [done| |intros ? ? []].
    - intros s' [O1 O2 O3 O4]. apply wp_ret. split; try done. eapply keeps_trans; [apply keeps_emit|exact O4]. }
  destruct (wp_inv _ _ _ W) as ([] & s' & E & H). by exists s'.
Qed.

(** Any other number is logged and ignored. *)
Lemma syscall_unknown s params :
  a7 params ∉ [0; 1; 2; 79] → ∃ o, handle_syscall params s = Done () (emit o s).
Proof.
  intros Hn. assert (wp (handle_syscall params) (λ _ s', ∃ o, s' = emit o s) s) as W.
  { apply wp_handle. intros o. rewrite !not_elem_of_cons in Hn. destruct Hn as (H0 & H1 & H2 & H3 & _).
    rewrite !(proj2 (Z.eqb_neq _ _)) by done. apply wp_ret. by exists o. }
  destruct (wp_inv _ _ _ W) as ([] & s' & E & o & ->). by exists o.
Qed.
End properties.

(** * Witnesses *)

#[local] Abbreviation KH := (kernel_heap 64 0x80208000).
#[local] Abbreviation MD := (memory_read sample_disk).

Definition call (n x1 x2 : Z) : SyscallParameters :=
  {| a0 := x1; a1 := x1; a2 := x2; a3 := 0; a4 := 0; a5 := 0; a7 := n |}.

Lemma cstr_bytes `{A : Allocator} s p l : cstr s p l → bytes_at s p l.
Proof.
  intros C. split.
  - intros x Hx. apply (cs_stable _ _ _ C). unfold range in *. lia.
  - intros i c Hi. by apply (cs_chars _ _ _ C).
Qed.

Lemma syscall_write_prints_witness :
  ∃ s p s' q o, handle_syscall (H := MD) (call 1 p 2) s = Done () s' ∧
    console_out s' = console_out s ++ o ++ chars "hi" ∧ ¬ stable (Allocator := KH) s q ∧ vbyte s' (q + 1) = 105.
Proof.
  destruct (make_cstr (A := KH) 16384 heap0 (chars "hi") (heap0_budget 16384 ltac:(lia)))
    as (p & s & Hb & C & _); [by vm_compute|by repeat constructor|].
  destruct (syscall_write_prints (A := KH) (D := MD) _ s (call 1 p 2) (chars "hi") Hb) as (s' & E & [_ _ (q & _ & Hq & Lq & _) _ [o O]]).
  - by vm_compute.
  - done.
  - done.
  - by vm_compute.
  - by apply cstr_bytes.
  - exists s, p, s', q, o. split; [exact E|]. split; [exact O|]. split; [apply Hq; unfold range; cbn; lia|].
    by apply (by_bytes _ _ _ Lq 1%nat).
Defined.

(** "ls" and carriage return, more input behind it, into a buffer of 16 bytes. *)
Lemma syscall_read_line_witness :
  ∃ s p s' o, console_in s = chars "ls" ++ c_cr :: chars "pwd" ∧
    handle_syscall (H := MD) (call 0 p 16) s = Done () s' ∧
    console_in s' = chars "pwd" ∧ console_out s' = console_out s ++ o ++ chars "ls" ++ [c_nl] ∧
    vbyte s' p = 108 ∧ vbyte s' (p + 1) = 115 ∧ vbyte s' (p + 2) = 0.
Proof.
  destruct (kalloc_fresh (A := KH) 16384 16 heap0 (heap0_budget 16384 ltac:(lia))) as (p & s1 & _ & Hb & F1); [lia|lia|].
  set (s := set_console [] (chars "ls" ++ c_cr :: chars "pwd") s1).
  destruct (syscall_read_line (A := KH) (D := MD) 16000 s (call 0 p 16) (chars "ls") (chars "pwd")
    (c_cr :: chars "pwd") (chars "ls" ++ [0]) (chars "ls" ++ [c_nl])) as (s' & o & E & [_ I O L _]).
  - apply (budget_proper (Allocator := KH) 16000 s1 s (same_mem_console _ _ s1)).
    apply (budget_weaken (Allocator := KH) _ _ _ Hb). lia.
  - lia.
  - done.
  - cbn. lia.
  - apply (owned_range_keeps (A := KH) nowhere s1); [apply keeps_console|exact (fr_owned _ _ _ _ F1)].
  - repeat constructor; by vm_compute.
  - by apply ends_cr.
  - done.
  - exists s, p, s', o. split; [done|]. split; [exact E|]. split; [exact I|]. split; [exact O|].
    split; [|split]; [rewrite <- (Z.add_0_r p); by apply (by_bytes _ _ _ L 0%nat)|
      by apply (by_bytes _ _ _ L 1%nat)|by apply (by_bytes _ _ _ L 2%nat)].
Defined.

(** A new block of [n] bytes with a pointer at offset [i]. *)
Lemma make_pointer `{A : Allocator} b s n i v :
  budget b s → n + 16 ≤ b → 0 ≤ i → i + 8 ≤ n → 0 ≤ v < 2 ^ 64 →
  ∃ p s', budget (b - n - 16) s' ∧ owned_range s' p n ∧ vload 8 s' (p + i) = v ∧ keeps nowhere s s' ∧
    (∀ x, range p n x → ¬ stable s x) ∧ 0 ≤ p < 2 ^ 64.
Proof.
  intros Hb Hle Hi Hin Hv. destruct (kalloc_fresh b n s Hb) as (p & s1 & _ & Hb1 & F1); [lia|lia|].
  destruct (storev_owned 8 (b - n - 16) s1 (p + i) v Hb1) as (s2 & _ & St); [lia| |].
  { intros x Hx. apply (fr_owned _ _ _ _ F1). unfold range in *. lia. }
  exists p, s2. split_and!.
  - apply St.
  - apply (owned_range_keeps _ _ _ _ _ (st_keeps _ _ _ _ _ _ St)). exact (fr_owned _ _ _ _ F1).
  - by apply (stored_exact _ _ _ _ _ _ St).
  - apply (keeps_fresh _ _ _ _ _ _ F1 (st_keeps _ _ _ _ _ _ St)). unfold range. lia.
  - exact (fr_new _ _ _ _ F1).
  - destruct (fr_pos _ _ _ _ F1). lia.
  - destruct (fr_pos _ _ _ _ F1). lia.
Qed.

(** A scheduler whose running process has the working directory [l], made of new
    blocks. *)
Lemma make_running `{A : Allocator} b s l :
  budget b s → Z.of_nat (length l) + 145 ≤ b → Forall (λ c, 0 < c < 256) l →
  ∃ s' scheduler process path text, budget (b - Z.of_nat (length l) - 145) s' ∧
    running s' scheduler process path text l ∧
    keeps nowhere (set_vars (set_scheduler_instance scheduler (vars s)) s) s' ∧
    ∀ x, running_memory scheduler process path text l x → ¬ stable s x.
Proof.
  intros Hb Hle Hl. set (n := Z.of_nat (length l)) in *. assert (0 ≤ n) as Hn by lia.
  destruct (make_cstr b s l Hb) as (text & s1 & B1 & C1 & K1 & _ & N1); [lia|done|]. fold n in B1, N1.
  assert (0 ≤ text < 2 ^ 64) as Rt.
  { assert (stable s1 text) as Hs by (apply (cs_stable _ _ _ C1); unfold range; lia).
    pose proof (stable_range s1 text (budget_0 _ _ B1 ltac:(lia)) Hs). lia. }
  destruct (make_pointer _ s1 8 0 text B1) as (path & s2 & B2 & O2 & V2 & K2 & N2 & R2); [lia|lia|lia|done|].
  destruct (make_pointer _ s2 48 16 path B2) as (process & s3 & B3 & O3 & V3 & K3 & N3 & R3); [lia|lia|lia|done|].
  destruct (make_pointer _ s3 24 0 process B3) as (scheduler & s4 & B4 & O4 & V4 & K4 & N4 & R4); [lia|lia|lia|done|].
  pose proof (keeps_trans _ _ _ _ K3 K4) as K34. pose proof (keeps_trans _ _ _ _ K2 K34) as K24.
  pose proof (keeps_trans _ _ _ _ K1 K24) as K14.
  set (v := set_scheduler_instance scheduler (vars s)). set (s' := set_vars v s4).
  assert (∀ x, stable s' x ↔ stable s4 x) as Hst by (intros x; symmetry; by apply stable_proper; [apply same_mem_vars|]).
  assert (∀ n va, vload n s' va = vload n s4 va) as Ev.
  { intros k va. apply vload_ext. intros i _. symmetry. by apply vbyte_proper. }
  assert (∀ t p k i, keeps nowhere t s4 → owned_range t p k → 0 ≤ i → i + 8 ≤ k → vload 8 s' (p + i) = vload 8 t (p + i)) as Hv.
  { intros t p k i K O Hi Hk. rewrite Ev. apply (vload_keeps 8 nowhere _ _ _ K). intros x Hx.
    split; [|by intros []]. apply owned_stable, O. unfold range in *. lia. }
  assert (∀ t p k, keeps nowhere t s4 → owned_range t p k → ∀ x, range p k x → stable s' x) as Ho.
  { intros t p k K O x Hx. apply Hst, owned_stable, (kp_owned _ _ _ K), O, Hx. }
  exists s', scheduler, process, path, text. split; [|split; [split|split]].
  - apply (budget_proper _ s4 s' (same_mem_vars v s4)). apply (budget_weaken _ _ _ B4). lia.
  - done.
  - done.
  - intros x Hx. apply (Ho s4 scheduler 24 (keeps_refl _ _) O4). unfold range in *. lia.
  - rewrite <- (Z.add_0_r scheduler), (Hv s4 scheduler 24 0 (keeps_refl _ _) O4) by lia. exact V4.
  - exact (Ho s3 process 48 K4 O3).
  - rewrite (Hv s3 process 48 16 K4 O3) by lia. exact V3.
  - exact (Ho s2 path 8 K34 O2).
  - rewrite <- (Z.add_0_r path), (Hv s2 path 8 0 K34 O2) by lia. exact V2.
  - pose proof (cstr_keeps _ _ _ _ _ K24 C1 ltac:(by intros ? ? [])) as [C5 C6 C7].
    split; [|exact C6|exact C7]. intros x Hx. by apply Hst, C5.
  - by apply keeps_vars.
  - intros x [Hx|[Hx|[Hx|Hx]]] Hs.
    + apply (N4 x); [unfold range in *; lia|]. apply (kp_stable _ _ _ K3), (kp_stable _ _ _ K2), (kp_stable _ _ _ K1), Hs.
    + apply (N3 x Hx). apply (kp_stable _ _ _ K2), (kp_stable _ _ _ K1), Hs.
    + apply (N2 x Hx). apply (kp_stable _ _ _ K1), Hs.
    + by apply (N1 x Hx).
Qed.

Lemma syscall_getcwd_copies_witness :
  ∃ s buffer s', handle_syscall (H := MD) (call 79 buffer 40) s = Done () s' ∧
    vbyte s' buffer = 47 ∧ vbyte s' (buffer + 3) = 114.
Proof.
  destruct (kalloc_fresh (A := KH) 16384 4 heap0 (heap0_budget 16384 ltac:(lia))) as (buffer & s1 & _ & B1 & F1); [lia|lia|].
  destruct (make_running (A := KH) _ s1 (chars "/usr") B1) as (s & scheduler & process & path & text & B & RN & K & N);
    [by vm_compute|by repeat constructor|].
  pose proof (kp_vars _ _ _ K) as Ev. cbn [vars set_vars] in Ev. rewrite <- Ev in K.
  assert (owned_range (A := KH) s1 buffer 4) as O1 by exact (fr_owned _ _ _ _ F1).
  assert (owned_range (A := KH) s buffer 4) as O.
  { intros x Hx. apply (kp_owned _ _ _ K).
    rewrite <- (owned_proper (Allocator := KH) s1 _ (same_mem_vars (vars s) s1) x x eq_refl). by apply O1. }
  destruct (syscall_getcwd_copies (A := KH) (D := MD) _ s (call 79 buffer 40) scheduler process path text (chars "/usr") B)
    as (s' & E & [_ L _ _]).
  - by vm_compute.
  - done.
  - exact RN.
  - exact O.
  - intros x Hx Hr. apply (N x); [right; right; right; unfold range in *; cbn in *; lia|]. by apply owned_stable, O1.
  - exists s, buffer, s'. split; [exact E|]. split; [rewrite <- (Z.add_0_r buffer); by apply (by_bytes _ _ _ L 0%nat)|
      by apply (by_bytes _ _ _ L 3%nat)].
Defined.
