(* ===== verification/Exception.v ===== *)
(** Traps: kernel/exception.{h,cpp}, the return to user mode in kernel/exception.s and
    kernel/arch/riscv64/processor.cpp.

    A trap arrives with its cause, the faulting value and the program counter in t0,
    t1 and t2, and the system call's arguments in a0 to a7 ([trap]).  The only cause
    from which the kernel returns is the environment call.  Callee-saved registers and
    stack pointers are in TrapEntry.v. *)

From S2P Require Import Prelude Monad Memory Sv48 Machine Layout Stdio Heap KAlloc Allocator Client Process Ext2 Ext2Walk Ext2Mount Ext2Files Loader Vfs Syscall.

(** enum Register of kernel/processor.h *)
Module Register.
Inductive t := a1 | a2 | a3 | a4 | a5 | a6 | a7.
End Register.

(** [None]: the variable that is returned was not initialised. *)
Definition read_register (regs : Register.t → Z) (reg : Register.t) : option Z :=
  match reg with
  | Register.a1 => Some (regs Register.a1)
  | Register.a2 | Register.a3 | Register.a4 | Register.a5 | Register.a6 => None
  | Register.a7 => Some (regs Register.a7)
  end.

Record trap := Trap { cause : Z; mtval : Z; mepc : Z; syscal_params : SyscallParameters }.

(** What a user program goes on with: its program counter and a0. *)
Record resumed := Resumed { rs_pc : Z; rs_a0 : Z }.

(** exception.s: SPP is cleared, sepc is the instruction behind the ecall, a0 the
    result; sret.  What it loads into s0 to s11, sp and sscratch is
    [jump_back_registers] of TrapEntry.v. *)
Definition jump_back_to_userspace (mepc_value ret_value : Z) : K resumed :=
  set_spp_zero;;
  mret (Resumed (mepc_value ⊞ 4) ret_value).

(** [while (true) {}] *)
Definition spin {T} : K T := fail NeverReturns.

(** [left_in_a0] is what the compiled handle_syscall, a void function, leaves in a0. *)
Definition machine_exception_handler `{BlockDevice} (left_in_a0 : Z) (t : trap) : K resumed :=
  let message fmt args := log LogLevel.EXCEPTION (chars fmt) args;; spin in
  if cause t =? 0x0 then message "Instruction address misaligned" []
  else if cause t =? 0x1 then message "Instruction access fault" []
  else if cause t =? 0x2 then message "Illegal instruction" []
  else if cause t =? 0x8 then
    handle_syscall (syscal_params t);;
    jump_back_to_userspace (mepc t) left_in_a0
  else if cause t =? 0xC then message "Instruction page fault at 0x%x" [mtval t]
  else if cause t =? 0xD then message "Load page fault at 0x%x" [mtval t]
  else if cause t =? 0xF then message "Store/AMO page fault at 0x%x" [mtval t]
  else message "Got an unknown exception: %i" [cause t].

Definition supervisor_exception_handler : K resumed :=
  printf (chars "is in supervisor exception handler" ++ newline) [];;
  spin.

(** The state in which user mode goes on. *)
Definition in_user_mode (s : kstate) : kstate :=
  set_vars (set_sstatus (Z.land (sstatus (vars s)) (u64 (Z.lnot (Z.shiftl 1 8)))) (vars s)) s.

Lemma in_user_mode_spp s : Z.testbit (sstatus (vars (in_user_mode s))) 8 = false.
Proof. cbn -[Z.testbit]. rewrite Z.land_spec. by rewrite andb_false_r. Qed.

Lemma in_user_mode_twice s : in_user_mode (in_user_mode s) = in_user_mode s.
Proof. unfold in_user_mode. cbn -[Z.land]. by rewrite <- Z.land_assoc, Z.land_diag. Qed.

Lemma in_user_mode_vars s s' : vars s' = vars s → vars (in_user_mode s') = vars (in_user_mode s).
Proof. intros E. cbn. by rewrite E. Qed.

(** Why a program traps, and whether it goes on. *)
Definition environment_call (t : trap) : Prop := cause t = 8.

(** What the kernel has to say about an exception it does not handle. *)
Inductive exception_text (t : trap) : list Z → Prop :=
  | et_misaligned : cause t = 0 → exception_text t (chars "Instruction address misaligned")
  | et_access : cause t = 1 → exception_text t (chars "Instruction access fault")
  | et_illegal : cause t = 2 → exception_text t (chars "Illegal instruction")
  | et_instruction_page digits : cause t = 0xC → spells_hex (mtval t) digits →
      exception_text t (chars "Instruction page fault at 0x" ++ digits)
  | et_load_page digits : cause t = 0xD → spells_hex (mtval t) digits →
      exception_text t (chars "Load page fault at 0x" ++ digits)
  | et_store_page digits : cause t = 0xF → spells_hex (mtval t) digits →
      exception_text t (chars "Store/AMO page fault at 0x" ++ digits)
  | et_unknown digits : cause t ∉ [0; 1; 2; 8; 0xC; 0xD; 0xF] → spells_dec (cause t) digits →
      exception_text t (chars "Got an unknown exception: " ++ digits).

(** The line on the console, if exceptions are logged. *)
Definition exception_line (enabled : Z) (text : list Z) : list Z :=
  if Z.land enabled (LogLevel.bits LogLevel.EXCEPTION) =? 0 then []
  else log_prefix LogLevel.EXCEPTION ++ chars " " ++ text ++ newline.

Section handler.
Context `{D : BlockDevice}.

Lemma message_spins {T} fmt args text s :
  render (λ _, None) (chars fmt) args = Some text →
  (log LogLevel.EXCEPTION (chars fmt) args;; spin (T := T)) s =
    Fault NeverReturns (emit (exception_line (logLevel s) text) s).
Proof.
  intros H. erewrite bind_done; [|apply (log_done (λ _, None)); [apply strings_at_none|]].
  - done.
  - unfold log_text, exception_line. rewrite H. by destruct (_ =? 0).
Qed.

Lemma handler_environment_call left t s s' :
  environment_call t → handle_syscall (syscal_params t) s = Done () s' →
  machine_exception_handler left t s = Done (Resumed (mepc t ⊞ 4) left) (in_user_mode s').
Proof.
  intros Ht E. unfold machine_exception_handler. rewrite Ht. cbn -[handle_syscall].
  by rewrite (bind_done _ _ _ _ _ E).
Qed.

Lemma render_after str pre conv args out digits :
  c_percent ∉ chars pre → map to_char (chars pre) = chars pre → render str (chars conv) args = Some digits →
  out = chars pre ++ digits → render str (chars pre ++ chars conv) args = Some out.
Proof. intros Hp Hm E ->. by rewrite (render_prefix _ _ _ _ _ Hp E), Hm. Qed.

(** C23: the exception handler in C++ never returns from an exception other than the
    environment call: it prints, if exceptions are logged, one line that names the
    exception, with mtval in hexadecimal for a page fault and the number of an
    exception it does not know, changes nothing else, and stays in its loop. *)
Theorem exceptions_reported left t s :
  0 ≤ mtval t < 2 ^ 64 → 0 ≤ cause t < 2 ^ 31 → ¬ environment_call t →
  ∃ text, exception_text t text ∧
    machine_exception_handler left t s = Fault NeverReturns (emit (exception_line (logLevel s) text) s).
Proof.
  intros Hm Hc Hn. unfold environment_call in Hn.
  destruct (render_hex (λ _, None) (mtval t) Hm) as (hex & Eh & Sh).
  destruct (render_decimal (λ _, None) (cause t) Hc) as (dec & Ed & Sd).
  unfold machine_exception_handler. rewrite (proj2 (Z.eqb_neq (cause t) 8)) by done.
  assert (∀ pre conv args digits, c_percent ∉ chars pre → map to_char (chars pre) = chars pre →
    render (λ _, None) (chars conv) args = Some digits →
    render (λ _, None) (chars (pre +:+ conv)) args = Some (chars pre ++ digits)) as Hr.
  { intros pre conv args digits Hp Hch E. rewrite chars_app. by apply (render_after _ pre conv args _ digits). }
  destruct (Z.eqb_spec (cause t) 0); [eexists; split; [by constructor|by apply message_spins]|].
  destruct (Z.eqb_spec (cause t) 1); [eexists; split; [by apply et_access|by apply message_spins]|].
  destruct (Z.eqb_spec (cause t) 2); [eexists; split; [by apply et_illegal|by apply message_spins]|].
  destruct (Z.eqb_spec (cause t) 0xC).
  { exists (chars "Instruction page fault at 0x" ++ hex). split; [by apply et_instruction_page|].
    apply message_spins, (Hr "Instruction page fault at 0x" "%x"); [apply (bool_decide_unpack _); by vm_compute|done|done]. }
  destruct (Z.eqb_spec (cause t) 0xD).
  { exists (chars "Load page fault at 0x" ++ hex). split; [by apply et_load_page|].
    apply message_spins, (Hr "Load page fault at 0x" "%x"); [apply (bool_decide_unpack _); by vm_compute|done|done]. }
  destruct (Z.eqb_spec (cause t) 0xF).
  { exists (chars "Store/AMO page fault at 0x" ++ hex). split; [by apply et_store_page|].
    apply message_spins, (Hr "Store/AMO page fault at 0x" "%x"); [apply (bool_decide_unpack _); by vm_compute|done|done]. }
  exists (chars "Got an unknown exception: " ++ dec). split; [apply et_unknown; [set_solver|done]|].
  apply message_spins, (Hr "Got an unknown exception: " "%i"); [apply (bool_decide_unpack _); by vm_compute|done|done].
Qed.

(** A kernel-mode exception is final too. *)
Lemma supervisor_exception_final s : ∃ o, supervisor_exception_handler s = Fault NeverReturns (emit o s).
Proof.
  unfold supervisor_exception_handler.
  destruct (render_total (λ _, None) (chars "is in supervisor exception handler" ++ newline) [] eq_refl) as [o E].
  exists o. rewrite (bind_done _ _ _ () (emit o s)); [done|]. by apply (vprintf_done (λ _, None)); [apply strings_at_none|].
Qed.
End handler.

(** * Witness *)

Lemma load_fault_text t text : cause t = 0xD → exception_text t text →
  ∃ digits, spells_hex (mtval t) digits ∧ text = chars "Load page fault at 0x" ++ digits.
Proof.
  intros Ec Ht. inversion Ht as [E|E|E|digits E H|digits E H|digits E H|digits E H]; try (exfalso; lia).
  - by exists digits.
  - rewrite Ec in E. exfalso. apply E. set_solver.
Qed.

(** A load page fault at 0x1000. *)
Lemma exceptions_reported_witness :
  ∃ digits, spells_hex 0x1000 digits ∧
    machine_exception_handler (H := memory_read sample_disk) 7 (Trap 0xD 0x1000 0x10078 (call 0 0 0)) heap0 =
      Fault NeverReturns (emit (exception_line (logLevel heap0) (chars "Load page fault at 0x" ++ digits)) heap0).
Proof.
  destruct (exceptions_reported (D := memory_read sample_disk) 7 (Trap 0xD 0x1000 0x10078 (call 0 0 0)) heap0)
    as (text & Ht & E); [done|done|done|].
  destruct (load_fault_text (Trap 0xD 0x1000 0x10078 (call 0 0 0)) text eq_refl Ht) as (digits & Hd & ->). exists digits. split; [exact Hd|exact E].
Defined.
