(* ===== verification/TrapEntry.v ===== *)
(** The assembly around the exception handler: jump_to_machine_exception_handler in
    kernel/boot.s, jump_back_to_userspace in kernel/exception.s and switch_to_process in
    kernel/process/process.s, with the registers they move.

    Exception.v takes a trap as the handler in C++ sees it.  Here is what happens before
    and after: a trap arrives in machine mode, where an access is physical, and its
    code works on the stack pointer that switch_to_process has left in sscratch, which is
    an address behind VIRTUAL_OFFSET. *)

From S2P Require Import Prelude Monad Memory Sv48 Machine Layout Samples Stdio PhysAlloc BootTables Heap KAlloc Allocator Client Process Loader Syscall Exception.

(** * The code *)

(** The registers: s0 to s11, the ones the trap code uses, and where execution goes on. *)
Record hart := Hart {
  h_s : list Z; h_sp : Z; h_sscratch : Z;
  h_t0 : Z; h_t1 : Z; h_t2 : Z; h_a0 : Z; h_a2 : Z;
  h_mcause : Z; h_mepc : Z; h_mstatus : Z; h_pc : Z
}.

(** Where the physical address space has memory; Sv48 machines have 56-bit physical
    addresses. *)
Class PhysicalMap := {
  backed : Z → bool;
  backed_range a : backed a = true → 0 ≤ a < 2 ^ 56
}.

(** sd in machine mode. *)
Definition machine_sd `{PhysicalMap} (a v : Z) : K () :=
  if forallb backed (zseq a 8) then modify (λ s, set_pmem (store 8 (pmem s) a v) s)
  else fail (AccessFault a).

(** sd s0, 0(sp); sd s1, 8(sp); ... and ld s0, 0(sp); ... *)
Fixpoint save_registers `{PhysicalMap} (a : Z) (l : list Z) : K () :=
  match l with
  | [] => mret ()
  | v :: l' => machine_sd a v;; save_registers (a ⊞ 8) l'
  end.
Fixpoint load_registers (n : nat) (a : Z) : K (list Z) :=
  match n with
  | O => mret []
  | S n' => v ← load64 a; l ← load_registers n' (a ⊞ 8); mret (v :: l)
  end.

(** boot.s; [handler] is the address of machine_exception_handler as la forms it. *)
Definition jump_to_machine_exception_handler `{PhysicalMap} (handler : Z) (h : hart) : K hart :=
  let t0 := h_mcause h in
  let t1 := h_sp h in
  let sp := h_sscratch h in
  let sscratch := t1 in
  let sp := sp ⊟ 96 in
  save_registers sp (h_s h);;
  let t1 := h_mepc h in
  let t2 := h_mepc h in
  let mepc := virtual_offset_register ⊞ handler in
  let mstatus := Z.lor (h_mstatus h) (Z.shiftl 1 11) in
  mret (Hart (h_s h) sp sscratch t0 t1 t2 (h_a0 h) (h_a2 h) (h_mcause h) mepc mstatus mepc).

(** boot.s, for traps of the kernel itself: it goes on in the handler. *)
Definition jump_to_supervisor_exception_handler : K resumed := supervisor_exception_handler.

(** What machine_exception_handler reads back from the registers. *)
Definition trap_of (h : hart) (params : SyscallParameters) : trap :=
  Trap (h_t0 h) (h_t1 h) (h_t2 h) params.

(** exception.s, called with the stack pointer of its caller; [address] and [ret_value]
    arrive in a0 and a1. *)
Definition jump_back_registers (address ret_value : Z) (h : hart) : K hart :=
  s_regs ← load_registers 12 (h_sp h);
  let sp := h_sp h ⊞ 96 in
  set_spp_zero;;
  let t1 := sp in
  let sp := h_sscratch h in
  let sscratch := t1 in
  let t0 := address ⊞ 4 in
  mret (Hart s_regs sp sscratch t0 t1 (h_t2 h) ret_value (h_a2 h) (h_mcause h) (h_mepc h) (h_mstatus h) t0).

(** process.s: a0, a1 and a2 are the arguments. *)
Definition switch_registers (entry stack_pointer heap_start : Z) (h : hart) : hart :=
  Hart (h_s h) stack_pointer (h_sp h) (h_t0 h) (h_t1 h) (h_t2 h) entry heap_start
    (h_mcause h) (h_mepc h) (h_mstatus h) entry.

(** * Properties *)

(** A program cannot write sscratch: between switch_to_process and a trap its registers
    change, this one does not. *)
Definition runs_until_trap (h h' : hart) : Prop :=
  h_sscratch h' = h_sscratch h ∧ length (h_s h') = 12%nat.

Lemma save_faults `{PhysicalMap} a v l s : 2 ^ 56 ≤ a → save_registers a (v :: l) s = Fault (AccessFault a) s.
Proof.
  intros Ha. cbn [save_registers]. apply bind_fault. unfold machine_sd.
  change (zseq a 8) with ((a + 0) :: ((λ i, a + Z.of_nat i) <$> seq 1 7)). cbn [forallb].
  destruct (backed (a + 0)) eqn:E; [|done]. apply backed_range in E. lia.
Qed.

Lemma first_store_faults `{PhysicalMap} `{BootLabels} mst depth handler entry stack heap h0 h s :
  RAM_ORIGIN ≤ stacks → stacks + STACK_SIZE ≤ RAM_ORIGIN + RAM_LENGTH → 0 ≤ depth ≤ STACK_SIZE →
  h_sp h0 = sp (boot_entry mst) - depth → runs_until_trap (switch_registers entry stack heap h0) h →
  jump_to_machine_exception_handler handler h s = Fault (AccessFault (h_sp h0 - 96)) s.
Proof.
  intros Hlo Hhi Hd E0 [Hs Hl]. unfold jump_to_machine_exception_handler. cbn [h_sscratch switch_registers] in Hs.
  unfold RAM_ORIGIN, RAM_LENGTH, STACK_SIZE in *.
  assert (h_sp h0 = stacks + 8192 + VIRTUAL_OFFSET - depth) as Esp.
  { rewrite E0. cbn [sp boot_entry]. unfold STACK_SIZE, VIRTUAL_OFFSET.
    by rewrite (u64_small (stacks + 8192)), u64_small by lia. }
  rewrite Hs, u64_small by (rewrite Esp; unfold VIRTUAL_OFFSET; lia).
  destruct (h_s h) as [|v l]; [done|]. apply bind_fault, save_faults. rewrite Esp. unfold VIRTUAL_OFFSET. simpl. lia.
Qed.

(** C24: a trap does not reach the handler.  The stack pointer boot.s prepares lies behind
    VIRTUAL_OFFSET, switch_to_process puts it (lower by the [depth] bytes in use) into
    sscratch, and the first sd of the trap's entry in machine mode goes to that number
    as a physical address, where no machine has memory. *)
Theorem trap_entry_faults `{PhysicalMap} `{BootLabels} mst depth handler entry stack heap h0 h s :
  RAM_ORIGIN ≤ stacks → stacks + STACK_SIZE ≤ RAM_ORIGIN + RAM_LENGTH → 0 ≤ depth ≤ STACK_SIZE →
  h_sp h0 = sp (boot_entry mst) - depth → runs_until_trap (switch_registers entry stack heap h0) h →
  jump_to_machine_exception_handler handler h s = Fault (AccessFault (h_sp h0 - 96)) s.
Proof. apply first_store_faults. Qed.

Lemma load_registers_window n s a :
  0 ≤ a → a + 8 * Z.of_nat n ≤ WINDOW_SIZE →
  load_registers n (a + VIRTUAL_OFFSET) s = Done ((λ i, load 8 (pmem s) (a + 8 * i)) <$> zseq 0 n) s.
Proof.
  revert a. induction n as [|n IH]; intros a Ha Hn; [done|]. cbn [load_registers].
  rewrite (bind_done _ _ _ _ _ (loadv_window 8 s a ltac:(lia) ltac:(lia))).
  replace (a + VIRTUAL_OFFSET ⊞ 8) with (a + 8 + VIRTUAL_OFFSET)
    by (unfold WINDOW_SIZE, VIRTUAL_OFFSET in *; rewrite u64_small; lia).
  rewrite (bind_done _ _ _ _ _ (IH (a + 8) ltac:(lia) ltac:(lia))). unfold mret, M_ret. f_equal.
  rewrite zseq_S. cbn [fmap list_fmap]. f_equal; [by rewrite Z.mul_0_r, Z.add_0_r|]. unfold zseq. rewrite <- !list_fmap_compose.
  apply list_fmap_ext. intros i x _. unfold compose. f_equal. lia.
Qed.

(** C25: the return to the program.  It ends behind the ecall, in user mode, with the
    program's stack pointer and the result in a0; but as the handler has taken [frame]
    bytes below the 96 bytes of the entry, whose stack pointer was [k], s0 to s11 come
    from the handler's frame, and the kernel's stack of the next trap begins [frame]
    bytes lower. *)
Theorem jump_back_registers_effect address ret_value h s k frame :
  VIRTUAL_OFFSET + 96 + frame ≤ k ≤ VIRTUAL_OFFSET + WINDOW_SIZE → 0 ≤ frame → h_sp h = k - 96 - frame →
  ∃ h', jump_back_registers address ret_value h s = Done h' (in_user_mode s) ∧
    h_pc h' = address ⊞ 4 ∧ h_a0 h' = ret_value ∧ h_sp h' = h_sscratch h ∧ h_sscratch h' = k - frame ∧
    h_s h' = (λ i, load 8 (pmem s) (k - frame - 96 - VIRTUAL_OFFSET + 8 * i)) <$> zseq 0 12.
Proof.
  intros Hk Hf Esp. unfold jump_back_registers. rewrite Esp.
  replace (k - 96 - frame) with (k - frame - 96 - VIRTUAL_OFFSET + VIRTUAL_OFFSET) by lia.
  rewrite (bind_done _ _ _ _ _ (load_registers_window 12 s (k - frame - 96 - VIRTUAL_OFFSET) ltac:(lia) ltac:(lia))).
  replace (k - frame - 96 - VIRTUAL_OFFSET + VIRTUAL_OFFSET ⊞ 96) with (k - frame)
    by (unfold VIRTUAL_OFFSET, WINDOW_SIZE in *; rewrite u64_small; lia).
  eexists. split; [reflexivity|]. by split_and!.
Qed.

(** * Witnesses *)

(** The RAM of the machine and nothing else. *)
#[export] Program Instance ram_only : PhysicalMap := {|
  backed a := (RAM_ORIGIN <=? a) && (a <? RAM_ORIGIN + RAM_LENGTH)
|}.
Next Obligation. intros a [H1 H2]%andb_true_iff. unfold RAM_ORIGIN, RAM_LENGTH in *. simpl. lia. Qed.

Definition zero_hart (sp : Z) : hart := Hart (replicate 12 0) sp 0 0 0 0 0 0 8 0x10078 0 0.

Lemma trap_entry_faults_witness :
  jump_to_machine_exception_handler 0x80004000
    (Hart (replicate 12 7) 0x11000 (VIRTUAL_OFFSET + 0x80002F00) 1 2 3 4 5 8 0x10078 0 0x10078) reset
  = Fault (AccessFault (VIRTUAL_OFFSET + 0x80002F00 - 96)) reset.
Proof.
  by apply (trap_entry_faults (H0 := labels) 0 256 0x80004000 0x10000 0x11000 0x12000
    (zero_hart (VIRTUAL_OFFSET + 0x80002F00))).
Defined.

(** A handler with a frame of 112 bytes. *)
Lemma jump_back_registers_effect_witness :
  ∃ h', jump_back_registers 0x10078 3 (zero_hart (VIRTUAL_OFFSET + 0x80002F00 - 96 - 112)) reset =
      Done h' (in_user_mode reset) ∧ h_pc h' = 0x1007C ∧ h_sscratch h' = VIRTUAL_OFFSET + 0x80002E90.
Proof.
  destruct (jump_back_registers_effect 0x10078 3 (zero_hart (VIRTUAL_OFFSET + 0x80002F00 - 96 - 112)) reset
    (VIRTUAL_OFFSET + 0x80002F00) 112) as (h' & E & E1 & _ & _ & E2 & _).
  - unfold WINDOW_SIZE. lia.
  - lia.
  - done.
  - exists h'. split; [exact E|]. split; [exact E1|exact E2].
Defined.
