(* ===== verification/System.v ===== *)
(** A session of a running program: any number of its system calls, one after the other.

    The theorems of Syscall.v and Vfs.v are about one call.  Here they are put together:
    [session] is what holds of the kernel's memory between two calls, [session_step] the
    steps that lead from one such state to the next.  A call is what the C++ code does,
    [handle_syscall]; the assembly before and behind it is in TrapEntry.v, with the
    faults it has, and appears here only as a change of sstatus. *)

From stdpp Require Import relations.
From S2P Require Import Prelude Monad Memory Sv48 Machine Layout Samples Stdio Heap KAlloc Allocator Client Process Ext2 Ext2Walk Ext2Mount Ext2Files Loader Vfs Syscall Exception.

(** * States and steps *)

Section session.
Context `{A : Allocator} `{D : BlockDevice} (disk : Z → Z) (device : Z) {DL : DiskLaws disk device}.
(** The mounted file system, the VFS object, the running process with its working
    directory, and the memory of the program. *)
Context (F : Z → Prop) (fs : Z) (g : geometry) (GO : geometry_ok g) (vfs : Z).
Context (scheduler process path text : Z) (cwd : list Z) (user : Z → Prop).

Record session (b : Z) (s : kstate) : Prop := Session {
  se_budget : budget b s;
  se_pos : 0 ≤ b;
  se_running : running s scheduler process path text cwd;
  se_mounted : mounted disk device F fs g s;
  se_ext2 : ext2_instance (vars s) = fs;
  se_vfs : ∃ n, vfs_at s vfs n;
  se_user : ∀ x, user x → owned s x
}.

(** None of these share memory. *)
Record apart : Prop := Apart {
  ap_vfs : client_mem disk device F vfs sizeof_VFS;
  ap_running : ∀ x, running_memory scheduler process path text cwd x → ¬ driver x ∧ ¬ range vfs sizeof_VFS x;
  ap_user : ∀ x, user x → ¬ F x ∧ ¬ driver x ∧ ¬ range vfs sizeof_VFS x ∧
              ¬ running_memory scheduler process path text cwd x
}.

(** A system call a program may make, and what it takes of the heap: buffers are the
    program's own memory, a line is waiting when it reads, a path is one of the file
    system; anything goes for a number that is no system call. *)
Inductive may_call (b : Z) (s : kstate) (params : SyscallParameters) : Z → Prop :=
  | mc_write l : a7 params = 1 → a2 params = Z.of_nat (length l) → Z.of_nat (length l) < 2 ^ 64 - 1 →
      bytes_at s (a1 params) l → Z.of_nat (length l) + 17 ≤ b →
      may_call b s params (Z.of_nat (length l) + 17)
  | mc_read line rest tail stored echo : a7 params = 0 → 0 ≤ a2 params < 2 ^ 64 →
      (∀ x, range (a1 params) (a2 params) x → user x) → Forall plain_char line →
      line_ends (a2 params) line rest tail stored echo → console_in s = line ++ tail →
      may_call b s params 0
  | mc_open leading trailing names r : a7 params = 2 → cstr s (a0 params) (path_text leading trailing names) →
      (∀ x, range (a0 params) (Z.of_nat (length (path_text leading trailing names)) + 1) x → ¬ driver x) →
      names ≠ [] → Forall component names → open_cost disk device g names ≤ b →
      lookup_names disk g (root_inode g) names = Some r →
      may_call b s params (open_cost disk device g names)
  | mc_getcwd : a7 params = 79 → (∀ x, range (a0 params) (Z.of_nat (length cwd)) x → user x) →
      may_call b s params 0
  | mc_other : a7 params ∉ [0; 1; 2; 79] → may_call b s params 0.

(** The program computes, somebody types, a system call of the program is handled, or the
    assembly around it sets sstatus. *)
Inductive session_step : Z * kstate → Z * kstate → Prop :=
  | ss_program b s s' : keeps user s s' → budget b s' →
      console_in s' = console_in s → console_out s' = console_out s → session_step (b, s) (b, s')
  | ss_typed b s l : session_step (b, s) (b, set_console (console_out s) (console_in s ++ l) s)
  | ss_call b s params cost s' : may_call b s params cost →
      handle_syscall params s = Done () s' → session_step (b, s) (b - cost, s')
  | ss_sstatus b s w : session_step (b, s) (b, set_vars (set_sstatus w (vars s)) s).

(** * Preservation *)

Context (AP : apart).

(** What changes program memory only. *)
Lemma session_keeps P b b' s s' :
  session b s → keeps P s s' → (∀ x, P x → user x) → budget b' s' → 0 ≤ b' → session b' s'.
Proof using GO AP.
  intros [_ _ RN M Ei [n V] U] K HP Hb Hb0. split; try done.
  - apply (running_apart P s); [done| |done]. intros x Hx. by destruct (ap_user AP x (HP x Hx)) as (_ & _ & _ & H).
  - apply (mounted_keeps disk device F fs g GO P s); [done| |done]. intros x Hx.
    destruct (ap_user AP x (HP x Hx)) as (H1 & H2 & _). done.
  - by rewrite (kp_vars _ _ _ K).
  - exists n. apply (vfs_at_keeps P s); [done| |done]. intros x Hx Hp. by destruct (ap_user AP x (HP x Hp)) as (_ & _ & H & _).
  - intros x Hx. by apply (kp_owned _ _ _ K), U.
Qed.

(** open changes the driver's memory and the counter. *)
Lemma session_opened b s s' names n :
  session b s → opened disk device F fs g b names vfs n s s' → open_cost disk device g names ≤ b →
  session (b - open_cost disk device g names) s'.
Proof using AP.
  intros [_ _ RN M Ei _ U] [B V M' K] Hle. split; try done; [lia| | | |].
  - apply (running_apart _ s _ _ _ _ _ _ K); [|done]. intros x Hw Hr. destruct (ap_running AP x Hr) as [H1 H2].
    destruct Hw as [Hd|Hc]; [done|]. apply H2. unfold counter_of, range, sizeof_VFS in *. lia.
  - by rewrite (kp_vars _ _ _ K).
  - by exists (n ⊞ 1).
  - intros x Hx. by apply (kp_owned _ _ _ K), U.
Qed.

(** The kernel's objects do not depend on sstatus. *)
Lemma session_sstatus b w s : session b s → session b (set_vars (set_sstatus w (vars s)) s).
Proof using Type.
  intros [Hb Hb0 [C I S1 E1 S2 E2 S3 E3 T] M Ei [n V] U].
  set (v := set_sstatus _ _). pose proof (same_mem_vars v s) as SM.
  assert (∀ x, stable s x → stable (set_vars v s) x) as Hst by (intros x; by rewrite (stable_proper _ _ SM x x eq_refl)).
  assert (∀ x, owned s x → owned (set_vars v s) x) as Hown by (intros x; by rewrite (owned_proper _ _ SM x x eq_refl)).
  assert (∀ k va, vload k (set_vars v s) va = vload k s va) as Hv.
  { intros k va. apply vload_ext. intros i _. symmetry. by apply vbyte_proper. }
  split; try done.
  - by rewrite <- (budget_proper _ _ _ SM).
  - split; try done; rewrite ?Hv; auto. by apply cstr_vars.
  - by apply mounted_vars.
  - exists n. by apply vfs_at_vars.
  - intros x Hx. by apply Hown, U.
Qed.

Lemma stored_length size line rest tail stored echo :
  line_ends size line rest tail stored echo → Z.of_nat (length stored) ≤ size.
Proof. destruct 1; rewrite ?length_app; cbn; lia. Qed.

(** Every call a program may make ends and preserves the session. *)
Lemma wp_call b s params cost :
  session b s → may_call b s params cost → wp (handle_syscall params) (λ _ s', session (b - cost) s') s.
Proof using GO AP.
  intros SE. pose proof SE as [Hb Hb0 RN M Ei [n V] U]. destruct 1 as
    [l E7 E2 Hl L Hle|line rest tail stored echo E7 E2 HU HF HE Hin|leading trailing names r E7 C Hp Hne HN Hle Hr|E7 HU|E7].
  - apply (wp_handle_write b s params l); try done. intros s' [B' K _ _ _].
    replace (b - (Z.of_nat (length l) + 17)) with (b - Z.of_nat (length l) - 17) by lia.
    apply (session_keeps nowhere b _ s); [done|done|by intros x []|done|lia].
  - apply (wp_handle_read b s params line rest tail stored echo); try done; [by intros x Hx; apply U, HU|].
    intros s' o [B' _ _ _ K]. rewrite Z.sub_0_r. apply (session_keeps _ b b s _ SE K); [|done|done].
    intros x Hx. apply HU. pose proof (stored_length _ _ _ _ _ _ HE). unfold range in *. lia.
  - destruct (syscall_open_opens disk device F fs g GO b s params vfs n leading trailing names r)
      as (s' & E & O); try done; [apply AP|]. eapply wp_done; [exact E|]. by apply (session_opened b s s' names n).
  - apply (wp_handle_getcwd b s params scheduler process path text cwd); try done.
    + intros x Hx. by apply U, HU.
    + intros x Hx Hr. destruct (ap_user AP x (HU x Hr)) as (_ & _ & _ & H). apply H. right; right; right. unfold range in *. lia.
    + intros s' [B' _ K _]. rewrite Z.sub_0_r. by apply (session_keeps _ b b s _ SE K).
  - destruct (syscall_unknown s params E7) as [o E]. eapply wp_done; [exact E|]. rewrite Z.sub_0_r.
    apply (session_keeps nowhere b b s); [done|apply keeps_emit|by intros x []|by apply budget_emit|done].
Qed.

Lemma session_call b s params cost :
  session b s → may_call b s params cost → ∃ s', handle_syscall params s = Done () s' ∧ session (b - cost) s'.
Proof using GO AP.
  intros SE MC. destruct (wp_inv _ _ _ (wp_call b s params cost SE MC)) as ([] & s' & E & SE'). by exists s'.
Qed.

Lemma session_preserved st st' : session_step st st' → session (fst st) (snd st) → session (fst st') (snd st').
Proof using GO AP.
  destruct 1 as [b s s' K B' _ _|b s l|b s params cost s' MC E|b s w]; cbn [fst snd]; intros SE.
  - apply (session_keeps user b b s); try done. by apply (se_pos b s).
  - destruct SE as [Hb Hb0 RN M Ei V U]. apply (session_keeps nowhere b b s); try done; [apply keeps_console|].
    by rewrite <- (budget_proper b _ _ (same_mem_console _ _ s)).
  - destruct (session_call b s params cost SE MC) as (s2 & E2 & SE'). congruence.
  - by apply session_sstatus.
Qed.

Lemma session_reached st st' : rtc session_step st st' → session (fst st) (snd st) → session (fst st') (snd st').
Proof using GO AP.
  intros Hrun. induction Hrun as [st|st st1 st2 Hstep _ IH]; [done|]. intros SE. by apply IH, (session_preserved st).
Qed.

(** C4: the system calls of a program do not get the kernel stuck: whatever the program
    computes in its own memory, whatever is typed, and whichever of the calls it may make
    within the heap's budget handle_syscall is entered for, in any order, the kernel's
    objects stay as its code needs them, and from every state that is reached so
    handle_syscall ends for each further call the program may make.  This is about the
    C++ code; how it is entered and left is not part of it. *)
Theorem system_calls_safe st st' :
  rtc session_step st st' → session (fst st) (snd st) →
  session (fst st') (snd st') ∧
  ∀ params cost, may_call (fst st') (snd st') params cost →
    ∃ s', handle_syscall params (snd st') = Done () s' ∧
      session_step st' (fst st' - cost, s') ∧ session (fst st' - cost) s'.
Proof using GO AP.
  intros Hrun SE. pose proof (session_reached st st' Hrun SE) as SE'.
  split; [done|]. intros params cost MC. destruct (session_call _ _ params cost SE' MC) as (s' & E & SE2).
  exists s'. split; [done|]. split; [|done]. destruct st' as [b s]. by apply (ss_call b s params).
Qed.
End session.

(** * Witness *)

#[local] Abbreviation KH := (kernel_heap 64 0x80208000).
#[local] Abbreviation MD := (memory_read sample_disk).
#[local] Abbreviation ML := (memory_laws (A := KH) sample_disk sample_disk_byte 0).
#[local] Abbreviation sample_session := (session (A := KH) (D := MD) sample_disk 0 (DL := ML)).
#[local] Abbreviation sample_g := (disk_geometry sample_disk).

(** The sample image mounted, a VFS, a process in /usr whose memory is one block of 64
    bytes, and the string "/b.txt". *)
Lemma sample_session_starts :
  ∃ s F fs vfs scheduler process path text p name,
    sample_session F fs sample_g vfs scheduler process path text (chars "/usr") (range p 64) 13000 s ∧
    apart (A := KH) (D := MD) sample_disk 0 (DL := ML) F vfs scheduler process path text (chars "/usr") (range p 64) ∧
    cstr (A := KH) s name (path_text true false [b_txt]).
Proof.
  destruct sample_vfs as (s & fs & F & vfs & name & Hb & M & Ei & V & Hc & C).
  pose proof (disk_geometry_ok (A := KH) (D := MD) sample_disk 0 (DL := ML) sample_disk_ok) as GO.
  destruct (make_running (A := KH) _ s (chars "/usr") Hb) as (s1 & scheduler & process & path & text & B1 & RN & K1 & N1);
    [by vm_compute|by repeat constructor|].
  destruct (kalloc_fresh (A := KH) _ 64 s1 B1) as (p & s2 & _ & B2 & F2); [lia|by vm_compute|].
  pose proof (fr_keeps _ _ _ _ F2) as K2. set (v := set_scheduler_instance scheduler (vars s)) in K1.
  pose proof (same_mem_vars v s) as SM. pose proof (ea_stable _ _ _ _ _ (mo_object _ _ _ _ _ _ M)) as HF.
  assert (∀ x, stable (Allocator := KH) s x → stable (Allocator := KH) s1 x) as Hst.
  { intros x Hx. apply (kp_stable _ _ _ K1). by rewrite <- (stable_proper (Allocator := KH) _ _ SM x x eq_refl). }
  assert (∀ x, range vfs sizeof_VFS x → stable (Allocator := KH) s x) as Hvfs by (intros x Hx; by apply owned_stable, (va_object _ _ _ V)).
  exists s2, F, fs, vfs, scheduler, process, path, text, p, name. split; [split|split; [split|]].
  - apply (budget_weaken (Allocator := KH) _ _ _ B2). by vm_compute.
  - lia.
  - by apply (running_keeps (A := KH) s1).
  - apply (mounted_keeps (A := KH) (D := MD) sample_disk 0 (DL := ML) F fs _ GO nowhere s1); [exact K2|by intros ? []|].
    apply (mounted_keeps (A := KH) (D := MD) sample_disk 0 (DL := ML) F fs _ GO nowhere (set_vars v s)); [exact K1|by intros ? []|].
    by apply mounted_vars.
  - rewrite (kp_vars _ _ _ K2), (kp_vars _ _ _ K1). exact Ei.
  - exists 3. apply (vfs_at_keeps (A := KH) nowhere s1); [exact K2|by intros ? ? []|].
    apply (vfs_at_keeps (A := KH) nowhere (set_vars v s)); [exact K1|by intros ? ? []|]. by apply vfs_at_vars.
  - exact (fr_owned _ _ _ _ F2).
  - exact Hc.
  - intros x Hx. split; [by intros []|]. intros Hr. by apply (N1 x Hx), Hvfs.
  - intros x Hx. pose proof (fr_new _ _ _ _ F2 x Hx) as Hn. split_and!.
    + intros Hf. by apply Hn, Hst, HF.
    + by intros [].
    + intros Hr. by apply Hn, Hst, Hvfs.
    + intros [Hr|[Hr|[Hr|Hr]]]; apply Hn; revert x Hr Hx Hn; intros x Hr _ _.
      * apply (rn_scheduler _ _ _ _ _ _ RN). exact Hr.
      * apply (rn_process _ _ _ _ _ _ RN). exact Hr.
      * apply (rn_path _ _ _ _ _ _ RN). exact Hr.
      * apply (cs_stable _ _ _ (rn_chars _ _ _ _ _ _ RN)). exact Hr.
  - apply (cstr_keeps (A := KH) nowhere s1); [exact K2| |by intros ? ? []].
    apply (cstr_keeps (A := KH) nowhere (set_vars v s)); [exact K1| |by intros ? ? []]. by apply cstr_vars.
Qed.

(** The program opens the file, somebody types, and it asks for its directory. *)
Lemma system_calls_safe_witness :
  ∃ s p name s1 s2, handle_syscall (H := MD) (call 2 name 0) s = Done () s1 ∧
    handle_syscall (H := MD) (call 79 p 64) (set_console (console_out s1) (console_in s1 ++ chars "ls") s1) = Done () s2.
Proof.
  destruct sample_session_starts as (s & F & fs & vfs & scheduler & process & path & text & p & name & SE & AP & C).
  pose proof (disk_geometry_ok (A := KH) (D := MD) sample_disk 0 (DL := ML) sample_disk_ok) as GO.
  destruct (system_calls_safe (A := KH) (D := MD) sample_disk 0 (DL := ML) F fs sample_g GO vfs scheduler process path text
    (chars "/usr") (range p 64) AP (13000, s) (13000, s) (rtc_refl _ _) SE) as [_ Hcall].
  destruct (Hcall (call 2 name 0) (open_cost sample_disk 0 (DL := ML) sample_g [b_txt])) as (s1 & E1 & St1 & _).
  { apply (mc_open (A := KH) (D := MD) _ _ _ _ _ _ _ _ true false [b_txt] None).
    - done.
    - exact C.
    - by intros x _ [].
    - done.
    - repeat constructor; [done|apply (bool_decide_unpack _); by vm_compute|apply (bool_decide_unpack _); by vm_compute].
    - by vm_compute.
    - by vm_compute. }
  clear Hcall. cbn [fst snd] in *.
  destruct (system_calls_safe (A := KH) (D := MD) sample_disk 0 (DL := ML) F fs sample_g GO vfs scheduler process path text
    (chars "/usr") (range p 64) AP (13000, s)
    (13000 - open_cost sample_disk 0 (DL := ML) sample_g [b_txt], set_console (console_out s1) (console_in s1 ++ chars "ls") s1))
    as [_ Hcall]; [|exact SE|].
  { eapply rtc_l; [exact St1|]. apply rtc_once. apply ss_typed. }
  destruct (Hcall (call 79 p 64) 0) as (s2 & E2 & _ & _).
  { apply mc_getcwd; [done|]. intros x Hx. cbn in Hx. unfold range in *. lia. }
  exists s, p, name, s1, s2. split; [exact E1|exact E2].
Defined.
