(* ===== verification/FirstProcess.v ===== *)
(** From the loader to the running program: where the last statements of os_start
    leave the kernel, a session of System.v begins. *)

From stdpp Require Import relations.
From S2P Require Import Prelude Monad Memory Sv48 Machine Layout Samples Stdio PhysAlloc Paging AddressSpace Heap KAlloc Allocator Client Dma UserSpace Process Ext2 Ext2Walk Ext2Mount Ext2Files Loader Programs ProgramsSample Vfs Syscall Exception System.

(** What one memory interface says holds in another that knows more memory. *)
Section wider.
Context `{D : BlockDevice} (disk : Z → Z) (device : Z) (A B : Allocator).
Context {DA : DiskLaws (A := A) disk device} {DB : DiskLaws (A := B) disk device}.

(** The same driver, whichever memory it lives next to. *)
Record same_driver : Prop := SameDriver {
  sd_driver : ∀ x, driver (DiskLaws := DB) x → driver (DiskLaws := DA) x;
  sd_ready : ∀ s, ready (DiskLaws := DA) s → ready (DiskLaws := DB) s
}.

Lemma mounted_wider F fs g s :
  same_driver → (∀ x, stable (Allocator := A) s x → stable (Allocator := B) s x) →
  mounted (A := A) (DL := DA) disk device F fs g s → mounted (A := B) (DL := DB) disk device F fs g s.
Proof using Type.
  intros SD Hst [[E1 E2 E3 E4 E5 E6] R Ap]. split; [split; try done|by apply (sd_ready SD)|].
  - intros x Hx. by apply Hst, E1.
  - intros x Hx Hd. by apply (Ap x Hx), (sd_driver SD).
Qed.

Lemma vfs_at_wider s vfs n :
  (∀ x, owned (Allocator := A) s x → owned (Allocator := B) s x) → vfs_at (A := A) s vfs n → vfs_at (A := B) s vfs n.
Proof using Type. intros Ho [O V I]. split; [|done|done]. intros x Hx. by apply Ho, O. Qed.
End wider.

Section first.
Context (N : nat) (root : Z) `{D : BlockDevice} (disk : Z → Z) (device : Z) (k : nat).
#[local] Abbreviation KH := (kernel_heap N root).
#[local] Abbreviation A1 := (user_heap N root k (mapped_in no_pages)).
Context {DL : DiskLaws (A := A1) disk device}.
Context (F : Z → Prop) (fs : Z) (g : geometry) (GO : geometry_ok g) (names : list (list Z)) (vfs : Z).
#[local] Abbreviation file := (file_of disk g names).
(** The memory of the program, and the kernel next to it. *)
#[local] Abbreviation image := (user_image file no_pages (phdrs file)).
#[local] Abbreviation A2 := (user_heap N root 0 (mapped_in image)).
Context {DL2 : DiskLaws (A := A2) disk device} (SD : same_driver disk device A1 A2).

(** What os_start has made before: the VFS and the scheduler, each with memory of its
    own. *)
Record objects_made (this : Z) (s : kstate) : Prop := ObjectsMade {
  om_created : created (vars s) = true;
  om_scheduler : scheduler_instance (vars s) = this;
  om_vfs : ∃ n, vfs_at (A := KH) s vfs n;
  om_vfs_apart : ∀ x, range vfs sizeof_VFS x → ¬ F x ∧ ¬ driver (DiskLaws := DL) x ∧ ¬ range this 24 x;
  om_ext2_apart : ∀ x, F x → ¬ range this 24 x
}.

Section state.
Context (b : Z) (path : Z) (leading trailing : bool) (r : option Z) (home : Z) (lhome : list Z) (this id : Z) (s : kstate).
Context (SP : submit_pre N root disk device k no_pages F fs g (DL := DL) b path leading trailing names r home lhome this [] id s).
Context (OM : objects_made this s).
Context (s' : kstate) (process dir text : Z).
Context (ST : started N root disk device k no_pages F fs g (DL := DL) b names lhome this id s s' process dir text).

Definition left_over : Z :=
  b - read_program_cost N root disk device k no_pages g (DL := DL) names - create_cost (length lhome).

Lemma before_heap x : stable (Allocator := A1) s x → heap_stable s x.
Proof using Type. intros [Hx|Hx]; [done|by apply no_pages_mapped in Hx]. Qed.

Lemma after_heap x : heap_stable s x → heap_stable s' x.
Proof using ST.
  intros Hx. apply (kp_stable _ _ _ (sd_keeps _ _ _ _ _ _ _ _ _ _ _ _ _ _ _ _ _ _ _ ST)).
  by rewrite <- (stable_proper (Allocator := KH) _ _ (same_mem_vars (vars s') s) x x eq_refl).
Qed.

Lemma driver_heap x : driver (DiskLaws := DL) x → heap_stable s x.
Proof using SP.
  intros Hx. apply before_heap, (driver_stable (DiskLaws := DL)); [|done].
  by destruct (sp_mounted _ _ _ _ _ _ _ _ _ _ _ _ _ _ _ _ _ _ _ _ _ SP).
Qed.

Lemma object_heap x : F x → heap_stable s x.
Proof using SP.
  intros Hx. apply before_heap.
  by apply (ea_stable _ _ _ _ _ (mo_object _ _ _ _ _ _ (sp_mounted _ _ _ _ _ _ _ _ _ _ _ _ _ _ _ _ _ _ _ _ _ SP))).
Qed.

Lemma scheduler_heap x : range this 24 x → heap_stable s x.
Proof using SP.
  intros Hx. right. by apply (so_this _ _ _ _ (sp_sched _ _ _ _ _ _ _ _ _ _ _ _ _ _ _ _ _ _ _ _ _ SP)).
Qed.

Lemma vfs_heap x : range vfs sizeof_VFS x → heap_stable s x.
Proof using OM. intros Hx. destruct (om_vfs _ _ OM) as [n V]. right. by apply (va_object _ _ _ V). Qed.

(** What the running process consists of is new, the scheduler apart. *)
Lemma running_new x :
  running_memory this process dir text (started_in lhome) x → heap_stable s' x ∧ (heap_stable s x → range this 24 x).
Proof using SP ST.
  pose proof (sd_directory _ _ _ _ _ _ _ _ _ _ _ _ _ _ _ _ _ _ _ ST) as DY.
  intros [Hx|[Hx|Hx]].
  - assert (range this 24 x) by (unfold range in *; lia). split; [by apply after_heap, scheduler_heap|done].
  - split; [right; by apply (pa_owned _ _ _ (sd_process _ _ _ _ _ _ _ _ _ _ _ _ _ _ _ _ _ _ _ ST))|].
    intros Hs. by destruct (sd_new _ _ _ _ _ _ _ _ _ _ _ _ _ _ _ _ _ _ _ ST x Hx).
  - destruct (dy_new _ _ _ _ _ DY x Hx) as [H1 H2]. split; [exact H1|]. intros Hs. by destruct (H2 Hs).
Qed.

(** The page tables keep the program away from all of it. *)
Lemma program_apart x : mapped_in image x → ¬ heap_stable s' x.
Proof using ST.
  intros Hx Hs. destruct (sd_image _ _ _ _ _ _ _ _ _ _ _ _ _ _ _ _ _ _ _ ST) as [B _].
  by apply (heap_stable_low N root 0 (mapped_in image) _ s' x B Hs).
Qed.

Lemma first_apart : System.apart (A := A2) disk device (DL := DL2) F vfs this process dir text (started_in lhome) (mapped_in image).
Proof using SP OM ST SD.
  assert (∀ x, driver (DiskLaws := DL2) x → driver (DiskLaws := DL) x) as Hd by apply SD.
  split.
  - intros x Hx. destruct (om_vfs_apart _ _ OM x Hx) as (H1 & H2 & _). split; [done|]. intros H. by apply H2, Hd.
  - intros x Hx. destruct (running_new x Hx) as [_ Hn]. split.
    + intros H%Hd. destruct (sp_driver _ _ _ _ _ _ _ _ _ _ _ _ _ _ _ _ _ _ _ _ _ SP x H) as (_ & H1 & _).
      apply H1. left. by apply Hn, driver_heap.
    + intros H. destruct (om_vfs_apart _ _ OM x H) as (_ & _ & H1). by apply H1, Hn, vfs_heap.
  - intros x Hx. pose proof (program_apart x Hx) as Hn. split_and!; intros H; apply Hn.
    + by apply after_heap, object_heap.
    + by apply after_heap, driver_heap, Hd.
    + by apply after_heap, vfs_heap.
    + by apply running_new.
Qed.

Lemma first_running : running (A := A2) s' this process dir text (started_in lhome).
Proof using SP OM ST.
  destruct ST as [_ Hc P _ DY Hv _ _].
  assert (∀ x, running_memory this process dir text (started_in lhome) x → stable (Allocator := A2) s' x) as Hst.
  { intros x Hx. left. by apply running_new. }
  split; rewrite ?Hv; [apply OM|apply OM| |done| |exact (pa_cwd _ _ _ P)| |apply DY|].
  - intros x Hx. apply Hst. by left.
  - intros x Hx. apply Hst. right. by left.
  - intros x Hx. apply Hst. right; right. by left.
  - destruct (dy_chars _ _ _ _ _ DY) as [C1 C2 C3]. split; [|done|done]. intros x Hx. left. by apply C1.
Qed.

Lemma first_session :
  session (A := A2) disk device (DL := DL2) F fs g vfs this process dir text (started_in lhome) (mapped_in image) left_over s'.
Proof using GO SP OM ST SD.
  pose proof first_running as RN. pose proof (sd_vars _ _ _ _ _ _ _ _ _ _ _ _ _ _ _ _ _ _ _ ST) as Hv.
  destruct (sd_image _ _ _ _ _ _ _ _ _ _ _ _ _ _ _ _ _ _ _ ST) as [B _]. split.
  - exact B.
  - pose proof (sp_budget _ _ _ _ _ _ _ _ _ _ _ _ _ _ _ _ _ _ _ _ _ SP). unfold left_over. lia.
  - exact RN.
  - apply (mounted_wider disk device A1 A2 F fs g s' SD).
    + intros x [Hx|Hx]; [by left|by apply no_pages_mapped in Hx].
    + apply (sd_mounted _ _ _ _ _ _ _ _ _ _ _ _ _ _ _ _ _ _ _ ST); [apply no_pages_mapped|apply OM].
  - rewrite Hv. by apply SP.
  - destruct (om_vfs _ _ OM) as [n V]. exists n. apply (vfs_at_wider KH A2); [by left|].
    apply (vfs_at_keeps (A := KH) _ (set_vars (vars s') s) _ _ _ (sd_keeps _ _ _ _ _ _ _ _ _ _ _ _ _ _ _ _ _ _ _ ST)).
    + intros x Hx [Hd|Ht]; destruct (om_vfs_apart _ _ OM x Hx) as (_ & H1 & H2); [by apply H1|by apply H2].
    + apply vfs_at_vars; [|done]. by rewrite Hv.
  - intros x Hx. by right.
Qed.
End state.

(** C10: the first process runs in a session: the end of os_start enters user mode at
    the entry address of the executable with the kernel's objects - file system, VFS,
    scheduler, the process and its directory - as the system calls need them and apart
    from the memory of the program, so that they are still so after any sequence of
    steps and calls of the program.  The directory is the home path and the byte
    behind it. *)
Theorem first_process_in_session b path leading trailing r home lhome this id s :
  submit_pre N root disk device k no_pages F fs g (DL := DL) b path leading trailing names r home lhome this [] id s →
  objects_made this s →
  ∃ process dir text s', start_program home this path s =
      Done (UserContext (ehdr_entry file) (0x100000 + 4000) (heap_start (phdrs file))) s' ∧
    System.apart (A := A2) disk device (DL := DL2) F vfs this process dir text (started_in lhome) (mapped_in image) ∧
    ∀ st, rtc (session_step (A := A2) disk device (DL := DL2) g (started_in lhome) (mapped_in image)) (left_over b lhome, s') st →
      session (A := A2) disk device (DL := DL2) F fs g vfs this process dir text (started_in lhome) (mapped_in image) st.1 st.2.
Proof using GO SD.
  intros SP OM.
  assert (wp (start_program home this path)
    (λ c s', c = UserContext (ehdr_entry file) (0x100000 + 4000) (heap_start (phdrs file)) ∧
      ∃ process dir text, started N root disk device k no_pages F fs g (DL := DL) b names lhome this id s s' process dir text) s) as W.
  { apply (wp_start_program N root disk device k no_pages F fs g GO b path leading trailing names r home lhome this id s); [exact SP|].
    intros s' process dir text SD0. split; [done|]. by exists process, dir, text. }
  destruct (wp_inv _ _ _ W) as (c & s' & E & -> & process & dir & text & ST).
  exists process, dir, text, s'. split; [done|].
  pose proof (first_apart b path leading trailing r home lhome this id s SP OM s' process dir text ST) as AP.
  split; [exact AP|]. intros st Hrun.
  pose proof (first_session b path leading trailing r home lhome this id s SP OM s' process dir text ST) as SE.
  by apply (session_reached (A := A2) disk device F fs g GO vfs this process dir text (started_in lhome) (mapped_in image) AP
    (left_over b lhome, s') st Hrun).
Qed.
End first.

(** * Witness *)

#[local] Abbreviation KH := (kernel_heap 64 0x80208000).
#[local] Abbreviation UH k := (user_heap 64 0x80208000 k (mapped_in no_pages)).
#[local] Abbreviation MD := (memory_read elf_disk).
#[local] Abbreviation ML A := (memory_laws (A := A) elf_disk elf_disk_byte 0).
#[local] Abbreviation geo := (disk_geometry elf_disk).
#[local] Abbreviation elf := (file_of elf_disk geo [a_txt]).
#[local] Abbreviation PH := (user_heap 64 0x80208000 0 (mapped_in (user_image elf no_pages (phdrs elf)))).

(** The executable of ProgramsSample.v, with a VFS and the scheduler in its static
    variable. *)
Lemma elf_with_vfs :
  ∃ s F fs vfs path home this,
    submit_pre 64 0x80208000 (D := MD) elf_disk 0 3 no_pages (DL := ML (UH 3)) F fs geo 15000
      path true false [a_txt] (Some 13056) home home_path this [] 0 s ∧
    objects_made 64 0x80208000 (D := MD) elf_disk 0 3 (DL := ML (UH 3)) F vfs this s.
Proof.
  destruct elf_mounted as (s & fs & F & Hb & Ei & M).
  assert (wp (vfs ← operator_new sizeof_VFS; VFS_ctor vfs;; mret vfs) (λ vfs s1,
    budget (Allocator := UH 4) (15500 - 112) s1 ∧ vfs_at (A := UH 4) s1 vfs 3 ∧
    keeps (A := UH 4) nowhere (set_vars (set_vfs_instance vfs (vars s)) s) s1 ∧
    ∀ x, range vfs sizeof_VFS x → ¬ stable (Allocator := UH 4) s x) s) as W.
  { apply (wp_new_vfs (A := UH 4) 15500); [exact Hb|lia|]. intros vfs s1 Hb1 V1 K1 N1. done. }
  destruct (wp_inv _ _ _ W) as (vfs & s1 & _ & Hb1 & V1 & K1 & N1). set (v1 := set_vfs_instance _ _) in K1.
  assert (mounted (A := UH 4) (D := MD) elf_disk 0 (DL := ML (UH 4)) F fs geo s1) as M1.
  { apply (mounted_keeps (A := UH 4) (D := MD) elf_disk 0 (DL := ML (UH 4)) F fs _ geo_ok nowhere _ s1 K1); [by intros ? []|].
    by apply mounted_vars. }
  destruct (elf_objects _ s1 fs F Hb1 ltac:(lia)) as (s2 & path & home & this & ER & K2 & N2);
    [by rewrite (kp_vars _ _ _ K1)|exact M1|].
  set (v := set_scheduler_instance this (vars s2)). exists (set_vars v s2), F, fs, vfs, path, home, this.
  pose proof (same_mem_vars v s2) as SM. split.
  - apply elf_ready_submit. destruct ER as [B E M2 C1 C2 OK Ap].
    split; [by rewrite <- (budget_proper _ _ _ SM)|done|by apply mounted_vars|by apply cstr_vars|by apply cstr_vars|
      by apply sched_ok_vars|exact Ap].
  - split; [done|done| | |].
    + exists 3. apply vfs_at_vars; [done|]. apply (vfs_at_wider (UH 4) KH).
      { intros x [Hx|Hx]; [done|by apply no_pages_mapped in Hx]. }
      apply (vfs_at_keeps (A := UH 4) nowhere s1); [exact K2|by intros ? ? []|exact V1].
    + intros x Hx. split_and!.
      * intros Hf. by apply (N1 x Hx), (ea_stable _ _ _ _ _ (mo_object _ _ _ _ _ _ M)).
      * by intros [].
      * intros Ht. by apply (N2 x Ht), owned_stable, (va_object _ _ _ V1).
    + intros x Hf Ht. by apply (N2 x Ht), (ea_stable _ _ _ _ _ (mo_object _ _ _ _ _ _ M1)).
Qed.

(** The heap page of the program, as far as the directory needs it. *)
Lemma elf_heap_mapped x : range 0x11000 12 x → mapped_in (user_image elf no_pages (phdrs elf)) x.
Proof.
  assert (forallb (λ i, bool_decide (user_image elf no_pages (phdrs elf) (0x11000 + i) = Some 0)) (zseq 0 12) = true) as H
    by (by vm_compute).
  intros Hx. rewrite forallb_forall in H. exists 0. replace x with (0x11000 + (x - 0x11000)) by lia.
  apply (bool_decide_eq_true_1 _), H, list_elem_of_In, elem_of_zseq. unfold range in Hx. lia.
Qed.

(** The program of ProgramsSample.v starts, and its first call asks for the directory
    it runs in: "/home/user/" and a byte of 24. *)
Lemma first_process_in_session_witness :
  ∃ s home this path s1 s2, start_program (H := MD) home this path s =
      Done (UserContext 0x10078 0x100FA0 0x11000) s1 ∧
    handle_syscall (H := MD) (call 79 0x11000 64) s1 = Done () s2 ∧
    ∃ process dir text, running (A := PH) s1 this process dir text (chars "/home/user/" ++ [24]).
Proof.
  destruct elf_with_vfs as (s & F & fs & vfs & path & home & this & SP & OM).
  assert (same_driver (D := MD) elf_disk 0 (UH 3) PH (DA := ML (UH 3)) (DB := ML PH)) as SD by (split; done).
  destruct (first_process_in_session 64 0x80208000 (D := MD) elf_disk 0 3 (DL := ML (UH 3)) F fs geo geo_ok [a_txt] vfs
    (DL2 := ML PH) SD 15000 path true false (Some 13056) home home_path this 0 s SP OM)
    as (process & dir & text & s1 & E & AP & HS).
  pose proof (HS _ (rtc_refl _ _)) as SE.
  destruct (session_call (A := PH) (D := MD) elf_disk 0 (DL := ML PH) F fs geo geo_ok vfs this process dir text _ _ AP _ s1
    (call 79 0x11000 64) 0 SE) as (s2 & E2 & _).
  { apply mc_getcwd; [done|]. exact elf_heap_mapped. }
  exists s, home, this, path, s1, s2. split; [rewrite E; by vm_compute|]. split; [exact E2|].
  exists process, dir, text. exact (se_running _ _ _ _ _ _ _ _ _ _ _ _ _ _ SE).
Defined.
