(* ===== verification/Tlibc.v ===== *)
(** The C library of user programs: tlibc/init.c, malloc.c, printf.c, string.c and
    tlibc/syscalls/.

    User code runs on the same memory as the kernel, through its own addresses.  What an
    ecall does is a parameter of the library, [Environment]: the code of the library ends
    at that instruction.  The static variables of the library are bytes at addresses the
    linker chose. *)

From S2P Require Import Prelude Monad Memory Sv48 Machine Layout Stdio Heap KAlloc Allocator Client Process Ext2 Ext2Walk Ext2Mount Ext2Files Loader Vfs Syscall Exception.

(** Where the linker put the statics, and what is in the argument registers that no
    caller sets. *)
Class UserProgram := {
  init_heap_start : Z;       (* HEAP_START of init.c *)
  malloc_heap_start : Z;     (* HEAP_START of malloc.c *)
  first_item : Z;
  printf_buffer : Z;         (* buffer of printf.c *)
  unset_register : Z
}.

(** What happens between an ecall with these registers and the instruction behind it;
    the result is a0. *)
Class Environment := ecall : SyscallParameters → K Z.

(** An environment in which the kernel's handler serves the calls and the program goes
    on in user mode, with its registers as they were but for a0.  This is what the library
    expects of the way from the ecall to the handler and back; TrapEntry.v has what that
    assembly code does. *)
Class ServedCalls `{D : BlockDevice} (E : Environment) := {
  left_in_a0 : Z;
  served_call params s s' :
    handle_syscall params s = Done () s' → ecall params s = Done left_in_a0 (in_user_mode s')
}.

(** * syscalls/ *)

Section calls.
Context `{U : UserProgram} `{E : Environment}.

(** syscall() moves its arguments down by one register and the number to a7. *)
Definition syscall (number x0 x1 x2 : Z) : K Z :=
  ecall {| a0 := x0; a1 := x1; a2 := x2; a3 := unset_register; a4 := unset_register;
           a5 := unset_register; a7 := number |}.

Definition user_write (fd buf count : Z) : K Z := _ ← syscall 1 fd buf count; mret 0.
Definition user_read (fd buf nbyte : Z) : K Z := _ ← syscall 0 fd buf nbyte; mret 0.
Definition user_open (pathname flags mode : Z) : K Z := r ← syscall 2 pathname flags mode; mret (s32 r).
Definition user_getcwd (buf size : Z) : K Z := _ ← syscall 79 buf size unset_register; mret 0.
End calls.

(** * string.c *)

(** One round of the [while] loop and, when it ends, the tests behind it; characters are
    unsigned. *)
Definition strcmp_round (s1 s2 : Z) : Z → K (Z + Z) := λ i,
  c ← load8 (s1 ⊞ i);
  d ← load8 (s2 ⊞ i);
  mret (if negb (c =? 0) && negb (d =? 0) then
          if negb (c =? d) then inr (if c <? d then -1 else 1) else inl (i ⊞ 1)
        else if negb (c =? 0) && (d =? 0) then inr 1
        else if (c =? 0) && negb (d =? 0) then inr (-1)
        else inr 0).

Definition strcmp (s1 s2 : Z) : K Z := loop (strcmp_round s1 s2) 0.

(** * malloc.c *)

Section malloc.
Context `{U : UserProgram}.

Definition get_heap_start : K Z := load64 init_heap_start.
Definition sbrk (increment : Z) : K Z := get_heap_start.

(** struct AllocationItem: header at 0, size at 8, padding[2].
    struct FreeItem: size at 0, is_last (2 bytes) at 8, is_first (2 bytes) at 10,
    next_item at 16, last_item at 24. *)
Definition sizeof_AllocationItem : Z := 32.
Definition MAGIC_STRING : Z := 0xDEADBEEF.

Definition malloc_init : K () :=
  h ← sbrk 0;
  store64 malloc_heap_start h;;
  h ← load64 malloc_heap_start;
  store64 first_item h;;
  f ← load64 first_item;
  store64 f PAGE_SIZE;;
  f ← load64 first_item;
  store64 (f ⊞ 16) 0;;
  f ← load64 first_item;
  store64 (f ⊞ 16) 0;;
  f ← load64 first_item;
  store16 (f ⊞ 8) 1;;
  f ← load64 first_item;
  store16 (f ⊞ 10) 1.

Definition malloc_search (size : Z) : Z → K (Z + Z) := λ current,
  free ← load64 current;
  if free <? size then
    last ← load16 (current ⊞ 8);
    if last =? 0 then next ← load64 (current ⊞ 16); mret (inl next)
    else mret (inr current)
  else mret (inr current).

Definition malloc (size : Z) : K Z :=
  first ← load64 first_item;
  current ← loop (malloc_search size) first;
  _ ← load16 (current ⊞ 8);
  let newItem := current in
  store64 newItem MAGIC_STRING;;
  store64 (newItem ⊞ 8) size;;
  let newFreeItem := newItem ⊞ sizeof_AllocationItem ⊞ size in
  free ← load64 current;
  store64 newFreeItem (free ⊟ (size ⊞ sizeof_AllocationItem));;
  store64 first_item newFreeItem;;
  mret (newItem ⊞ sizeof_AllocationItem).
End malloc.

(** * printf.c *)

Section printf.
Context `{U : UserProgram}.

Definition init_printf : K () :=
  b ← malloc (1 * 200);
  store64 printf_buffer b.

(** [buffer[curr] = c; curr++;] *)
Definition put (c curr : Z) : K Z :=
  buffer ← load64 printf_buffer;
  store8 (buffer ⊞ curr) c;;
  mret (curr ⊞ 1).

Fixpoint put_all (l : list Z) (curr : Z) : K Z :=
  match l with
  | [] => mret curr
  | c :: l' => curr' ← put c curr; put_all l' curr'
  end.

(** The digits as in the kernel's vprintf, with the same local arrays. *)
Definition put_dec (i curr : Z) : K Z :=
  match dec_digits 40 i [] with
  | None => fail OutOfBounds
  | Some (i', digits) => curr' ← put (i' + 48) curr; put_all digits curr'
  end.

Definition put_hex (i curr : Z) : K Z :=
  match hex_digits 200 i [] with
  | None => fail OutOfBounds
  | Some digits => put_all (hex_char <$> digits) curr
  end.

(** [current] is an int, as in the kernel's print_str. *)
Definition put_str (p curr : Z) : K Z :=
  loop (λ '(current, curr),
    c ← load8 (p ⊞ current);
    if c =? 0 then mret (inr curr)
    else curr' ← put c curr; mret (inl (current + 1, curr'))) (0, curr).

(** The loop over the format; the result is [curr]. *)
Fixpoint format (fmt args : list Z) (curr : Z) {struct fmt} : K Z :=
  match fmt with
  | [] => mret curr
  | c :: fmt1 =>
      if c =? c_percent then
        match fmt1 with
        | [] => mret curr
        | d :: fmt2 =>
            if (d =? c_d) || (d =? c_i) then
              '(a, args') ← va_arg args;
              curr' ← put_dec (s32 a) curr;
              format fmt2 args' curr'
            else if d =? c_x then
              '(a, args') ← va_arg args;
              curr' ← put_hex (u64 a) curr;
              format fmt2 args' curr'
            else if d =? c_s then
              '(a, args') ← va_arg args;
              curr' ← put_str a curr;
              format fmt2 args' curr'
            else if d =? c_c then
              '(a, args') ← va_arg args;
              curr' ← put (to_char (s32 a)) curr;
              format fmt2 args' curr'
            else format fmt1 args curr
        end
      else curr' ← put c curr; format fmt1 args curr'
  end.

Definition user_vprintf `{E : Environment} (fmt args : list Z) : K Z :=
  curr ← format fmt args 0;
  buffer ← load64 printf_buffer;
  _ ← user_write 1 buffer curr;
  mret 0.

Definition user_printf `{E : Environment} (fmt args : list Z) : K Z := user_vprintf fmt args.

(** * init.c: [a2] is the register the kernel passes the heap start in. *)
Definition initialize_standard_library (a2 : Z) : K () :=
  store64 init_heap_start a2;;
  malloc_init;;
  init_printf.
End printf.

(** * strcmp *)

(** [l] comes before [k] in the order of the dictionary. *)
Definition precedes (l k : list Z) : Prop :=
  ∃ pre, (∃ d k', l = pre ∧ k = pre ++ d :: k') ∨
         (∃ c d l' k', l = pre ++ c :: l' ∧ k = pre ++ d :: k' ∧ c < d).

Fixpoint compare_strings (l k : list Z) : Z :=
  match l, k with
  | [], [] => 0
  | [], _ => -1
  | _, [] => 1
  | c :: l', d :: k' => if c =? d then compare_strings l' k' else if c <? d then -1 else 1
  end.

Lemma precedes_cons c l k : precedes l k → precedes (c :: l) (c :: k).
Proof.
  intros (pre & [(d & k' & -> & ->)|(a & d & l' & k' & -> & -> & Hlt)]); exists (c :: pre);
    [left; by exists d, k'|right; by exists a, d, l', k'].
Qed.

Lemma compare_strings_cases l k :
  compare_strings l k = 0 ∧ l = k ∨ compare_strings l k = -1 ∧ precedes l k ∨
  compare_strings l k = 1 ∧ precedes k l.
Proof.
  revert k. induction l as [|c l IH]; intros [|d k]; cbn [compare_strings].
  - by left.
  - right; left. split; [done|]. exists []. left. by exists d, k.
  - right; right. split; [done|]. exists []. left. by exists c, l.
  - destruct (Z.eqb_spec c d) as [->|Hne].
    + destruct (IH k) as [[-> ->]|[[-> H]|[-> H]]]; [by left|right; left|right; right]; split; auto using precedes_cons.
    + destruct (Z.ltb_spec c d); [right; left|right; right]; (split; [done|]); exists [];
        right; [exists c, d, l, k|exists d, c, k, l]; (split_and!; [done|done|lia]).
Qed.

Lemma compare_strings_precedes l k : precedes l k → compare_strings l k = -1 ∧ compare_strings k l = 1.
Proof.
  intros (pre & [(d & k' & -> & ->)|(a & d & l' & k' & -> & -> & Hlt)]); induction pre as [|c pre IH];
    cbn [app compare_strings]; rewrite ?Z.eqb_refl; try done.
  rewrite (proj2 (Z.eqb_neq a d)), (proj2 (Z.eqb_neq d a)), (proj2 (Z.ltb_lt a d)), (proj2 (Z.ltb_ge d a)) by lia.
  done.
Qed.

Section strings.
Context `{A : Allocator}.

Lemma cstr_at s p l i :
  cstr s p l → 0 ≤ i ≤ Z.of_nat (length l) →
  vbyte s (p + i) = from_option id 0 (l !! Z.to_nat i) ∧ (vbyte s (p + i) = 0 ↔ i = Z.of_nat (length l)).
Proof.
  intros C Hi. destruct (decide (i = Z.of_nat (length l))) as [->|Hne].
  - rewrite Nat2Z.id, lookup_ge_None_2 by lia. by rewrite (cs_nul _ _ _ C).
  - destruct (lookup_lt_is_Some_2 l (Z.to_nat i)) as [c Hc]; [lia|].
    destruct (cs_chars _ _ _ C _ _ Hc) as [Hv Hz]. rewrite Z2Nat.id in Hv by lia. rewrite Hv, Hc. cbn.
    split; [done|]. split; [done|lia].
Qed.

(** Behind a common prefix of length [i] the loop compares the rests. *)
Lemma wp_strcmp s p q l k (Q : Z → kstate → Prop) :
  budget 0 s → cstr s p l → cstr s q k → Q (compare_strings l k) s → wp (strcmp p q) Q s.
Proof.
  intros Hb C1 C2 HQ. pose proof (cstr_length s p l Hb C1) as Hl. simpl in Hl. unfold strcmp.
  apply (wp_loop_left _ (λ n i s', s' = s ∧ i + Z.of_nat n = Z.of_nat (length l) ∧ 0 ≤ i ≤ Z.of_nat (length k) ∧
    compare_strings l k = compare_strings (drop (Z.to_nat i) l) (drop (Z.to_nat i) k)) _ (length l));
    [|by split_and!; try lia|simpl; lia].
  intros n i s1 (-> & Hn & Hi & E). unfold strcmp_round.
  eapply wp_bind_done; [by apply (cstr_load s p l); [| |lia]|].
  eapply wp_bind_done; [by apply (cstr_load s q k); [| |lia]|]. apply wp_ret.
  destruct (cstr_at s p l i C1 ltac:(lia)) as [V1 Z1]. destruct (cstr_at s q k i C2 ltac:(lia)) as [V2 Z2].
  destruct (Z.eqb_spec (vbyte s (p + i)) 0) as [E1|E1]; cbn [negb andb].
  - apply Z1 in E1. rewrite (drop_ge l) in E by lia.
    destruct (Z.eqb_spec (vbyte s (q + i)) 0) as [E2|E2]; cbn [negb].
    + apply Z2 in E2. rewrite (drop_ge k) in E by lia. cbn in E. by rewrite E in HQ.
    + destruct (drop (Z.to_nat i) k) as [|d k'] eqn:Ek; [|cbn in E; by rewrite E in HQ].
      exfalso. apply E2, Z2. pose proof (length_drop k (Z.to_nat i)) as Hd. rewrite Ek in Hd. cbn in Hd. lia.
  - destruct (lookup_lt_is_Some_2 l (Z.to_nat i)) as [c Hc]; [lia|]. rewrite (drop_S _ _ _ Hc) in E.
    destruct (Z.eqb_spec (vbyte s (q + i)) 0) as [E2|E2]; cbn [negb].
    + apply Z2 in E2. rewrite (drop_ge k) in E by lia. cbn in E. by rewrite E in HQ.
    + destruct (lookup_lt_is_Some_2 k (Z.to_nat i)) as [d Hd]; [lia|]. rewrite (drop_S _ _ _ Hd) in E.
      rewrite Hc in V1. rewrite Hd in V2. cbn in V1, V2. rewrite V1, V2. cbn [compare_strings] in E.
      destruct (c =? d); cbn [negb]; [|by rewrite E in HQ].
      rewrite u64_small by lia. destruct n as [|n]; [lia|]. exists n. split; [done|].
      split_and!; [done|lia|lia|lia|]. replace (Z.to_nat (i + 1)) with (S (Z.to_nat i)) by lia. exact E.
Qed.

(** C28: strcmp ends on two NUL-terminated strings and tells their order in the
    dictionary: 0 for equal strings, -1 if the first comes before the second, 1 if it
    comes behind it. *)
Theorem strcmp_orders s p q l k :
  budget 0 s → cstr s p l → cstr s q k →
  ∃ r, strcmp p q s = Done r s ∧ r ∈ [-1; 0; 1] ∧
    (r = 0 ↔ l = k) ∧ (r = -1 ↔ precedes l k) ∧ (r = 1 ↔ precedes k l).
Proof.
  intros Hb C1 C2. destruct (wp_inv _ _ _ (wp_strcmp s p q l k (λ r s', r = compare_strings l k ∧ s' = s)
    Hb C1 C2 ltac:(done))) as (r & s' & E & -> & ->).
  exists (compare_strings l k). split; [done|].
  pose proof (λ H, proj1 (compare_strings_precedes l k H)) as P1. pose proof (λ H, proj2 (compare_strings_precedes k l H)) as P2.
  destruct (compare_strings_cases l k) as [[H ->]|[[H H']|[H H']]]; rewrite H in *; (split; [set_solver|]).
  - split; [done|]. split; (split; [done|intros Hp]); [by apply P1 in Hp|by apply P2 in Hp].
  - split; [split; [done|intros ->; by apply P2 in H']|]. split; [done|]. split; [done|intros Hp; by apply P2 in Hp].
  - split; [split; [done|intros ->; by apply P1 in H']|]. split; [|done]. split; [done|intros Hp; by apply P1 in Hp].
Qed.
End strings.

(** * printf *)

Section formatting.
Context `{A : Allocator} `{U : UserProgram}.
Context (b : Z) (Hb0 : 0 ≤ b) (s0 : kstate) (buf : Z).

(** The library is initialised: its pointer leads to a buffer of 200 bytes. *)
Record printf_ready (s : kstate) : Prop := PrintfReady {
  pr_variable : ∀ x, range printf_buffer 8 x → stable s x;
  pr_value : vload 8 s printf_buffer = buf;
  pr_buffer : owned_range s buf 200;
  pr_apart : disjoint_range printf_buffer 8 buf 200
}.

(** The strings a format refers to, apart from the buffer. *)
Definition strings_apart (str : Z → option (list Z)) : Prop :=
  ∀ p l, str p = Some l → cstr s0 p l ∧ disjoint_range p (Z.of_nat (length l) + 1) buf 200.

Context (PR : printf_ready s0) (str : Z → option (list Z)) (ST : strings_apart str).

(** [l] has been put into the buffer, and nothing was printed. *)
Record formatted (l : list Z) (s : kstate) : Prop := Formatted {
  fm_reading : reading b buf 200 l s0 s;
  fm_in : console_in s = console_in s0;
  fm_out : console_out s = console_out s0
}.

Lemma wp_put c l s (Q : Z → kstate → Prop) :
  formatted l s → Z.of_nat (length l) < 200 →
  (∀ s', formatted (l ++ [u8 c]) s' → Q (Z.of_nat (length (l ++ [u8 c]))) s') →
  wp (put c (Z.of_nat (length l))) Q s.
Proof using Hb0 PR.
  intros F Hl HQ. pose proof (fm_reading _ _ F) as R. unfold put.
  assert (vload 8 s printf_buffer = buf) as Eb.
  { rewrite <- (pr_value _ PR). apply (vload_keeps 8 _ s0 s _ (rg_keeps _ _ _ _ _ _ R)). intros x Hx.
    split; [by apply PR|]. intros Hr. apply (pr_apart _ PR x Hx). unfold range in *. lia. }
  apply wp_bind, wp_load64; [apply (budget_0 b); [apply R|done]| |].
  { intros x Hx. apply (kp_stable _ _ _ (rg_keeps _ _ _ _ _ _ R)), (pr_variable _ PR), Hx. }
  rewrite Eb. destruct (store_next b s0 s buf 200 l c R Hb0 Hl) as (s' & E & R' & I & O).
  eapply wp_bind_done; [exact E|]. apply wp_ret.
  replace (Z.of_nat (length l) ⊞ 1) with (Z.of_nat (length (l ++ [u8 c])))
    by (rewrite length_app; cbn [length]; rewrite u64_small; lia).
  apply HQ. destruct F as [_ FI FO]. split; [done|by rewrite I|by rewrite O].
Qed.

Lemma wp_put_all m l s (Q : Z → kstate → Prop) :
  formatted l s → Z.of_nat (length l + length m) ≤ 200 →
  (∀ s', formatted (l ++ (u8 <$> m)) s' → Q (Z.of_nat (length (l ++ (u8 <$> m)))) s') →
  wp (put_all m (Z.of_nat (length l))) Q s.
Proof using Hb0 PR.
  revert l s. induction m as [|c m IH]; intros l s F Hl HQ; cbn [put_all].
  - apply wp_ret. cbn in HQ. rewrite app_nil_r in HQ. by apply HQ.
  - cbn [length] in Hl. apply wp_bind, wp_put; [done|lia|]. intros s1 F1.
    apply IH; [done|rewrite length_app; cbn [length]; lia|].
    intros s2 F2. rewrite <- app_assoc in *. by apply HQ.
Qed.

(** A string argument. *)
Lemma wp_put_str p m l s (Q : Z → kstate → Prop) :
  str p = Some m → formatted l s → Z.of_nat (length l + length m) ≤ 200 →
  (∀ s', formatted (l ++ (u8 <$> m)) s' → Q (Z.of_nat (length (l ++ (u8 <$> m)))) s') →
  wp (put_str p (Z.of_nat (length l))) Q s.
Proof using Hb0 PR ST.
  intros Hp F Hl HQ. destruct (ST p m Hp) as [C Hd]. unfold put_str.
  apply (wp_loop_left _ (λ n '(i, curr) s', ∃ m1 m2, m = m1 ++ m2 ∧ n = length m2 ∧ i = Z.of_nat (length m1) ∧
    curr = Z.of_nat (length (l ++ (u8 <$> m1))) ∧ formatted (l ++ (u8 <$> m1)) s') _ (length m));
    [|exists [], m; by rewrite app_nil_r|simpl; lia].
  intros n [i curr] s1 (m1 & m2 & -> & -> & -> & -> & F1).
  assert (cstr s1 p (m1 ++ m2)) as C1.
  { apply (cstr_keeps _ _ _ _ _ (rg_keeps _ _ _ _ _ _ (fm_reading _ _ F1)) C). intros x Hx Hr.
    apply (Hd x Hx). rewrite length_app, length_fmap in Hr. rewrite !length_app in Hl. unfold range in *. lia. }
  eapply wp_bind_done.
  { apply (cstr_load s1 p (m1 ++ m2)); [|exact C1|rewrite length_app; lia].
    apply (budget_0 b); [apply (fm_reading _ _ F1)|done]. }
  destruct m2 as [|c m2].
  - rewrite app_nil_r in *. rewrite (cs_nul _ _ _ C1). cbn. apply wp_ret. by apply HQ.
  - destruct (cs_chars _ _ _ C1 (length m1) c) as [Hv Hz]; [by apply list_lookup_middle|]. rewrite Hv.
    rewrite (proj2 (Z.eqb_neq _ _) Hz). rewrite !length_app in Hl. cbn [length] in Hl.
    apply wp_bind, wp_put; [done|rewrite length_app, length_fmap; lia|]. intros s2 F2. apply wp_ret.
    exists (length m2). split; [done|]. exists (m1 ++ [c]), m2. rewrite fmap_app. cbn [fmap list_fmap].
    split_and!; [by rewrite <- app_assoc|done|rewrite length_app; cbn [length]; lia|by rewrite app_assoc|by rewrite app_assoc].
Qed.
(** What a conversion [f] of an argument puts into the buffer: the text [g]. *)
Definition converts (f : Z → Z → K Z) (g : Z → option (list Z)) : Prop :=
  ∀ a o l s (Q : Z → kstate → Prop), g a = Some o → formatted l s → Z.of_nat (length l + length o) ≤ 200 →
    (∀ s', formatted (l ++ o) s' → Q (Z.of_nat (length (l ++ o))) s') → wp (f a (Z.of_nat (length l))) Q s.

Lemma put_dec_converts :
  converts (λ a, put_dec (s32 a)) (λ a, '(i, buf) ← dec_digits 40 (s32 a) []; Some (to_char (i + 48) :: map to_char buf)).
Proof using Hb0 PR.
  intros a o l s Q E F Hl HQ. unfold put_dec.
  destruct (dec_digits 40 (s32 a) []) as [[i digits]|]; cbn [mbind option_bind] in E; [|done].
  injection E as <-. cbn [length] in Hl. rewrite length_map in Hl. apply wp_bind, wp_put; [done|lia|]. intros s1 F1.
  apply wp_put_all; [done|rewrite length_app; cbn [length]; lia|]. intros s2 F2. rewrite <- app_assoc in *. by apply HQ.
Qed.

Lemma put_hex_converts :
  converts (λ a, put_hex (u64 a)) (λ a, buf ← hex_digits 200 (u64 a) []; Some (map (λ d, to_char (hex_char d)) buf)).
Proof using Hb0 PR.
  intros a o l s Q E F Hl HQ. unfold put_hex.
  destruct (hex_digits 200 (u64 a) []) as [digits|]; cbn [mbind option_bind] in E; [|done].
  injection E as <-. rewrite length_map in Hl. apply wp_put_all; [done|rewrite length_fmap; lia|]. intros s2.
  rewrite <- list_fmap_compose. apply HQ.
Qed.

Lemma put_str_converts : converts put_str (λ a, map to_char <$> str a).
Proof using Hb0 PR ST.
  intros a o l s Q E F Hl HQ. destruct (str a) as [m|] eqn:Em; [|done]. injection E as <-.
  rewrite length_map in Hl. by apply (wp_put_str a m).
Qed.

Lemma put_char_converts : converts (λ a, put (to_char (s32 a))) (λ a, Some [to_char (s32 a)]).
Proof using Hb0 PR.
  intros a o l s Q [= <-] F Hl HQ. cbn [length] in Hl. apply wp_put; [done|lia|]. unfold to_char. by rewrite u8_u8.
Qed.

(** The buffer gets the text the kernel's printf would print for the same format: when
    the rest of the format does, so does the format. *)
Definition formats (fmt args : list Z) : Prop :=
  ∀ out l s (Q : Z → kstate → Prop), render str fmt args = Some out → formatted l s →
    Z.of_nat (length l + length out) ≤ 200 →
    (∀ s', formatted (l ++ out) s' → Q (Z.of_nat (length (l ++ out))) s') →
    wp (format fmt args (Z.of_nat (length l))) Q s.

Lemma formats_conversion f g fmt args out l s (Q : Z → kstate → Prop) :
  converts f g → (∀ args', formats fmt args') →
  match args with
  | [] => None
  | a :: args' => o ← g a; r ← render str fmt args'; Some (o ++ r)
  end = Some out →
  formatted l s → Z.of_nat (length l + length out) ≤ 200 →
  (∀ s', formatted (l ++ out) s' → Q (Z.of_nat (length (l ++ out))) s') →
  wp ('(a, args') ← va_arg args; curr ← f a (Z.of_nat (length l)); format fmt args' curr) Q s.
Proof using Type.
  intros Hf IH H F Hl HQ. destruct args as [|a args']; [done|].
  destruct (g a) as [o|] eqn:Eg; [|done]. cbn [mbind option_bind] in H.
  destruct (render str fmt args') as [r|] eqn:Er; [|done]. injection H as <-. rewrite length_app in Hl.
  eapply (wp_bind_done _ _ _ _ (a, args') s); [done|]. apply wp_bind, (Hf a o); [done|done|lia|]. intros s1 F1.
  apply (IH args' r); [done|done|rewrite length_app; lia|]. intros s2 F2. rewrite <- app_assoc in *. by apply HQ.
Qed.

Lemma format_spec fmt args : formats fmt args.
Proof using Hb0 PR ST.
  remember (length fmt) as n eqn:Hn. assert (length fmt ≤ n)%nat as Hle by lia. clear Hn.
  assert (∀ args, formats [] args) as Hnil.
  { intros args' out l s Q [= <-] F _ HQ. apply wp_ret. rewrite app_nil_r in HQ. by apply HQ. }
  revert fmt args Hle. induction n as [|n IH]; intros [|c fmt1] args Hle; [apply Hnil|simpl in Hle; lia|apply Hnil|].
  simpl in Hle. intros out l s Q. cbn [render format]. destruct (c =? c_percent).
  2:{ destruct (render str fmt1 args) as [r|] eqn:Er; [|done]. intros [= <-] F Hl HQ. cbn [length] in Hl.
      apply wp_bind, wp_put; [done|lia|]. intros s1 F1. change (u8 c) with (to_char c) in F1 |- *.
      apply (IH fmt1 args ltac:(lia) r); [done|done|rewrite length_app; cbn [length]; lia|].
      intros s2 F2. rewrite <- app_assoc in *. by apply HQ. }
  destruct fmt1 as [|d fmt2].
  { intros [= <-] F _ HQ. apply wp_ret. rewrite app_nil_r in HQ. by apply HQ. }
  simpl in Hle. assert (∀ args', formats fmt2 args') as IH2 by (intros; apply IH; lia).
  destruct (_ || _); [by apply (formats_conversion _ _ fmt2 args out l s Q put_dec_converts)|].
  destruct (d =? c_x); [by apply (formats_conversion _ _ fmt2 args out l s Q put_hex_converts)|].
  destruct (d =? c_s); [by apply (formats_conversion _ _ fmt2 args out l s Q put_str_converts)|].
  destruct (d =? c_c); [by apply (formats_conversion _ _ fmt2 args out l s Q put_char_converts)|].
  apply (IH (d :: fmt2) args ltac:(simpl; lia)).
Qed.
End formatting.

(** * Output, from user mode to the console *)

Section text.
Context `{A : Allocator} `{U : UserProgram} `{E : Environment}.

Lemma printf_ready_keeps buf P v s s' :
  keeps P (set_vars v s) s' → disjoint_range printf_buffer 8 buf 200 → (∀ x, range printf_buffer 8 x → ¬ P x) →
  printf_ready buf s → printf_ready buf s'.
Proof.
  intros K Hd HP [H1 H2 H3 H4]. pose proof (same_mem_vars v s) as SM. split.
  - intros x Hx. apply (kp_stable _ _ _ K). rewrite <- (stable_proper s _ SM x x eq_refl). by apply H1.
  - rewrite <- H2. transitivity (vload 8 (set_vars v s) printf_buffer).
    + apply (vload_keeps 8 P _ _ _ K). intros x Hx. split; [|by apply HP].
      rewrite <- (stable_proper s _ SM x x eq_refl). by apply H1.
    + apply vload_ext. intros i _. symmetry. by apply vbyte_proper.
  - intros x Hx. apply (kp_owned _ _ _ K). rewrite <- (owned_proper s _ SM x x eq_refl). by apply H3.
  - done.
Qed.

(** The registers of the ecall in write. *)
Definition write_call (buf count : Z) : SyscallParameters :=
  {| a0 := 1; a1 := buf; a2 := count; a3 := unset_register; a4 := unset_register;
     a5 := unset_register; a7 := 1 |}.

(** The text is in the buffer when printf calls the environment. *)
Lemma printf_formats b s buf str fmt args out :
  0 ≤ b → budget b s → printf_ready buf s → strings_apart s buf str →
  render str fmt args = Some out → Z.of_nat (length out) ≤ 200 →
  ∃ s1, user_printf fmt args s = (ecall (write_call buf (Z.of_nat (length out))) ≫= λ _, mret 0) s1 ∧
    formatted b s buf out s1 ∧ printf_ready buf s1.
Proof.
  intros Hb0 Hb PR ST Hr Hl.
  assert (wp (format fmt args 0) (λ n s1, n = Z.of_nat (length out) ∧ formatted b s buf out s1) s) as W.
  { change 0 with (Z.of_nat (length (@nil Z))) at 1.
    apply (format_spec b Hb0 s buf PR str ST fmt args out [] s); [done| |done|by intros s1 F1].
    split; [|done|done]. split; [done|apply PR|apply keeps_refl|]. split; [unfold range; cbn; lia|done]. }
  destruct (wp_inv _ _ _ W) as (n & s1 & E1 & -> & F1). exists s1. pose proof F1 as [[Hb1 O1 K1 L1] _ _].
  assert (printf_ready buf s1) as PR1.
  { apply (printf_ready_keeps buf (range buf (Z.of_nat (length out))) (vars s) s);
      [by destruct s|apply PR| |done]. intros x Hx Hx2. apply (pr_apart _ _ PR x Hx). unfold range in *. lia. }
  split; [|done]. unfold user_printf, user_vprintf. rewrite (bind_done _ _ _ _ _ E1).
  destruct (wp_inv _ _ _ (wp_load64 s1 printf_buffer (λ r s2, r = buf ∧ s2 = s1) (budget_0 b s1 Hb1 Hb0)
    (pr_variable _ _ PR1) ltac:(by rewrite (pr_value _ _ PR1)))) as (r & s2 & E2 & -> & ->).
  rewrite (bind_done _ _ _ _ _ E2). unfold user_write, syscall, write_call, mbind, M_bind.
  by destruct (ecall _ s1).
Qed.

(** C26: printf of the C library formats its text correctly, whatever the environment
    does with the ecall: for every format and arguments whose text has at most 200
    characters, printf hands write(1, buffer, count) to the environment with exactly that
    text in its buffer and its length as the count, nothing in memory changed but the
    buffer and nothing printed yet, and returns 0 when the environment returns. *)
Theorem user_printf_formats b s buf str fmt args out :
  0 ≤ b → budget b s → printf_ready buf s → strings_apart s buf str →
  render str fmt args = Some out → Z.of_nat (length out) ≤ 200 →
  ∃ s1, user_printf fmt args s = (ecall (write_call buf (Z.of_nat (length out))) ≫= λ _, mret 0) s1 ∧
    bytes_at s1 buf out ∧ keeps (range buf (Z.of_nat (length out))) s s1 ∧ budget b s1 ∧
    console_in s1 = console_in s ∧ console_out s1 = console_out s.
Proof.
  intros Hb0 Hb PR ST Hr Hl.
  destruct (printf_formats b s buf str fmt args out Hb0 Hb PR ST Hr Hl) as (s1 & E1 & [[Hb1 O1 K1 L1] I1 C1] & _).
  by exists s1.
Qed.
End text.

Section output.
Context `{A : Allocator} `{U : UserProgram} `{D : BlockDevice} `{SC : !ServedCalls Env}.

Lemma wp_served_call params s (Q : Z → kstate → Prop) :
  wp (handle_syscall params) (λ _ s', Q left_in_a0 (in_user_mode s')) s → wp (ecall params) Q s.
Proof.
  intros W. destruct (wp_inv _ _ _ W) as ([] & s' & E' & HQ). eapply wp_done; [by apply served_call|done].
Qed.

(** The state after a printf: budget, console, memory. *)
Record printed (b : Z) (buf : Z) (out : list Z) (s s' : kstate) : Prop := Printed {
  pd_budget : budget (b - Z.of_nat (length out) - 17) s';
  pd_ready : printf_ready buf s';
  pd_in : console_in s' = console_in s;
  pd_out : ∃ o, console_out s' = console_out s ++ o ++ until_nul out;
  pd_keeps : keeps (range buf 200) (set_vars (vars s') s) s';
  pd_vars : vars s' = vars (in_user_mode s)
}.

Lemma wp_user_printf b s buf str fmt args out (Q : Z → kstate → Prop) :
  budget b s → Z.of_nat (length out) + 17 ≤ b → printf_ready buf s → strings_apart s buf str →
  render str fmt args = Some out → Z.of_nat (length out) ≤ 200 →
  (∀ s', printed b buf out s s' → Q 0 s') → wp (user_printf fmt args) Q s.
Proof.
  intros Hb Hle PR ST Hr Hl HQ.
  destruct (printf_formats b s buf str fmt args out ltac:(lia) Hb PR ST Hr Hl) as (s1 & E1 & [[Hb1 O1 K1 L1] I1 C1] & PR1).
  unfold wp. rewrite E1. apply wp_bind, wp_served_call, (wp_handle_write b s1 _ out); [done..|simpl; lia|done|].
  intros s2 [Hb2 K2 _ I2 [o C2]]. apply wp_ret, HQ.
  assert (keeps (range buf 200) s s2) as K.
  { apply (keeps_comp _ _ _ _ _ _ K1 K2). intros x _ [Hx|[]]. unfold range in *. lia. }
  set (v := vars (in_user_mode s2)). assert (keeps (range buf 200) (set_vars v s) (in_user_mode s2)) as K'
    by by apply keeps_vars.
  split.
  - unfold in_user_mode. by rewrite <- (budget_proper _ _ _ (same_mem_vars _ s2)).
  - apply (printf_ready_keeps buf (range buf 200) v s); [done|apply PR|apply (pr_apart _ _ PR)|done].
  - cbn. by rewrite I2.
  - exists o. cbn. by rewrite C2, C1.
  - done.
  - cbn. by rewrite (kp_vars _ _ _ K).
Qed.
End output.

(** * malloc *)

Section arena.
Context `{A : Allocator} `{U : UserProgram}.

(** The free item at [f] says that [n] bytes are left. *)
Record arena (s : kstate) (f n : Z) : Prop := Arena {
  ar_variable : owned_range s first_item 8;
  ar_first : vload 8 s first_item = f;
  ar_size : vload 8 s f = n
}.

(** What malloc writes for a block of [size] bytes: the item, the next item's size and
    its own variable. *)
Definition malloc_writes (f size x : Z) : Prop :=
  range f 16 x ∨ range (f + 32 + size) 8 x ∨ range first_item 8 x.

Lemma wp_malloc_search b s f n size (Q : Z → kstate → Prop) :
  budget b s → 0 ≤ b → (∀ x, range f 8 x → stable s x) → vload 8 s f = n → size ≤ n →
  Q f s → wp (loop (malloc_search size) f) Q s.
Proof.
  intros Hb Hb0 Hs Hn Hle HQ.
  apply (wp_loop_left _ (λ _ c s', c = f ∧ s' = s) _ 0); [|done|done]. intros k c s' [-> ->]. unfold malloc_search.
  apply wp_bind, wp_load64; [by apply (budget_0 b)|done|]. rewrite Hn, (proj2 (Z.ltb_ge n size)) by done.
  by apply wp_ret.
Qed.

(** A word at the start or inside of owned memory. *)
Lemma wp_store64_in b s p n i v (Q : () → kstate → Prop) :
  budget b s → 0 ≤ b → owned_range s p n → 0 ≤ i → i + 8 ≤ n →
  (∀ s', stored b 8 (p + i) v s s' → Q () s') → wp (store64 (p + i) v) Q s.
Proof.
  intros Hb Hb0 O Hi Hn HQ. apply (wp_storev 8 b); [done|done| |done].
  intros x Hx. apply O. unfold range in *. lia.
Qed.

Context (b : Z) (Hb0 : 0 ≤ b).

Lemma wp_malloc s f n size (Q : Z → kstate → Prop) :
  budget b s → arena s f n → 0 ≤ size ≤ n → owned_range s f (size + 40) →
  disjoint_range first_item 8 f (size + 40) →
  (∀ s', budget b s' → arena s' (f + 32 + size) ((MAGIC_STRING - (size + 32)) mod 2 ^ 64) →
     keeps (malloc_writes f size) s s' → only_mem s s' → Q (f + 32) s') →
  wp (malloc size) Q s.
Proof using Hb0.
  intros Hb [Ov Ef En] Hsz Of Hd HQ. pose proof (budget_0 b s Hb Hb0) as Hz.
  assert (0 ≤ f ∧ f + size + 39 < 2 ^ 64 - 1) as Hr.
  { assert (owned s f ∧ owned s (f + size + 39)) as [H1 H2] by (split; apply Of; unfold range; lia).
    pose proof (stable_range s _ Hz (owned_stable _ _ H1)). pose proof (stable_range s _ Hz (owned_stable _ _ H2)). lia. }
  simpl in Hr. unfold malloc, sizeof_AllocationItem.
  apply wp_bind, wp_load64; [done|by intros x Hx; apply owned_stable, Ov|]. rewrite Ef.
  apply wp_bind, (wp_malloc_search b s f n); [done|done|by intros x Hx; apply owned_stable, Of; unfold range in *; lia|done|lia|].
  apply wp_bind, (wp_load_field 2 b s f (size + 40) 8); [done|done|done|lia..|].
  apply wp_bind. rewrite <- (Z.add_0_r f) at 1.
  apply (wp_store64_in b s f (size + 40) 0); [done|done|done|lia|lia|]. rewrite Z.add_0_r. intros s1 St1.
  pose proof (st_keeps _ _ _ _ _ _ St1) as K1. pose proof (owned_range_keeps _ _ _ _ _ K1 Of) as Of1.
  apply wp_bind, (wp_store_field 8 b s1 f (size + 40) 8); [apply St1|done|done|lia..|]. intros s2 St2 Of2.
  pose proof (st_keeps _ _ _ _ _ _ St2) as K2. rewrite !u64_small by (rewrite ?u64_small; lia).
  assert (vload 8 s2 f = MAGIC_STRING) as E2.
  { rewrite <- (Z.add_0_r f), (field_kept b (size + 40) 8 8 size s1 s2 f 8 0 St2 Of1) by lia.
    rewrite Z.add_0_r. by apply (stored_exact _ _ _ _ _ _ St1). }
  apply wp_bind, wp_load64; [apply (budget_0 b); [apply St2|done]| |].
  { intros x Hx. apply owned_stable, Of2. unfold range in *. lia. }
  rewrite E2. replace (f + 32 + size) with (f + (32 + size)) by lia.
  apply wp_bind, (wp_store64_in b s2 f (size + 40) (32 + size)); [apply St2|done|done|lia|lia|]. intros s3 St3.
  pose proof (st_keeps _ _ _ _ _ _ St3) as K3.
  assert (∀ P Q s1 s2 s3, keeps P s1 s2 → keeps Q s2 s3 → (∀ x, P x ∨ Q x → malloc_writes f size x) →
    keeps (malloc_writes f size) s1 s3) as Kc.
  { intros P Q' t1 t2 t3 Ka Kb H. apply (keeps_comp _ _ _ _ _ _ Ka Kb). auto. }
  pose proof (Kc _ _ _ _ _ K1 K2 ltac:(intros x; unfold malloc_writes, range; lia)) as K12.
  pose proof (Kc _ _ _ _ _ K12 K3 ltac:(intros x; unfold malloc_writes, range; lia)) as K13.
  assert (owned_range s3 first_item 8) as Ov3.
  { apply (owned_range_keeps _ _ _ _ _ K3), (owned_range_keeps _ _ _ _ _ K2), (owned_range_keeps _ _ _ _ _ K1), Ov. }
  apply wp_bind, (wp_storev 8 b); [apply St3|done|exact Ov3|]. intros s4 St4.
  pose proof (st_keeps _ _ _ _ _ _ St4) as K4. apply wp_ret, HQ.
  - apply St4.
  - split.
    + by apply (owned_range_keeps _ _ _ _ _ K4).
    + rewrite (stored_exact _ _ _ _ _ _ St4); lia.
    + replace (f + 32 + size) with (f + (32 + size)) by lia.
      rewrite (vload_keeps 8 _ _ _ _ K4).
      * rewrite (st_value _ _ _ _ _ _ St3). change (256 ^ Z.of_nat 8) with (2 ^ 64). unfold u64.
        change 0x10000000000000000 with (2 ^ 64). rewrite Zmod_mod. f_equal.
      * intros x Hx. split.
        -- apply owned_stable, (kp_owned _ _ _ K3), Of2. unfold range in *. lia.
        -- intros Hv. apply (Hd x Hv). unfold range in *. lia.
  - apply (Kc _ _ _ _ _ K13 K4). intros x. unfold malloc_writes, range. lia.
  - etrans; [apply St1|]. etrans; [apply St2|]. etrans; [apply St3|apply St4].
Qed.
(** C29: two blocks that malloc hands out one after the other do not overlap: the first
    begins 32 bytes behind the free item, the second 32 bytes behind the first, and
    the second call leaves the first block alone.  What malloc records as left over is
    0xDEADBEEF less what it handed out, however much memory the heap has. *)
Theorem malloc_blocks_apart s f n size1 size2 :
  budget b s → arena s f n → 0 ≤ size1 ≤ n → 0 ≤ size2 → size1 + 32 + size2 ≤ 0xDEADBEEF →
  owned_range s f (size1 + size2 + 72) → disjoint_range first_item 8 f (size1 + size2 + 72) →
  ∃ s1 s2, malloc size1 s = Done (f + 32) s1 ∧ arena s1 (f + 32 + size1) (0xDEADBEEF - (size1 + 32)) ∧
    malloc size2 s1 = Done (f + 32 + size1 + 32) s2 ∧
    arena s2 (f + 32 + size1 + 32 + size2) (0xDEADBEEF - (size2 + 32)) ∧
    (∀ x, range (f + 32) size1 x → vbyte s2 x = vbyte s1 x) ∧
    keeps (λ x, range f (size1 + size2 + 72) x ∨ range first_item 8 x) s s2.
Proof using Hb0.
  intros Hb Ar H1 H2 Hm O Hd. unfold MAGIC_STRING in *.
  assert (∀ k, 0 ≤ k → k + 32 ≤ 0xDEADBEEF → (0xDEADBEEF - (k + 32)) mod 2 ^ 64 = 0xDEADBEEF - (k + 32)) as Hmod.
  { intros k Hk Hk'. apply Z.mod_small. simpl. lia. }
  destruct (wp_inv _ _ _ (wp_malloc s f n size1 (λ p s1, p = f + 32 ∧ budget b s1 ∧
    arena s1 (f + 32 + size1) (0xDEADBEEF - (size1 + 32)) ∧ keeps (malloc_writes f size1) s s1) Hb Ar H1
    ltac:(intros x Hx; apply O; unfold range in *; lia) ltac:(intros x Hx Hr; apply (Hd x Hx); unfold range in *; lia)
    ltac:(intros s1 B1 A1 K1 _; unfold MAGIC_STRING in A1; rewrite Hmod in A1 by lia; done)))
    as (p1 & s1 & E1 & -> & B1 & A1 & K1).
  assert (owned_range s1 (f + 32 + size1) (size2 + 40)) as O1.
  { intros x Hx. apply (kp_owned _ _ _ K1), O. unfold range in *. lia. }
  destruct (wp_inv _ _ _ (wp_malloc s1 (f + 32 + size1) _ size2 (λ p s2, p = f + 32 + size1 + 32 ∧
    arena s2 (f + 32 + size1 + 32 + size2) (0xDEADBEEF - (size2 + 32)) ∧ keeps (malloc_writes (f + 32 + size1) size2) s1 s2)
    B1 A1 ltac:(lia) O1 ltac:(intros x Hx Hr; apply (Hd x Hx); unfold range in *; lia)
    ltac:(intros s2 B2 A2 K2 _; unfold MAGIC_STRING in A2; rewrite Hmod in A2 by lia; done)))
    as (p2 & s2 & E2 & -> & A2 & K2).
  exists s1, s2. split; [done|]. split; [done|]. split; [done|]. split; [done|]. split.
  - intros x Hx. apply (kp_byte _ _ _ K2).
    + apply (kp_stable _ _ _ K1), owned_stable, O. unfold range in *. lia.
    + intros [Hw|[Hw|Hw]]; [unfold range in *; lia..|]. apply (Hd x Hw). unfold range in *. lia.
  - apply (keeps_comp _ _ _ _ _ _ K1 K2). intros x _. unfold malloc_writes, range. lia.
Qed.

(** ** The start of a program *)

(** The library's variables and the heap page the kernel mapped. *)
Record library_memory (s : kstate) (heap : Z) : Prop := LibraryMemory {
  lm_init : owned_range s init_heap_start 8;
  lm_malloc : owned_range s malloc_heap_start 8;
  lm_first : owned_range s first_item 8;
  lm_buffer : owned_range s printf_buffer 8;
  lm_page : owned_range s heap 4096
}.

Record library_apart (heap : Z) : Prop := LibraryApart {
  la_init_malloc : disjoint_range init_heap_start 8 malloc_heap_start 8;
  la_first_page : disjoint_range first_item 8 heap 4096;
  la_first_buffer : disjoint_range first_item 8 printf_buffer 8;
  la_buffer_page : disjoint_range printf_buffer 8 heap 4096
}.

Lemma library_memory_keeps P s s' heap : keeps P s s' → library_memory s heap → library_memory s' heap.
Proof. intros K []. split; by apply (owned_range_keeps P s). Qed.

Lemma value_kept k va v s s' x :
  stored b k va v s s' → owned_range s x 8 → disjoint_range x 8 va (Z.of_nat k) → vload 8 s' x = vload 8 s x.
Proof using Type.
  intros St O Hd. apply (vload_keeps 8 _ s s' x (st_keeps _ _ _ _ _ _ St)). intros y Hy.
  split; [by apply owned_stable, O|by apply Hd].
Qed.

(** What initialisation writes. *)
Definition library_writes (heap x : Z) : Prop :=
  range init_heap_start 8 x ∨ range malloc_heap_start 8 x ∨ range first_item 8 x ∨ range printf_buffer 8 x ∨
  range heap 240 x.

(** A field of the first free item is set, found through the variable. *)
Lemma wp_set_item k s0 s heap i v (Q : () → kstate → Prop) :
  budget b s → library_memory s heap → library_apart heap → vload 8 s first_item = heap →
  0 ≤ heap < 2 ^ 64 → 0 ≤ i → i + Z.of_nat k ≤ 240 → i < 240 → keeps (library_writes heap) s0 s →
  (∀ s', budget b s' → library_memory s' heap → vload 8 s' first_item = heap →
     vload k s' (heap + i) = v mod 256 ^ Z.of_nat k → stored b k (heap + i) v s s' →
     keeps (library_writes heap) s0 s' → Q () s') →
  wp (f ← load64 first_item; storev k (f ⊞ i) v) Q s.
Proof using Hb0.
  intros Hb LM LA Ef Hh Hi Hk Hi' K HQ.
  apply wp_bind, wp_load64; [by apply (budget_0 b)|by intros x Hx; apply owned_stable, (lm_first _ _ LM)|]. rewrite Ef.
  apply (wp_store_field k b s heap 4096 i); [done|done|exact (lm_page _ _ LM)|lia..|]. intros s' St _.
  pose proof (st_keeps _ _ _ _ _ _ St) as K'. apply HQ.
  - apply St.
  - by apply (library_memory_keeps _ s s' heap K').
  - rewrite (value_kept k (heap + i) v s s' first_item St); [done|exact (lm_first _ _ LM)|].
    intros x Hx Hr. apply (la_first_page _ LA x Hx). unfold range in *. lia.
  - apply St.
  - done.
  - apply (keeps_comp _ _ _ _ _ _ K K'). intros x _ [Hx|Hx]; [done|]. unfold library_writes, range in *. lia.
Qed.
Lemma wp_malloc_init s0 s heap (Q : () → kstate → Prop) :
  budget b s → library_memory s heap → library_apart heap → vload 8 s init_heap_start = heap →
  0 ≤ heap < 2 ^ 64 → keeps (library_writes heap) s0 s →
  (∀ s', budget b s' → library_memory s' heap → arena s' heap 4096 → keeps (library_writes heap) s0 s' → Q () s') →
  wp malloc_init Q s.
Proof using Hb0.
  intros Hb LM LA Ei Hh K0 HQ. unfold malloc_init, sbrk, get_heap_start.
  apply wp_bind, wp_load64; [by apply (budget_0 b)|by intros x Hx; apply owned_stable, (lm_init _ _ LM)|]. rewrite Ei.
  apply wp_bind, (wp_storev 8 b); [done|done|exact (lm_malloc _ _ LM)|]. intros s1 St1.
  pose proof (library_memory_keeps _ _ _ _ (st_keeps _ _ _ _ _ _ St1) LM) as LM1.
  apply wp_bind, wp_load64; [apply (budget_0 b); [apply St1|done]|by intros x Hx; apply owned_stable, (lm_malloc _ _ LM1)|].
  rewrite (stored_exact _ _ _ _ _ _ St1) by (simpl in *; lia).
  apply wp_bind, (wp_storev 8 b); [apply St1|done|exact (lm_first _ _ LM1)|]. intros s2 St2.
  pose proof (library_memory_keeps _ _ _ _ (st_keeps _ _ _ _ _ _ St2) LM1) as LM2.
  pose proof (stored_exact _ _ _ _ _ _ St2 ltac:(simpl in *; lia)) as E2.
  assert (keeps (library_writes heap) s0 s2) as K2.
  { assert (keeps (library_writes heap) s0 s1) as K1.
    { apply (keeps_comp _ _ _ _ _ _ K0 (st_keeps _ _ _ _ _ _ St1)). intros x _ [Hx|Hx]; [done|by right; left]. }
    apply (keeps_comp _ _ _ _ _ _ K1 (st_keeps _ _ _ _ _ _ St2)). intros x _ [Hx|Hx]; [done|by right; right; left]. }
  apply wp_bind, wp_load64; [apply (budget_0 b); [apply St2|done]|by intros x Hx; apply owned_stable, (lm_first _ _ LM2)|].
  rewrite E2. apply wp_bind. rewrite <- (Z.add_0_r heap) at 1.
  apply (wp_store64_in b s2 heap 4096 0); [apply St2|done|exact (lm_page _ _ LM2)|lia|lia|]. intros s3 St3.
  rewrite Z.add_0_r in St3. pose proof (library_memory_keeps _ _ _ _ (st_keeps _ _ _ _ _ _ St3) LM2) as LM3.
  assert (vload 8 s3 first_item = heap) as E3.
  { rewrite (value_kept _ _ _ _ _ first_item St3); [done|exact (lm_first _ _ LM2)|].
    intros x Hx Hr. apply (la_first_page _ LA x Hx). unfold range in *. lia. }
  assert (keeps (library_writes heap) s0 s3) as K3.
  { apply (keeps_comp _ _ _ _ _ _ K2 (st_keeps _ _ _ _ _ _ St3)). intros x _ [Hx|Hx]; [done|].
    unfold library_writes, range in *. lia. }
  pose proof (stored_exact _ _ _ _ _ _ St3 ltac:(by vm_compute)) as Z3.
  assert (∀ k i v s s', stored b k (heap + i) v s s' → library_memory s heap → 8 ≤ i → 0 ≤ i + Z.of_nat k ≤ 4096 →
    vload 8 s heap = 4096 → vload 8 s' heap = 4096) as Hsize.
  { intros k i v t t' St LMt Hi Hk E. rewrite <- E, <- (Z.add_0_r heap).
    apply (field_kept b 4096 k i v t t' heap 8 0 St (lm_page _ _ LMt)); lia. }
  assert (∀ {B} (m : K Z) (f : Z → K ()) (g : K B) (Q' : B → kstate → Prop) t,
    wp (m ≫= f) (λ _ t', wp g Q' t') t → wp (x ← m; f x;; g) Q' t) as Hassoc.
  { intros B m f g Q' t H. unfold wp, mbind, M_bind in *. destruct (m t) as [x t'|]; [|done]. by destruct (f x t'). }
  apply Hassoc, (wp_set_item 8 s0 s3 heap 16); try done; try (simpl; lia); [apply St3|]. intros s4 B4 LM4 E4 _ St4 K4.
  apply Hassoc, (wp_set_item 8 s0 s4 heap 16); try done; try (simpl; lia). intros s5 B5 LM5 E5 _ St5 K5.
  apply Hassoc, (wp_set_item 2 s0 s5 heap 8); try done; try (simpl; lia). intros s6 B6 LM6 E6 _ St6 K6.
  apply (wp_set_item 2 s0 s6 heap 10); try done; try (simpl; lia). intros s7 B7 LM7 E7 _ St7 K7.
  apply HQ; [done|done| |done]. split; [exact (lm_first _ _ LM7)|done|].
  apply (Hsize _ _ _ _ _ St7 LM6); [lia|simpl; lia|]. apply (Hsize _ _ _ _ _ St6 LM5); [lia|simpl; lia|].
  apply (Hsize _ _ _ _ _ St5 LM4); [lia|simpl; lia|]. by apply (Hsize _ _ _ _ _ St4 LM3); [lia|simpl; lia|].
Qed.
Lemma wp_initialize s heap (Q : () → kstate → Prop) :
  budget b s → library_memory s heap → library_apart heap → 0 ≤ heap < 2 ^ 64 →
  (∀ s', budget b s' → printf_ready (heap + 32) s' → arena s' (heap + 232) (0xDEADBEEF - 232) →
     keeps (library_writes heap) s s' → Q () s') →
  wp (initialize_standard_library heap) Q s.
Proof using Hb0.
  intros Hb LM LA Hh HQ. unfold initialize_standard_library, init_printf.
  apply wp_bind, (wp_storev 8 b); [done|done|exact (lm_init _ _ LM)|]. intros s1 St1.
  pose proof (library_memory_keeps _ _ _ _ (st_keeps _ _ _ _ _ _ St1) LM) as LM1.
  apply wp_bind, (wp_malloc_init s s1 heap); try done; [apply St1|by apply (stored_exact _ _ _ _ _ _ St1); simpl in *; lia| |].
  { apply (keeps_mono (range init_heap_start 8)); [by left|exact (st_keeps _ _ _ _ _ _ St1)]. }
  intros s2 B2 LM2 A2 K2. apply wp_bind. change (1 * 200) with 200.
  apply (wp_malloc s2 heap 4096 200); [done|done|lia| | |].
  { intros x Hx. apply (lm_page _ _ LM2). unfold range in *. lia. }
  { intros x Hx Hr. apply (la_first_page _ LA x Hx). unfold range in *. lia. }
  intros s3 B3 A3 K3 _. pose proof (library_memory_keeps _ _ _ _ K3 LM2) as LM3.
  apply (wp_storev 8 b); [done|done|exact (lm_buffer _ _ LM3)|]. intros s4 St4.
  pose proof (st_keeps _ _ _ _ _ _ St4) as K4. pose proof (library_memory_keeps _ _ _ _ K4 LM3) as LM4.
  assert (heap + 32 < 2 ^ 64) as Hh'.
  { assert (stable s (heap + 32)) as Hs by (apply owned_stable, (lm_page _ _ LM); unfold range; lia).
    pose proof (stable_range s _ (budget_0 b s Hb Hb0) Hs). lia. }
  apply HQ.
  - apply St4.
  - split.
    + intros x Hx. by apply owned_stable, (lm_buffer _ _ LM4).
    + apply (stored_exact _ _ _ _ _ _ St4). simpl in *. lia.
    + intros x Hx. apply (lm_page _ _ LM4). unfold range in *. lia.
    + intros x Hx Hr. apply (la_buffer_page _ LA x Hx). unfold range in *. lia.
  - replace (heap + 32 + 200) with (heap + 232) in A3 by lia. split.
    + exact (lm_first _ _ LM4).
    + rewrite (value_kept _ _ _ _ _ first_item St4); [apply A3|exact (lm_first _ _ LM3)|exact (la_first_buffer _ LA)].
    + rewrite (value_kept _ _ _ _ _ (heap + 232) St4); [apply A3| |].
      * intros x Hx. apply (lm_page _ _ LM3). unfold range in *. lia.
      * intros x Hx Hr. apply (la_buffer_page _ LA x Hr). unfold range in *. lia.
  - assert (keeps (library_writes heap) s s3) as K23.
    { apply (keeps_comp _ _ _ _ _ _ K2 K3). intros x _ [Hx|Hx]; [done|].
      unfold malloc_writes, library_writes, range in *. lia. }
    apply (keeps_comp _ _ _ _ _ _ K23 K4). intros x _ [Hx|Hx]; [done|]. by right; right; right; left.
Qed.

(** Initialize_standard_library, given the start of the heap page in a2, ends with
    printf's buffer of 200 bytes allocated at the start of the page and malloc's free
    item behind it, and writes nothing but the library's variables and the first 240
    bytes of the page. *)
Theorem library_initialised s heap :
  budget b s → library_memory s heap → library_apart heap → 0 ≤ heap < 2 ^ 64 →
  ∃ s', initialize_standard_library heap s = Done () s' ∧ budget b s' ∧ printf_ready (heap + 32) s' ∧
    arena s' (heap + 232) (0xDEADBEEF - 232) ∧ keeps (library_writes heap) s s'.
Proof using Hb0.
  intros Hb LM LA Hh.
  destruct (wp_inv _ _ _ (wp_initialize s heap (λ _ s', budget b s' ∧ printf_ready (heap + 32) s' ∧
    arena s' (heap + 232) (0xDEADBEEF - 232) ∧ keeps (library_writes heap) s s') Hb LM LA Hh ltac:(done)))
    as ([] & s' & H). by exists s'.
Qed.
End arena.
