(* ===== verification/TlibcSample.v ===== *)
(** Witnesses for the C library: a program with its variables in the page 0x10000 and
    its heap in the page 0x11000. *)

From S2P Require Import Prelude Monad Memory Sv48 Machine Layout Samples Stdio PhysAlloc Paging AddressSpace Heap KAlloc Allocator Client Dma UserSpace Process Ext2 Ext2Walk Ext2Mount Ext2Files Loader Programs ProgramsSample Vfs Syscall Exception Tlibc.

Definition sample_program : UserProgram := {|
  init_heap_start := 0x10000; malloc_heap_start := 0x10008; first_item := 0x10010;
  printf_buffer := 0x10018; unset_register := 0
|}.
Definition sample_pages : Z → Prop := with_page (with_page (mapped_in no_pages) 0x10000) 0x11000.

#[local] Abbreviation UA := (user_heap 64 0x80208000 2 sample_pages).
#[local] Abbreviation P := sample_program.
#[local] Abbreviation MD := (memory_read sample_disk).

(** An environment that hands every ecall to the kernel's handler and leaves 0 in a0. *)
Definition sample_environment : Environment :=
  λ params, r ← machine_exception_handler (H := MD) 0 (Trap 8 0 0x10100 params); mret (rs_a0 r).

Lemma sample_serves params s s' :
  handle_syscall (H := MD) params s = Done () s' → sample_environment params s = Done 0 (in_user_mode s').
Proof.
  intros E. unfold sample_environment.
  by rewrite (bind_done _ _ _ _ _ (handler_environment_call 0 (Trap 8 0 0x10100 params) s s' eq_refl E)).
Qed.

Definition sample_served : ServedCalls (D := MD) sample_environment := {| served_call := sample_serves |}.

Lemma two_pages : ∃ s, budget (Allocator := UA) 16000 s ∧ ∀ x, page_of 0x11000 x → vbyte s x = 0.
Proof.
  destruct (add_user_page 64 0x80208000 3 _ 16000 0x10000 heap0 (heap0_user 16000 ltac:(lia)) ltac:(done))
    as (_ & _ & s1 & _ & _ & U1).
  destruct (add_user_page 64 0x80208000 2 _ 16000 0x11000 s1 (up_budget _ _ _ _ _ _ _ _ U1) ltac:(done))
    as (_ & _ & s2 & _ & _ & U2).
  exists s2. split; [exact (up_budget _ _ _ _ _ _ _ _ U2)|exact (up_zero _ _ _ _ _ _ _ _ U2)].
Qed.

Lemma sample_owned s p n : 0x10000 ≤ p → p + n ≤ 0x12000 → owned_range (A := UA) s p n.
Proof.
  intros H1 H2 x Hx. right. unfold sample_pages, with_page, page_of, range in *.
  destruct (decide (x < 0x11000)); [left; right|right]; zlia.
Qed.

Lemma sample_library s : library_memory (A := UA) (U := P) s 0x11000.
Proof. split; by apply sample_owned. Qed.

Lemma sample_apart : library_apart (U := P) 0x11000.
Proof. split; intros x; cbn; unfold range; lia. Qed.

Lemma library_initialised_witness :
  ∃ s s', initialize_standard_library (U := P) 0x11000 s = Done () s' ∧
    printf_ready (A := UA) (U := P) 0x11020 s' ∧ arena (A := UA) (U := P) s' 0x110E8 (0xDEADBEEF - 232).
Proof.
  destruct two_pages as (s & Hb & _). exists s.
  destruct (library_initialised (A := UA) (U := P) 16000 ltac:(lia) s 0x11000 Hb (sample_library s) sample_apart)
    as (s' & E & _ & PR & AR & _); [lia|].
  by exists s'.
Defined.

(** The state after initialisation; the page is still zero behind malloc's free item. *)
Lemma sample_started :
  ∃ s, budget (Allocator := UA) 16000 s ∧ printf_ready (A := UA) (U := P) 0x11020 s ∧
    arena (A := UA) (U := P) s 0x110E8 (0xDEADBEEF - 232) ∧ ∀ x, range 0x11108 40 x → vbyte s x = 0.
Proof.
  destruct two_pages as (s & Hb & Hz).
  assert (wp (initialize_standard_library (U := P) 0x11000) (λ _ s', budget (Allocator := UA) 16000 s' ∧
    printf_ready (A := UA) (U := P) 0x11020 s' ∧ arena (A := UA) (U := P) s' 0x110E8 (0xDEADBEEF - 232) ∧
    ∀ x, range 0x11108 40 x → vbyte s' x = 0) s) as W.
  { apply (wp_initialize (A := UA) (U := P) 16000 ltac:(lia) s 0x11000); [exact Hb|apply sample_library|exact sample_apart|lia|].
    intros s' B' PR AR K. split_and!; [exact B'|exact PR|exact AR|]. intros x Hx. rewrite (kp_byte _ _ _ K).
    - apply Hz. unfold page_of, range in *. zlia.
    - apply (owned_stable (Allocator := UA)), (sample_owned s x 1); unfold range in *; lia.
    - unfold library_writes, range in *. cbn. lia. }
  destruct (wp_inv _ _ _ W) as ([] & s' & _ & H). by exists s'.
Qed.

Lemma malloc_blocks_apart_witness :
  ∃ s s1 s2, malloc (U := P) 40 s = Done 0x11108 s1 ∧ malloc (U := P) 20 s1 = Done 0x11150 s2.
Proof.
  destruct sample_started as (s & Hb & _ & AR & _).
  destruct (malloc_blocks_apart (A := UA) (U := P) 16000 ltac:(lia) s 0x110E8 _ 40 20 Hb AR)
    as (s1 & s2 & E1 & _ & E2 & _); [lia|lia|lia|by apply sample_owned|intros x; cbn; unfold range; lia|].
  exists s, s1, s2. split; [exact E1|exact E2].
Defined.

(** The line the shell prints for a file descriptor. *)
Lemma user_printf_formats_witness :
  ∃ s s1, user_printf (U := P) (E := sample_environment) (chars "got file descriptor: %i" ++ newline) [3] s =
      (ecall (Environment := sample_environment) (write_call (U := P) 0x11020 23) ≫= λ _, mret 0) s1 ∧
    bytes_at (A := UA) s1 0x11020 (chars "got file descriptor: 3" ++ newline) ∧ console_out s1 = console_out s.
Proof.
  destruct sample_started as (s & Hb & PR & _).
  pose proof (user_printf_formats (A := UA) (U := P) (E := sample_environment) 16000 s 0x11020 (λ _, None)
    (chars "got file descriptor: %i" ++ newline) [3] (chars "got file descriptor: 3" ++ newline)
    ltac:(by vm_compute) Hb PR ltac:(by intros ?) ltac:(by vm_compute) ltac:(by vm_compute)) as W.
  change (Z.of_nat (length (chars "got file descriptor: 3" ++ newline))) with 23 in W.
  destruct W as (s1 & E & B & _ & _ & _ & O).
  exists s, s1. split; [exact E|]. split; [exact B|exact O].
Defined.

Lemma strcmp_orders_witness :
  ∃ s p q r, strcmp p q s = Done r s ∧ (r = 1 ↔ precedes (chars "ls") (chars "pwd")).
Proof.
  destruct two_pages as (s & Hb & _).
  destruct (make_cstr (A := UA) 16000 s (chars "pwd") Hb) as (p & s1 & B1 & C1 & _);
    [by vm_compute|by repeat constructor|].
  destruct (make_cstr (A := UA) _ s1 (chars "ls") B1) as (q & s2 & B2 & C2 & K2 & _);
    [by vm_compute|by repeat constructor|].
  exists s2, p, q.
  destruct (strcmp_orders (A := UA) s2 p q (chars "pwd") (chars "ls")) as (r & E & _ & _ & _ & H).
  - apply (budget_0 (A := UA) _ _ B2). by vm_compute.
  - apply (cstr_keeps (A := UA) _ _ _ _ _ K2 C1). by intros ? ? [].
  - exact C2.
  - by exists r.
Defined.
