(* ===== verification/Shell.v ===== *)
(** The shell: userspace/shell/shell.c and builtins.c.

    A program over the C library.  String literals that are passed on as pointers are
    addresses in its image, given as parameters. *)

From S2P Require Import Prelude Monad Memory Sv48 Machine Layout Samples Stdio Heap KAlloc Allocator Client UserSpace Process Ext2 Ext2Walk Ext2Mount Ext2Files Loader Vfs Syscall Exception Tlibc TlibcSample.

Section shell.
Context `{U : UserProgram} `{E : Environment}.

Definition pwd : K () :=
  buffer ← malloc 40;
  _ ← user_getcwd buffer 40;
  _ ← user_printf (chars "%s") [buffer];
  mret ().

(** [home] is the literal "/home/user/". *)
Definition ls (home : Z) : K () :=
  fd ← user_open home 0 0;
  _ ← user_printf (chars "got file descriptor: %i" ++ newline) [fd];
  mret ().

(** [lit_pwd] and [lit_ls] are the literals "pwd" and "ls". *)
Definition main (home lit_pwd lit_ls : Z) : K () :=
  buffer ← malloc 20;
  _ ← user_printf (chars "test from userspace" ++ newline) [];
  _ ← user_printf (chars "second test, lets see if this works" ++ newline) [];
  _ ← user_printf (chars "and a third time" ++ newline) [];
  _ ← user_printf (chars "calling ls" ++ newline) [];
  ls home;;
  _ ← user_printf (chars "after ls" ++ newline) [];
  _ ← user_read 0 buffer 20;
  _ ← user_printf (chars "got input in userspace: %s" ++ newline) [buffer];
  r ← strcmp buffer lit_pwd;
  (if r =? 0 then pwd else mret ());;
  r ← strcmp buffer lit_ls;
  (if r =? 0 then ls home else mret ());;
  spin.

(** tlibc/crt0.s: the library is initialised with the start of the heap, which the
    kernel has left in a2, and main is called. *)
Definition _start (a2 home lit_pwd lit_ls : Z) : K () :=
  initialize_standard_library a2;;
  main home lit_pwd lit_ls.
End shell.

(** * pwd *)

Section pwd.
Context `{A : Allocator} `{U : UserProgram} `{D : BlockDevice} `{SC : !ServedCalls Env}.

Lemma wp_user_getcwd b s buf size scheduler process path text l (Q : Z → kstate → Prop) :
  budget b s → 0 ≤ b → running s scheduler process path text l →
  owned_range s buf (Z.of_nat (length l)) → disjoint_range text (Z.of_nat (length l)) buf (Z.of_nat (length l)) →
  (∀ s', copied b buf l s s' → Q 0 (in_user_mode s')) → wp (user_getcwd buf size) Q s.
Proof.
  intros Hb Hb0 RN O Hd HQ. unfold user_getcwd, syscall. apply wp_bind, wp_served_call.
  by apply (wp_handle_getcwd b s _ scheduler process path text l).
Qed.

(** Memory of the program: malloc's item and the block behind it, printf's buffer and
    the library's variables, none of it the kernel's. *)
Record shell_memory (s : kstate) (f buf : Z) (kernel : Z → Prop) : Prop := ShellMemory {
  sm_block : owned_range s f 80;
  sm_zero : ∀ x, range (f + 32) 40 x → vbyte s x = 0;
  sm_first_block : disjoint_range first_item 8 f 80;
  sm_first_pointer : disjoint_range printf_buffer 8 first_item 8;
  sm_pointer_block : disjoint_range printf_buffer 8 f 80;
  sm_buffer_block : disjoint_range buf 200 f 80;
  sm_kernel : ∀ x, kernel x → ¬ range f 80 x ∧ ¬ range first_item 8 x
}.

Section run.
Context (b : Z) (s : kstate) (f n buf scheduler process path text : Z) (l : list Z).
Let kernel := running_memory scheduler process path text l.
Let m := Z.of_nat (length l).
Context (Hb : budget b s) (Hb0 : 0 ≤ b) (AR : arena s f n) (Hn : 40 ≤ n) (PR : printf_ready buf s).
Context (RN : running s scheduler process path text l) (Hl : m < 40) (SM : shell_memory s f buf kernel).

(** The block malloc returns: zero, while everything else is as before. *)
Record block_ready (s1 : kstate) : Prop := BlockReady {
  br_budget : budget b s1;
  br_running : running s1 scheduler process path text l;
  br_owned : owned_range s1 (f + 32) 40;
  br_zero : ∀ x, range (f + 32) 40 x → vbyte s1 x = 0;
  br_printf : printf_ready buf s1;
  br_console : console_more s s1;
  br_keeps : keeps (malloc_writes f 40) s s1
}.

Lemma wp_pwd_malloc (Q : Z → kstate → Prop) :
  (∀ s1, block_ready s1 → Q (f + 32) s1) → wp (malloc 40) Q s.
Proof using All.
  intros HQ. apply (wp_malloc b Hb0 s f n 40); [done|done|lia|apply SM|apply SM|].
  intros s1 Hb1 _ K1 M1. apply HQ. split; [done| | | | |by apply only_mem_more|done].
  - apply (running_apart (malloc_writes f 40) s); [done| |done]. intros x Hx Hk.
    destruct (sm_kernel _ _ _ _ SM x Hk). unfold malloc_writes, range in *. lia.
  - intros x Hx. apply (kp_owned _ _ _ K1), (sm_block _ _ _ _ SM). unfold range in *. lia.
  - intros x Hx. rewrite (kp_byte _ _ _ K1); [by apply SM| |].
    + apply owned_stable, (sm_block _ _ _ _ SM). unfold range in *. lia.
    + intros Hw. assert (¬ range first_item 8 x) by (intros Hi; apply (sm_first_block _ _ _ _ SM x Hi); unfold range in *; lia).
      unfold malloc_writes, range in *. lia.
  - apply (printf_ready_keeps buf (malloc_writes f 40) (vars s) s); [by destruct s|apply PR| |done]. intros x Hx Hw.
    pose proof (sm_first_pointer _ _ _ _ SM x Hx). pose proof (sm_pointer_block _ _ _ _ SM x Hx).
    unfold malloc_writes, range in *. lia.
Qed.

(** The text that getcwd copies there is a string: zeros follow. *)
Lemma copied_string s1 s2 : block_ready s1 → copied b (f + 32) l s1 s2 → cstr s2 (f + 32) l.
Proof using RN Hl.
  intros BR [_ L2 K2 _]. assert (Forall (λ c, c ≠ 0) l) as Hnz.
  { apply Forall_lookup. intros i c Hi. by apply (cs_chars _ _ _ (rn_chars _ _ _ _ _ _ RN) i c). }
  rewrite <- (until_nul_plain l Hnz). apply bytes_cstr; [done| |]; fold m.
  - apply owned_stable, (kp_owned _ _ _ K2), (br_owned _ BR). unfold range. lia.
  - rewrite (kp_byte _ _ _ K2); [by apply (br_zero _ BR); unfold range; lia| |unfold range; lia].
    apply owned_stable, (br_owned _ BR). unfold range. lia.
Qed.

(** The text on the console; of the memory in use malloc's variable and items, the block
    and printf's buffer have changed. *)
Record pwd_done (s' : kstate) : Prop := PwdDone {
  pw_budget : budget (b - m - 17) s';
  pw_vars : vars s' = vars (in_user_mode s);
  pw_keeps : keeps (λ x, range f 80 x ∨ range first_item 8 x ∨ range buf 200 x) (set_vars (vars s') s) s';
  pw_out : ∃ o, console_out s' = console_out s ++ o ++ l
}.

Lemma wp_pwd (Q : () → kstate → Prop) :
  m + 17 ≤ b → (∀ s', pwd_done s' → Q () s') → wp pwd Q s.
Proof using All.
  intros Hle HQ. unfold pwd. apply wp_bind, wp_pwd_malloc. intros s1 BR.
  apply wp_bind, (wp_user_getcwd b s1 _ 40 scheduler process path text l); [apply BR|lia|apply BR| | |].
  { intros x Hx. apply (br_owned _ BR). unfold range in *. lia. }
  { intros x Hx Hr. destruct (sm_kernel _ _ _ _ SM x); [right; right; right; unfold range in *; lia|].
    unfold range in *. lia. }
  intros s2 CO. pose proof (copied_string s1 s2 BR CO) as C2. destruct CO as [Hb2 L2 K2 M2].
  set (s3 := in_user_mode s2). set (v := vars s3).
  assert (keeps (range (f + 32) m) (set_vars v s1) s3) as K3 by by apply keeps_vars.
  assert (printf_ready buf s3) as PR3.
  { apply (printf_ready_keeps buf (range (f + 32) m) v s1); [done|apply PR| |apply BR]. intros x Hx Hr.
    apply (sm_pointer_block _ _ _ _ SM x Hx). unfold range in *. lia. }
  set (str q := if decide (q = f + 32) then Some l else None).
  apply wp_bind, (wp_user_printf b s3 buf str (chars "%s") [f + 32] l).
  - unfold s3, in_user_mode. by rewrite <- (budget_proper _ _ _ (same_mem_vars _ s2)).
  - done.
  - done.
  - intros q k. unfold str. case_decide as Hq; [|done]. intros [= <-]. subst q. split; [by apply cstr_vars|].
    intros x Hx Hr. apply (sm_buffer_block _ _ _ _ SM x Hr). unfold range in *. fold m in Hx. lia.
  - cbn. unfold str. rewrite decide_True by done. cbn. rewrite app_nil_r. f_equal. by apply (cstr_plain s2 (f + 32)).
  - fold m. lia.
  - intros s4 [B4 _ _ (o & O4) K4 V4]. apply wp_ret, HQ.
    assert (vars s2 = vars s) as V2 by (by rewrite (kp_vars _ _ _ K2), (kp_vars _ _ _ (br_keeps _ BR))).
    split.
    + done.
    + rewrite V4. unfold s3. rewrite in_user_mode_twice. by apply in_user_mode_vars.
    + assert (keeps (λ x, range f 80 x ∨ range first_item 8 x) s s2) as K02.
      { apply (keeps_comp _ _ _ _ _ _ (br_keeps _ BR) K2). intros x _ Hx. unfold malloc_writes, range in *. fold m in Hx. lia. }
      apply (keeps_comp _ _ _ _ _ _ (keeps_vars _ (vars s4) s s2 K02) K4). intros x _ [[Hx|Hx]|Hx]; auto.
    + destruct (console_more_trans _ _ _ (br_console _ BR) M2) as [_ [o' O']]. exists (o' ++ o).
      rewrite O4. cbn. rewrite O', until_nul_plain, <- !app_assoc; [done|].
      apply Forall_lookup. intros i c Hi. by apply (cs_chars _ _ _ C2 i c).
Qed.
End run.

(** The shell's pwd prints the working directory of its process: the text goes from
    the kernel's Path object through getcwd into a block of malloc and through printf
    to the console.  The terminating NUL, which getcwd does not copy, is there as long
    as malloc's memory is still zero. *)
Theorem pwd_prints b s f n buf scheduler process path text l :
  budget b s → Z.of_nat (length l) + 17 ≤ b → arena s f n → 40 ≤ n → printf_ready buf s →
  running s scheduler process path text l → Z.of_nat (length l) < 40 →
  shell_memory s f buf (running_memory scheduler process path text l) →
  ∃ s' o, pwd s = Done () s' ∧ console_out s' = console_out s ++ o ++ l.
Proof.
  intros Hb Hle AR Hn PR RN Hl SM.
  destruct (wp_inv _ _ _ (wp_pwd b s f n buf scheduler process path text l Hb ltac:(lia) AR Hn PR RN Hl SM
    (λ _ s', ∃ o, console_out s' = console_out s ++ o ++ l) Hle (λ s' H, pw_out _ _ _ _ _ _ H)))
    as ([] & s' & E & o & H). by exists s', o.
Qed.
End pwd.

(** * Witness: the process of a shell in its home directory *)

#[local] Abbreviation UA := (user_heap 64 0x80208000 2 sample_pages).
#[local] Abbreviation P := sample_program.
#[local] Abbreviation MD := (memory_read sample_disk).

Lemma pwd_prints_witness :
  ∃ s s' o, pwd (U := P) (E := sample_environment) s = Done () s' ∧ console_out s' = console_out s ++ o ++ chars "/home/user/".
Proof.
  destruct sample_started as (s1 & B1 & PR1 & AR1 & Z1).
  destruct (make_running (A := UA) _ s1 (chars "/home/user/") B1) as (s & scheduler & process & path & text & B & RN & K & N);
    [by vm_compute|by repeat constructor|].
  pose proof (kp_vars _ _ _ K) as Ev. cbn [vars set_vars] in Ev. rewrite <- Ev in K.
  pose proof (same_mem_vars (vars s) s1) as SM.
  assert (∀ x, range 0x10000 0x2000 x → stable (Allocator := UA) s1 x) as Hst.
  { intros x Hx. apply (owned_stable (Allocator := UA)), (sample_owned s1 0x10000 0x2000); [lia|lia|done]. }
  assert (∀ x, range 0x10000 0x2000 x → vbyte s x = vbyte s1 x) as Hv.
  { intros x Hx. rewrite (kp_byte _ _ _ K); [symmetry; by apply vbyte_proper| |by intros []].
    rewrite <- (stable_proper (Allocator := UA) s1 _ SM x x eq_refl). by apply Hst. }
  destruct (pwd_prints (A := UA) (U := P) (SC := sample_served) _ s 0x110E8 (0xDEADBEEF - 232) 0x11020 scheduler process path text
    (chars "/home/user/") B) as (s' & o & E & O).
  - by vm_compute.
  - split.
    + by apply sample_owned.
    + rewrite <- (ar_first _ _ _ AR1). apply vload_ext. intros i Hi. apply Hv. unfold range. cbn in *. lia.
    + rewrite <- (ar_size _ _ _ AR1). apply vload_ext. intros i Hi. apply Hv. unfold range. lia.
  - lia.
  - apply (printf_ready_keeps (A := UA) (U := P) 0x11020 nowhere (vars s) s1); [exact K|apply PR1|by intros ? ? []|exact PR1].
  - exact RN.
  - by vm_compute.
  - split.
    + by apply sample_owned.
    + intros x Hx. rewrite Hv by (unfold range in *; lia). by apply Z1.
    + intros x. cbn. unfold range. lia.
    + intros x. cbn. unfold range. lia.
    + intros x. cbn. unfold range. lia.
    + intros x. cbn. unfold range. lia.
    + intros x Hx. pose proof (N x Hx) as Hn.
      split; intros Hr; apply Hn, Hst; revert Hr; cbn; unfold range; lia.
  - exists s, s', o. split; [exact E|exact O].
Defined.
