(* ===== verification/Virtio.v ===== *)
(** The VirtIO drivers: kernel/drivers/virtio/{virtio.h,blk.h,blk.cpp,console.h,console.cpp}.

    A device is not code of the kernel: [Mmio] is what reading and writing one of its
    registers does, and what the device does to memory on its own.  The state of the
    device is part of physical memory, at the addresses of its register window.
    memory_barrier (a fence) has no effect in this sequential model. *)

From S2P Require Import Prelude Monad Memory Sv48 Machine Layout Stdio Paging Heap KAlloc Allocator Client.

(** Register accesses: width in bytes, physical address, and for a write the value. *)
Class Mmio := {
  mmio_load : nat → Z → mem → Z * mem;
  mmio_store : nat → Z → Z → mem → mem;
  device_step : mem → mem
}.

Section mmio.
Context `{Mmio}.

Definition mmio_read (n : nat) (va : Z) : K Z := λ s,
  match resolve s va with
  | Some pa => let '(v, m) := mmio_load n pa (pmem s) in Done (v mod 0x100 ^ Z.of_nat n) (set_pmem m s)
  | None => Fault (PageFault va) s
  end.

Definition mmio_write (n : nat) (va v : Z) : K () := λ s,
  match resolve s va with
  | Some pa => Done () (set_pmem (mmio_store n pa (v mod 0x100 ^ Z.of_nat n) (pmem s)) s)
  | None => Fault (PageFault va) s
  end.

(** The device's turn. *)
Definition device_turn : K () := modify (λ s, set_pmem (device_step (pmem s)) s).
End mmio.

(** * virtio.h *)

Definition VIRTIO_START : Z := 0x10001000 + VIRTUAL_OFFSET.
Definition VIRTIO_AMOUNT : Z := 8.
Definition VIRTIO_SIZE : Z := 0x1000.
Definition VIRTIO_QUEUE_SIZE : Z := 256.

(** Offsets in VirtIODeviceRegisters. *)
Module VirtIODeviceRegisters.
Definition magic_value : Z := 0x00.
Definition version : Z := 0x04.
Definition device_id : Z := 0x08.
Definition device_features : Z := 0x10.
Definition device_features_sel : Z := 0x14.
Definition driver_features : Z := 0x20.
Definition driver_features_sel : Z := 0x24.
Definition queue_sel : Z := 0x30.
Definition queue_num_max : Z := 0x34.
Definition queue_num : Z := 0x38.
Definition queue_ready : Z := 0x44.
Definition queue_notify : Z := 0x50.
Definition status : Z := 0x70.
Definition queue_desc : Z := 0x80.
Definition queue_driver : Z := 0x90.
Definition queue_device : Z := 0xA0.
End VirtIODeviceRegisters.
Module R := VirtIODeviceRegisters.

(** Offsets in VirtIOBlockDeviceConfig: the capacity comes first, then size_max and
    seg_max, the geometry, blk_size and the topology. *)
Module VirtIOBlockDeviceConfig.
Definition writeback : Z := 32.
Definition num_queues : Z := 34.
End VirtIOBlockDeviceConfig.

Definition VIRTQ_DESC_F_NEXT : Z := 1.
Definition VIRTQ_DESC_F_WRITE : Z := 2.

(** VirtQueue: 256 descriptors of 16 bytes, the available ring, the used ring.
    A VirtQueueDesc holds addr at 0, len at 8, flags at 12, next at 14. *)
Definition sizeof_VirtQueue : nat := 6672.
Definition desc_offset (i : Z) : Z := 16 * i.
Definition avail_offset : Z := 4096.
Definition used_offset : Z := 4616.
Definition avail_idx_offset : Z := avail_offset + 2.
Definition avail_ring_offset (i : Z) : Z := avail_offset + 4 + 2 * i.

Section virtio.
Context `{Mmio}.

(** [this->registers->status |= bit]. *)
Definition add_status (registers bit : Z) : K () :=
  status ← mmio_read 4 (registers ⊞ R.status);
  mmio_write 4 (registers ⊞ R.status) (Z.lor status bit).

(** Steps 1 to 6 of the initialisation, the same in both drivers. *)
Definition virtio_negotiate (registers : Z) (error : list Z) : K bool :=
  mmio_write 4 (registers ⊞ R.status) 0x0;;
  mmio_write 4 (registers ⊞ R.status) 0x1;;
  add_status registers 0x2;;
  mmio_write 4 (registers ⊞ R.device_features_sel) 0x0;;
  device_features ← mmio_read 4 (registers ⊞ R.device_features);
  mmio_write 4 (registers ⊞ R.device_features_sel) 0x1;;
  mmio_read 4 (registers ⊞ R.device_features);;
  mmio_write 4 (registers ⊞ R.driver_features_sel) 0x0;;
  mmio_write 4 (registers ⊞ R.driver_features) device_features;;
  add_status registers 0x8;;
  status ← mmio_read 4 (registers ⊞ R.status);
  if Z.land status 0x8 =? 0 then log LogLevel.ERROR error [];; mret false
  else mret true.

(** Step 7 for the queue [index]; [slot] is where the driver keeps its address. *)
Definition virtio_setup_queue (registers index slot : Z) (in_use unavailable : list Z) : K Z :=
  mmio_write 4 (registers ⊞ R.queue_sel) index;;
  queue_ready ← mmio_read 4 (registers ⊞ R.queue_ready);
  if negb (queue_ready =? 0) then log LogLevel.ERROR in_use [];; mret (-1)
  else
    queue_num_max ← mmio_read 4 (registers ⊞ R.queue_num_max);
    if queue_num_max =? 0 then log LogLevel.ERROR unavailable [];; mret (-1)
    else if queue_num_max <? VIRTIO_QUEUE_SIZE then
      log LogLevel.ERROR (chars "VirtQueue does not support enough queue elements.") [];;
      mret (-1)
    else
      queue ← new_zeroed sizeof_VirtQueue;
      store64 slot queue;;
      mmio_write 4 (registers ⊞ R.queue_num) VIRTIO_QUEUE_SIZE;;
      desc ← get_physical_address_of_virtual_address (queue ⊞ desc_offset 0);
      mmio_write 8 (registers ⊞ R.queue_desc) desc;;
      avail ← get_physical_address_of_virtual_address (queue ⊞ avail_offset);
      mmio_write 8 (registers ⊞ R.queue_driver) avail;;
      used ← get_physical_address_of_virtual_address (queue ⊞ used_offset);
      mmio_write 8 (registers ⊞ R.queue_device) used;;
      mmio_write 4 (registers ⊞ R.queue_ready) 0x1;;
      mret 0.

(** The device table: the first slot with the magic value, [version] and device id 2. *)
Definition find_device (version : Z) : K (option Z) :=
  loop (λ address,
    if address <? VIRTIO_START + VIRTIO_AMOUNT * VIRTIO_SIZE then
      magic ← mmio_read 4 address;
      v ← (if magic =? 0x74726976 then mmio_read 4 (address ⊞ R.version) else mret 0);
      id ← (if (magic =? 0x74726976) && (v =? version) then mmio_read 4 (address ⊞ R.device_id)
            else mret 0);
      if (magic =? 0x74726976) && (v =? version) && (id =? 0x2) then mret (inr (Some address))
      else mret (inl (address ⊞ VIRTIO_SIZE))
    else mret (inr None)) VIRTIO_START.

(** * blk.cpp

    VirtIOBlockDevice: registers at 0, config at 8, queue at 16. *)

Definition sizeof_VirtIOBlockDevice : Z := 24.

Definition VirtIOBlockDevice_set_registers (this registers : Z) : K () := store64 this registers.
Definition VirtIOBlockDevice_set_config (this config : Z) : K () := store64 (this ⊞ 8) config.

Definition VirtIOBlockDevice_init (this : Z) : K Z :=
  registers ← load64 this;
  ok ← virtio_negotiate registers (chars
    "Error in block device initialization: Device does not support the selected features");
  if negb ok then mret (-1)
  else
    res ← virtio_setup_queue registers 0 (this ⊞ 16)
      (chars "VirtQueue for block device is already in use.")
      (chars "VirtQueue for block device is not available.");
    if res <? 0 then mret res
    else
      config ← load64 (this ⊞ 8);
      mmio_write 1 (config ⊞ VirtIOBlockDeviceConfig.writeback) 0x0;;
      mmio_read 8 config;;
      mmio_read 2 (config ⊞ VirtIOBlockDeviceConfig.num_queues);;
      add_status registers 0x4;;
      mret 0.

(** VirtIOBlkRequest: header (type at 0, sector at 8), 512 bytes of data at 16, status
    at 528. *)
Definition sizeof_VirtIOBlkRequest : Z := 536.
Definition request_status : Z := 528.
Definition VirtIOBlkRequest_ctor (this type sector : Z) : K () :=
  store32 this type;;
  store64 (this ⊞ 8) (u32 sector).

(** [this->queue->field = v], a field of [n] bytes at [offset]. *)
Definition set_queue (this : Z) (n : nat) (offset v : Z) : K () :=
  queue ← load64 (this ⊞ 16);
  storev n (queue ⊞ offset) v.

(** The chain of three descriptors for a request, and its entry in the available ring. *)
Definition fill_queue (this request length buffer type : Z) : K () :=
  header ← get_physical_address_of_virtual_address request;
  set_queue this 8 (desc_offset 0) header;;
  set_queue this 4 (desc_offset 0 + 8) 16;;
  set_queue this 2 (desc_offset 0 + 12) VIRTQ_DESC_F_NEXT;;
  set_queue this 2 (desc_offset 0 + 14) 1;;
  address ← get_physical_address_of_virtual_address buffer;
  set_queue this 8 (desc_offset 1) address;;
  set_queue this 4 (desc_offset 1 + 8) length;;
  set_queue this 2 (desc_offset 1 + 14) 2;;
  set_queue this 2 (desc_offset 1 + 12)
    (if type =? 0x1 then VIRTQ_DESC_F_NEXT else Z.lor VIRTQ_DESC_F_NEXT VIRTQ_DESC_F_WRITE);;
  status ← get_physical_address_of_virtual_address (request ⊞ request_status);
  set_queue this 8 (desc_offset 2) status;;
  set_queue this 4 (desc_offset 2 + 8) 1;;
  set_queue this 2 (desc_offset 2 + 12) VIRTQ_DESC_F_WRITE;;
  queue ← load64 (this ⊞ 16);
  idx ← load16 (queue ⊞ avail_idx_offset);
  set_queue this 2 (avail_ring_offset (idx mod VIRTIO_QUEUE_SIZE)) 0x0;;
  queue ← load64 (this ⊞ 16);
  idx ← load16 (queue ⊞ avail_idx_offset);
  set_queue this 2 avail_idx_offset (idx + 1).

Definition VirtIOBlockDevice_basic_op (this sector length buffer type : Z) : K Z :=
  if negb (length mod 512 =? 0) then
    log LogLevel.ERROR (chars "Length for basic block device op is not a multiple of 512.") [];;
    mret (-1)
  else if negb (type =? 0x0) && negb (type =? 0x1) then
    log LogLevel.ERROR (chars "Type of operation has to be 0x0 or 0x1.") [];;
    mret (-1)
  else
    request ← operator_new sizeof_VirtIOBlkRequest;
    VirtIOBlkRequest_ctor request type sector;;
    store8 (request ⊞ request_status) 0x12;;
    fill_queue this request length buffer type;;
    registers ← load64 this;
    mmio_write 4 (registers ⊞ R.queue_notify) 0x0;;
    loop (λ _ : (),
      device_turn;;
      status ← load8 (request ⊞ request_status);
      mret (if status =? 0x12 then inl () else inr ())) ();;
    mret 0.

Definition VirtIOBlockDevice_read_blocks (this sector length buffer : Z) : K Z :=
  VirtIOBlockDevice_basic_op this sector length buffer 0x0.
Definition VirtIOBlockDevice_write_blocks (this sector length buffer : Z) : K Z :=
  VirtIOBlockDevice_basic_op this sector length buffer 0x1.

Definition VirtIOBlockDevice_read (this offset length buffer : Z) : K Z :=
  log LogLevel.VIRTIO (chars "Reading %i bytes from offset 0x%x") [length; offset];;
  let offset := offset ⊞ 512 * 2048 in
  let sector := offset / 512 in
  let too_much_at_start := offset mod 512 in
  let amount := length / 512 in
  temp_buffer ← kalloc (u64 (512 * (amount ⊞ 1)));
  log LogLevel.WARNING (chars "Temp buffer in VirtIOBlockDevice::read should be freed!") [];;
  res ← VirtIOBlockDevice_read_blocks this sector (u64 ((amount ⊞ 1) * 512)) temp_buffer;
  if res <? 0 then mret res
  else
    memcpy buffer (temp_buffer ⊞ too_much_at_start) length;;
    mret 0.

Definition get_block_device : K Z :=
  found ← find_device 0x2;
  match found with
  | None => mret 0x0
  | Some address =>
      device ← kalloc sizeof_VirtIOBlockDevice;
      modify (λ s, set_vars (set_block_device device (vars s)) s);;
      VirtIOBlockDevice_set_registers device address;;
      VirtIOBlockDevice_set_config device (address ⊞ 0x100);;
      mret device
  end.

(** * console.cpp

    VirtIOConsoleDevice: registers at 0, config at 8, the four queues from 16 on. *)

Definition sizeof_VirtIOConsoleDevice : Z := 48.

Definition VirtIOConsoleDevice_set_registers (this registers : Z) : K () := store64 this registers.
Definition VirtIOConsoleDevice_set_config (this config : Z) : K () := store64 (this ⊞ 8) config.

Definition VirtIOConsoleDevice_init (this : Z) : K Z :=
  registers ← load64 this;
  ok ← virtio_negotiate registers (chars
    "Error in console device initialization: Device does not support the selected features");
  if negb ok then mret (-1)
  else
    res ← loop (λ i,
      if i <? 4 then
        res ← virtio_setup_queue registers i (this ⊞ (16 + 8 * i))
          (chars "VirtQueue for console device is already in use.")
          (chars "VirtQueue for console device is not available.");
        mret (if res <? 0 then inr res else inl (i + 1))
      else mret (inr 0)) 0;
    if res <? 0 then mret res
    else
      add_status registers 0x4;;
      mret 0.

Definition get_console_device : K Z :=
  found ← find_device 0x3;
  match found with
  | None => mret 0x0
  | Some address =>
      device ← kalloc sizeof_VirtIOConsoleDevice;
      modify (λ s, set_vars (set_console_device device (vars s)) s);;
      VirtIOConsoleDevice_set_registers device address;;
      VirtIOConsoleDevice_set_config device (address ⊞ 0x100);;
      mret device
  end.
End virtio.
