(* ===== verification/VirtioDevice.v ===== *)
(** What the VirtIO drivers rely on of a device: the register file of the VirtIO 1.1
    specification (section 4.2.2, MMIO device register layout) as a state machine, the
    class of devices that implement it, and the rules for register accesses. *)

From S2P Require Import Prelude Monad Memory Sv48 Machine Layout Stdio PhysAlloc Paging Heap KAlloc Allocator Client Dma Virtio.

(** * The register file *)

(** Queue 0: size, ready, the addresses of its three areas, and the index of the next
    entry of the available ring the device will look at. *)
Record vqueue := VQueue {
  vq_num : Z; vq_ready : Z; vq_desc : Z; vq_driver : Z; vq_device : Z; vq_seen : Z
}.
Definition no_queue : vqueue := VQueue 0 0 0 0 0 0.

Record vregs := VRegs {
  vr_status : Z;
  vr_features_sel : Z;
  vr_driver_sel : Z;
  vr_driver_lo : Z;
  vr_driver_hi : Z;
  vr_queue_sel : Z;
  vr_queue : vqueue;
  vr_notified : bool
}.

(** A device with one queue: its identity, the words of features it offers, which ones
    it accepts back, and the size of its queue. *)
Record vdevice := VDevice {
  vd_id : Z;
  vd_offered : Z → Z;
  vd_accepts : Z → Z → bool;
  vd_num_max : Z
}.

Section registers.
Context (d : vdevice).

Definition vread (off : Z) (r : vregs) : Z :=
  u32 (if off =? R.magic_value then 0x74726976
       else if off =? R.version then 0x2
       else if off =? R.device_id then vd_id d
       else if off =? R.device_features then vd_offered d (vr_features_sel r)
       else if off =? R.queue_num_max then if vr_queue_sel r =? 0 then vd_num_max d else 0
       else if off =? R.queue_ready then if vr_queue_sel r =? 0 then vq_ready (vr_queue r) else 0
       else if off =? R.status then vr_status r
       else 0).

(** The registers the drivers read. *)
Definition readable (off : Z) : bool :=
  existsb (Z.eqb off) [R.magic_value; R.version; R.device_id; R.device_features;
    R.queue_num_max; R.queue_ready; R.status].

(** Writing 0 resets; FEATURES_OK (8) stays set only when the features are accepted. *)
Definition write_status (v : Z) (r : vregs) : vregs :=
  if v =? 0 then VRegs 0 0 0 0 0 0 no_queue false
  else
    let v := if Z.testbit v 3 && negb (vd_accepts d (vr_driver_lo r) (vr_driver_hi r))
             then Z.clearbit v 3 else v in
    VRegs v (vr_features_sel r) (vr_driver_sel r) (vr_driver_lo r) (vr_driver_hi r)
      (vr_queue_sel r) (vr_queue r) (vr_notified r).

Definition set_queue_regs (q : vqueue) (r : vregs) : vregs :=
  if vr_queue_sel r =? 0 then
    VRegs (vr_status r) (vr_features_sel r) (vr_driver_sel r) (vr_driver_lo r) (vr_driver_hi r)
      (vr_queue_sel r) q (vr_notified r)
  else r.

Definition vwrite (off v : Z) (r : vregs) : vregs :=
  let '(VRegs st fs ds lo hi qs q nt) := r in
  let '(VQueue num ready desc driver device seen) := q in
  if off =? R.status then write_status v r
  else if off =? R.device_features_sel then VRegs st v ds lo hi qs q nt
  else if off =? R.driver_features_sel then VRegs st fs v lo hi qs q nt
  else if off =? R.driver_features then
    if ds =? 0 then VRegs st fs ds v hi qs q nt
    else if ds =? 1 then VRegs st fs ds lo v qs q nt else r
  else if off =? R.queue_sel then VRegs st fs ds lo hi v q nt
  else if off =? R.queue_num then set_queue_regs (VQueue v ready desc driver device seen) r
  else if off =? R.queue_ready then set_queue_regs (VQueue num v desc driver device 0) r
  else if off =? R.queue_desc then set_queue_regs (VQueue num ready v driver device seen) r
  else if off =? R.queue_driver then set_queue_regs (VQueue num ready desc v device seen) r
  else if off =? R.queue_device then set_queue_regs (VQueue num ready desc driver v seen) r
  else if off =? R.queue_notify then VRegs st fs ds lo hi qs q true
  else r.

(** The width of the access to a register (an 8-byte store to one of the queue addresses
    is the pair of stores to its low and high word); the configuration space behind 0x100
    is accessed with the width of the field. *)
Definition reg_width (off : Z) (n : nat) : bool :=
  if 0x100 <=? off then (n <=? 8)%nat
  else if (off =? R.queue_desc) || (off =? R.queue_driver) || (off =? R.queue_device)
  then (n =? 8)%nat else (n =? 4)%nat.
End registers.

(** * Devices *)

(** The window of the device at [base]. *)
Definition window (base a : Z) : Prop := base ≤ a < base + VIRTIO_SIZE.

Class VirtioRegisters (H : Mmio) (base : Z) (d : vdevice) := {
  view : mem → vregs;
  base_device a : window base a → device_addr a;
  view_window m m' : agree (window base) m m' → view m' = view m;
  mmio_load_mem n off m : 0 ≤ off < VIRTIO_SIZE → (mmio_load n (base + off) m).2 = m;
  mmio_load_reg off m : readable off = true → (mmio_load 4 (base + off) m).1 = vread d off (view m);
  mmio_store_mem n off v m : 0 ≤ off < VIRTIO_SIZE →
    agree (λ a, ¬ window base a) m (mmio_store n (base + off) v m);
  mmio_store_reg n off v m : 0 ≤ off < VIRTIO_SIZE → reg_width off n = true →
    0 ≤ v < 0x100 ^ Z.of_nat n →
    view (mmio_store n (base + off) v m) = vwrite d off v (view m)
}.

Section device.
Context `{A : Allocator} {DM : DeviceMemory A} {H : Mmio} (base : Z) (d : vdevice).
Context {VR : VirtioRegisters H base d}.

(** Where the driver sees the registers. *)
Definition registers : Z := base + VIRTUAL_OFFSET.

Lemma window_bounds : 0x10001000 ≤ base ∧ base + VIRTIO_SIZE ≤ 0x10009000.
Proof using VR.
  pose proof (base_device base) as H1. pose proof (base_device (base + VIRTIO_SIZE - 1)) as H2.
  unfold window, device_addr, VIRTIO_SIZE in *. lia.
Qed.

Lemma register_resolve s off :
  0 ≤ off < VIRTIO_SIZE → resolve s (registers ⊞ off) = Some (base + off).
Proof using VR.
  intros Ho. pose proof window_bounds. unfold VIRTIO_SIZE in *.
  rewrite u64_small by (unfold registers, VIRTUAL_OFFSET; lia).
  rewrite resolve_window by (unfold registers, WINDOW_SIZE; lia). f_equal. unfold registers. lia.
Qed.

Lemma register_0 : registers ⊞ 0 = registers.
Proof using VR.
  pose proof window_bounds. rewrite Z.add_0_r. unfold registers, VIRTUAL_OFFSET, VIRTIO_SIZE in *.
  rewrite u64_small by lia. lia.
Qed.

(** Changes in the window of the device are changes a device may make. *)
Lemma window_dma s m : agree (λ a, ¬ window base a) (pmem s) m → agree (λ a, ¬ dma_addr s a) (pmem s) m.
Proof using VR.
  apply agree_mono. intros a Hn Hw. apply Hn. left. by apply base_device.
Qed.

(** A device's step on memory, seen from the kernel. *)
Lemma keeps_dma b s m (P : Z → Prop) (F : Z → Prop) :
  budget b s → 0 ≤ b → agree (λ a, ¬ F a) (pmem s) m → (∀ a, F a → dma_addr s a) →
  (∀ x pa, stable s x → resolve s x = Some pa → F pa → P x) → keeps P s (set_pmem m s).
Proof using DM.
  intros Hb Hb0 Ha Hf HP.
  assert (agree (λ a, ¬ dma_addr s a) (pmem s) m) as Hd.
  { eapply agree_mono; [|exact Ha]. intros a Hn HF. by apply Hn, Hf. }
  split; [intros x; by apply (dma_stable b)| |intros x; by apply (dma_stable b)|intros x _; by apply (dma_stable b)|done].
  intros x Hx Hn. unfold vbyte. rewrite (proj2 (proj2 (dma_stable b s m x Hb Hb0 Hd))).
  destruct (resolve s x) as [pa|] eqn:E; [|done]. apply Ha. intros HF. apply Hn. by apply (HP x pa).
Qed.

Lemma device_va_phys s x pa :
  budget 0 s → stable s x → resolve s x = Some pa → device_addr pa → device_va x.
Proof using DM.
  intros Hb Hx E Hd. assert (device_va (pa + VIRTUAL_OFFSET)) as Hv.
  { unfold device_va. by replace (pa + VIRTUAL_OFFSET - VIRTUAL_OFFSET) with pa by lia. }
  assert (x = pa + VIRTUAL_OFFSET) as ->; [|done].
  apply (stable_inj s x _ pa Hb Hx); [by apply device_apart|done|].
  rewrite resolve_window by (unfold device_addr, WINDOW_SIZE in *; lia). f_equal. lia.
Qed.

(** The registers change through the window only. *)
Lemma view_keeps P s s' :
  budget 0 s → keeps P s s' → (∀ x, device_va x → ¬ P x) → view (pmem s') = view (pmem s).
Proof using DM.
  intros Hb K HP. apply view_window. intros a Ha. apply base_device in Ha.
  assert (device_va (a + VIRTUAL_OFFSET)) as Hv.
  { unfold device_va. by replace (a + VIRTUAL_OFFSET - VIRTUAL_OFFSET) with a by lia. }
  pose proof (kp_byte _ _ _ K _ (proj1 (device_apart s _ Hb Hv)) (HP _ Hv)) as E. unfold vbyte in E.
  rewrite !resolve_window in E by (unfold device_addr, WINDOW_SIZE in *; lia).
  by replace (a + VIRTUAL_OFFSET - VIRTUAL_OFFSET) with a in E by lia.
Qed.

(** [s]: a state reached from [s0] by register accesses, with the registers [r]. *)
Record at_regs (r : vregs) (b : Z) (s0 s : kstate) : Prop := AtRegs {
  ar_budget : budget b s;
  ar_view : view (pmem s) = r;
  ar_keeps : keeps device_va s0 s;
  ar_only : only_mem s0 s
}.

Lemma at_regs_refl b s : budget b s → at_regs (view (pmem s)) b s s.
Proof using Type. intros Hb. split; [done|done|apply keeps_refl|reflexivity]. Qed.

Lemma wp_read_reg r b s0 s off (Q : Z → kstate → Prop) :
  at_regs r b s0 s → readable off = true → Q (vread d off r) s →
  wp (mmio_read 4 (registers ⊞ off)) Q s.
Proof using VR.
  intros AR Hr HQ. assert (0 ≤ off < VIRTIO_SIZE) as Ho.
  { unfold readable in Hr. apply existsb_exists in Hr as (x & Hx & ->%Z.eqb_eq).
    repeat destruct Hx as [<-|Hx]; done. }
  unfold wp, mmio_read. rewrite register_resolve by done.
  pose proof (mmio_load_mem 4 off (pmem s) Ho) as E1. pose proof (mmio_load_reg off (pmem s) Hr) as E2.
  destruct (mmio_load 4 (base + off) (pmem s)) as [v m]. cbn in E1, E2. subst v m.
  rewrite (ar_view _ _ _ _ AR). change (0x100 ^ Z.of_nat 4) with 0x100000000. rewrite set_pmem_id.
  unfold vread. unfold u32 at 1. rewrite Zmod_mod. done.
Qed.

(** Reading the configuration space gives some value. *)
Lemma wp_read_config n s off (Q : Z → kstate → Prop) :
  0 ≤ off < VIRTIO_SIZE → (∀ v, Q v s) → wp (mmio_read n (registers ⊞ off)) Q s.
Proof using VR.
  intros Ho HQ. unfold wp, mmio_read. rewrite register_resolve by done.
  pose proof (mmio_load_mem n off (pmem s) Ho) as E1.
  destruct (mmio_load n (base + off) (pmem s)) as [v m]. cbn in E1. subst m. rewrite set_pmem_id. apply HQ.
Qed.

Lemma wp_write_reg n r b s0 s off v (Q : () → kstate → Prop) :
  at_regs r b s0 s → 0 ≤ b → 0 ≤ off < VIRTIO_SIZE → reg_width off n = true →
  0 ≤ v < 0x100 ^ Z.of_nat n →
  (∀ s', at_regs (vwrite d off v r) b s0 s' → Q () s') →
  wp (mmio_write n (registers ⊞ off) v) Q s.
Proof using VR DM.
  intros [Hb Hv K M] Hb0 Ho Hw Hr HQ. unfold wp, mmio_write. rewrite register_resolve, Z.mod_small by done.
  pose proof (mmio_store_mem n off v (pmem s) Ho) as Ha.
  apply HQ. split.
  - apply dma_budget; [done|done|by apply window_dma].
  - cbn [pmem set_pmem]. rewrite mmio_store_reg by done. by rewrite Hv.
  - apply (keeps_trans _ _ s); [done|]. apply (keeps_dma b s _ _ (window base)); try done.
    + intros a Hx. left. by apply base_device.
    + intros x pa Hx E Hx'. apply (device_va_phys s x pa); [by apply (budget_0 b)|done|done|by apply base_device].
  - etrans; [exact M|apply only_mem_set_pmem].
Qed.

(** [status |= bit]. *)
Lemma wp_add_status r b s0 s bit (Q : () → kstate → Prop) :
  at_regs r b s0 s → 0 ≤ b → 0 ≤ bit < 2 ^ 32 →
  (∀ s', at_regs (write_status d (Z.lor (u32 (vr_status r)) bit) r) b s0 s' → Q () s') →
  wp (add_status registers bit) Q s.
Proof using VR DM.
  intros AR Hb0 Hbit HQ. unfold add_status. apply wp_bind, (wp_read_reg r b s0); [done|done|].
  change (vread d R.status r) with (u32 (vr_status r)).
  apply (wp_write_reg 4 r b s0); [done|done|done|done| |].
  - pose proof (u32_range (vr_status r)). by apply (lor_lt _ _ 32).
  - intros s' AR'. apply HQ. destruct r as [? ? ? ? ? ? []]. exact AR'.
Qed.

Lemma at_regs_emit o r b s0 s : at_regs r b s0 s → at_regs r b s0 (emit o s).
Proof using Type.
  intros [Hb Hv K M]. split; [by apply budget_emit|done| |].
  - eapply keeps_trans; [exact K|apply keeps_emit].
  - etrans; [exact M|apply only_mem_emit].
Qed.

(** Evaluates the register file after an access. *)
Ltac next_regs AR :=
  let s := fresh "s" in let AR' := fresh "AR" in
  intros s AR'; clear AR; rename AR' into AR; lazy -[vd_offered vd_accepts] in AR.
Ltac write_reg AR := apply wp_bind, (wp_write_reg 4 _ _ _ _ _ _ _ AR); [done..|]; next_regs AR.

(** Steps 1 to 6 of the initialisation: the device ends with the features it offers in
    word 0 negotiated, or refuses them. *)
Definition negotiated : vregs :=
  VRegs 0xB 1 0 (u32 (vd_offered d 0)) 0 0 no_queue false.
Definition accepted : bool := vd_accepts d (u32 (vd_offered d 0)) 0.

Lemma wp_negotiate b s error (Q : bool → kstate → Prop) :
  budget b s → 0 ≤ b → fmt_ok error 0 = true →
  (∀ r s', at_regs r b s s' → accepted = false → Z.testbit (vr_status r) 2 = false → Q false s') →
  (∀ s', at_regs negotiated b s s' → accepted = true → Q true s') →
  wp (virtio_negotiate registers error) Q s.
Proof using VR DM.
  intros Hb Hb0 He HQ1 HQ2. unfold virtio_negotiate.
  pose proof (u32_range (vd_offered d 0)) as Hf. unfold negotiated, accepted in *.
  remember (u32 (vd_offered d 0)) as f eqn:Ef.
  assert (at_regs (view (pmem s)) b s s) as AR by by apply at_regs_refl.
  destruct (view (pmem s)) as [? ? ? ? ? ? []].
  do 2 write_reg AR. apply wp_bind, (wp_add_status _ _ _ _ _ _ AR); [done..|]. next_regs AR.
  write_reg AR. apply wp_bind, (wp_read_reg _ _ _ _ _ _ AR); [done|].
  change (vread d R.device_features _) with (u32 (vd_offered d 0)). rewrite <- Ef.
  write_reg AR. apply wp_bind, (wp_read_reg _ _ _ _ _ _ AR); [done|].
  write_reg AR. write_reg AR.
  apply wp_bind, (wp_add_status _ _ _ _ _ _ AR); [done..|]. next_regs AR.
  apply wp_bind, (wp_read_reg _ _ _ _ _ _ AR); [done|].
  destruct (vd_accepts d f 0) eqn:Ea.
  - apply wp_ret. by apply HQ2.
  - apply wp_bind, wp_log; [done|]. intros o. apply wp_ret.
    by apply (HQ1 _ _ (at_regs_emit o _ _ _ _ AR)).
Qed.

(** Step 7, for a device after a reset: the queue is made, its address is stored in the
    object and its three physical addresses are in the registers. *)
Record queue_made (this q b : Z) (r : vregs) (s s' : kstate) : Prop := QueueMade {
  qm_budget : budget (b - 6688) s';
  qm_owned : owned_range s' q 6672;
  qm_place : q = free_list s + 16 ∧ free_list s' = q + 6672;
  qm_new : ∀ x, range q 6672 x → ¬ stable s x;
  qm_zero : ∀ x, range q 6672 x → vbyte s' x = 0;
  qm_slot : vload 8 s' (this + 16) = q;
  qm_keeps : keeps (λ x, device_va x ∨ range (this + 16) 8 x) s s';
  qm_view : ∃ qd qa qu, resolve s' q = Some qd ∧ resolve s' (q + avail_offset) = Some qa ∧
    resolve s' (q + used_offset) = Some qu ∧
    view (pmem s') = VRegs (vr_status r) (vr_features_sel r) (vr_driver_sel r) (vr_driver_lo r)
      (vr_driver_hi r) 0 (VQueue 256 1 qd qa qu 0) (vr_notified r)
}.

Lemma wp_translate b s x (Q : Z → kstate → Prop) :
  budget b s → 0 ≤ b → owned s x →
  (∀ pa, 0 ≤ pa < 2 ^ 64 → resolve s x = Some pa → Q pa s) →
  wp (get_physical_address_of_virtual_address x) Q s.
Proof using DM.
  intros Hb Hb0 Hx HQ. destruct (owned_translated s x) as (pa & Hr & E & Et); [by apply (budget_0 b)|done|].
  eapply wp_done; [exact Et|by apply HQ].
Qed.

(** One of the three addresses is looked up and written. *)
Lemma wp_queue_address {B} b r s0 s q o off (k : K B) (Q : B → kstate → Prop) :
  at_regs r b s0 s → 0 ≤ b → owned_range s0 q 6672 → 0 ≤ o < 6672 →
  0 ≤ off < VIRTIO_SIZE → reg_width off 8 = true →
  (∀ pa s', 0 ≤ pa < 2 ^ 64 → resolve s0 (q + o) = Some pa → at_regs (vwrite d off pa r) b s0 s' → wp k Q s') →
  wp (pa ← get_physical_address_of_virtual_address (q ⊞ o); mmio_write 8 (registers ⊞ off) pa;; k) Q s.
Proof using VR DM.
  intros AR Hb0 Hq Ho Hoff Hw HQ. pose proof AR as [Hb _ K _].
  pose proof (owned_range_keeps _ _ _ _ _ K Hq) as Hq'.
  rewrite (owned_range_add s q 6672 o) by (done || lia || by apply (budget_0 b)).
  assert (range q 6672 (q + o)) as Hr by (unfold range; lia).
  apply wp_bind, (wp_translate b); [done|done|by apply Hq'|]. intros pa Hpa E.
  apply wp_bind, (wp_write_reg 8 r b s0); try done. intros s' AR'. apply (HQ pa s' Hpa); [|done].
  rewrite <- E. symmetry. apply (kp_map _ _ _ K). by apply owned_stable, Hq.
Qed.

(** The queue is allocated and its address kept, before the device hears of it. *)
Record queue_stored (this q b : Z) (s s' : kstate) : Prop := QueueStored {
  qs_budget : budget (b - 6688) s';
  qs_owned : owned_range s' q 6672;
  qs_this : owned_range s' this 24;
  qs_place : q = free_list s + 16 ∧ free_list s' = q + 6672;
  qs_new : ∀ x, range q 6672 x → ¬ stable s x;
  qs_zero : ∀ x, range q 6672 x → vbyte s' x = 0;
  qs_slot : vload 8 s' (this + 16) = q;
  qs_keeps : keeps (range (this + 16) 8) s s'
}.

Lemma wp_store_queue {B} b s this (k : Z → K B) (Q : B → kstate → Prop) :
  budget b s → 6688 ≤ b → owned_range s this 24 →
  (∀ q s', queue_stored this q b s s' → wp (k q) Q s') →
  wp (q ← new_zeroed sizeof_VirtQueue; store64 (this ⊞ 16) q;; k q) Q s.
Proof using Type.
  intros Hb Hle Hthis HQ. apply wp_bind, (wp_new_zeroed b); [done|done|]. intros q s2 Hb2 Fr Hz.
  pose proof (fr_keeps _ _ _ _ Fr) as K2. change (Z.of_nat sizeof_VirtQueue) with 6672 in *.
  replace (b - 6672 - 16) with (b - 6688) in Hb2 by lia.
  pose proof (owned_range_keeps _ _ _ _ _ K2 Hthis) as Hthis2.
  apply wp_bind, (wp_store_field 8 (b - 6688) s2 this 24 16 q); [done|lia|done|lia|lia|lia|].
  intros s3 St Hthis3. pose proof (st_keeps _ _ _ _ _ _ St) as K3. apply HQ. split.
  - apply St.
  - apply (owned_range_keeps _ _ _ _ _ K3). exact (fr_owned _ _ _ _ Fr).
  - done.
  - destruct (only_mem_fields _ _ (st_only _ _ _ _ _ _ St)) as (_ & _ & _ & _ & F3 & _), (fr_place _ _ _ _ Fr).
    split; congruence.
  - exact (fr_new _ _ _ _ Fr).
  - intros x Hx. rewrite (kp_byte _ _ _ K3); [by apply Hz|by apply owned_stable, (fr_owned _ _ _ _ Fr)|].
    intros Hx'. apply (fr_new _ _ _ _ Fr x Hx), owned_stable, Hthis. change (Z.of_nat 8) with 8 in Hx'. unfold range in *. lia.
  - rewrite (st_value _ _ _ _ _ _ St). apply Z.mod_small. destruct (fr_pos _ _ _ _ Fr). simpl in *. lia.
  - apply (keeps_comp nowhere (range (this + 16) 8) _ s s2 s3 K2 K3). by intros x _ [[]|].
Qed.

(** Memory a client owns is not the device's. *)
Lemma owned_no_device b s x : budget b s → 0 ≤ b → owned s x → ¬ device_va x.
Proof using DM. intros Hb Hb0 Hx Hd. by apply (proj2 (device_apart s x (budget_0 _ _ Hb Hb0) Hd)). Qed.

(** Once the registers are written. *)
Lemma queue_announced this q b r r1 r3 s s1 s3 s' :
  6688 ≤ b → at_regs r1 b s s1 → queue_stored this q b s1 s3 → at_regs r3 (b - 6688) s3 s' →
  (∃ qd qa qu, resolve s3 (q + 0) = Some qd ∧ resolve s3 (q + avail_offset) = Some qa ∧
    resolve s3 (q + used_offset) = Some qu ∧
    r3 = VRegs (vr_status r) (vr_features_sel r) (vr_driver_sel r) (vr_driver_lo r)
      (vr_driver_hi r) 0 (VQueue 256 1 qd qa qu 0) (vr_notified r)) →
  queue_made this q b r s s'.
Proof using DM.
  intros Hle [Hb1 _ K1 M1] [Hb3 O3 T3 P3 N3 Z3 V3 K3] [Hb' Hv' K' M'] (qd & qa & qu & E1 & E2 & E3 & Er).
  assert (∀ x, owned s3 x → stable s3 x ∧ ¬ device_va x) as Hod.
  { intros x Hx. split; [by apply owned_stable|by apply (owned_no_device _ _ x Hb3); [lia|]]. }
  assert (∀ o, 0 ≤ o < 6672 → resolve s' (q + o) = resolve s3 (q + o)) as Hrq.
  { intros o Ho. apply (kp_map _ _ _ K'), owned_stable, O3. unfold range. lia. }
  rewrite Z.add_0_r in E1. split.
  - done.
  - by apply (owned_range_keeps _ _ _ _ _ K').
  - destruct (only_mem_fields _ _ M1) as (_ & _ & _ & _ & F1 & _), (only_mem_fields _ _ M') as (_ & _ & _ & _ & F' & _), P3.
    split; congruence.
  - intros x Hx Hs. apply (N3 x Hx). by apply (kp_stable _ _ _ K1).
  - intros x Hx. destruct (Hod x (O3 x Hx)). rewrite (kp_byte _ _ _ K'); [by apply Z3|done..].
  - rewrite (vload_keeps 8 _ s3 s' _ K'); [done|]. intros x Hx. apply Hod, T3. change (Z.of_nat 8) with 8 in Hx. unfold range in *. lia.
  - apply (keeps_comp device_va (λ x, device_va x ∨ range (this + 16) 8 x) _ s s1 s' K1); [|tauto].
    apply (keeps_comp _ _ _ s1 s3 s' K3 K'). tauto.
  - exists qd, qa, qu. rewrite !Hrq by done. rewrite <- (Z.add_0_r q) at 1. rewrite Hrq, Z.add_0_r by lia.
    split_and!; [done..|by rewrite Hv'].
Qed.

Lemma wp_setup_queue b r s this in_use unavailable (Q : Z → kstate → Prop) :
  budget b s → 6688 ≤ b → view (pmem s) = r → vr_queue r = no_queue → owned_range s this 24 →
  fmt_ok in_use 0 = true → fmt_ok unavailable 0 = true →
  (u32 (vd_num_max d) < 256 → ∀ s', at_regs (vwrite d R.queue_sel 0 r) b s s' → Q (-1) s') →
  (256 ≤ u32 (vd_num_max d) → ∀ q s', queue_made this q b r s s' → Q 0 s') →
  wp (virtio_setup_queue registers 0 (this ⊞ 16) in_use unavailable) Q s.
Proof using VR DM.
  intros Hb Hle Hv Hnq Hthis F1 F2 HQ1 HQ2. unfold virtio_setup_queue.
  destruct r as [st fs ds lo hi qs q0 nt]. cbn in Hnq. subst q0.
  pose proof (at_regs_refl b s Hb) as AR. rewrite Hv in AR.
  apply wp_bind, (wp_write_reg 4 _ _ _ _ _ _ _ AR); [lia|done..|]. intros s1 AR1. clear AR.
  apply wp_bind, (wp_read_reg _ _ _ _ _ _ AR1); [done|]. cbn [vwrite no_queue].
  apply wp_bind, (wp_read_reg _ _ _ _ _ _ AR1); [done|].
  change (vread d R.queue_num_max _) with (u32 (vd_num_max d)).
  change (negb (vread d R.queue_ready _ =? 0)) with false. cbv iota.
  destruct (Z.eqb_spec (u32 (vd_num_max d)) 0) as [E0|E0].
  { apply wp_bind, wp_log; [done|]. intros o. apply wp_ret, HQ1; [lia|by apply at_regs_emit]. }
  unfold VIRTIO_QUEUE_SIZE at 1. destruct (Z.ltb_spec (u32 (vd_num_max d)) 256) as [Hlt|Hge].
  { apply wp_bind, wp_log; [done|]. intros o. apply wp_ret, HQ1; [lia|by apply at_regs_emit]. }
  pose proof AR1 as [Hb1 Hv1 K1 _].
  apply (wp_store_queue b s1 this); [done|done|by apply (owned_range_keeps _ _ _ _ _ K1)|]. intros q s3 QS.
  pose proof QS as [Hb3 Hq3 T3 _ _ _ _ K3].
  assert (view (pmem s3) = VRegs st fs ds lo hi 0 no_queue nt) as Hv3.
  { rewrite (view_keeps (range (this + 16) 8) s1 s3); [exact Hv1|by apply (budget_0 _ _ Hb1); lia|done|].
    intros x Hd Hx. apply (owned_no_device _ s3 x Hb3); [lia| |done]. apply T3. unfold range in *. lia. }
  pose proof (at_regs_refl (b - 6688) s3 Hb3) as AR. rewrite Hv3 in AR.
  apply wp_bind, (wp_write_reg 4 _ _ _ _ _ _ _ AR); [lia|done..|]. clear AR. intros s4 AR. cbn in AR.
  apply (wp_queue_address _ _ _ _ _ (desc_offset 0) _ _ _ AR); [lia|done|done..|].
  intros qd s5 _ Ed AR5. cbn in AR5.
  apply (wp_queue_address _ _ _ _ _ avail_offset _ _ _ AR5); [lia|done|done..|].
  intros qa s6 _ Ea AR6. cbn in AR6.
  apply (wp_queue_address _ _ _ _ _ used_offset _ _ _ AR6); [lia|done|done..|].
  intros qu s7 _ Eu AR7. cbn in AR7.
  apply wp_bind, (wp_write_reg 4 _ _ _ _ _ _ _ AR7); [lia|done..|]. intros s8 AR8.
  apply wp_ret, (HQ2 Hge q). apply (queue_announced this q b _ _ _ s s1 s3 s8 Hle AR1 QS AR8).
  by exists qd, qa, qu.
Qed.
End device.
