(* ===== verification/VirtioInit.v ===== *)
(** Finding and initialising the VirtIO devices: get_block_device and init of
    kernel/drivers/virtio/blk.cpp, get_console_device of
    kernel/drivers/virtio/console.cpp, against the register file of VirtioDevice.v. *)

From S2P Require Import Prelude Monad Memory Sv48 Machine Layout Stdio Heap KAlloc Allocator Client Dma Virtio VirtioDevice.

Section init.
Context `{A : Allocator} {DM : DeviceMemory A} {H : Mmio} (base : Z) (d : vdevice).
Context {VR : VirtioRegisters H base d}.

(** The block device object at [this], with its registers at [base]. *)
Record block_object (this : Z) (s : kstate) : Prop := BlockObject {
  bo_owned : owned_range s this 24;
  bo_registers : vload 8 s this = registers base;
  bo_config : vload 8 s (this + 8) = registers base + 0x100
}.

Lemma block_object_keeps P s s' this :
  budget 0 s → keeps P s s' → (∀ x, range this 16 x → ¬ P x) → block_object this s → block_object this s'.
Proof using Type.
  intros Hb K HP [Ho Hr Hc]. split.
  - by apply (owned_range_keeps _ _ _ _ _ K).
  - rewrite <- Hr. apply (vload_keeps 8 _ s s' _ K). intros x Hx.
    split; [apply owned_stable, Ho|apply HP]; unfold range in *; lia.
  - rewrite <- Hc. apply (vload_keeps 8 _ s s' _ K). intros x Hx.
    split; [apply owned_stable, Ho|apply HP]; unfold range in *; lia.
Qed.

(** The initialised device: live, with its queue where the registers say. *)
Definition live_regs (qd qa qu seen : Z) : vregs :=
  VRegs 0xF 1 0 (u32 (vd_offered d 0)) 0 0 (VQueue 256 1 qd qa qu seen) false.

Record block_ready (this q b : Z) (s s' : kstate) : Prop := BlockReady {
  br_budget : budget (b - 6688) s';
  br_object : block_object this s';
  br_queue : vload 8 s' (this + 16) = q;
  br_owned : owned_range s' q 6672;
  br_place : q = free_list s + 16 ∧ free_list s' = q + 6672;
  br_new : ∀ x, range q 6672 x → ¬ stable s x;
  br_zero : ∀ x, range q 6672 x → vbyte s' x = 0;
  br_keeps : keeps (λ x, device_va x ∨ range (this + 16) 8 x) s s';
  br_regs : ∃ qd qa qu, resolve s' q = Some qd ∧ resolve s' (q + avail_offset) = Some qa ∧
    resolve s' (q + used_offset) = Some qu ∧ view (pmem s') = live_regs qd qa qu 0
}.

Definition supported : bool := accepted d && (256 <=? u32 (vd_num_max d)).

(** What is left of the object when its queue has been made. *)
Lemma made_object b s s2 this :
  budget b s → 0 ≤ b → block_object this s → keeps (λ x, device_va x ∨ range (this + 16) 8 x) s s2 → block_object this s2.
Proof using DM.
  intros Hb Hb0 BO K. apply (block_object_keeps _ s s2 this (budget_0 b s Hb Hb0) K); [|done].
  intros x Hx [Hd|Hx']; [|unfold range in *; lia]. apply (owned_no_device b s x Hb Hb0); [|done].
  apply (bo_owned _ _ BO). unfold range in *. lia.
Qed.

(** The last registers are written: the queue stays as it was made. *)
Lemma queue_registered b s s1 s2 s4 this q r r1 r4 :
  budget b s → 6688 ≤ b → block_object this s → at_regs base d r1 b s s1 → queue_made base d this q b r s1 s2 →
  at_regs base d r4 (b - 6688) s2 s4 →
  (∀ qd qa qu, view (pmem s2) = VRegs (vr_status r) (vr_features_sel r) (vr_driver_sel r) (vr_driver_lo r)
     (vr_driver_hi r) 0 (VQueue 256 1 qd qa qu 0) (vr_notified r) → r4 = live_regs qd qa qu 0) →
  block_ready this q b s s4.
Proof using VR DM.
  intros Hb Hle BO [_ _ K1 M1] [Hb2 Hq2 Hpl2 Hn2 Hz2 Hs2 K2 (qd & qa & qu & Ed & Ea & Eu & Hv2)] [Hb4 Hv4 K4 M4] Hr4.
  assert (keeps (λ x, device_va x ∨ range (this + 16) 8 x) s s2) as K.
  { apply (keeps_comp _ _ _ s s1 s2 K1 K2). tauto. }
  pose proof (made_object b s s2 this Hb ltac:(lia) BO K) as BO2. pose proof (bo_owned _ _ BO2) as Ho2.
  assert (∀ x, owned s2 x → stable s2 x ∧ ¬ device_va x) as Hod.
  { intros x Hx. split; [by apply owned_stable|by apply (owned_no_device _ _ x Hb2); [lia|]]. }
  assert (∀ o, 0 ≤ o < 6672 → resolve s4 (q + o) = resolve s2 (q + o)) as Hrq.
  { intros o Hx. apply (kp_map _ _ _ K4), owned_stable, Hq2. unfold range. lia. }
  split.
  - done.
  - apply (block_object_keeps _ s2 s4 this (budget_0 _ _ Hb2 ltac:(lia)) K4); [|done].
    intros x Hx. apply Hod, Ho2. unfold range in *. lia.
  - rewrite (vload_keeps 8 _ s2 s4 _ K4); [done|]. intros x Hx. apply Hod, Ho2. change (Z.of_nat 8) with 8 in Hx. unfold range in *. lia.
  - by apply (owned_range_keeps _ _ _ _ _ K4).
  - destruct (only_mem_fields _ _ M1) as (_ & _ & _ & _ & F1' & _), (only_mem_fields _ _ M4) as (_ & _ & _ & _ & F4' & _).
    destruct Hpl2. split; congruence.
  - intros x Hx Hs. apply (Hn2 x Hx). by apply (kp_stable _ _ _ K1).
  - intros x Hx. destruct (Hod x (Hq2 x Hx)). rewrite (kp_byte _ _ _ K4); [by apply Hz2|done..].
  - apply (keeps_comp _ _ _ s s2 s4 K K4). tauto.
  - exists qd, qa, qu. rewrite !Hrq by done. rewrite <- (Z.add_0_r q) at 1. rewrite Hrq, Z.add_0_r by lia.
    split_and!; [done..|]. rewrite Hv4. by apply Hr4.
Qed.

Lemma wp_init b s this (Q : Z → kstate → Prop) :
  budget b s → 6688 ≤ b → block_object this s →
  (supported = false → ∀ s', budget b s' → keeps device_va s s' →
     Z.testbit (vr_status (view (pmem s'))) 2 = false → Q (-1) s') →
  (supported = true → ∀ q s', block_ready this q b s s' → Q 0 s') →
  wp (VirtIOBlockDevice_init this) Q s.
Proof using VR DM.
  intros Hb Hle BO HQ1 HQ2. pose proof BO as [Ho Hr Hc]. unfold supported in *.
  pose proof (budget_0 b s Hb ltac:(lia)) as Hz. unfold VirtIOBlockDevice_init.
  apply wp_bind, wp_load64; [done| |].
  { intros x Hx. apply owned_stable, Ho. unfold range in *. lia. }
  rewrite Hr. apply wp_bind, (wp_negotiate base d b); [done|lia|done| |].
  { intros r s1 [Hb1 Hv1 K1 M1] Ea Hst. apply wp_ret, HQ1; [by rewrite Ea|done|done|by rewrite Hv1]. }
  intros s1 AR1 Ea. pose proof AR1 as [Hb1 Hv1 K1 _]. rewrite Ea in *. cbn [negb andb] in *.
  apply wp_bind, (wp_setup_queue base d b (negotiated d)); try done.
  { by apply (owned_range_keeps _ _ _ _ _ K1). }
  { intros Hmax s2 [Hb2 Hv2 K2 M2]. apply wp_ret. apply HQ1; [by apply Z.leb_gt|done| |by rewrite Hv2].
    by apply (keeps_trans _ _ s1). }
  intros Hmax q s2 QM. pose proof QM as [Hb2 _ _ _ _ _ K2 (qd & qa & qu & _ & _ & _ & Hv2)].
  apply Z.leb_le in Hmax. specialize (HQ2 Hmax).
  pose proof (made_object b s s2 this Hb ltac:(lia) BO ltac:(apply (keeps_comp _ _ _ s s1 s2 K1 K2); tauto)) as [Ho2 Hr2 Hc2].
  change (0 <? 0) with false. cbv iota.
  apply wp_bind, (wp_load64_field (b - 6688) s2 this 24 8); [done|lia|done|lia|lia|]. rewrite Hc2.
  assert (∀ o, 0 ≤ o < 256 → (registers base + 0x100) ⊞ o = registers base ⊞ (0x100 + o)) as Hoff.
  { intros o Hx. unfold u64. f_equal. lia. }
  assert (registers base + 0x100 = registers base ⊞ 0x100) as Hoff0.
  { pose proof (window_bounds base d). unfold registers, VIRTUAL_OFFSET, VIRTIO_SIZE in *. rewrite u64_small; lia. }
  rewrite !Hoff by done. pose proof (at_regs_refl base d _ s2 Hb2) as AR.
  apply wp_bind, (wp_write_reg base d 1 _ _ _ _ _ _ _ AR); [lia|done|done|done|].
  clear AR. intros s3 AR. rewrite Hv2 in AR. lazy -[u32 vd_offered Z.sub] in AR.
  rewrite Hoff0. apply wp_bind, (wp_read_config base d); [done|]. intros v1.
  apply wp_bind, (wp_read_config base d); [done|]. intros v2.
  apply wp_bind, (wp_add_status base d _ _ _ _ _ _ AR); [lia|done|].
  clear AR. intros s4 AR. apply wp_ret, (HQ2 q). apply (queue_registered b s s1 s2 s4 this q _ _ _ Hb Hle BO AR1 QM AR).
  intros qd' qa' qu' Hv'. rewrite Hv2 in Hv'. injection Hv' as <- <- <-.
  unfold live_regs, accepted in *. remember (u32 (vd_offered d 0)) as f. lazy -[vd_accepts]. by rewrite Ea.
Qed.

(** C22: init of the block device ends.  When the device accepts the features it offers
    itself in word 0 and has a queue of 256 entries, init returns 0 and the device is
    live (status 0xF) with a new zeroed queue, whose three physical addresses are in its
    registers; otherwise init returns -1, allocates nothing and the device is not live.
    Nothing but the queue pointer of the object and the device registers changes. *)
Theorem VirtIOBlockDevice_init_correct (this b : Z) (s : kstate) :
  budget b s → 6688 ≤ b → block_object this s →
  ∃ res s', VirtIOBlockDevice_init this s = Done res s' ∧
    if supported then res = 0 ∧ ∃ q, block_ready this q b s s'
    else res = -1 ∧ budget b s' ∧ keeps device_va s s' ∧
      Z.testbit (vr_status (view (pmem s'))) 2 = false.
Proof using VR DM.
  intros Hb Hle BO. apply (wp_inv _ (λ res s', _)). apply (wp_init b); [done|done|done|..].
  - by intros -> s' Hb' K Hst.
  - intros -> q s' BR. split; [done|by exists q].
Qed.
End init.

(** * Finding a device

    The machine has eight slots, each with a device behind it; a slot without a device
    has the id 0. *)

Section find.
Context `{A : Allocator} {DM : DeviceMemory A} {H : Mmio} (devs : Z → vdevice).

Definition slot (i : Z) : Z := 0x10001000 + VIRTIO_SIZE * i.
Context {VRs : ∀ i, 0 ≤ i < 8 → VirtioRegisters H (slot i) (devs i)}.

(** The first slot whose device has version [version] and id 2; the version of a device
    of the specification is 2. *)
Definition first_slot (version : Z) : option Z :=
  head (filter (λ i, version = 2 ∧ u32 (vd_id (devs i)) = 2) (zseq 0 8)).

Lemma wp_find_device b version s (Q : option Z → kstate → Prop) :
  budget b s → Q (registers <$> (slot <$> first_slot version)) s → wp (find_device version) Q s.
Proof using VRs DM.
  intros Hb HQ. unfold find_device.
  set (P i := version = 2 ∧ u32 (vd_id (devs i)) = 2).
  apply (wp_loop_left _ (λ n address s', s' = s ∧ (n ≤ 8)%nat ∧ address = registers (slot (8 - Z.of_nat n)) ∧
    first_slot version = head (filter P (zseq (8 - Z.of_nat n) n))) _ 8); [|done|done].
  intros n address s1 (-> & Hn & -> & Hf).
  replace (registers (slot (8 - Z.of_nat n)) <? VIRTIO_START + VIRTIO_AMOUNT * VIRTIO_SIZE)
    with (0 <? Z.of_nat n).
  2:{ apply eq_true_iff_eq. rewrite !Z.ltb_lt. unfold registers, slot, VIRTIO_START, VIRTIO_AMOUNT, VIRTIO_SIZE. lia. }
  destruct n as [|n]; cbn [Z.of_nat Z.ltb Z.compare].
  { apply wp_ret. by rewrite Hf in HQ. }
  set (i := 8 - Z.of_nat (S n)) in *. assert (0 ≤ i < 8) as Hi by lia.
  pose proof (VRs i Hi) as VR. pose proof (at_regs_refl (slot i) (devs i) b s Hb) as AR.
  apply wp_bind. rewrite <- (register_0 (slot i) (devs i)) at 1.
  apply (wp_read_reg _ _ _ _ _ _ _ _ AR); [done|].
  change (vread _ R.magic_value _) with 0x74726976. rewrite Z.eqb_refl.
  apply wp_bind, (wp_read_reg _ _ _ _ _ _ _ _ AR); [done|]. change (vread _ R.version _) with 2.
  rewrite zseq_S in Hf. rewrite filter_cons in Hf.
  assert (registers (slot i) ⊞ VIRTIO_SIZE = registers (slot (8 - Z.of_nat n))) as Hnext.
  { unfold registers, slot, VIRTIO_SIZE, VIRTUAL_OFFSET, i. rewrite u64_small; lia. }
  replace (i + 1) with (8 - Z.of_nat n) in Hf by lia. cbn [andb]. unfold P at 1 in Hf.
  destruct (Z.eqb_spec 2 version) as [<-|Hv].
  - apply wp_bind, (wp_read_reg _ _ _ _ _ _ _ _ AR); [done|].
    change (vread (devs i) R.device_id _) with (u32 (vd_id (devs i))).
    destruct (Z.eqb_spec (u32 (vd_id (devs i))) 2) as [E|E].
    + apply wp_ret. rewrite decide_True in Hf by done. rewrite Hf in HQ. exact HQ.
    + apply wp_ret. exists n. rewrite decide_False in Hf by (by intros [_ ?]). split_and!; [done|done|lia|done|done].
  - apply wp_bind, wp_ret. cbn [andb]. apply wp_ret. exists n.
    rewrite decide_False in Hf by (intros [-> _]; done). split_and!; [done|done|lia|done|done].
Qed.

(** What the kernel keeps of a found block device. *)
Definition with_block_device (p : Z) (s : kstate) : kstate :=
  set_vars (set_block_device p (vars s)) s.

Lemma wp_get_block_device b s (Q : Z → kstate → Prop) :
  budget b s → 40 ≤ b →
  (first_slot 2 = None → Q 0 s) →
  (∀ i, first_slot 2 = Some i → ∀ p s', budget (b - 40) s' → block_object (slot i) p s' →
     (∀ x, range p 24 x → ¬ stable s x) → keeps nowhere (with_block_device p s) s' →
     p = free_list s + 16 ∧ free_list s' = p + 24 → Q p s') →
  wp get_block_device Q s.
Proof using VRs DM.
  intros Hb Hle HQ1 HQ2. unfold get_block_device. apply wp_bind, (wp_find_device b); [done|].
  destruct (first_slot 2) as [i|] eqn:Ef; cbn [fmap option_fmap option_map]; [|by apply wp_ret, HQ1].
  apply wp_bind, (wp_kalloc b); [done|done|done|]. intros p s1 Hb1 Fr.
  replace (b - sizeof_VirtIOBlockDevice - 16) with (b - 40) in Hb1 by (unfold sizeof_VirtIOBlockDevice; lia).
  apply wp_bind, wp_modify. fold (with_block_device p s1).
  set (s2 := with_block_device p s1). assert (same_mem s1 s2) as SM by (by split).
  assert (budget (b - 40) s2) as Hb2 by (by rewrite <- (budget_proper _ _ _ SM)).
  assert (owned_range s2 p 24) as Ho2.
  { intros x Hx. apply (owned_proper _ _ SM x x eq_refl). by apply (fr_owned _ _ _ _ Fr). }
  assert (keeps nowhere (with_block_device p s) s2) as K2.
  { pose proof (fr_keeps _ _ _ _ Fr) as K1. unfold s2, with_block_device. rewrite (kp_vars _ _ _ K1).
    by apply keeps_vars. }
  assert (0 ≤ i < 8) as Hi.
  { unfold first_slot in Ef. apply head_Some_elem_of, list_elem_of_filter in Ef as [_ Ef].
    by apply elem_of_zseq in Ef. }
  pose proof (window_bounds (slot i) (devs i) (VR := VRs i Hi)) as Hw.
  assert (0 ≤ registers (slot i) ∧ registers (slot i) + 0x100 < 2 ^ 64) as Hreg.
  { unfold registers, VIRTIO_SIZE, VIRTUAL_OFFSET in *. simpl. lia. }
  cbn [fmap option_fmap option_map]. apply wp_bind, (wp_storev 8 (b - 40)); [done|lia| |].
  { intros x Hx. apply Ho2. unfold range in *. lia. }
  intros s3 St3. pose proof (st_keeps _ _ _ _ _ _ St3) as K3. pose proof (st_budget _ _ _ _ _ _ St3) as Hb3.
  assert (owned_range s3 p 24) as Ho3 by by apply (owned_range_keeps _ _ _ _ _ K3).
  apply wp_bind, (wp_store_field 8 (b - 40) s3 p 24 8); [done|lia|done|lia|lia|lia|]. intros s4 St4 Ho4.
  pose proof (st_keeps _ _ _ _ _ _ St4) as K4. apply wp_ret, (HQ2 i); [done|apply St4| | | |].
  - split; [done| |].
    + rewrite <- (Z.add_0_r p) at 1. rewrite (field_kept _ 24 8 8 _ _ _ p 8 0 St4 Ho3) by lia.
      rewrite Z.add_0_r, (st_value _ _ _ _ _ _ St3). apply Z.mod_small. simpl in *. lia.
    + rewrite (st_value _ _ _ _ _ _ St4). rewrite u64_small by (simpl in *; lia).
      apply Z.mod_small. simpl in *. lia.
  - exact (fr_new _ _ _ _ Fr).
  - assert (∀ x, stable (with_block_device p s) x → ¬ range p 24 x) as Hnew.
    { intros x Hx Hr. apply (fr_new _ _ _ _ Fr x Hr).
      assert (same_mem s (with_block_device p s)) as SM0 by (by split).
      by apply (stable_proper _ _ SM0 x x eq_refl). }
    apply (keeps_comp nowhere (range p 24) _ _ s2 _ K2).
    + apply (keeps_comp _ _ _ _ _ _ K3 K4). intros x _ [Hx|Hx]; unfold range in *; lia.
    + intros x Hx [[]|Hr]. by apply (Hnew x).
  - destruct (only_mem_fields _ _ (st_only _ _ _ _ _ _ St3)) as (_ & _ & _ & _ & F3' & _),
      (only_mem_fields _ _ (st_only _ _ _ _ _ _ St4)) as (_ & _ & _ & _ & F4' & _).
    destruct (fr_place _ _ _ _ Fr) as [P1 P2]. split; [done|]. rewrite F4', F3'. exact P2.
Qed.

(** Get_block_device finds the first of the eight slots with a block device, and
    then gives a new object with the registers and the configuration space of that slot
    and records it; when there is none it returns 0 and changes nothing. *)
Theorem get_block_device_finds (b : Z) (s : kstate) :
  budget b s → 40 ≤ b →
  ∃ p s', get_block_device s = Done p s' ∧
    match first_slot 2 with
    | None => p = 0 ∧ s' = s
    | Some i => budget (b - 40) s' ∧ block_object (slot i) p s' ∧ block_device (vars s') = p ∧
        (∀ x, range p 24 x → ¬ stable s x) ∧ keeps nowhere (with_block_device p s) s'
    end.
Proof using VRs DM.
  intros Hb Hle. apply (wp_inv _ (λ p s', _)). apply (wp_get_block_device b); [done|done| |].
  - by intros ->.
  - intros i -> p s' Hb' BO Hnew K _. split_and!; try done. by rewrite (kp_vars _ _ _ K).
Qed.

(** Get_console_device looks for devices of version 3, which no device has: it
    finds nothing, whatever the eight slots hold. *)
Theorem get_console_device_never (b : Z) (s : kstate) :
  budget b s → get_console_device s = Done 0 s.
Proof using VRs DM.
  intros Hb. assert (wp get_console_device (λ p s', p = 0 ∧ s' = s) s) as Hwp.
  { unfold get_console_device. apply wp_bind, (wp_find_device b); [done|].
    assert (first_slot 3 = None) as ->; [|by apply wp_ret].
    unfold first_slot. apply head_None. induction (zseq 0 8) as [|i l IH]; [done|].
    by rewrite filter_cons, decide_False by (by intros [? _]). }
  by destruct (wp_inv _ _ _ Hwp) as (p & s' & -> & -> & ->).
Qed.
End find.
