(* ===== verification/VirtioBlk.v ===== *)
(** Requests to the block device: basic_op of kernel/drivers/virtio/blk.cpp, against what
    the VirtIO 1.1 specification says a block device does with a descriptor chain
    (sections 2.6 and 5.2.6). *)

From S2P Require Import Prelude Monad Memory Sv48 Machine Layout Stdio Paging Heap KAlloc Allocator Client Dma Virtio VirtioDevice VirtioInit.

(** * What the device promises *)

(** A read request: the first sector, and the length and place of the buffer and the
    place of the status byte. *)
Record rqst := Request { rq_sector : Z; rq_length : Z; rq_buffer : Z; rq_status : Z }.

(** The memory holds one new entry in the available ring, the head of a chain of three
    descriptors: the header, the buffer and the status byte. *)
Record posted (m : mem) (q : vqueue) (rq : rqst) : Prop := Posted {
  po_idx : load 2 m (vq_driver q + 2) = u16 (vq_seen q + 1);
  po_head : load 2 m (vq_driver q + (4 + 2 * (vq_seen q mod 256))) = 0;
  po_desc0 : load 4 m (vq_desc q + 8) = 16 ∧ load 2 m (vq_desc q + 12) = VIRTQ_DESC_F_NEXT ∧
    load 2 m (vq_desc q + 14) = 1;
  po_desc1 : load 8 m (vq_desc q + 16) = rq_buffer rq ∧ load 4 m (vq_desc q + 24) = rq_length rq ∧
    load 2 m (vq_desc q + 28) = Z.lor VIRTQ_DESC_F_NEXT VIRTQ_DESC_F_WRITE ∧
    load 2 m (vq_desc q + 30) = 2;
  po_desc2 : load 8 m (vq_desc q + 32) = rq_status rq ∧ load 4 m (vq_desc q + 40) = 1 ∧
    load 2 m (vq_desc q + 44) = VIRTQ_DESC_F_WRITE;
  po_header : let h := load 8 m (vq_desc q) in
    load 4 m h = 0 ∧ load 8 m (h + 8) = rq_sector rq
}.

Definition USED_SIZE : Z := 2054.

(** What the device may write for a request. *)
Definition served (base : Z) (q : vqueue) (rq : rqst) (a : Z) : Prop :=
  window base a ∨ range (vq_device q) USED_SIZE a ∨ range (rq_buffer rq) (rq_length rq) a ∨ a = rq_status rq.

(** The four areas do not overlap. *)
Record rq_apart (base : Z) (q : vqueue) (rq : rqst) : Prop := RqApart {
  ra_window a : window base a → ¬ range (vq_device q) USED_SIZE a ∧
    ¬ range (rq_buffer rq) (rq_length rq) a ∧ a ≠ rq_status rq;
  ra_used a : range (vq_device q) USED_SIZE a → ¬ range (rq_buffer rq) (rq_length rq) a ∧ a ≠ rq_status rq;
  ra_buffer a : range (rq_buffer rq) (rq_length rq) a → a ≠ rq_status rq
}.

(** The device between two looks of the driver at memory. *)
Definition turns `{Mmio} (k : nat) (m : mem) : mem := Nat.iter k device_step m.

Definition serve_regs (r : vregs) : vregs :=
  let q := vr_queue r in
  VRegs (vr_status r) (vr_features_sel r) (vr_driver_sel r) (vr_driver_lo r) (vr_driver_hi r) (vr_queue_sel r)
    (VQueue (vq_num q) (vq_ready q) (vq_desc q) (vq_driver q) (vq_device q) (u16 (vq_seen q + 1))) false.

(** A live device that has been notified of a request serves it within a bounded number
    of steps; before, it may write the buffer and the used ring, but not the status. *)
Class VirtioDisk (H : Mmio) (base : Z) (d : vdevice) (VR : VirtioRegisters H base d)
    (disk : Z → Z) (capacity : Z) : Prop := {
  disk_serves m rq :
    Z.testbit (vr_status (view m)) 2 = true → vr_notified (view m) = true →
    vq_num (vr_queue (view m)) = 256 → vq_ready (vr_queue (view m)) = 1 →
    posted m (vr_queue (view m)) rq → rq_apart base (vr_queue (view m)) rq →
    0 < rq_length rq → rq_length rq mod 512 = 0 → 0 ≤ rq_sector rq →
    512 * rq_sector rq + rq_length rq ≤ capacity →
    ∃ n : nat, Z.of_nat n < 2 ^ 64 - 1 ∧
      (∀ k, (k ≤ S n)%nat → agree (λ a, ¬ served base (vr_queue (view m)) rq a) m (turns k m)) ∧
      (∀ k, (k ≤ n)%nat → rd8 (turns k m) (rq_status rq) = rd8 m (rq_status rq)) ∧
      rd8 (turns (S n) m) (rq_status rq) = 0 ∧
      (∀ i, 0 ≤ i < rq_length rq → rd8 (turns (S n) m) (rq_buffer rq + i) = disk (512 * rq_sector rq + i)) ∧
      view (turns (S n) m) = serve_regs (view m)
}.

(** * Physically contiguous memory *)

Lemma contiguous_load k s p n pa i :
  contiguous s p n pa → 0 ≤ i → i + Z.of_nat k ≤ n → load k (pmem s) (pa + i) = vload k s (p + i).
Proof.
  intros C. revert i. induction k as [|k IH]; intros i Hi Hk; [done|]. cbn [load vload].
  rewrite <- !Z.add_assoc, IH by lia. f_equal. unfold vbyte. by rewrite C by lia.
Qed.

Section contiguous.
Context `{A : Allocator} {DM : DeviceMemory A}.

Lemma contiguous_keeps P s s' p n pa :
  keeps P s s' → (∀ x, range p n x → stable s x) → contiguous s p n pa → contiguous s' p n pa.
Proof using Type.
  intros K Hs C i Hi. rewrite (kp_map _ _ _ K); [by apply C|]. apply Hs. unfold range. lia.
Qed.

(** Blocks that are apart are apart in physical memory. *)
Lemma contiguous_apart s p n pa q m qa a :
  budget 0 s → owned_range s p n → owned_range s q m → disjoint_range p n q m →
  contiguous s p n pa → contiguous s q m qa → range pa n a → ¬ range qa m a.
Proof using DM.
  intros Hb Hp Hq Hd Cp Cq Ha Hqa. unfold range in Ha, Hqa.
  assert (range p n (p + (a - pa))) as Rp by (unfold range; lia).
  assert (range q m (q + (a - qa))) as Rq by (unfold range; lia).
  apply (Hd _ Rp). replace (p + (a - pa)) with (q + (a - qa)); [done|].
  apply (stable_inj s _ _ a Hb); [by apply owned_stable, Hq|by apply owned_stable, Hp| |].
  - rewrite Cq by lia. f_equal. lia.
  - rewrite Cp by lia. f_equal. lia.
Qed.

Lemma contiguous_not_device s p n pa a :
  budget 0 s → owned_range s p n → contiguous s p n pa → range pa n a → ¬ device_addr a.
Proof using DM.
  intros Hb Hp C Ha Hd. unfold range in Ha. assert (owned s (p + (a - pa))) as Ho by (apply Hp; unfold range; lia).
  assert (device_va (p + (a - pa))) as Hv.
  { apply (device_va_phys s _ a Hb); [by apply owned_stable| |done]. rewrite C by lia. f_equal. lia. }
  by apply (proj2 (device_apart s _ Hb Hv)).
Qed.
End contiguous.

(** * Filling in the queue *)

Section queue.
Context `{A : Allocator} {DM : DeviceMemory A}.
Context (this q b : Z) (s0 : kstate).
Context (Hthis : owned_range s0 this 24) (Hq : owned_range s0 q 6672).
Context (Hap : disjoint_range this 24 q 6672) (Hptr : vload 8 s0 (this + 16) = q).
Context (Hb0 : 0 ≤ b).

(** Fields of the queue, by offset and size, with their values. *)
Record filled (fs : list (Z * nat * Z)) (s : kstate) : Prop := Filled {
  fi_budget : budget b s;
  fi_keeps : keeps (range q 6672) s0 s;
  fi_fields : Forall (λ '(o, n, v), vload n s (q + o) = v ∧ 0 ≤ o ∧ o + Z.of_nat n ≤ 6672) fs
}.

Lemma wp_queue_ptr {B} fs s (k : Z → K B) (Q : B → kstate → Prop) :
  filled fs s → wp (k q) Q s → wp (queue ← load64 (this ⊞ 16); k queue) Q s.
Proof using Hthis Hap Hptr Hb0.
  intros [Hb K F] Hk. apply wp_bind, (wp_load64_field b s this 24 16); try done.
  - by apply (owned_range_keeps _ _ _ _ _ K).
  - rewrite (vload_keeps 8 _ s0 s _ K); [by rewrite Hptr|]. intros x Hx.
    assert (range this 24 x) as Hx' by (unfold range in *; lia). split; [by apply owned_stable, Hthis|by apply Hap].
Qed.

Lemma filled_load n fs s i v :
  filled fs s → (i, n, v) ∈ fs → vload n s (q + i) = v.
Proof using Type. intros [_ _ F] Hin. rewrite Forall_forall in F. by destruct (F _ Hin). Qed.

Lemma wp_queue_load n fs s o v (Q : Z → kstate → Prop) :
  filled fs s → (o, n, v) ∈ fs → (0 < n)%nat → Q v s → wp (loadv n (q ⊞ o)) Q s.
Proof using Hq Hb0.
  intros FI Hin Hn HQ. pose proof (filled_load n fs s o v FI Hin) as E. destruct FI as [Hb K F].
  rewrite Forall_forall in F. destruct (F _ Hin) as (_ & Ho & Hle).
  apply (wp_load_field n b s q 6672); try done; try lia.
  - by apply (owned_range_keeps _ _ _ _ _ K).
  - by rewrite E.
Qed.

Lemma filled_sub fs fs' s : (∀ f, f ∈ fs' → f ∈ fs) → filled fs s → filled fs' s.
Proof using Type. intros Hsub [Hb K F]. split; [done|done|]. rewrite !Forall_forall in *. intros f Hf. by apply F, Hsub. Qed.

Lemma wp_set_queue fs s n o v (Q : () → kstate → Prop) :
  filled fs s → 0 ≤ o → o + Z.of_nat n ≤ 6672 → (0 < n)%nat →
  Forall (λ '(o', n', _), o' + Z.of_nat n' ≤ o ∨ o + Z.of_nat n ≤ o') fs →
  (∀ s', filled ((o, n, v mod 256 ^ Z.of_nat n) :: fs) s' → Q () s') →
  wp (set_queue this n o v) Q s.
Proof using Hthis Hq Hap Hptr Hb0.
  intros FI Ho Hle Hn Hsep HQ. unfold set_queue. apply (wp_queue_ptr fs s); [done|].
  destruct FI as [Hb K F]. pose proof (owned_range_keeps _ _ _ _ _ K Hq) as Hq'.
  apply (wp_store_field n b s q 6672); [done|done|done|done|done|lia|]. intros s' St _. apply HQ.
  pose proof (st_keeps _ _ _ _ _ _ St) as K'. split; [apply St| |].
  - apply (keeps_comp _ _ _ s0 s s' K K'). intros x _ [Hx|Hx]; unfold range in *; lia.
  - constructor; [split; [apply St|done]|]. rewrite !Forall_forall in *. intros [[o' n'] v'] Hin.
    destruct (F _ Hin) as (E & H1 & H2). split; [|done]. rewrite <- E.
    apply (field_kept b 6672 n o v s s' q n' o' St Hq'); [done|done|by apply (Hsep _ Hin)].
Qed.

(** The chain of a read request: what basic_op writes into the queue. *)
Definition read_fields (seen header address length status : Z) : list (Z * nat * Z) :=
  [(avail_idx_offset, 2%nat, u16 (seen + 1)); (avail_ring_offset (seen mod 256), 2%nat, 0);
   (44, 2%nat, 2); (40, 4%nat, 1); (32, 8%nat, status);
   (28, 2%nat, 3); (30, 2%nat, 2); (24, 4%nat, length); (16, 8%nat, address);
   (14, 2%nat, 1); (12, 2%nat, 1); (8, 4%nat, 16); (0, 8%nat, header)].

Lemma wp_fill_translate fs s x (Q : Z → kstate → Prop) :
  filled fs s → owned s0 x → (∀ pa, 0 ≤ pa < 2 ^ 64 → resolve s0 x = Some pa → Q pa s) →
  wp (get_physical_address_of_virtual_address x) Q s.
Proof using DM Hb0.
  intros [Hb K F] Hx HQ. apply (wp_translate b); [done|done|by apply (kp_owned _ _ _ K)|]. intros pa Hpa E.
  apply HQ; [done|]. rewrite <- E. symmetry. by apply (kp_map _ _ _ K), owned_stable.
Qed.

Ltac fields_apart := rewrite ?Forall_cons, ?Forall_nil; cbv beta iota; split_and!; try done; lia.
Ltac set_field FI :=
  apply wp_bind, (wp_set_queue _ _ _ _ _ _ FI); [lia|lia|lia|fields_apart|];
  let s := fresh "s" in let F' := fresh "F" in intros s F'; clear FI; rename F' into FI.

Lemma wp_fill_queue s seen request length buffer (Q : () → kstate → Prop) :
  filled [(avail_idx_offset, 2%nat, seen)] s → 0 ≤ seen < 0x10000 → 0 ≤ length < 2 ^ 32 →
  owned_range s0 request 536 → owned s0 buffer → budget 0 s0 →
  (∀ hdr buf st s', resolve s0 request = Some hdr → resolve s0 buffer = Some buf →
     resolve s0 (request + request_status) = Some st →
     filled (read_fields seen hdr buf length st) s' → Q () s') →
  wp (fill_queue this request length buffer 0x0) Q s.
Proof using Hthis Hq Hap Hptr Hb0 DM.
  intros FI Hseen Hlen Hreq Hbuf Hz HQ. unfold fill_queue, desc_offset, avail_ring_offset, avail_idx_offset, avail_offset in *.
  apply wp_bind, (wp_fill_translate _ s request _ FI); [apply Hreq; unfold range; lia|]. intros hdr Hh Eh.
  do 4 set_field FI. apply wp_bind, (wp_fill_translate _ _ buffer _ FI); [done|]. intros buf Hbf Eb.
  do 4 set_field FI. rewrite (owned_range_add s0 request 536 request_status) by (done || (unfold request_status; lia)).
  apply wp_bind, (wp_fill_translate _ _ (request + request_status) _ FI).
  { apply Hreq. unfold range, request_status. lia. }
  intros st Hst Es. do 3 set_field FI.
  assert (0 ≤ seen mod VIRTIO_QUEUE_SIZE < 256) as Hm by (by apply Z.mod_pos_bound).
  apply (wp_queue_ptr _ _ _ _ FI), wp_bind, (wp_queue_load 2 _ _ _ seen _ FI); [set_solver|lia|].
  set_field FI.
  apply (wp_queue_ptr _ _ _ _ FI), wp_bind, (wp_queue_load 2 _ _ _ seen _ FI); [set_solver|lia|].
  match type of FI with filled ?l _ => apply (filled_sub l (take 12 l)) in FI end.
  2:{ intros f [i Hi]%list_elem_of_lookup_1. apply lookup_take_Some in Hi as [Hi _]. by eapply list_elem_of_lookup_2. }
  cbn [take] in FI. apply (wp_set_queue _ _ _ _ _ _ FI); [lia|lia|lia|fields_apart|].
  clear FI. intros s13 FI. apply (HQ hdr buf st); [done|done|done|].
  rewrite (Z.mod_small hdr), (Z.mod_small buf), (Z.mod_small st), (Z.mod_small length) in FI by (simpl in *; lia).
  exact FI.
Qed.
End queue.

(** * The request *)

Section request.
Context `{A : Allocator} {DM : DeviceMemory A}.

Record request_made (p type sector b : Z) (s s' : kstate) : Prop := RequestMade {
  rm_budget : budget (b - 552) s';
  rm_owned : owned_range s' p 536;
  rm_new : ∀ x, range p 536 x → ¬ stable s x;
  rm_keeps : keeps nowhere s s';
  rm_type : vload 4 s' p = type;
  rm_sector : vload 8 s' (p + 8) = u32 sector;
  rm_status : vbyte s' (p + request_status) = 0x12;
  rm_kalloc : ∃ s1, kalloc 536 s = Done p s1 ∧ owned_range s1 p 536 ∧ keeps (range p 536) s1 s'
}.

Lemma wp_make_request {B} b s type sector (k : Z → K B) (Q : B → kstate → Prop) :
  budget b s → 552 ≤ b → 0 ≤ type < 256 →
  (∀ p s', request_made p type sector b s s' → wp (k p) Q s') →
  wp (request ← operator_new sizeof_VirtIOBlkRequest;
      VirtIOBlkRequest_ctor request type sector;;
      store8 (request ⊞ request_status) 0x12;; k request) Q s.
Proof using Type.
  intros Hb Hle Ht Hk. unfold operator_new, VirtIOBlkRequest_ctor.
  destruct (kalloc_fresh b 536 s Hb) as (p & s1 & E1 & Hb1 & Fr); [lia|lia|].
  replace (b - 536 - 16) with (b - 552) in Hb1 by lia. pose proof (fr_owned _ _ _ _ Fr) as Ho1.
  eapply wp_bind_done; [exact E1|]. apply wp_bind, wp_bind, (wp_storev 4 (b - 552)); [done|lia| |].
  { intros x Hx. apply Ho1. unfold range in *. lia. }
  intros s2 St2. pose proof (st_keeps _ _ _ _ _ _ St2) as K2. pose proof (st_budget _ _ _ _ _ _ St2) as Hb2.
  pose proof (owned_range_keeps _ _ _ _ _ K2 Ho1) as Ho2.
  apply (wp_store_field 8 (b - 552) s2 p 536); [done|lia|done|lia|lia|lia|]. intros s3 St3 Ho3.
  pose proof (st_keeps _ _ _ _ _ _ St3) as K3. pose proof (st_budget _ _ _ _ _ _ St3) as Hb3.
  apply wp_bind.
  rewrite (owned_range_add s3 p 536 request_status) by (done || lia || (apply (budget_0 _ _ Hb3); lia)).
  destruct (store8_owned (b - 552) s3 (p + request_status) 0x12 Hb3) as (s4 & E4 & Hb4 & V4 & K4 & S4 & M4);
    [lia|apply Ho3; unfold range, request_status; lia|].
  eapply wp_done; [exact E4|]. apply Hk.
  assert (keeps (range p 536) s1 s4) as K.
  { apply (keeps_comp _ (range p 536) _ s1 s2 s4 K2).
    - apply (keeps_comp _ _ _ s2 s3 s4 K3 K4). intros x _ [Hx| ->]; unfold range, request_status in *; lia.
    - intros x _ [Hx|Hx]; unfold range in *; lia. }
  assert (∀ n o, 0 ≤ o → o + Z.of_nat n ≤ 16 → vload n s4 (p + o) = vload n s3 (p + o)) as Hkeep4.
  { intros n o H0 Hle'. apply (vload_keeps n _ s3 s4 _ K4). intros x Hx.
    split; [apply owned_stable, Ho3|]; unfold range, request_status in *; lia. }
  split.
  - done.
  - by apply (owned_range_keeps _ _ _ _ _ K4).
  - exact (fr_new _ _ _ _ Fr).
  - by apply (keeps_fresh _ _ _ _ _ _ Fr K).
  - pose proof (Hkeep4 4%nat 0 ltac:(lia) ltac:(lia)) as E. rewrite Z.add_0_r in E. rewrite E.
    pose proof (field_kept _ 536 8 8 _ _ _ p 4 0 St3 Ho2 ltac:(lia) ltac:(lia) ltac:(lia)) as E'.
    rewrite Z.add_0_r in E'. rewrite E', (st_value _ _ _ _ _ _ St2). apply Z.mod_small. simpl. lia.
  - rewrite Hkeep4 by lia. rewrite (st_value _ _ _ _ _ _ St3). apply Z.mod_small.
    pose proof (u32_range sector). simpl. lia.
  - exact V4.
  - by exists s1.
Qed.

End request.

(** * Waiting for the device *)

Section wait.
Context `{A : Allocator} {DM : DeviceMemory A} {H : Mmio} (base : Z) (d : vdevice).
Context {VR : VirtioRegisters H base d} (disk : Z → Z) (capacity : Z) {VD : VirtioDisk H base d VR disk capacity}.

(** The driver has posted the request, the status byte at [st] still has its mark, and
    what the device writes is shared memory. *)
Record waiting (b st : Z) (rq : rqst) (s : kstate) : Prop := Waiting {
  wt_budget : budget b s;
  wt_b : 0 ≤ b;
  wt_live : Z.testbit (vr_status (view (pmem s))) 2 = true ∧ vr_notified (view (pmem s)) = true ∧
    vq_num (vr_queue (view (pmem s))) = 256 ∧ vq_ready (vr_queue (view (pmem s))) = 1;
  wt_posted : posted (pmem s) (vr_queue (view (pmem s))) rq;
  wt_apart : rq_apart base (vr_queue (view (pmem s))) rq;
  wt_length : 0 < rq_length rq ∧ rq_length rq mod 512 = 0;
  wt_sector : 0 ≤ rq_sector rq ∧ 512 * rq_sector rq + rq_length rq ≤ capacity;
  wt_dma a : served base (vr_queue (view (pmem s))) rq a → dma_addr s a;
  wt_owned : owned s st;
  wt_status : resolve s st = Some (rq_status rq) ∧ vbyte s st = 0x12
}.

Lemma wp_wait b p rq s (Q : () → kstate → Prop) :
  waiting b (p ⊞ request_status) rq s →
  (∀ m, agree (λ a, ¬ served base (vr_queue (view (pmem s))) rq a) (pmem s) m →
     (∀ i, 0 ≤ i < rq_length rq → rd8 m (rq_buffer rq + i) = disk (512 * rq_sector rq + i)) →
     view m = serve_regs (view (pmem s)) → Q () (set_pmem m s)) →
  wp (loop (λ _ : (),
      device_turn;;
      status ← load8 (p ⊞ request_status);
      mret (if status =? 0x12 then inl () else inr ())) ()) Q s.
Proof using VD DM.
  intros [Hb Hb0 (L1 & L2 & L3 & L4) Po Ra [Hl1 Hl2] [Hs1 Hs2] Hdma Ho [Er Ev]] HQ. set (m := pmem s) in *.
  destruct (disk_serves m rq) as (n & Hn & Hag & Hst & Hst0 & Hbuf & Hview); try done.
  apply (wp_loop_left _ (λ left _ s', ∃ k, (k + left = n)%nat ∧ s' = set_pmem (turns k m) s) _ n).
  2:{ exists 0%nat. split; [done|]. by destruct s. }
  2:{ lia. }
  intros left [] s' (k & Hk & ->). apply wp_bind, wp_modify. cbn [pmem set_pmem]. rewrite set_pmem_set_pmem.
  change (device_step (turns k m)) with (turns (S k) m).
  assert (agree (λ a, ¬ dma_addr s a) m (turns (S k) m)) as Hd.
  { eapply agree_mono; [|apply Hag; lia]. intros a Hna Hsv. by apply Hna, Hdma. }
  pose proof (dma_budget b s _ Hb Hb0 Hd) as Hb'.
  destruct (dma_stable b s _ (p ⊞ request_status) Hb Hb0 Hd) as (S1 & O1 & R1).
  assert (vbyte (set_pmem (turns (S k) m) s) (p ⊞ request_status) = rd8 (turns (S k) m) (rq_status rq)) as Evb.
  { unfold vbyte. by rewrite R1, Er. }
  eapply wp_bind_done; [apply stable_load; [by apply (budget_0 b)|by apply S1, owned_stable]|].
  rewrite Evb. apply wp_ret. destruct left as [|left].
  - assert (k = n) as -> by lia. rewrite Hst0. by apply HQ; [apply Hag|..].
  - rewrite Hst by lia. unfold vbyte in Ev. rewrite Er in Ev. unfold m. rewrite Ev. cbn.
    exists left. split; [done|]. exists (S k). split; [lia|done].
Qed.

End wait.

(** * Reading sectors *)

Ltac in_fields := unfold read_fields; repeat first [by left | right].

(** A posted request, from the fields of the queue. *)
Lemma posted_fields s q qd qa qu seen rq p n0 n1 r :
  (∀ f, f ∈ read_fields seen p (rq_buffer rq) (rq_length rq) (rq_status rq) →
     vload f.1.2 s (q + f.1.1) = f.2) →
  contiguous s q 48 qd → contiguous s (q + avail_offset) 516 qa →
  resolve s r = Some p → contiguous s r 16 p → vload 4 s r = 0 → vload 8 s (r + 8) = rq_sector rq →
  posted (pmem s) (VQueue n0 n1 qd qa qu seen) rq.
Proof.
  intros F Cd Ca Er Cr Ht Hs.
  assert (∀ n o v, (o, n, v) ∈ read_fields seen p (rq_buffer rq) (rq_length rq) (rq_status rq) →
    0 ≤ o → o + Z.of_nat n ≤ 48 → load n (pmem s) (qd + o) = v) as Fd.
  { intros n o v Hin H0 H1. rewrite (contiguous_load n s q 48 qd o Cd H0 H1). exact (F _ Hin). }
  assert (∀ n o v, (avail_offset + o, n, v) ∈ read_fields seen p (rq_buffer rq) (rq_length rq) (rq_status rq) →
    0 ≤ o → o + Z.of_nat n ≤ 516 → load n (pmem s) (qa + o) = v) as Fa.
  { intros n o v Hin H0 H1. rewrite (contiguous_load n s _ 516 qa o Ca H0 H1), <- Z.add_assoc. exact (F _ Hin). }
  assert (load 8 (pmem s) qd = p) as E0.
  { rewrite <- (Z.add_0_r qd). apply Fd; [in_fields|lia|lia]. }
  split; cbn [vq_desc vq_driver vq_seen].
  - apply Fa; [in_fields|lia|lia].
  - apply Fa; [|pose proof (Z.mod_pos_bound seen 256); lia..].
    rewrite Z.add_assoc. in_fields.
  - split_and!; apply Fd; try lia; in_fields.
  - split_and!; apply Fd; try lia; in_fields.
  - split_and!; apply Fd; try lia; in_fields.
  - rewrite E0. split.
    + rewrite <- (Z.add_0_r p), (contiguous_load 4 s r 16 p 0 Cr), Z.add_0_r by lia. done.
    + rewrite (contiguous_load 8 s r 16 p 8 Cr) by lia. done.
Qed.

Section read.
Context `{A : Allocator} {DM : DeviceMemory A} {H : Mmio} (base : Z) (d : vdevice).
Context {VR : VirtioRegisters H base d} (disk : Z → Z) (capacity : Z) {VD : VirtioDisk H base d VR disk capacity}.

(** The live device: the object, its queue in contiguous memory and the registers. *)
Record block_live (this q seen : Z) (s : kstate) : Prop := BlockLive {
  bl_object : block_object base this s;
  bl_queue : vload 8 s (this + 16) = q;
  bl_owned : owned_range s q 6672;
  bl_apart : disjoint_range this 24 q 6672;
  bl_seen : 0 ≤ seen < 0x10000;
  bl_idx : vload 2 s (q + avail_idx_offset) = seen;
  bl_regs : ∃ qd qa qu, contiguous s q 48 qd ∧ contiguous s (q + avail_offset) 516 qa ∧
    contiguous s (q + used_offset) USED_SIZE qu ∧ view (pmem s) = live_regs d qd qa qu seen
}.

(** What init leaves is live when the areas of the queue lie in contiguous memory. *)
Lemma block_ready_live this q b s s' :
  budget b s → 6688 ≤ b → owned_range s this 24 → block_ready base d this q b s s' →
  (∃ pa, contiguous s' q 48 pa) → (∃ pa, contiguous s' (q + avail_offset) 516 pa) →
  (∃ pa, contiguous s' (q + used_offset) USED_SIZE pa) → block_live this q 0 s'.
Proof using DM.
  intros Hb Hle Hthis [Hb' BO Hq Ho _ Hn Hz K (qd & qa & qu & Ed & Ea & Eu & Hv)] [pd Cd] [pa Ca] [pu Cu].
  split; try done.
  - intros x Hx Hx'. apply (Hn x Hx'). by apply owned_stable, Hthis.
  - apply vload_zero. intros x Hx. apply Hz. unfold range, avail_idx_offset, avail_offset in *. lia.
  - pose proof (contiguous_start _ _ _ _ Cd ltac:(done)) as E1. pose proof (contiguous_start _ _ _ _ Ca ltac:(done)) as E2.
    pose proof (contiguous_start _ _ _ _ Cu ltac:(done)) as E3.
    assert (pd = qd ∧ pa = qa ∧ pu = qu) as (-> & -> & ->) by (split_and!; congruence).
    by exists qd, qa, qu.
Qed.

(** What is shared with the device while it serves a request. *)
Definition shared_va (q p buffer length x : Z) : Prop :=
  device_va x ∨ range (q + used_offset) USED_SIZE x ∨ range buffer length x ∨ x = p + request_status.

Lemma served_shared s q p buffer length qd qa qu seen n0 n1 rq x pa :
  budget 0 s → owned_range s q 6672 → owned_range s p 536 → owned_range s buffer length →
  contiguous s (q + used_offset) USED_SIZE qu → contiguous s buffer length (rq_buffer rq) → rq_length rq = length →
  resolve s (p + request_status) = Some (rq_status rq) →
  stable s x → resolve s x = Some pa → served base (VQueue n0 n1 qd qa qu seen) rq pa →
  shared_va q p buffer length x.
Proof using DM VR.
  intros Hb Hq Hp Hbuf Cu Cb El Es Hx Ex. subst length.
  assert (∀ v n a, contiguous s v n a → owned_range s v n → range a n pa → range v n x) as Hin.
  { intros v n a C Ho Ha. unfold range in Ha. assert (x = v + (pa - a)) as ->; [|unfold range; lia].
    apply (stable_inj s x _ pa Hb Hx); [apply owned_stable, Ho; unfold range; lia|done|].
    rewrite C by lia. f_equal. lia. }
  intros [Hw|[Hu|[Hbf|Hst]]].
  - left. apply (device_va_phys s x pa); [done|done|done|by apply (base_device (VirtioRegisters := VR))].
  - right; left. apply (Hin _ _ qu); [done| |done]. intros y Hy. apply Hq. unfold range, used_offset, USED_SIZE in *. lia.
  - right; right; left. by apply (Hin _ _ (rq_buffer rq)).
  - right; right; right. subst pa. apply (stable_inj s x _ (rq_status rq) Hb Hx); [|done|done].
    apply owned_stable, Hp. unfold range, request_status. lia.
Qed.

Lemma served_dma s q p buffer length qd qa qu seen n0 n1 rq a :
  owned_range s q 6672 → owned_range s p 536 → owned_range s buffer length →
  contiguous s (q + used_offset) USED_SIZE qu → contiguous s buffer length (rq_buffer rq) → rq_length rq = length →
  resolve s (p + request_status) = Some (rq_status rq) →
  served base (VQueue n0 n1 qd qa qu seen) rq a → dma_addr s a.
Proof using DM VR.
  intros Hq Hp Hbuf Cu Cb El Es. subst length. intros [Hw|[Hu|[Hbf|Hst]]].
  - left. by apply (base_device (VirtioRegisters := VR)).
  - right. exists (q + used_offset + (a - qu)). unfold range in Hu. cbn [vq_device] in Hu.
    split; [apply Hq; unfold range, used_offset, USED_SIZE in *; lia|]. rewrite Cu by lia. f_equal. lia.
  - right. exists (buffer + (a - rq_buffer rq)). unfold range in Hbf.
    split; [apply Hbuf; unfold range; lia|]. rewrite Cb by lia. f_equal. lia.
  - right. exists (p + request_status). subst a. split; [|done]. apply Hp. unfold range, request_status. lia.
Qed.

Lemma request_apart s q p buffer length qd qa qu seen n0 n1 rq :
  budget 0 s → owned_range s q 6672 → owned_range s p 536 → owned_range s buffer length →
  disjoint_range q 6672 buffer length → disjoint_range p 536 q 6672 → disjoint_range p 536 buffer length →
  contiguous s (q + used_offset) USED_SIZE qu → contiguous s buffer length (rq_buffer rq) → rq_length rq = length →
  resolve s (p + request_status) = Some (rq_status rq) →
  rq_apart base (VQueue n0 n1 qd qa qu seen) rq.
Proof using DM VR.
  intros Hb Hq Hp Hbuf D1 D2 D3 Cu Cb El Es. subst length.
  assert (owned_range s (q + used_offset) USED_SIZE) as Hu.
  { intros y Hy. apply Hq. unfold range, used_offset, USED_SIZE in *. lia. }
  assert (contiguous s (p + request_status) 1 (rq_status rq)) as Cs.
  { intros i Hi. by replace i with 0 by lia; rewrite !Z.add_0_r. }
  assert (owned_range s (p + request_status) 1) as Hst.
  { intros y Hy. apply Hp. unfold range, request_status in *. lia. }
  assert (∀ a, a = rq_status rq → range (rq_status rq) 1 a) as Hs1 by (unfold range; lia).
  split; cbn [vq_device].
  - intros a Hw. pose proof (base_device (VirtioRegisters := VR) a Hw) as Hd. split_and!; intros Ha.
    + by apply (contiguous_not_device s _ _ qu a Hb Hu Cu).
    + by apply (contiguous_not_device s _ _ _ a Hb Hbuf Cb).
    + by apply (contiguous_not_device s _ _ _ a Hb Hst Cs (Hs1 a Ha)).
  - intros a Ha. split.
    + apply (contiguous_apart s _ _ qu _ _ (rq_buffer rq) a Hb Hu Hbuf); [|done|done|done].
      intros y Hy. apply D1. unfold range, used_offset, USED_SIZE in *. lia.
    + intros ->. apply (contiguous_apart s _ _ (rq_status rq) _ _ qu (rq_status rq) Hb Hst Hu);
        [|done|done|by apply Hs1|done].
      intros y Hy Hy'. apply (D2 y); unfold range, request_status, used_offset, USED_SIZE in *; lia.
  - intros a Ha ->. apply (contiguous_apart s _ _ (rq_status rq) _ _ (rq_buffer rq) (rq_status rq) Hb Hst Hbuf);
      [|done|done|by apply Hs1|done].
    intros y Hy. apply D3. unfold range, request_status in *. lia.
Qed.

(** What a read of [length] bytes from [sector] on into [buffer] needs: a buffer in
    contiguous memory, apart from the driver's objects, and a request whose header does
    not straddle two frames. *)
Record read_ok (this q sector length buffer : Z) (s : kstate) : Prop := ReadOk {
  ro_length : 0 < length < 2 ^ 32 ∧ length mod 512 = 0;
  ro_sector : 512 * u32 sector + length ≤ capacity;
  ro_owned : owned_range s buffer length;
  ro_this : disjoint_range this 24 buffer length;
  ro_queue : disjoint_range q 6672 buffer length;
  ro_buffer : ∃ pa, contiguous s buffer length pa;
  ro_request : ∀ p s', kalloc 536 s = Done p s' → ∃ pa, contiguous s' p 16 pa
}.

(** The state in which the driver starts to wait. *)
Record request_posted (this q seen length buffer p b : Z) (rq : rqst) (s1 s : kstate) : Prop := RequestPosted {
  rp_keeps : keeps (λ x, device_va x ∨ range q 6672 x) s1 s;
  rp_view : ∃ qd qa qu, view (pmem s) = VRegs 0xF 1 0 (u32 (vd_offered d 0)) 0 0 (VQueue 256 1 qd qa qu seen) true ∧
    contiguous s q 48 qd ∧ contiguous s (q + avail_offset) 516 qa ∧ contiguous s (q + used_offset) USED_SIZE qu;
  rp_idx : vload 2 s (q + avail_idx_offset) = u16 (seen + 1);
  rp_waiting : waiting base d capacity b (p ⊞ request_status) rq s;
  rp_rq : rq_length rq = length ∧ contiguous s buffer length (rq_buffer rq);
  rp_shared x pa : stable s x → resolve s x = Some pa → served base (vr_queue (view (pmem s))) rq pa →
    shared_va q p buffer length x
}.

Section post.
Context (this q seen sector length buffer p b : Z) (s s1 : kstate).
Context (BL : block_live this q seen s) (RO : read_ok this q sector length buffer s).
Context (RM : request_made p 0 sector b s s1) (Hb : budget b s) (Hle : 552 ≤ b).

Lemma post_regs {B} fs s2 (k : K B) (Q : B → kstate → Prop) :
  filled q (b - 552) s1 fs s2 →
  (∀ s3, budget (b - 552) s3 → keeps (λ x, device_va x ∨ range q 6672 x) s1 s3 →
     (∀ f, f ∈ fs → vload f.1.2 s3 (q + f.1.1) = f.2) → owned_range s3 q 6672 →
     (∃ qd qa qu, view (pmem s3) = VRegs 0xF 1 0 (u32 (vd_offered d 0)) 0 0 (VQueue 256 1 qd qa qu seen) true ∧
       contiguous s3 q 48 qd ∧ contiguous s3 (q + avail_offset) 516 qa ∧ contiguous s3 (q + used_offset) USED_SIZE qu) →
     wp k Q s3) →
  wp (registers ← load64 this; mmio_write 4 (registers ⊞ R.queue_notify) 0x0;; k) Q s2.
Proof using BL RM Hb Hle VR DM.
  intros FI HQ. pose proof FI as [Hb2 K2 F]. pose proof (rm_keeps _ _ _ _ _ _ RM) as K1.
  destruct BL as [[Ho Hr Hc] Hptr Hq Hap Hseen Hidx (qd & qa & qu & Cd & Ca & Cu & Hv)].
  pose proof (keeps_comp nowhere (range q 6672) (range q 6672) s s1 s2 K1 K2 ltac:(by intros x _ [[]|])) as K02.
  pose proof (budget_0 b s Hb ltac:(lia)) as Hz. pose proof (budget_0 _ s2 Hb2 ltac:(lia)) as Hz2.
  pose proof (owned_range_keeps _ _ _ _ _ K02 Ho) as Ho2. pose proof (owned_range_keeps _ _ _ _ _ K02 Hq) as Hq2.
  assert (view (pmem s2) = live_regs d qd qa qu seen) as Hv2.
  { rewrite (view_keeps base d (range q 6672) s s2 Hz K02); [done|]. intros x Hd Hx.
    by apply (proj2 (device_apart s x Hz Hd)), Hq. }
  apply wp_bind, wp_load64; [done|intros x Hx; apply owned_stable, Ho2; unfold range in *; lia|].
  rewrite (vload_keeps 8 _ s s2 _ K02), Hr.
  2:{ intros x Hx. assert (range this 24 x) as Hx' by (unfold range in *; lia). split; [by apply owned_stable, Ho|by apply Hap]. }
  pose proof (at_regs_refl base d _ s2 Hb2) as AR. rewrite Hv2 in AR.
  apply wp_bind, (wp_write_reg base d 4 _ _ _ _ _ _ _ AR); [lia|done|done|done|]. intros s3 [Hb3 Hv3 K3 _].
  assert (∀ x, owned s2 x → stable s2 x ∧ ¬ device_va x) as Hod.
  { intros x Hx. split; [by apply owned_stable|]. intros Hd. by apply (proj2 (device_apart s2 x Hz2 Hd)). }
  assert (keeps (λ x, device_va x ∨ range q 6672 x) s s3) as K03.
  { apply (keeps_comp _ _ _ s s2 s3 K02 K3). tauto. }
  apply HQ.
  - done.
  - apply (keeps_comp _ _ _ s1 s2 s3 K2 K3). tauto.
  - intros [[o n] v] Hin. rewrite Forall_forall in F. destruct (F _ Hin) as (E & H1 & H2). cbn. rewrite <- E.
    apply (vload_keeps n _ s2 s3 _ K3). intros x Hx. apply Hod, Hq2. unfold range in *. lia.
  - by apply (owned_range_keeps _ _ _ _ _ K3).
  - exists qd, qa, qu. split; [exact Hv3|].
    split_and!; eapply contiguous_keeps; [exact K03| |exact Cd|exact K03| |exact Ca|exact K03| |exact Cu];
      intros x Hx; apply owned_stable, Hq; unfold range, avail_offset, used_offset, USED_SIZE in *; lia.
Qed.

Lemma post_object o n : owned_range s o n → owned_range s1 o n.
Proof using RM. exact (owned_range_keeps _ _ _ _ _ (rm_keeps _ _ _ _ _ _ RM)). Qed.

Lemma post_load k o : owned_range s o (Z.of_nat k) → vload k s1 o = vload k s o.
Proof using RM.
  intros Ho. apply (vload_keeps k _ _ _ _ (rm_keeps _ _ _ _ _ _ RM)). intros x Hx.
  split; [by apply owned_stable, Ho|by intros []].
Qed.

Lemma post_new o n : owned_range s o n → disjoint_range p 536 o n.
Proof using RM. intros Ho x Hx Hx'. by apply (rm_new _ _ _ _ _ _ RM x Hx), owned_stable, Ho. Qed.

Lemma post_header hdr s3 P : keeps P s1 s3 → (∀ x, range p 536 x → ¬ P x) → resolve s1 p = Some hdr →
  resolve s3 p = Some hdr ∧ contiguous s3 p 16 hdr ∧ vload 4 s3 p = 0 ∧ vload 8 s3 (p + 8) = u32 sector ∧
  vbyte s3 (p + request_status) = 0x12.
Proof using RO RM.
  intros K HP Eh. destruct RM as [Hb1 Ho Hn K1 Ht Hs Hst (s' & Ek & Ho' & Kk)].
  assert (∀ x, range p 536 x → stable s1 x ∧ ¬ P x) as Hp.
  { intros x Hx. split; [by apply owned_stable, Ho|by apply HP]. }
  assert (∀ i, 0 ≤ i < 536 → resolve s3 (p + i) = resolve s' (p + i)) as Hres.
  { intros i Hi. rewrite (kp_map _ _ _ K) by (apply Hp; unfold range; lia).
    apply (kp_map _ _ _ Kk), owned_stable, Ho'. unfold range. lia. }
  assert (resolve s3 p = Some hdr) as E3.
  { rewrite (kp_map _ _ _ K); [done|]. apply Hp. unfold range. lia. }
  split_and!; [done| | | |].
  - destruct (ro_request _ _ _ _ _ _ RO p s' Ek) as [pa C].
    assert (pa = hdr) as <-.
    { pose proof (Hres 0 ltac:(lia)) as E. rewrite C, !Z.add_0_r in E by lia. congruence. }
    intros i Hi. rewrite Hres by lia. by apply C.
  - rewrite <- Ht. apply (vload_keeps 4 _ s1 s3 _ K). intros x Hx. apply Hp. unfold range in *. lia.
  - rewrite <- Hs. apply (vload_keeps 8 _ s1 s3 _ K). intros x Hx. apply Hp. unfold range in *. lia.
  - rewrite <- Hst. apply (kp_byte _ _ _ K); apply Hp; unfold range, request_status; lia.
Qed.

(** The request is posted once the fields are filled in and the device is notified. *)
Lemma post_intro hdr buf st s3 :
  resolve s1 p = Some hdr → resolve s1 buffer = Some buf → resolve s1 (p + request_status) = Some st →
  budget (b - 552) s3 → keeps (λ x, device_va x ∨ range q 6672 x) s1 s3 →
  (∀ f, f ∈ read_fields seen hdr buf length st → vload f.1.2 s3 (q + f.1.1) = f.2) →
  owned_range s3 q 6672 →
  (∃ qd qa qu, view (pmem s3) = VRegs 0xF 1 0 (u32 (vd_offered d 0)) 0 0 (VQueue 256 1 qd qa qu seen) true ∧
     contiguous s3 q 48 qd ∧ contiguous s3 (q + avail_offset) 516 qa ∧ contiguous s3 (q + used_offset) USED_SIZE qu) →
  request_posted this q seen length buffer p (b - 552) (Request (u32 sector) length buf st) s1 s3.
Proof using BL RO RM Hb Hle VR DM.
  intros Eh Eb Es Hb3 K3 F3 Hq3 (qd & qa & qu & Hv3 & Cd & Ca & Cu).
  pose proof RM as [Hb1 Hp1 Hnew K1 _ _ _ _]. pose proof (budget_0 _ s1 Hb1 ltac:(lia)) as Hz1.
  pose proof (budget_0 _ s3 Hb3 ltac:(lia)) as Hz3. pose proof BL as [_ _ Hq _ _ _ _].
  destruct RO as [[Hl1 Hl2] Hsec Hbuf Dthis Dq [bpa Cb] _].
  pose proof (post_new q 6672 Hq) as Dpq. pose proof (post_new buffer length Hbuf) as Dpb.
  pose proof (post_object buffer length Hbuf) as Hbuf1.
  pose proof (owned_range_keeps _ _ _ _ _ K3 Hp1) as Hp3. pose proof (owned_range_keeps _ _ _ _ _ K3 Hbuf1) as Hbuf3.
  destruct (post_header hdr s3 _ K3) as (Eh3 & Ch3 & Ht3 & Hs3 & Hst3); [|done|].
  { intros x Hx [Hd|Hx']; [by apply (proj2 (device_apart s1 x Hz1 Hd)), Hp1|by apply (Dpq x)]. }
  assert (contiguous s3 buffer length buf) as Cb3.
  { assert (bpa = buf) as <-.
    { pose proof (Cb 0 ltac:(lia)) as E. rewrite !Z.add_0_r in E.
      rewrite (kp_map _ _ _ K1) in Eb; [congruence|]. apply owned_stable, Hbuf. unfold range. lia. }
    eapply contiguous_keeps; [exact K3|by intros x Hx; apply owned_stable, Hbuf1|].
    eapply contiguous_keeps; [exact K1|by intros x Hx; apply owned_stable, Hbuf|done]. }
  assert (resolve s3 (p + request_status) = Some st) as Es3.
  { rewrite (kp_map _ _ _ K3); [done|]. apply owned_stable, Hp1. unfold range, request_status. lia. }
  assert (p ⊞ request_status = p + request_status) as Ep.
  { apply (owned_range_add s3 p 536); try done. }
  set (rq := Request (u32 sector) length buf st).
  assert (∀ x pa, stable s3 x → resolve s3 x = Some pa → served base (VQueue 256 1 qd qa qu seen) rq pa →
    shared_va q p buffer length x) as Hsh.
  { intros x pa Hx Ex Hsv. by apply (served_shared s3 q p buffer length qd qa qu seen 256 1 rq x pa). }
  split.
  - done.
  - by exists qd, qa, qu.
  - apply (F3 (avail_idx_offset, 2%nat, u16 (seen + 1))). in_fields.
  - split; rewrite ?Hv3, ?Ep; try done; try lia.
    + by apply (posted_fields s3 q qd qa qu seen rq hdr 256 1 p).
    + by apply (request_apart s3 q p buffer length qd qa qu seen 256 1 rq).
    + exact (conj (proj1 Hl1) Hl2).
    + cbn. pose proof (u32_range sector). lia.
    + intros a. by apply (served_dma s3 q p buffer length).
    + apply Hp3. unfold range, request_status. lia.
  - done.
  - rewrite Hv3. exact Hsh.
Qed.

(** From the request on the heap to the start of the wait. *)
Lemma wp_post {B} (k : K B) (Q : B → kstate → Prop) :
  (∀ rq s3, rq_sector rq = u32 sector → request_posted this q seen length buffer p (b - 552) rq s1 s3 → wp k Q s3) →
  wp (fill_queue this p length buffer 0x0;;
      registers ← load64 this; mmio_write 4 (registers ⊞ R.queue_notify) 0x0;; k) Q s1.
Proof using BL RO RM Hb Hle VR DM.
  intros HQ. pose proof RM as [Hb1 Hp1 Hnew K1 _ _ _ _]. pose proof (budget_0 _ s1 Hb1 ltac:(lia)) as Hz1.
  pose proof BL as [[Ho _ _] Hptr Hq Hap Hseen Hidx _].
  destruct RO as [[Hl1 Hl2] Hsec Hbuf Dthis Dq [bpa Cb] _]. pose proof (post_object q 6672 Hq) as Hq1.
  assert (∀ j i, 0 ≤ i → i + Z.of_nat j ≤ 6672 → owned_range s (q + i) (Z.of_nat j)) as Hqi.
  { intros j i Hi Hj x Hx. apply Hq. unfold range in *. lia. }
  apply wp_bind, (wp_fill_queue this q (b - 552) s1) with (seen := seen); try done; try lia.
  { by apply post_object. }
  { rewrite post_load; [done|]. intros x Hx. apply Ho. unfold range in *. lia. }
  { split; [done|apply keeps_refl|]. constructor; [|done]. unfold avail_idx_offset, avail_offset.
    rewrite post_load by (apply Hqi; lia). by split; [|lia]. }
  { apply (post_object _ _ Hbuf). unfold range. lia. }
  intros hdr buf st s2 Eh Eb Es FI.
  apply (post_regs _ _ _ _ FI). intros s3 Hb3 K3 F3 Hq3 Hregs.
  apply (HQ (Request (u32 sector) length buf st)); [done|]. by apply (post_intro hdr buf st).
Qed.
End post.

(** Memory a read changes. *)
Definition read_mem (q buffer length x : Z) : Prop := device_va x ∨ range q 6672 x ∨ range buffer length x.

(** What a served read leaves. *)
Record sectors_read (this q seen sector length buffer b : Z) (s s' : kstate) : Prop := SectorsRead {
  sr_budget : budget (b - 552) s';
  sr_live : block_live this q (u16 (seen + 1)) s';
  sr_keeps : keeps (read_mem q buffer length) s s';
  sr_data i : 0 ≤ i < length → vbyte s' (buffer + i) = disk (512 * u32 sector + i)
}.

Lemma served_read this q seen sector length buffer p b rq s s1 s3 m :
  budget b s → 552 ≤ b → block_live this q seen s → read_ok this q sector length buffer s →
  request_made p 0 sector b s s1 → rq_sector rq = u32 sector →
  request_posted this q seen length buffer p (b - 552) rq s1 s3 →
  agree (λ a, ¬ served base (vr_queue (view (pmem s3))) rq a) (pmem s3) m →
  (∀ i, 0 ≤ i < rq_length rq → rd8 m (rq_buffer rq + i) = disk (512 * rq_sector rq + i)) →
  view m = serve_regs (view (pmem s3)) → sectors_read this q seen sector length buffer b s (set_pmem m s3).
Proof using VR DM.
  intros Hb Hle BL RO RM Esec [K3 (qd & qa & qu & Hv3 & Cd & Ca & Cu) Hidx3 WT [El Cb] Hsh] Hm Hdata Hview.
  pose proof (rm_keeps _ _ _ _ _ _ RM) as K1. destruct WT as [Hb3 _ _ _ _ _ _ Hdma _ _].
  pose proof BL as [BO Hptr Hq Hap Hseen _ _]. destruct RO as [Hl _ Hbuf Dthis Dq _ _].
  pose proof (budget_0 b s Hb ltac:(lia)) as Hz.
  assert (keeps (shared_va q p buffer length) s3 (set_pmem m s3)) as K4.
  { apply (keeps_dma (b - 552) s3 m _ (served base (vr_queue (view (pmem s3))) rq)); try done. lia. }
  assert (agree (λ a, ¬ dma_addr s3 a) (pmem s3) m) as Hd.
  { eapply agree_mono; [|exact Hm]. intros a Hna Hsv. by apply Hna, Hdma. }
  assert (keeps (λ x, device_va x ∨ range q 6672 x) s s3) as K13.
  { apply (keeps_comp _ _ _ s s1 s3 K1 K3). by intros x _ [[]|]. }
  assert (keeps (read_mem q buffer length) s (set_pmem m s3)) as K.
  { apply (keeps_comp _ _ _ s s3 _ K13 K4). unfold read_mem, shared_va. intros x Hx [[Hx'|Hx']|[Hx'|[Hx'|[Hx'| ->]]]].
    - tauto.
    - tauto.
    - tauto.
    - right; left. unfold range, used_offset, USED_SIZE in *. lia.
    - tauto.
    - destruct (rm_new _ _ _ _ _ _ RM (p + request_status)); [|done]. unfold range, request_status. lia. }
  assert (∀ x, range this 24 x → ¬ read_mem q buffer length x) as Hthis.
  { intros x Hx [Hd'|[Hx'|Hx']]; [|by apply (Hap x)|by apply (Dthis x)].
    by apply (proj2 (device_apart s x Hz Hd')), (bo_owned _ _ _ BO). }
  pose proof (owned_range_keeps _ _ _ _ _ K13 Hq) as Hq3.
  pose proof (owned_range_keeps _ _ _ _ _ K13 Hbuf) as Hbuf3.
  assert (∀ x, range (q + avail_idx_offset) 2 x → ¬ shared_va q p buffer length x) as Hidx.
  { intros x Hx Hs. assert (range q 6672 x) as Hqx by (unfold range, avail_idx_offset, avail_offset in *; lia).
    destruct Hs as [Hd'|[Hx'|[Hx'| ->]]].
    - by apply (proj2 (device_apart s x Hz Hd')), Hq.
    - unfold range, avail_idx_offset, avail_offset, used_offset, USED_SIZE in *. lia.
    - by apply (Dq x).
    - apply (rm_new _ _ _ _ _ _ RM (p + request_status)); [unfold range, request_status; lia|].
      by apply owned_stable, Hq. }
  split.
  - apply dma_budget; [done|lia|done].
  - split; [| | |done| | |].
    + apply (block_object_keeps base _ s _ this Hz K); [|done]. intros x Hx. apply Hthis. unfold range in *. lia.
    + rewrite <- Hptr. apply (vload_keeps 8 _ s _ _ K). intros x Hx.
      assert (range this 24 x) as Hx' by (unfold range in *; lia).
      split; [by apply owned_stable, (bo_owned _ _ _ BO)|by apply Hthis].
    + by apply (owned_range_keeps _ _ _ _ _ K).
    + apply u16_range.
    + rewrite <- Hidx3. apply (vload_keeps 2 _ s3 _ _ K4). intros x Hx.
      split; [apply owned_stable, Hq3; unfold range, avail_idx_offset, avail_offset in *; lia|by apply Hidx].
    + exists qd, qa, qu. cbn [pmem set_pmem]. rewrite Hview, Hv3.
      split_and!; [eapply contiguous_keeps; [exact K4| |exact Cd]|eapply contiguous_keeps; [exact K4| |exact Ca]|
        eapply contiguous_keeps; [exact K4| |exact Cu]|done];
        intros x Hx; apply owned_stable, Hq3; unfold range, avail_offset, used_offset, USED_SIZE in *; lia.
  - done.
  - intros i Hi. unfold vbyte. destruct (dma_stable (b - 552) s3 m (buffer + i) Hb3) as (_ & _ & ->); [lia|done|].
    rewrite Cb by lia. rewrite <- Esec. cbn [pmem set_pmem]. apply Hdata. lia.
Qed.

Lemma wp_read_blocks b s this q seen sector length buffer (Q : Z → kstate → Prop) :
  budget b s → 552 ≤ b → block_live this q seen s → read_ok this q sector length buffer s →
  (∀ s', sectors_read this q seen sector length buffer b s s' → Q 0 s') →
  wp (VirtIOBlockDevice_read_blocks this sector length buffer) Q s.
Proof using VD DM.
  intros Hb Hle BL RO HQ. unfold VirtIOBlockDevice_read_blocks, VirtIOBlockDevice_basic_op.
  destruct (ro_length _ _ _ _ _ _ RO) as [_ ->]. cbn [negb Z.eqb andb].
  apply (wp_make_request b); [done|done|done|]. intros p s1 RM.
  apply (wp_post this q seen sector length buffer p b s s1 BL RO RM Hb Hle). intros rq s3 Esec RP.
  apply wp_bind, (wp_wait base d disk capacity (b - 552) p rq s3).
  - exact (rp_waiting _ _ _ _ _ _ _ _ _ _ RP).
  - intros m Hm Hdata Hview. apply wp_ret, HQ. by apply (served_read this q seen sector length buffer p b rq s s1).
Qed.

(** C17: a read of whole sectors into a contiguous buffer ends as soon as the device has
    served the request, returns 0, and the buffer then holds the bytes of the disk; the
    driver stays ready for the next request, and nothing but the buffer, the queue and
    the device registers has changed. *)
Theorem read_blocks_serves (this q seen sector length buffer b : Z) (s : kstate) :
  budget b s → 552 ≤ b → block_live this q seen s → read_ok this q sector length buffer s →
  ∃ s', VirtIOBlockDevice_read_blocks this sector length buffer s = Done 0 s' ∧
    sectors_read this q seen sector length buffer b s s'.
Proof using VD DM.
  intros Hb Hle BL RO.
  destruct (wp_inv _ (λ r s', r = 0 ∧ sectors_read this q seen sector length buffer b s s') s
    (wp_read_blocks b s this q seen sector length buffer _ Hb Hle BL RO (λ s' H, conj eq_refl H)))
    as (r & s' & E & -> & SR).
  by exists s'.
Qed.
End read.

(** Basic_op rejects a length that is not a multiple of 512 and an operation that is
    neither a read nor a write: it returns -1 and does nothing but log. *)
Theorem basic_op_rejects `{Mmio} (this sector length buffer type : Z) (s : kstate) :
  length mod 512 ≠ 0 ∨ type ≠ 0 ∧ type ≠ 1 →
  ∃ out, VirtIOBlockDevice_basic_op this sector length buffer type s = Done (-1) (emit out s).
Proof.
  intros H0. assert (wp (VirtIOBlockDevice_basic_op this sector length buffer type)
    (λ r s', r = -1 ∧ ∃ out, s' = emit out s) s) as Hwp.
  { unfold VirtIOBlockDevice_basic_op. destruct (Z.eqb_spec (length mod 512) 0) as [E|E]; cbn [negb].
    - destruct H0 as [H0|[H0 H1]]; [done|]. rewrite (proj2 (Z.eqb_neq _ _) H0), (proj2 (Z.eqb_neq _ _) H1).
      cbn [negb andb]. apply wp_bind, wp_log; [done|]. intros o. apply wp_ret. eauto.
    - apply wp_bind, wp_log; [done|]. intros o. apply wp_ret. eauto. }
  destruct (wp_inv _ _ _ Hwp) as (r & s' & E & -> & out & ->). by exists out.
Qed.
