(* ===== verification/VirtioSample.v ===== *)
(** A concrete VirtIO block device, and the witnesses of the driver's theorems.

    The device keeps its registers in its window and serves a request in one step. *)

From S2P Require Import Prelude Monad Memory Sv48 Machine Layout Samples Stdio PhysAlloc Paging Heap KAlloc Allocator Client Dma Virtio VirtioDevice VirtioInit VirtioBlk.

(** * Lists of words in memory *)

Fixpoint store_words (a : Z) (l : list Z) (m : mem) : mem :=
  match l with
  | [] => m
  | v :: l' => store_words (a + 8) l' (store 8 m a v)
  end.

Lemma store_words_out a l m x : ¬ range a (8 * Z.of_nat (length l)) x → rd8 (store_words a l m) x = rd8 m x.
Proof.
  revert a m. induction l as [|v l IH]; intros a m Hx; [done|]. cbn [store_words].
  unfold range in *. cbn [length] in Hx. rewrite IH by lia. apply rd8_store_out. lia.
Qed.

Lemma load_store_words a l m i v :
  l !! i = Some v → 0 ≤ v < 2 ^ 64 → load 8 (store_words a l m) (a + 8 * Z.of_nat i) = v.
Proof.
  revert a m i. induction l as [|w l IH]; intros a m [|i] Hi Hv; [done|done| |]; cbn [store_words].
  - injection Hi as ->. rewrite Z.add_0_r. transitivity (load 8 (store 8 m a v) a).
    + apply load_ext. intros x Hx. apply store_words_out. unfold range. lia.
    + by apply load_store8_eq.
  - replace (a + 8 * Z.of_nat (S i)) with (a + 8 + 8 * Z.of_nat i) by lia. by apply IH.
Qed.

(** * Registers in memory *)

Definition regs_words (r : vregs) : list Z :=
  let q := vr_queue r in
  [vr_status r; vr_features_sel r; vr_driver_sel r; vr_driver_lo r; vr_driver_hi r; vr_queue_sel r;
   vq_num q; vq_ready q; vq_desc q; vq_driver q; vq_device q; vq_seen q; if vr_notified r then 1 else 0].

Definition regs_ok (r : vregs) : Prop := Forall (λ v, 0 ≤ v < 2 ^ 64) (regs_words r).

Definition get_regs (base : Z) (m : mem) : vregs :=
  let w i := load 8 m (base + 8 * i) in
  VRegs (w 0) (w 1) (w 2) (w 3) (w 4) (w 5) (VQueue (w 6) (w 7) (w 8) (w 9) (w 10) (w 11)) (negb (w 12 =? 0)).
Definition put_regs (base : Z) (r : vregs) (m : mem) : mem := store_words base (regs_words r) m.

Lemma get_put base r m : regs_ok r → get_regs base (put_regs base r m) = r.
Proof.
  intros Hr. unfold regs_ok in Hr. rewrite Forall_lookup in Hr.
  assert (∀ i v, regs_words r !! Z.to_nat i = Some v → 0 ≤ i → load 8 (put_regs base r m) (base + 8 * i) = v) as H.
  { intros i v Hi H0. rewrite <- (Z2Nat.id i) by done. by apply load_store_words, (Hr (Z.to_nat i)). }
  unfold get_regs.
  rewrite (H 0 _ eq_refl), (H 1 _ eq_refl), (H 2 _ eq_refl), (H 3 _ eq_refl), (H 4 _ eq_refl), (H 5 _ eq_refl),
    (H 6 _ eq_refl), (H 7 _ eq_refl), (H 8 _ eq_refl), (H 9 _ eq_refl), (H 10 _ eq_refl), (H 11 _ eq_refl),
    (H 12 _ eq_refl) by lia.
  destruct r as [? ? ? ? ? ? [] []]; done.
Qed.

Lemma get_regs_ok base m : regs_ok (get_regs base m).
Proof.
  assert (∀ i, 0 ≤ load 8 m (base + 8 * i) < 2 ^ 64) as H by (intros i; apply load8_range).
  unfold regs_ok, get_regs, regs_words. repeat constructor; cbn [vr_status vr_features_sel vr_driver_sel
    vr_driver_lo vr_driver_hi vr_queue_sel vr_queue vq_num vq_ready vq_desc vq_driver vq_device vq_seen vr_notified];
    try apply H; destruct (negb _); lia.
Qed.

Lemma get_regs_ext base m m' : agree (window base) m m' → get_regs base m' = get_regs base m.
Proof.
  intros Ha. assert (∀ i, 0 ≤ i < 13 → load 8 m' (base + 8 * i) = load 8 m (base + 8 * i)) as H.
  { intros i Hi. apply load_ext. intros x Hx. apply Ha. unfold window, VIRTIO_SIZE. lia. }
  unfold get_regs. by rewrite !H by lia.
Qed.

Lemma put_regs_out base r m : agree (λ a, ¬ window base a) m (put_regs base r m).
Proof.
  intros a Ha. apply store_words_out. intros Hr. apply Ha. unfold range, window, VIRTIO_SIZE in *. cbn in Hr. lia.
Qed.

Lemma clearbit_range v : 0 ≤ v < 2 ^ 64 → 0 ≤ Z.clearbit v 3 < 2 ^ 64.
Proof.
  intros Hv. rewrite Z.clearbit_spec'. assert (Z.ldiff v (2 ^ 3) = Z.ldiff v (2 ^ 3) mod 2 ^ 64) as ->.
  - rewrite <- !Z.land_ones, !Z.ldiff_land by lia. rewrite <- Z.land_assoc, (Z.land_comm (Z.lnot _)), Z.land_assoc.
    rewrite (Z.land_ones v) by lia. by rewrite (Z.mod_small v).
  - by apply Z.mod_pos_bound.
Qed.

Lemma vwrite_ok d off v r : regs_ok r → 0 ≤ v < 2 ^ 64 → regs_ok (vwrite d off v r).
Proof.
  intros Hr Hv. pose proof (clearbit_range v Hv) as Hc. destruct r as [st fs ds lo hi qs [nu re de dr dv se] nt].
  unfold vwrite, write_status, set_queue_regs, no_queue. unfold regs_ok, regs_words in *.
  cbn [vr_status vr_features_sel vr_driver_sel vr_driver_lo vr_driver_hi vr_queue_sel vr_queue vq_num vq_ready vq_desc
    vq_driver vq_device vq_seen vr_notified] in *. rewrite !Forall_cons in Hr.
  destruct Hr as (H1 & H2 & H3 & H4 & H5 & H6 & H7 & H8 & H9 & H10 & H11 & H12 & H13 & _).
  repeat match goal with |- Forall _ (regs_words (if ?b then _ else _)) => destruct b
    | |- context [if ?b then _ else _] => destruct b end;
  unfold regs_words;
  cbn [vr_status vr_features_sel vr_driver_sel vr_driver_lo vr_driver_hi vr_queue_sel vr_queue vq_num vq_ready vq_desc
    vq_driver vq_device vq_seen vr_notified]; repeat constructor; try done; lia.
Qed.

(** * The device *)

(** A block device in the first slot, and nothing in the others. *)
Definition sample_devs (i : Z) : vdevice :=
  VDevice (if i =? 0 then 2 else 0) (λ _, 0x30006654) (λ _ _, true) 1024.

Section device.
Context (disk : Z → Z) (devs : Z → vdevice).

Definition slot_index (pa : Z) : Z := (pa - 0x10001000) / VIRTIO_SIZE.

(** The bytes of the disk from [from] on, [n] of them, at [a]. *)
Definition write_disk (from a n : Z) (m : mem) : mem :=
  foldr (λ i m, wr8 m (a + i) (disk (from + i))) m (zseq 0 (Z.to_nat n)).

Definition serve (base : Z) (m : mem) : mem :=
  let r := get_regs base m in
  let q := vr_queue r in
  let head := load 2 m (vq_driver q + (4 + 2 * (vq_seen q mod 256))) in
  let d0 := vq_desc q + 16 * head in
  let d1 := vq_desc q + 16 * load 2 m (d0 + 14) in
  let d2 := vq_desc q + 16 * load 2 m (d1 + 14) in
  let m1 := write_disk (512 * load 8 m (load 8 m d0 + 8)) (load 8 m d1) (load 4 m (d1 + 8)) m in
  let m2 := store 2 m1 (vq_device q + 2) (vq_seen q + 1) in
  let m3 := wr8 m2 (load 8 m d2) 0 in
  put_regs base (serve_regs r) m3.

Definition sample_mmio : Mmio := {|
  mmio_load n pa m :=
    let i := slot_index pa in
    (vread (devs i) (pa - slot i) (get_regs (slot i) m), m);
  mmio_store n pa v m :=
    let i := slot_index pa in
    put_regs (slot i) (vwrite (devs i) (pa - slot i) v (get_regs (slot i) m)) m;
  device_step m := if vr_notified (get_regs (slot 0) m) then serve (slot 0) m else m
|}.

Lemma slot_index_at i off : 0 ≤ off < VIRTIO_SIZE → slot_index (slot i + off) = i.
Proof. unfold slot_index, slot, VIRTIO_SIZE. intros H. zlia. Qed.

#[export] Program Instance sample_registers (i : Z) (Hi : 0 ≤ i < 8) :
    VirtioRegisters sample_mmio (slot i) (devs i) := {|
  view := get_regs (slot i)
|}.
Next Obligation. intros i Hi a. unfold window, device_addr, slot, VIRTIO_SIZE. lia. Qed.
Next Obligation. intros i _ m m'. apply get_regs_ext. Qed.
Next Obligation. done. Qed.
Next Obligation.
  intros i _ off m Hr. cbn [mmio_load sample_mmio fst]. assert (0 ≤ off < VIRTIO_SIZE) as Ho.
  { unfold readable in Hr. apply existsb_exists in Hr as (x & Hx & ->%Z.eqb_eq). repeat destruct Hx as [<-|Hx]; done. }
  rewrite slot_index_at by done. f_equal. lia.
Qed.
Next Obligation.
  intros i _ n off v m Ho. cbn [mmio_store sample_mmio]. rewrite slot_index_at by done. apply put_regs_out.
Qed.
Next Obligation.
  intros i _ n off v m Ho Hw Hv. cbn [mmio_store sample_mmio]. rewrite slot_index_at by done.
  replace (slot i + off - slot i) with off by lia. apply get_put, vwrite_ok; [apply get_regs_ok|].
  split; [lia|]. eapply Z.lt_le_trans; [apply Hv|]. change (2 ^ 64) with (0x100 ^ 8). apply Z.pow_le_mono_r; [lia|].
  unfold reg_width in Hw. destruct (0x100 <=? off); [apply Nat.leb_le in Hw; lia|].
  destruct (_ || _); apply Nat.eqb_eq in Hw; lia.
Qed.
End device.

(** ** It serves requests *)

Section serves.
Context (disk : Z → Z) (Hdisk : ∀ x, 0 ≤ disk x < 256).

Lemma write_disk_byte from a n m x :
  0 ≤ n → rd8 (write_disk disk from a n m) x = if decide (a ≤ x < a + n) then disk (from + (x - a)) else rd8 m x.
Proof using Hdisk.
  intros Hn. unfold write_disk.
  assert (∀ k j, rd8 (foldr (λ i m, wr8 m (a + i) (disk (from + i))) m (zseq j k)) x =
    if decide (a + j ≤ x < a + j + Z.of_nat k) then disk (from + (x - a)) else rd8 m x) as ->.
  2:{ repeat case_decide; try done; lia. }
  induction k as [|k IH]; intros j; [by rewrite decide_False by lia|].
  rewrite zseq_S. cbn [foldr]. rewrite rd8_wr8. case_decide as E.
  - subst x. rewrite decide_True by lia. rewrite u8_small by apply Hdisk. f_equal. lia.
  - rewrite IH. repeat case_decide; try done; lia.
Qed.

(** What serving a posted request does. *)
Lemma serve_posted base m rq :
  posted m (vr_queue (get_regs base m)) rq →
  serve disk base m = put_regs base (serve_regs (get_regs base m))
    (wr8 (store 2 (write_disk disk (512 * rq_sector rq) (rq_buffer rq) (rq_length rq) m)
       (vq_device (vr_queue (get_regs base m)) + 2) (vq_seen (vr_queue (get_regs base m)) + 1)) (rq_status rq) 0).
Proof using Type.
  intros [_ Hh (_ & _ & N0) (B1 & L1 & _ & N1) (S2 & _ & _) [_ Hs]]. unfold serve. cbv zeta.
  set (q := vr_queue (get_regs base m)) in *. rewrite Hh.
  replace (vq_desc q + 16 * 0) with (vq_desc q) by lia. rewrite N0, Hs.
  replace (vq_desc q + 16 * 1) with (vq_desc q + 16) by lia.
  replace (vq_desc q + 16 + 14) with (vq_desc q + 30) by lia.
  replace (vq_desc q + 16 + 8) with (vq_desc q + 24) by lia. rewrite N1, B1, L1.
  replace (vq_desc q + 16 * 2) with (vq_desc q + 32) by lia. by rewrite S2.
Qed.

Lemma serve_regs_ok r : regs_ok r → regs_ok (serve_regs r).
Proof using Type.
  intros Hr. destruct r as [st fs ds lo hi qs [nu re de dr dv se] nt]. unfold regs_ok, regs_words, serve_regs in *.
  cbn [vr_status vr_features_sel vr_driver_sel vr_driver_lo vr_driver_hi vr_queue_sel vr_queue vq_num vq_ready vq_desc
    vq_driver vq_device vq_seen vr_notified] in *. rewrite !Forall_cons in *.
  pose proof (u16_range (se + 1)). intuition lia.
Qed.

#[export] Instance sample_disk_laws (capacity : Z) (H0 : 0 ≤ 0 < 8) :
  VirtioDisk (sample_mmio disk sample_devs) (slot 0) (sample_devs 0) (sample_registers disk sample_devs 0 H0) disk capacity.
Proof using Hdisk.
  split. intros m rq _ Hnot Hnum Hready Po Ra Hl _ Hs _. cbn [view sample_registers] in *.
  exists 0%nat. split; [lia|]. set (base := slot 0) in *. set (r := get_regs base m) in *. set (q := vr_queue r) in *.
  assert (turns (H := sample_mmio disk sample_devs) 1 m = serve disk base m) as E1.
  { change (turns 1 m) with (if vr_notified r then serve disk base m else m). by rewrite Hnot. }
  pose proof (serve_posted base m rq Po) as Es. fold r in Es. fold q in Es.
  set (m1 := write_disk disk (512 * rq_sector rq) (rq_buffer rq) (rq_length rq) m) in *.
  set (m2 := store 2 m1 (vq_device q + 2) (vq_seen q + 1)) in *. set (m3 := wr8 m2 (rq_status rq) 0) in *.
  assert (∀ x, ¬ window base x → rd8 (serve disk base m) x = rd8 m3 x) as Hw.
  { intros x Hx. rewrite Es. by apply put_regs_out. }
  assert (∀ x, ¬ range (vq_device q) USED_SIZE x → rd8 m2 x = rd8 m1 x) as Hu.
  { intros x Hx. apply rd8_store_out. unfold range, USED_SIZE in Hx. lia. }
  destruct Ra as [Rw Ru Rb].
  split_and!.
  - intros k Hk. assert (k = 0%nat ∨ k = 1%nat) as [-> | ->] by lia; [by intros a _|]. rewrite E1.
    intros a Ha. unfold served in Ha. rewrite Hw by tauto. unfold m3. rewrite rd8_wr8_ne by tauto.
    rewrite Hu by tauto. unfold m1. rewrite write_disk_byte by lia. rewrite decide_False; [done|].
    unfold range in Ha. tauto.
  - intros k Hk. by assert (k = 0%nat) as -> by lia.
  - rewrite E1, Hw; [by unfold m3; rewrite rd8_wr8_eq|]. intros Hx. by apply Rw in Hx as (_ & _ & ?).
  - intros i Hi. assert (range (rq_buffer rq) (rq_length rq) (rq_buffer rq + i)) as Hr by (unfold range; lia).
    rewrite E1, Hw; [|intros Hx; by apply Rw in Hx as (_ & ? & _)]. unfold m3. rewrite rd8_wr8_ne by by apply Rb.
    rewrite Hu; [|intros Hx; by apply Ru in Hx as [? _]]. unfold m1. rewrite write_disk_byte by lia.
    rewrite decide_True by lia. f_equal. lia.
  - rewrite E1, Es. apply get_put, serve_regs_ok, get_regs_ok.
Qed.
End serves.

(** * Witnesses *)

#[local] Abbreviation KH := (kernel_heap 64 0x80208000).
#[local] Existing Instance heap_devices.

Definition bytes_of (x : Z) : Z := x mod 256.
Lemma bytes_of_range x : 0 ≤ bytes_of x < 256.
Proof. by apply Z.mod_pos_bound. Qed.

#[local] Abbreviation MM := (sample_mmio bytes_of sample_devs).
#[local] Abbreviation VR i H := (sample_registers bytes_of sample_devs i H).

Lemma slot_0 : 0 ≤ 0 < 8.
Proof. lia. Qed.

Lemma first_slot_sample : first_slot sample_devs 2 = Some 0.
Proof. reflexivity. Qed.

(** The block device object of the first slot, on the sample heap. *)
Lemma sample_object :
  ∃ p s, get_block_device (H := MM) heap0 = Done p s ∧ budget (Allocator := KH) 16344 s ∧
    block_object (A := KH) (slot 0) p s.
Proof.
  apply (wp_inv _ (λ p s, _)).
  apply (wp_get_block_device (A := KH) (H := MM) sample_devs (VRs := λ i H, VR i H) 16384);
    [apply heap0_budget; lia|lia| |].
  - rewrite first_slot_sample. discriminate.
  - intros i Hi p s Hb BO _ _ _. rewrite first_slot_sample in Hi. injection Hi as <-. done.
Qed.

Lemma get_block_device_finds_witness :
  ∃ p s', get_block_device (H := MM) heap0 = Done p s' ∧
    budget (Allocator := KH) (16384 - 40) s' ∧ block_object (A := KH) (slot 0) p s' ∧ block_device (vars s') = p ∧
    (∀ x, range p 24 x → ¬ stable (Allocator := KH) heap0 x) ∧
    keeps (A := KH) nowhere (with_block_device p heap0) s'.
Proof.
  apply (get_block_device_finds (A := KH) (H := MM) sample_devs (VRs := λ i H, VR i H) 16384 heap0);
    [apply heap0_budget; lia|lia].
Defined.

Lemma get_console_device_never_witness : get_console_device (H := MM) heap0 = Done 0 heap0.
Proof.
  apply (get_console_device_never (A := KH) (H := MM) sample_devs (VRs := λ i H, VR i H) 16384 heap0).
  apply heap0_budget. lia.
Defined.

Lemma VirtIOBlockDevice_init_correct_witness :
  ∃ this s s', VirtIOBlockDevice_init (H := MM) this s = Done 0 s' ∧
    ∃ q, block_ready (A := KH) (H := MM) (slot 0) (sample_devs 0) (VR := VR 0 slot_0) this q 16344 s s'.
Proof.
  destruct sample_object as (this & s & _ & Hb & BO). exists this, s.
  destruct (VirtIOBlockDevice_init_correct (A := KH) (H := MM) (slot 0) (sample_devs 0) (VR := VR 0 slot_0)
    this 16344 s Hb ltac:(lia) BO) as (res & s' & E & -> & Q).
  by exists s'.
Defined.

Lemma basic_op_rejects_witness :
  513 mod 512 ≠ 0 ∧ ∃ out, VirtIOBlockDevice_basic_op (H := MM) 0 0 513 0 0 start = Done (-1) (emit out start).
Proof. split; [done|]. apply (basic_op_rejects (H := MM) 0 0 513 0 0 start). by left. Defined.

(** A live device on the sample heap: the object, a buffer of 512 bytes and the queue in
    one block, the registers as init leaves them. *)
Lemma sample_block h :
  budget (Allocator := KH) 16384 h → free_list h = VIRTUAL_HEAP_START →
  ∃ p s, budget (Allocator := KH) 9068 s ∧ owned_range (A := KH) s p 7300 ∧ p = VIRTUAL_HEAP_START + 16 ∧
    free_list s = p + 7300 ∧ vload 8 s p = registers (slot 0) ∧ vload 8 s (p + 8) = registers (slot 0) + 0x100 ∧
    vload 8 s (p + 16) = p + 600 ∧ vload 2 s (p + 600 + avail_idx_offset) = 0.
Proof.
  intros Hb Ef. destruct (kalloc_fresh (A := KH) 16384 7300 h Hb ltac:(lia) ltac:(lia)) as (p & s1 & E1 & Hb1 & Fr).
  assert (p = VIRTUAL_HEAP_START + 16 ∧ free_list s1 = p + 7300) as [Hp Ef1].
  { destruct Hb as (OK & _ & Hn & _). pose proof (pages_mono h 7300 16384 ltac:(lia)) as Hm.
    destruct (kalloc_done 64 0x80208000 h 7300 OK ltac:(lia) ltac:(lia)) as (s1' & E1' & AB).
    pose proof (ab_next _ _ _ _ _ AB) as Ef1. rewrite E1 in E1'. injection E1' as -> ->. lia. }
  pose proof (fr_owned _ _ _ _ Fr) as Ho1.
  destruct (storev_owned (A := KH) 8 _ s1 p (registers (slot 0)) Hb1 ltac:(lia)) as (s2 & _ & St2).
  { intros x Hx. apply Ho1. unfold range in *. lia. }
  pose proof (owned_range_keeps _ _ _ _ _ (st_keeps _ _ _ _ _ _ St2) Ho1) as Ho2.
  destruct (storev_owned (A := KH) 8 _ s2 (p + 8) (registers (slot 0) + 0x100) (st_budget _ _ _ _ _ _ St2) ltac:(lia)) as (s3 & _ & St3).
  { intros x Hx. apply Ho2. unfold range in *. lia. }
  pose proof (owned_range_keeps _ _ _ _ _ (st_keeps _ _ _ _ _ _ St3) Ho2) as Ho3.
  destruct (storev_owned (A := KH) 8 _ s3 (p + 16) (p + 600) (st_budget _ _ _ _ _ _ St3) ltac:(lia)) as (s4 & _ & St4).
  { intros x Hx. apply Ho3. unfold range in *. lia. }
  pose proof (owned_range_keeps _ _ _ _ _ (st_keeps _ _ _ _ _ _ St4) Ho3) as Ho4.
  destruct (storev_owned (A := KH) 2 _ s4 (p + (600 + avail_idx_offset)) 0 (st_budget _ _ _ _ _ _ St4) ltac:(lia)) as (s5 & _ & St5).
  { intros x Hx. apply Ho4. unfold range, avail_idx_offset, avail_offset in *. lia. }
  pose proof (owned_range_keeps _ _ _ _ _ (st_keeps _ _ _ _ _ _ St5) Ho4) as Ho5.
  assert (∀ b n va v s s', stored (A := KH) b n va v s s' → free_list s' = free_list s) as Hfl.
  { intros b n va v s s' St. by destruct (only_mem_fields _ _ (st_only _ _ _ _ _ _ St)) as (_ & _ & _ & _ & -> & _). }
  exists p, s5. split_and!.
  - exact (st_budget _ _ _ _ _ _ St5).
  - done.
  - done.
  - rewrite (Hfl _ _ _ _ _ _ St5), (Hfl _ _ _ _ _ _ St4), (Hfl _ _ _ _ _ _ St3), (Hfl _ _ _ _ _ _ St2). done.
  - rewrite <- (Z.add_0_r p). rewrite (field_kept _ 7300 _ _ _ _ _ p 8 0 St5 Ho4) by (unfold avail_idx_offset, avail_offset; lia).
    rewrite (field_kept _ 7300 _ _ _ _ _ p 8 0 St4 Ho3) by lia. rewrite (field_kept _ 7300 _ _ _ _ _ p 8 0 St3 Ho2) by lia.
    rewrite Z.add_0_r. by apply (stored_exact _ _ _ _ _ _ St2).
  - rewrite (field_kept _ 7300 _ _ _ _ _ p 8 8 St5 Ho4) by (unfold avail_idx_offset, avail_offset; lia).
    rewrite (field_kept _ 7300 _ _ _ _ _ p 8 8 St4 Ho3) by lia. by apply (stored_exact _ _ _ _ _ _ St3).
  - rewrite (field_kept _ 7300 _ _ _ _ _ p 8 16 St5 Ho4) by (unfold avail_idx_offset, avail_offset; lia).
    apply (stored_exact _ _ _ _ _ _ St4). subst p. by vm_compute.
  - rewrite <- Z.add_assoc. by apply (stored_exact _ _ _ _ _ _ St5).
Qed.

(** The registers of the device are those of an initialised one. *)
Lemma sample_live h :
  budget (Allocator := KH) 16384 h → free_list h = VIRTUAL_HEAP_START →
  ∃ p s, budget (Allocator := KH) 9068 s ∧ owned_range (A := KH) s p 7300 ∧ p = VIRTUAL_HEAP_START + 16 ∧
    free_list s = p + 7300 ∧
    block_live (A := KH) (H := MM) (slot 0) (sample_devs 0) (VR := VR 0 slot_0) p (p + 600) 0 s.
Proof.
  intros Hh Eh. destruct (sample_block h Hh Eh) as (p & s & Hb & Ho & Hp & Ef & Hr & Hc & Hq & Hi).
  assert (∀ o n, 0 ≤ o → 0 < n → o + n ≤ 7300 → (p + o) mod 4096 + n ≤ 4096 → ∃ pa, contiguous s (p + o) n pa) as Hct.
  { intros o n H0 Hn Hle Hm. apply (heap_contiguous 64 0x80208000 9068); [done| |done|done].
    intros x Hx. apply Ho. unfold range. lia. }
  destruct (Hct 600 48) as [qd Cd]; [lia|lia|lia|by subst p; vm_compute|].
  destruct (Hct (600 + avail_offset) 516) as [qa Ca]; [unfold avail_offset; lia|lia|unfold avail_offset; lia|by subst p; vm_compute|].
  destruct (Hct (600 + used_offset) USED_SIZE) as [qu Cu]; [unfold used_offset; lia|by unfold USED_SIZE|unfold used_offset, USED_SIZE; lia|by subst p; vm_compute|].
  set (r := live_regs (sample_devs 0) qd qa qu 0).
  set (s' := set_pmem (put_regs (slot 0) r (pmem s)) s).
  assert (agree (λ a, ¬ window (slot 0) a) (pmem s) (put_regs (slot 0) r (pmem s))) as Ha by apply put_regs_out.
  pose proof (window_dma (A := KH) (H := MM) (slot 0) (sample_devs 0) (VR := VR 0 slot_0) s _ Ha) as Hd.
  pose proof (dma_budget (A := KH) _ s _ Hb ltac:(lia) Hd) as Hb'.
  assert (keeps (A := KH) device_va s s') as K.
  { apply (keeps_dma (A := KH) 9068 s _ _ (window (slot 0))); try done.
    - intros a Hx. left. by apply (base_device (VirtioRegisters := VR 0 slot_0)).
    - intros x pa Hx E Hx'. apply (device_va_phys (A := KH) s x pa); [by apply (budget_0 _ _ Hb)|done|done|].
      by apply (base_device (VirtioRegisters := VR 0 slot_0)). }
  assert (∀ x, range p 7300 x → ¬ device_va x) as Hnd.
  { intros x Hx Hx'. by apply (proj2 (device_apart (A := KH) s x ltac:(by apply (budget_0 _ _ Hb)) Hx')), Ho. }
  assert (∀ k o, 0 ≤ o → o + Z.of_nat k ≤ 7300 → vload k s' (p + o) = vload k s (p + o)) as Hkeep.
  { intros k o H0 Hk. apply (vload_keeps (A := KH) k _ s s' _ K). intros x Hx.
    assert (range p 7300 x) as Hx' by (unfold range in *; lia).
    split; [by apply (owned_stable (Allocator := KH)), Ho|by apply Hnd]. }
  assert (∀ o n pa, 0 ≤ o → o + n ≤ 7300 → contiguous s (p + o) n pa → contiguous s' (p + o) n pa) as Hck.
  { intros o n pa H0 Hn Cn. eapply (contiguous_keeps (A := KH)); [exact K| |done].
    intros x Hx. apply (owned_stable (Allocator := KH)), Ho. unfold range in *. lia. }
  pose proof (owned_range_keeps (A := KH) _ _ _ _ _ K Ho) as Ho'.
  exists p, s'. split_and!; [done|done|done|done|].
  assert (∀ pa o n, contiguous s (p + o) n pa → 0 < n → 0 ≤ o < 7300 → 0 ≤ pa < 2 ^ 64) as Hpa.
  { intros pa o n Cn Hn Ho1. destruct (owned_translated (A := KH) s (p + o) ltac:(by apply (budget_0 _ _ Hb))) as (pa' & Hr' & E' & _).
    - apply Ho. unfold range. lia.
    - pose proof (contiguous_start _ _ _ _ Cn Hn). congruence. }
  split; [split| | | | | |].
  - intros x Hx. apply Ho'. unfold range in *. lia.
  - rewrite <- (Z.add_0_r p), Hkeep, Z.add_0_r by lia. done.
  - by rewrite Hkeep by lia.
  - by rewrite Hkeep by lia.
  - intros x Hx. apply Ho'. unfold range in *. lia.
  - intros x Hx Hx'. unfold range in *. lia.
  - lia.
  - rewrite <- Z.add_assoc, Hkeep by (unfold avail_idx_offset, avail_offset; lia). by rewrite Z.add_assoc.
  - exists qd, qa, qu. rewrite <- !Z.add_assoc. unfold avail_offset, used_offset, USED_SIZE in *.
    split_and!; [by apply Hck|by apply Hck|by apply Hck|]. apply get_put.
    unfold r, live_regs, regs_ok, regs_words. cbn [vr_status vr_features_sel vr_driver_sel vr_driver_lo vr_driver_hi
      vr_queue_sel vr_queue vq_num vq_ready vq_desc vq_driver vq_device vq_seen vr_notified].
    repeat (apply Forall_cons; split); try apply Forall_nil; try done.
    + by apply (Hpa qd 600 48).
    + by apply (Hpa qa (600 + 4096) 516).
    + by apply (Hpa qu (600 + 4616) 2054).
Qed.

Lemma read_blocks_serves_witness :
  ∃ this q buffer s s', VirtIOBlockDevice_read_blocks (H := MM) this 7 512 buffer s = Done 0 s' ∧
    sectors_read (A := KH) (H := MM) (slot 0) (sample_devs 0) (VR := VR 0 slot_0) bytes_of this q 0 7 512 buffer 9068 s s'.
Proof.
  destruct heap0_facts as (_ & Ef & _).
  destruct (sample_live heap0 (heap0_budget 16384 ltac:(lia)) Ef) as (p & s & Hb & Ho & Hp & Efl & BL).
  clear Ef. exists p, (p + 600), (p + 24), s.
  apply (read_blocks_serves (A := KH) (H := MM) (slot 0) (sample_devs 0) (VR := VR 0 slot_0) bytes_of (2 ^ 40)
    (VD := sample_disk_laws bytes_of bytes_of_range (2 ^ 40) slot_0)); [done|lia|done|].
  split.
  - split; [lia|done].
  - by vm_compute.
  - intros x Hx. apply Ho. unfold range in *. lia.
  - intros x Hx Hx'. unfold range in *. lia.
  - intros x Hx Hx'. unfold range in *. lia.
  - apply (heap_contiguous 64 0x80208000 9068); [done| |done|by subst p; vm_compute].
    intros x Hx. apply Ho. unfold range. lia.
  - intros r s' E. destruct (kalloc_fresh (A := KH) 9068 536 s Hb ltac:(lia) ltac:(lia)) as (r' & s1 & E1 & Hb1 & Fr).
    rewrite E1 in E. injection E as -> ->. apply (heap_contiguous 64 0x80208000 (9068 - 536 - 16)); [done| |done|].
    + intros x Hx. apply (fr_owned _ _ _ _ Fr). unfold range. lia.
    + destruct Hb as (OK & _ & Hn & _). pose proof (pages_mono s 536 9068 ltac:(lia)) as Hm.
      destruct (kalloc_done 64 0x80208000 s 536 OK ltac:(lia) ltac:(lia)) as (s1' & E1' & _).
      rewrite E1 in E1'. injection E1' as -> _. rewrite Efl. subst p. by vm_compute.
Defined.
