(* ===== verification/DiskDriver.v ===== *)
(** The file system's view of the block driver: VirtIOBlockDevice::read of
    kernel/drivers/virtio/blk.cpp implements the interface [DiskLaws] the ext2 theorems
    are proved against.

    The driver needs its buffers in contiguous physical memory ([ContiguousHeap]). *)

From S2P Require Import Prelude Monad Memory Sv48 Machine Layout Stdio Heap KAlloc Allocator Client Dma LinearHeap Virtio VirtioDevice VirtioInit VirtioBlk Ext2.

(** Reads of the file system go to the driver object. *)
#[export] Instance block_driver `{Mmio} : BlockDevice := VirtIOBlockDevice_read.

Section driver.
Context `{A : Allocator} {DM : DeviceMemory A} {CH : ContiguousHeap A} {H : Mmio} (base : Z) (d : vdevice).
Context {VR : VirtioRegisters H base d} (disk : Z → Z) (capacity : Z) {VD : VirtioDisk H base d VR disk capacity}.
Context (Hdisk : ∀ x, 0 ≤ disk x < 256) (Hcap : 2 ^ 34 + 2 ^ 21 ≤ capacity).
Context (this q : Z).

(** The registers, the object and the queue. *)
Definition driver_memory (x : Z) : Prop := device_va x ∨ range this 24 x ∨ range q 6672 x.

Record driver_ready (s : kstate) : Prop := DriverReady {
  dr_live : ∃ seen, block_live base d this q seen s;
  dr_frontier : stable s frontier;
  dr_registers x : device_va x → stable s x
}.

(** The partition of the root file system begins at 1 MiB. *)
Definition partition (x : Z) : Z := disk (x + 512 * 2048).

Definition sectors (length : Z) : Z := 512 * (length / 512 + 1).
Definition driver_cost (length : Z) : Z := Z.max 0 (sectors length) + 568.

Lemma sectors_bounds length : 0 ≤ length → length < sectors length ≤ length + 512 ∧ 512 ≤ sectors length.
Proof using Type. intros Hl. unfold sectors. zlia. Qed.

Lemma live_keeps P s s' seen :
  keeps P s s' → (∀ x, driver_memory x → ¬ P x) → (∀ x, device_va x → stable s x) →
  block_live base d this q seen s → block_live base d this q seen s'.
Proof using Type.
  intros K HP Hdv [[Ho Hr Hc] Hq Hqo Hap Hs Hi (qd & qa & qu & Cd & Ca & Cu & Hv)].
  assert (∀ n va, (∀ x, range va (Z.of_nat n) x → owned s x ∧ driver_memory x) → vload n s' va = vload n s va) as Hl.
  { intros n va Hx. apply (vload_keeps n P s s' va K). intros x Hr'. destruct (Hx x Hr') as [H1 H2].
    split; [by apply owned_stable|by apply HP]. }
  assert (∀ x, range this 24 x → driver_memory x) as D1 by (unfold driver_memory; tauto).
  assert (∀ x, range q 6672 x → driver_memory x) as D2 by (unfold driver_memory; tauto).
  split.
  - split; [by apply (owned_range_keeps P s)|rewrite Hl; [done|]|rewrite Hl; [done|]];
      intros x Hx; (split; [apply Ho|apply D1]); unfold range in *; lia.
  - rewrite Hl; [done|]. intros x Hx. split; [apply Ho|apply D1]; unfold range in *; lia.
  - by apply (owned_range_keeps P s).
  - done.
  - done.
  - rewrite Hl; [done|]. intros x Hx. split; [apply Hqo|apply D2]; unfold range, avail_idx_offset, avail_offset in *; lia.
  - exists qd, qa, qu.
    assert (view (pmem s') = view (pmem s)) as ->.
    { apply view_window. intros a Ha. apply base_device in Ha.
      assert (device_va (a + VIRTUAL_OFFSET)) as Hd by (unfold device_va; by replace (a + VIRTUAL_OFFSET - VIRTUAL_OFFSET) with a by lia).
      pose proof (kp_byte _ _ _ K _ (Hdv _ Hd) (HP _ (or_introl Hd))) as E. unfold vbyte in E.
      rewrite !resolve_window in E by (unfold device_addr, WINDOW_SIZE in *; lia).
      by replace (a + VIRTUAL_OFFSET - VIRTUAL_OFFSET) with a in E by lia. }
    split_and!; [eapply contiguous_keeps; [exact K| |exact Cd]|eapply contiguous_keeps; [exact K| |exact Ca]|
      eapply contiguous_keeps; [exact K| |exact Cu]|done];
      intros x Hx; apply owned_stable, Hqo; unfold range, avail_offset, used_offset, USED_SIZE in *; lia.
Qed.

Lemma ready_keeps' P s s' :
  keeps P s s' → (∀ x, driver_memory x → ¬ P x) → driver_ready s → driver_ready s'.
Proof using Type.
  intros K HP [[seen BL] Hf Hd]. split.
  - exists seen. by apply (live_keeps P s).
  - by apply (kp_stable _ _ _ K).
  - intros x Hx. by apply (kp_stable _ _ _ K), Hd.
Qed.

Lemma ready_same s s' : same_mem s s' → driver_ready s → driver_ready s'.
Proof using Type.
  intros SM [[seen BL] Hf Hd].
  assert (∀ x, stable s' x ↔ stable s x) as Hst by (intros x; symmetry; by apply stable_proper).
  assert (∀ x, owned s' x ↔ owned s x) as How by (intros x; symmetry; by apply owned_proper).
  assert (∀ x, resolve s' x = resolve s x) as Hr by (intros x; symmetry; by apply resolve_proper).
  assert (∀ n va, vload n s' va = vload n s va) as Hl.
  { intros n va. apply vload_ext. intros i _. symmetry. by apply vbyte_proper. }
  assert (∀ p n pa, contiguous s p n pa → contiguous s' p n pa) as Hc.
  { intros p n pa C i Hi. rewrite Hr. by apply C. }
  split; [|by apply Hst|intros x Hx; by apply Hst, Hd].
  destruct BL as [[Ho Hrg Hcf] Hq Hqo Hap Hs Hi (qd & qa & qu & Cd & Ca & Cu & Hv)].
  exists seen. split; [split| | | | | |]; rewrite ?Hl; try done.
  - intros x Hx. by apply How, Ho.
  - intros x Hx. by apply How, Hqo.
  - exists qd, qa, qu. rewrite (sm_pmem _ _ SM). split_and!; [by apply Hc..|done].
Qed.

(** The sectors a read fetches, and the place of its first byte in them. *)
Lemma sector_arith offset length :
  0 ≤ offset → 0 ≤ length → offset + length ≤ 2 ^ 34 → offset mod 512 + length mod 512 ≤ 512 →
  let o := offset + 512 * 2048 in
  offset ⊞ 512 * 2048 = o ∧ u32 (o / 512) = o / 512 ∧ o mod 512 = offset mod 512 ∧
  512 * (o / 512) + sectors length ≤ capacity ∧ offset mod 512 + length ≤ sectors length ∧
  512 * (o / 512) + offset mod 512 = o.
Proof using Hcap.
  intros H1 H2 H3 H4 o. unfold o, sectors. clear o. change (2 ^ 34) with 0x400000000 in *. change (2 ^ 21) with 0x200000 in *.
  rewrite u64_small by lia. split_and!; [done|rewrite u32_small; zlia|zlia..].
Qed.

(** The buffer a read fetches its sectors into: what the request to the device needs. *)
Lemma temp_read_ok b s o temp length sector s1 seen :
  budget b s → driver_ready s → 0 ≤ length → sectors length + 568 ≤ b →
  kalloc (sectors length) s = Done temp s1 → budget (b - sectors length - 16) s1 → fresh (sectors length) temp s s1 →
  block_live base d this q seen s → 512 * u32 sector + sectors length ≤ capacity →
  VirtioBlk.read_ok capacity this q sector (sectors length) temp (emit o s1).
Proof using All.
  intros Hb [_ Hf Hd] Hl Hle E Hb1 Fr BL Hcap'. pose proof (sectors_bounds length Hl) as Hs.
  pose proof (budget_bounded b s Hb) as Hbd.
  assert (∀ p n, owned_range s p n → disjoint_range p n temp (sectors length)) as Hdis.
  { intros p n Ho x Hx Hx'. apply (fr_new _ _ _ _ Fr x Hx'). by apply owned_stable, Ho. }
  split.
  - split; [simpl in *; lia|]. unfold sectors. rewrite Z.mul_comm. by apply Z.mod_mul.
  - done.
  - intros x Hx. apply (owned_proper _ _ (same_mem_emit o s1) x x eq_refl). by apply (fr_owned _ _ _ _ Fr).
  - apply Hdis, BL.
  - apply Hdis, BL.
  - by apply (alloc_contiguous b (sectors length) s temp s1 Hb Hf ltac:(lia) ltac:(lia)).
  - intros p s' Ep. destruct (alloc_contiguous (b - sectors length - 16) 536 (emit o s1) p s') as [pa C].
    + by apply budget_emit.
    + apply (stable_proper _ _ (same_mem_emit o s1) _ _ eq_refl). by apply (kp_stable _ _ _ (fr_keeps _ _ _ _ Fr)).
    + lia.
    + lia.
    + done.
    + exists pa. intros i Hi. apply C. lia.
Qed.

Lemma driver_read_ok b s offset length buffer :
  budget b s → driver_ready s → 0 ≤ length → driver_cost length ≤ b → 0 ≤ offset →
  offset mod 512 + length mod 512 ≤ 512 → offset + length ≤ 2 ^ 34 →
  owned_range s buffer length → (∀ x, range buffer length x → ¬ driver_memory x) →
  wp (VirtIOBlockDevice_read this offset length buffer) (λ r s', r = 0 ∧ budget (b - driver_cost length) s' ∧
    driver_ready s' ∧ keeps (λ x, range buffer length x ∨ driver_memory x) s s' ∧
    ∀ i, 0 ≤ i < length → vbyte s' (buffer + i) = partition (offset + i)) s.
Proof using All.
  intros Hb DR Hl Hle Ho Hmod Hend Hown Hcl.
  destruct (sector_arith offset length Ho Hl Hend Hmod) as (E1 & E2 & E3 & E4 & E5 & E6).
  pose proof (sectors_bounds length Hl) as Hs. unfold driver_cost in *. pose proof (budget_bounded b s Hb) as Hbd.
  assert (0 ≤ offset mod 512 < sectors length) as Hm.
  { clear - Hs. pose proof (Z.mod_pos_bound offset 512 ltac:(lia)). lia. }
  unfold VirtIOBlockDevice_read. apply wp_bind, wp_log; [done|]. intros o1. cbv zeta. rewrite E1, E3.
  assert (u64 (512 * (length / 512 ⊞ 1)) = sectors length) as ->.
  { unfold sectors in *. change (2 ^ 31) with 0x80000000 in *. rewrite (u64_small (length / 512 + 1)), u64_small; zlia. }
  assert (u64 ((length / 512 ⊞ 1) * 512) = sectors length) as ->.
  { unfold sectors in *. change (2 ^ 31) with 0x80000000 in *. rewrite (u64_small (length / 512 + 1)), u64_small; zlia. }
  pose proof (budget_emit b o1 s Hb) as Hb0. pose proof (ready_same _ _ (same_mem_emit o1 s) DR) as DR0.
  pose proof (keeps_emit nowhere o1 s) as K0. set (s0 := emit o1 s) in *.
  destruct (kalloc_fresh b (sectors length) s0 Hb0) as (temp & s1 & E & Hb1 & Fr); [lia|lia|].
  eapply wp_bind_done; [exact E|]. apply wp_bind, wp_log; [done|]. intros o2.
  pose proof (fr_keeps _ _ _ _ Fr) as K1. pose proof (keeps_emit nowhere o2 s1) as K2.
  destruct (dr_live _ DR0) as [seen BL0].
  pose proof (temp_read_ok b s0 o2 temp length ((offset + 512 * 2048) / 512) s1 seen Hb0 DR0 Hl ltac:(lia) E Hb1 Fr BL0
    ltac:(by rewrite E2)) as RO.
  assert (block_live base d this q seen (emit o2 s1)) as BL2.
  { apply (live_keeps nowhere s0); [by apply (keeps_trans _ _ s1)|by intros ? ? []|apply DR0|done]. }
  assert (budget (b - sectors length - 16) (emit o2 s1)) as Hb2 by by apply budget_emit.
  assert (keeps nowhere s (emit o2 s1)) as K02 by (eapply keeps_trans; [exact K0|eapply keeps_trans; [exact K1|exact K2]]).
  assert (owned_range (emit o2 s1) temp (sectors length)) as Ht2 by apply RO.
  assert (∀ x, range temp (sectors length) x → ¬ stable s x) as Hnew.
  { intros x Hx Hst. apply (fr_new _ _ _ _ Fr x Hx). by apply (kp_stable _ _ _ K0). }
  set (s2 := emit o2 s1) in *.
  apply wp_bind, (wp_read_blocks base d disk capacity (b - sectors length - 16) s2 this q seen); [done|lia|done|done|].
  intros s3 [Hb3 BL3 K3 V3]. change (0 <? 0) with false. cbv iota.
  pose proof (owned_range_keeps _ _ _ _ _ K3 Ht2) as Ht3. pose proof (owned_range_keeps _ _ _ _ _ K3 (owned_range_keeps _ _ _ _ _ K02 Hown)) as Hown3.
  rewrite (owned_range_add s3 temp (sectors length)) by ((apply (budget_0 _ _ Hb3); clear - Hle Hs; lia) || exact Ht3 || (clear - Hm; lia)).
  apply wp_bind, (wp_memcpy (b - sectors length - 16 - 552)); [done|lia|simpl in *; lia|exact Hown3| |].
  { intros x Hx. assert (range temp (sectors length) x) as Hx' by (unfold range in *; lia).
    split; [by apply owned_stable, Ht3|]. intros Hxb. by apply (Hnew x Hx'), owned_stable, Hown. }
  intros s4 Hb4 K4 _ _ V4. apply wp_ret.
  assert (keeps (λ x, range buffer length x ∨ driver_memory x) s s4) as K.
  { apply (keeps_comp (λ x, range temp (sectors length) x ∨ driver_memory x) (range buffer length) _ s s3 s4).
    - apply (keeps_comp nowhere _ _ s s2 s3 K02 K3). unfold read_mem, driver_memory. intros x _ [[]|Hx]. tauto.
    - exact K4.
    - intros x Hx [[Hx'|Hx']|Hx']; [by destruct (Hnew x Hx')|by right|by left]. }
  split; [done|]. split; [by replace (b - (Z.max 0 (sectors length) + 568)) with (b - sectors length - 16 - 552) by lia|].
  split; [|split; [done|]].
  - split.
    + exists (u16 (seen + 1)). apply (live_keeps (range buffer length) s3); [done|by intros x Hx Hx'; apply (Hcl x)| |done].
      intros x Hx. apply (kp_stable _ _ _ K3), (kp_stable _ _ _ K02), DR, Hx.
    + apply (kp_stable _ _ _ K), DR.
    + intros x Hx. apply (kp_stable _ _ _ K), DR, Hx.
  - intros i Hi. rewrite V4 by done. rewrite <- Z.add_assoc, V3 by lia. unfold partition. rewrite E2. f_equal. lia.
Qed.

(** C14: read of the block device returns 0 with the bytes of the partition in the
    caller's buffer: the sectors around them are fetched into a temporary block and the
    wanted bytes copied out of it.  This is so as long as the bytes asked for end within
    the length / 512 + 1 sectors that are fetched (the condition on the remainders) and
    below 2^34 bytes.  Of the memory in use only the buffer, the driver's
    own object, its queue and the device registers change, and the driver can serve the
    next read. *)
Theorem virtio_read_correct b s offset length buffer :
  budget b s → driver_ready s → 0 ≤ length → driver_cost length ≤ b → 0 ≤ offset →
  offset mod 512 + length mod 512 ≤ 512 → offset + length ≤ 2 ^ 34 →
  owned_range s buffer length → (∀ x, range buffer length x → ¬ driver_memory x) →
  ∃ s', VirtIOBlockDevice_read this offset length buffer s = Done 0 s' ∧
    budget (b - driver_cost length) s' ∧ driver_ready s' ∧
    keeps (λ x, range buffer length x ∨ driver_memory x) s s' ∧
    ∀ i, 0 ≤ i < length → vbyte s' (buffer + i) = partition (offset + i).
Proof using All.
  intros Hb DR Hl Hle Ho Hmod Hend Hown Hcl.
  destruct (wp_inv _ _ _ (driver_read_ok b s offset length buffer Hb DR Hl Hle Ho Hmod Hend Hown Hcl))
    as (r & s' & E & -> & H'). by exists s'.
Qed.

(** The interface of the file system. *)
Program Definition driver_laws : DiskLaws partition this := {|
  driver := driver_memory; ready := driver_ready; read_cost := driver_cost
|}.
Next Obligation. intros n. unfold driver_cost. lia. Qed.
Next Obligation. intros x. apply Hdisk. Qed.
Next Obligation.
  intros s x [[seen BL] _ Hd] [Hx|[Hx|Hx]]; [by apply Hd| |].
  - apply owned_stable. by apply (bo_owned _ _ _ (bl_object _ _ _ _ _ _ BL)).
  - apply owned_stable. by apply (bl_owned _ _ _ _ _ _ BL).
Qed.
Next Obligation. intros P s s'. apply ready_keeps'. Qed.
Next Obligation. intros v s. by apply ready_same. Qed.
Next Obligation.
  intros b s offset length buffer Hb DR Hl Hle Ho Hmod Hend Hown Hcl.
  destruct (wp_inv _ _ _ (driver_read_ok b s offset length buffer Hb DR Hl Hle Ho Hmod Hend Hown Hcl)) as (r & s' & E & _ & H').
  by exists r, s'.
Qed.
End driver.
