(* ===== verification/Console.v ===== *)
(** The serial output only grows: no part of the kernel takes back what it printed; no
    part but read takes input, and no part but the scheduler creates the scheduler.

    [Prints m] is a frame condition on the code itself, proved by its structure; the
    theorems about what a part prints use it to put the pieces one behind the other. *)

From S2P Require Import Prelude Monad Memory Sv48 Machine Layout Stdio PhysAlloc Paging Heap KAlloc Allocator Client Virtio Ext2 Ext2Walk Ext2Mount Ext2Files Process Loader Vfs Syscall Tlibc.

Definition final {A} (r : outcome kstate A) : kstate :=
  match r with Done _ s | Fault _ s => s end.

(** More output, the same input, and still no scheduler if there was none. *)
Definition grows (s s' : kstate) : Prop :=
  console_more s s' ∧ created (vars s') = created (vars s).

#[export] Instance grows_refl : Reflexive grows.
Proof. by intros s. Qed.
#[export] Instance grows_trans : Transitive grows.
Proof. intros s1 s2 s3 [M1 C1] [M2 C2]. split; [by etrans|congruence]. Qed.

Lemma grows_same s s' :
  console_out s' = console_out s → console_in s' = console_in s → created (vars s') = created (vars s) → grows s s'.
Proof. intros E I C. split; [|done]. split; [done|]. exists []. by rewrite app_nil_r. Qed.

Class Prints {A} (m : K A) : Prop := prints_grows s : grows s (final (m s)).

(** A run that ends, with what it leaves of the output. *)
Lemma prints_wp {A} (m : K A) `{!Prints m} (Q : A → kstate → Prop) s :
  wp m (λ a s', grows s s' → Q a s') s → wp m Q s.
Proof. pose proof (prints_grows (m := m) s) as H. unfold wp. destruct (m s); cbn in *; auto. Qed.

Section rules.
#[export] Instance prints_ret {A} (a : A) : Prints (mret a).
Proof. intros s. done. Qed.
#[export] Instance prints_fail {A} f : Prints (fail f : K A).
Proof. intros s. done. Qed.
#[export] Instance prints_gets {A} (f : kstate → A) : Prints (gets f).
Proof. intros s. done. Qed.
Lemma prints_modify f : (∀ s, grows s (f s)) → Prints (modify f).
Proof. intros H s. apply H. Qed.
#[export] Instance prints_bind {A B} (m : K A) (f : A → K B) :
  Prints m → (∀ a, Prints (f a)) → Prints (m ≫= f).
Proof.
  intros Hm Hf s. pose proof (Hm s) as H. unfold mbind, M_bind. destruct (m s) as [a s'|e s']; [|done].
  etrans; [exact H|apply Hf].
Qed.
#[export] Instance prints_iterate {A B} n (body : A → K (A + B)) a :
  (∀ a, Prints (body a)) → Prints (iterate n body a).
Proof. intros H. revert a. induction n as [|n IH]; intros a; [apply H|]. cbn. apply prints_bind; [apply IH|]. intros []; apply _. Qed.
#[export] Instance prints_loop {A B} (body : A → K (A + B)) a : (∀ a, Prints (body a)) → Prints (loop body a).
Proof. intros H. apply prints_bind; [by apply prints_iterate|]. intros []; apply _. Qed.
#[export] Instance prints_for_each {A} (l : list A) body : (∀ a, Prints (body a)) → Prints (for_each l body).
Proof. intros H. induction l as [|a l IH]; [apply _|]. cbn. apply _. Qed.
#[export] Instance prints_load8 va : Prints (load8 va).
Proof. intros s. unfold load8. by destruct (resolve s va). Qed.
#[export] Instance prints_store8 va b : Prints (store8 va b).
Proof. intros s. unfold store8. destruct (resolve s va); [by apply grows_same|done]. Qed.
#[export] Instance prints_loadv n va : Prints (loadv n va).
Proof. revert va. induction n as [|n IH]; intros va; cbn [loadv]; apply _. Qed.
#[export] Instance prints_storev n va v : Prints (storev n va v).
Proof. revert va v. induction n as [|n IH]; intros va v; cbn [storev]; apply _. Qed.
#[export] Instance prints_put c : Prints (console_put c).
Proof. apply prints_modify. intros s. split; [apply console_more_emit|done]. Qed.
End rules.

#[local] Hint Constants Opaque : typeclass_instances.

(** Statics and memory are not output. *)
Ltac prints_step :=
  match goal with
  | |- ∀ _, _ => intro
  | |- Prints (modify _) => apply prints_modify; intros ?; apply grows_same; reflexivity
  | |- Prints (match ?x with _ => _ end) => destruct x
  | |- Prints (let _ := _ in _) => cbv zeta
  | |- Prints (_ ≫= _) => apply prints_bind
  | |- Prints (loop _ _) => apply prints_loop
  | |- Prints (for_each _ _) => apply prints_for_each
  | |- Prints _ => apply _
  | |- Prints ?t => let rec head f := lazymatch f with ?g _ => head g | _ => f end in let h := head t in unfold h
  end.
Ltac prints := repeat prints_step.

#[export] Instance prints_vprintf fmt args : Prints (vprintf fmt args).
Proof.
  assert (∀ n fmt args, (length fmt ≤ n)%nat → Prints (vprintf fmt args)) as H; [|by apply (H (length fmt))].
  clear. induction n as [|n IH]; intros [|c fmt1] args Hn; cbn [length] in Hn; try lia; [exact (prints_ret ())..|].
  assert (∀ a, Prints (vprintf fmt1 a)) as H1 by (intros; apply IH; lia).
  cbn [vprintf]. destruct (_ =? _); [|prints]. destruct fmt1 as [|d fmt2]; [exact (prints_ret ())|].
  assert (∀ a, Prints (vprintf fmt2 a)) as H2 by (intros; apply IH; cbn [length] in Hn; lia).
  prints.
Qed.
#[export] Instance prints_printf fmt args : Prints (printf fmt args).
Proof. apply prints_vprintf. Qed.
#[export] Instance prints_log level fmt args : Prints (log level fmt args).
Proof. prints. Qed.
#[export] Instance prints_kalloc_frame : Prints kalloc_frame.
Proof. prints. Qed.
#[export] Instance prints_map_page va pa flags : Prints (map_page va pa flags).
Proof. prints. Qed.
#[export] Instance prints_kalloc n : Prints (kalloc n).
Proof. prints. Qed.
#[export] Instance prints_walk va : Prints (get_physical_address_of_virtual_address va).
Proof. prints. Qed.
#[export] Instance prints_physical_init `{Layout} : Prints physical_allocator_init.
Proof. prints. Qed.
#[export] Instance prints_paging_init : Prints paging_init.
Proof. prints. Qed.
#[export] Instance prints_virtual_init : Prints virtual_allocator_init.
Proof. prints. Qed.
#[export] Instance prints_strlen p : Prints (strlen_loop p).
Proof. prints. Qed.
#[export] Instance prints_memcpy a b n : Prints (memcpy a b n).
Proof. prints. Qed.

Section disk.
Context `{D : BlockDevice} (HD : ∀ d o l b, Prints (block_read d o l b)).
#[local] Existing Instance HD.
#[export] Instance prints_EXT2_ctor this d : Prints (EXT2_ctor this d).
Proof using HD. prints. Qed.
#[export] Instance prints_root_inode this d : Prints (EXT2_get_root_inode this d).
Proof using HD. prints. Qed.
#[export] Instance prints_in_dir this d n : Prints (EXT2_get_inode_in_dir this d n).
Proof using HD. prints. Qed.
#[export] Instance prints_from_dir this d n : Prints (EXT2_get_inode_from_dir this d n).
Proof using HD. prints. Qed.
#[export] Instance prints_read_file p n d : Prints (read_file p n d).
Proof using HD. prints. Qed.
#[export] Instance prints_file_size p : Prints (get_file_size p).
Proof using HD. prints. Qed.
#[export] Instance prints_open_file this p : Prints (VFS_open_file this p).
Proof using HD. prints. Qed.
#[export] Instance prints_sys_open params : Prints (sys_open params).
Proof using HD. prints. Qed.

(** The system call open. *)
Lemma prints_open_call params : a7 params = 2 → Prints (handle_syscall params).
Proof using HD. intros E. unfold handle_syscall. rewrite E. apply prints_bind; [apply _|]. intros _. change (Prints (sys_open params)). apply _. Qed.
End disk.

Section machine.
Context `{Mmio}.
#[export] Instance prints_mmio_read n va : Prints (mmio_read n va).
Proof.
  intros s. unfold mmio_read. destruct (resolve s va); [|done]. destruct (mmio_load _ _ _). by apply grows_same.
Qed.
#[export] Instance prints_mmio_write n va v : Prints (mmio_write n va v).
Proof. intros s. unfold mmio_write. destruct (resolve s va); [by apply grows_same|done]. Qed.
#[export] Instance prints_turn : Prints device_turn.
Proof. prints. Qed.
#[export] Instance prints_negotiate r e : Prints (virtio_negotiate r e).
Proof. prints. Qed.
#[export] Instance prints_setup_queue r i s u e : Prints (virtio_setup_queue r i s u e).
Proof. prints. Qed.
#[export] Instance prints_blk_init this : Prints (VirtIOBlockDevice_init this).
Proof. prints. Qed.
#[export] Instance prints_blk_read this o l b : Prints (VirtIOBlockDevice_read this o l b).
Proof. prints. Qed.
#[export] Instance prints_get_block_device : Prints get_block_device.
Proof. prints. Qed.
End machine.

#[export] Instance prints_initialize `{UserProgram} a2 : Prints (initialize_standard_library a2).
Proof. prints. Qed.

(** * Code that prints nothing *)

Class Silent {A} (m : K A) : Prop := silent s : console_out (final (m s)) = console_out s.

Lemma silent_wp {A} (m : K A) `{!Silent m} (Q : A → kstate → Prop) s :
  wp m (λ a s', console_out s' = console_out s → Q a s') s → wp m Q s.
Proof. pose proof (silent (m := m) s) as H. unfold wp. destruct (m s); cbn in *; auto. Qed.

Section silent.
#[export] Instance silent_ret {A} (a : A) : Silent (mret a).
Proof. intros s. done. Qed.
#[export] Instance silent_fail {A} f : Silent (fail f : K A).
Proof. intros s. done. Qed.
#[export] Instance silent_bind {A B} (m : K A) (f : A → K B) : Silent m → (∀ a, Silent (f a)) → Silent (m ≫= f).
Proof.
  intros Hm Hf s. pose proof (Hm s) as H. unfold mbind, M_bind. destruct (m s) as [a s'|e s']; [|done].
  by etrans; [apply Hf|].
Qed.
#[export] Instance silent_iterate {A B} n (body : A → K (A + B)) a :
  (∀ a, Silent (body a)) → Silent (iterate n body a).
Proof. intros H. revert a. induction n as [|n IH]; intros a; [apply H|]. cbn. apply silent_bind; [apply IH|]. intros []; apply _. Qed.
#[export] Instance silent_loop {A B} (body : A → K (A + B)) a : (∀ a, Silent (body a)) → Silent (loop body a).
Proof. intros H. apply silent_bind; [by apply silent_iterate|]. intros []; apply _. Qed.
#[export] Instance silent_loadv n va : Silent (loadv n va).
Proof.
  revert va. induction n as [|n IH]; intros va; cbn [loadv]; [apply _|].
  apply silent_bind; [|intros; apply _]. intros s. unfold load8. by destruct (resolve s va).
Qed.
#[export] Instance silent_storev n va v : Silent (storev n va v).
Proof.
  revert va v. induction n as [|n IH]; intros va v; cbn [storev]; [apply _|].
  apply silent_bind; [|intros; apply _]. intros s. unfold store8. by destruct (resolve s va).
Qed.
End silent.

Ltac silent_step :=
  match goal with
  | |- ∀ _, _ => intro
  | |- Silent (match ?x with _ => _ end) => destruct x
  | |- Silent (let _ := _ in _) => cbv zeta
  | |- Silent (_ ≫= _) => apply silent_bind
  | |- Silent (loop _ _) => apply silent_loop
  | |- Silent _ => apply _
  | |- Silent ?t => let rec head f := lazymatch f with ?g _ => head g | _ => f end in let h := head t in unfold h
  end.

#[export] Instance silent_malloc `{UserProgram} n : Silent (malloc n).
Proof. repeat silent_step. Qed.
#[export] Instance silent_initialize `{UserProgram} a2 : Silent (initialize_standard_library a2).
Proof. repeat silent_step. Qed.
