(* ===== verification/ShellRun.v ===== *)
(** The shell from its first instruction: the program of tlibc/crt0.s,
    userspace/shell/shell.c and builtins.c, over the C library.  Behind the trap entry of
    this code it stops at its first system call ([trap_path]); in an environment that
    serves its calls ([ServedCalls]) and a session (System.v) it runs to its last loop.

    [shell_state] is what holds between two statements of main; each statement preserves
    it and prints its text.  A text may be split from the next one by log lines of the
    kernel: [in_order]. *)

From S2P Require Import Prelude Monad Memory Sv48 Machine Layout Samples Stdio PhysAlloc Paging AddressSpace BootTables Heap KAlloc Allocator Client Dma UserSpace Process Ext2 Ext2Walk Ext2Mount Ext2Files Loader Programs ProgramsSample Vfs Syscall Exception TrapEntry System Tlibc TlibcSample Shell Console.

(** * Output in order *)

Inductive in_order : list (list Z) → list Z → Prop :=
  | io_nil o : in_order [] o
  | io_cons o t ts out : in_order ts out → in_order (t :: ts) (o ++ t ++ out).

Lemma in_order_before o ts out : in_order ts out → in_order ts (o ++ out).
Proof. destruct 1; [constructor|]. rewrite app_assoc. by constructor. Qed.

Lemma in_order_app ts1 ts2 o1 o2 : in_order ts1 o1 → in_order ts2 o2 → in_order (ts1 ++ ts2) (o1 ++ o2).
Proof.
  induction 1 as [o|o t ts out _ IH]; intros H2; [by apply in_order_before|].
  cbn [app]. rewrite <- !app_assoc. by constructor; apply IH.
Qed.

(** From [s] to [s'] the texts [ts] were printed. *)
Definition shown (ts : list (list Z)) (s s' : kstate) : Prop :=
  ∃ out, console_out s' = console_out s ++ out ∧ in_order ts out.

Lemma shown_trans ts1 ts2 s1 s2 s3 : shown ts1 s1 s2 → shown ts2 s2 s3 → shown (ts1 ++ ts2) s1 s3.
Proof.
  intros (o1 & E1 & H1) (o2 & E2 & H2). exists (o1 ++ o2). split; [by rewrite E2, E1, app_assoc|by apply in_order_app].
Qed.
Lemma shown_nothing s s' : console_more s s' → shown [] s s'.
Proof. intros [_ [o E]]. exists o. split; [done|constructor]. Qed.
Lemma shown_text s s' o t : console_out s' = console_out s ++ o ++ t → shown [t] s s'.
Proof.
  intros E. exists (o ++ t ++ []). split; [by rewrite app_nil_r|]. constructor. constructor.
Qed.

(** * A run that never returns *)

Definition spins {S A} (m : M S A) (Q : S → Prop) (s : S) : Prop := ∃ s', m s = Fault NeverReturns s' ∧ Q s'.

Lemma spins_bind {S A B} (m : M S A) (f : A → M S B) (Q : S → Prop) s :
  wp m (λ a s', spins (f a) Q s') s → spins (m ≫= f) Q s.
Proof.
  intros W. destruct (wp_inv _ _ _ W) as (a & s1 & E & s' & E' & HQ). exists s'. split; [|done].
  by rewrite (bind_done _ _ _ _ _ E).
Qed.
Lemma spins_spin {S A} (Q : S → Prop) (s : S) : Q s → spins (fail NeverReturns : M S A) Q s.
Proof. intros HQ. by exists s. Qed.

(** * Steps of a program *)

Section effects.
Context `{A : Allocator}.

(** Memory changes in [P] only, of the kernel's statics at most sstatus. *)
Record effect (P : Z → Prop) (s s' : kstate) : Prop := Effect {
  ef_keeps : keeps P (set_vars (vars s') s) s';
  ef_vars : ∃ x, vars s' = set_sstatus x (vars s)
}.

Lemma effect_keeps P s s' : keeps P s s' → effect P s s'.
Proof.
  intros K. pose proof (kp_vars _ _ _ K) as V. split.
  - rewrite V. by destruct s.
  - exists (sstatus (vars s)). rewrite V. by destruct (vars s).
Qed.

(** A system call that changes [P]. *)
Lemma effect_call P s s' : keeps P s s' → effect P s (in_user_mode s').
Proof.
  intros K. split; [by apply keeps_vars|]. eexists. cbn. by rewrite (kp_vars _ _ _ K).
Qed.

Lemma effect_return P s s' :
  keeps P (set_vars (vars s') s) s' → vars s' = vars (in_user_mode s) → effect P s s'.
Proof. intros K V. split; [done|]. exists (Z.land (sstatus (vars s)) (u64 (Z.lnot (Z.shiftl 1 8)))). exact V. Qed.

Lemma effect_trans P s1 s2 s3 : effect P s1 s2 → effect P s2 s3 → effect P s1 s3.
Proof.
  intros [K1 [x1 V1]] [K2 [x2 V2]]. split.
  - eapply keeps_trans; [exact (keeps_vars P (vars s3) _ _ K1)|exact K2].
  - exists x2. by rewrite V2, V1.
Qed.

Lemma effect_mono (P Q : Z → Prop) s s' : (∀ x, P x → Q x) → effect P s s' → effect Q s s'.
Proof. intros H [K V]. split; [by apply (keeps_mono P)|done]. Qed.

Lemma effect_cstr P s s' p l :
  effect P s s' → cstr s p l → (∀ x, range p (Z.of_nat (length l) + 1) x → ¬ P x) → cstr s' p l.
Proof. intros [K _] C HP. apply (cstr_keeps P (set_vars (vars s') s)); [done|by apply cstr_vars|done]. Qed.

Lemma effect_owned P s s' p n : effect P s s' → owned_range s p n → owned_range s' p n.
Proof.
  intros [K _] O x Hx. apply (kp_owned _ _ _ K). rewrite <- (owned_proper s _ (same_mem_vars _ s) x x eq_refl). by apply O.
Qed.

Lemma effect_byte P s s' x : effect P s s' → stable s x → ¬ P x → vbyte s' x = vbyte s x.
Proof.
  intros [K _] Hs HP. rewrite (kp_byte _ _ _ K); [symmetry; by apply vbyte_proper| |done].
  by rewrite <- (stable_proper s _ (same_mem_vars _ s) x x eq_refl).
Qed.

Lemma effect_vload n P s s' p :
  effect P s s' → (∀ x, range p (Z.of_nat n) x → stable s x ∧ ¬ P x) → vload n s' p = vload n s p.
Proof. intros E H. apply vload_ext. intros i Hi. apply (effect_byte P); [done|apply H..]; unfold range; lia. Qed.
End effects.

(** * The texts of the shell *)

Definition fd_format : list Z := chars "got file descriptor: %i" ++ newline.
Definition fd_text (fd : Z) : list Z := default [] (render (λ _, None) fd_format [fd]).

Lemma fd_text_spec fd : render (λ _, None) fd_format [fd] = Some (fd_text fd) ∧ (length (fd_text fd) ≤ 64)%nat.
Proof.
  destruct (dec_digits_total (s32 fd) (proj2 (s32_range fd))) as ([i l] & E).
  pose proof (dec_digits_length _ _ _ _ _ E) as Hl. cbn [length] in Hl.
  assert (render (λ _, None) fd_format [fd] =
    Some (map to_char (chars "got file descriptor: ") ++ (to_char (i + 48) :: map to_char l) ++ newline)) as Er.
  { change fd_format with (chars "got file descriptor: " ++ [c_percent; c_i] ++ newline).
    apply render_prefix; [apply (bool_decide_unpack _); by vm_compute|].
    cbn [app render]. rewrite Z.eqb_refl. change ((c_i =? c_d) || (c_i =? c_i)) with true. cbv iota. by rewrite E. }
  unfold fd_text. rewrite Er. split; [done|]. unfold default, from_option, id.
  rewrite !length_app, length_map. cbn [length]. rewrite length_map.
  change (length (chars "got file descriptor: ")) with 21%nat. change (length newline) with 1%nat. lia.
Qed.

(** A line in the middle of a text. *)
Definition input_format : list Z := chars "got input in userspace: %s" ++ newline.
Definition input_text (line : list Z) : list Z := chars "got input in userspace: " ++ line ++ newline.

Lemma input_text_render str p line :
  str p = Some line → map to_char line = line → render str input_format [p] = Some (input_text line).
Proof.
  intros Hs Hl. change input_format with (chars "got input in userspace: " ++ [c_percent; c_s] ++ newline).
  change (input_text line) with (map to_char (chars "got input in userspace: ") ++ line ++ newline).
  apply render_prefix; [apply (bool_decide_unpack _); by vm_compute|].
  cbn [app render]. rewrite Z.eqb_refl.
  change (c_s =? c_d) with false. change (c_s =? c_i) with false. change (c_s =? c_x) with false.
  change (c_s =? c_s) with true. cbn [orb]. cbv iota. rewrite Hs. cbn. by rewrite Hl.
Qed.

Lemma input_text_plain line : Forall (λ c, c ≠ 0) line → until_nul (input_text line) = input_text line.
Proof.
  intros H. apply until_nul_plain. unfold input_text. rewrite !Forall_app. split_and!; [|done|];
    apply (bool_decide_unpack _); by vm_compute.
Qed.

Lemma compare_zero l k : (compare_strings l k =? 0) = bool_decide (l = k).
Proof.
  destruct (compare_strings_cases l k) as [[-> ->]|[[-> H]|[-> H]]]; [by rewrite bool_decide_true|..];
    (rewrite bool_decide_false; [done|]); intros ->; by apply compare_strings_precedes in H as [H1 H2]; rewrite H1 in H2.
Qed.

(** * The program in a session *)

Section shell.
Context `{A : Allocator} `{U : UserProgram} `{D : BlockDevice} `{SC : !ServedCalls Env} (disk : Z → Z) (device : Z) {DL : DiskLaws disk device}.
Context (HD : ∀ d o l b, Prints (block_read d o l b)).
Context (F : Z → Prop) (fs : Z) (g : geometry) (GO : geometry_ok g) (vfs : Z).
Context (scheduler process path text : Z) (cwd : list Z) (user : Z → Prop).
Context (AP : apart disk device F vfs scheduler process path text cwd user).
(** The heap page, and the three string literals of the program. *)
Context (heap home lit_pwd lit_ls : Z) (leading trailing : bool) (names : list (list Z)) (r : option Z).
Context (Hne : names ≠ []) (HN : Forall component names) (Hr : lookup_names disk g (root_inode g) names = Some r).
Context (LA : library_apart heap) (Hheap : 0 ≤ heap < 2 ^ 64).
Context (LV : disjoint_range init_heap_start 8 heap 4096 ∧ disjoint_range malloc_heap_start 8 heap 4096).

Abbreviation Session := (session disk device F fs g vfs scheduler process path text cwd user).
Abbreviation home_text := (path_text leading trailing names).

(** What the program writes, and what changes during its system calls. *)
Definition program_memory (x : Z) : Prop :=
  range init_heap_start 8 x ∨ range malloc_heap_start 8 x ∨ range first_item 8 x ∨ range printf_buffer 8 x ∨
  range heap 4096 x.
Definition literal (x : Z) : Prop :=
  range home (Z.of_nat (length home_text) + 1) x ∨ range lit_pwd 4 x ∨ range lit_ls 3 x.
Context (PM : ∀ x, program_memory x → user x).
Context (LIT : ∀ x, literal x → ¬ program_memory x ∧ ¬ driver x ∧ ¬ counter_of vfs x).

(** printf's buffer, the line of main, malloc's next item, and the block of pwd. *)
Definition print_buffer : Z := heap + 32.
Definition line_buffer : Z := heap + 264.
Definition next_item : Z := heap + 284.
Definition item_size : Z := (MAGIC_STRING - (20 + 32)) mod 2 ^ 64.

(** Memory that is still zero behind malloc's next item. *)
Definition fresh_block (s : kstate) : Prop := ∀ x, range (next_item + 32) 40 x → vbyte s x = 0.

Record literals_ok (s : kstate) : Prop := LiteralsOk {
  li_home : cstr s home home_text;
  li_pwd : cstr s lit_pwd (chars "pwd");
  li_ls : cstr s lit_ls (chars "ls")
}.

(** Between two statements of main, with [b] bytes of the kernel's heap left. *)
Record shell_state (b : Z) (s : kstate) : Prop := ShellState {
  ss_session : Session b s;
  ss_printf : printf_ready print_buffer s;
  ss_arena : arena s next_item item_size;
  ss_fresh : fresh_block s;
  ss_literals : literals_ok s
}.

(** What the statements change: printf's buffer, the line, and in the kernel the driver's
    memory and the counter of descriptors. *)
Definition quiet (x : Z) : Prop :=
  range print_buffer 200 x ∨ range line_buffer 20 x ∨ driver x ∨ counter_of vfs x.

Lemma user_owned b s x : Session b s → program_memory x → owned s x.
Proof using PM. intros SE Hx. by apply (se_user _ _ _ _ _ _ _ _ _ _ _ _ _ _ SE), PM. Qed.

Lemma user_apart x : program_memory x → ¬ driver x ∧ ¬ counter_of vfs x.
Proof using AP PM.
  intros Hx. destruct (ap_user _ _ _ _ _ _ _ _ _ _ AP x (PM x Hx)) as (_ & Hd & Hv & _). split; [done|].
  intros Hc. apply Hv. unfold counter_of, range, sizeof_VFS in *. lia.
Qed.

Lemma page_program n i x : range (heap + i) n x → 0 ≤ i → i + n ≤ 4096 → program_memory x.
Proof. intros Hx Hi Hn. do 4 right. unfold range in *. lia. Qed.

(** No statement changes the library's variables. *)
Lemma quiet_variables x : quiet x → ¬ range first_item 8 x ∧ ¬ range printf_buffer 8 x.
Proof using AP PM LA.
  intros Hq. split; intros Hx.
  - assert (program_memory x) as Hp by (right; right; by left). destruct (user_apart x Hp) as [H1 H2].
    destruct Hq as [Hq|[Hq|[Hq|Hq]]]; try done; apply (la_first_page _ LA x Hx);
      unfold print_buffer, line_buffer, range in *; lia.
  - assert (program_memory x) as Hp by (right; right; right; by left). destruct (user_apart x Hp) as [H1 H2].
    destruct Hq as [Hq|[Hq|[Hq|Hq]]]; try done; apply (la_buffer_page _ LA x Hx);
      unfold print_buffer, line_buffer, range in *; lia.
Qed.

Lemma quiet_page i n x : range (heap + i) n x → 0 ≤ i → 284 ≤ i → i + n ≤ 4096 → ¬ quiet x.
Proof using AP PM.
  intros Hx Hi Hi' Hn Hq. destruct (user_apart x (page_program n i x Hx Hi Hn)) as [H1 H2].
  destruct Hq as [Hq|[Hq|[Hq|Hq]]]; try done; unfold print_buffer, line_buffer, range in *; lia.
Qed.

Lemma quiet_literal x : literal x → ¬ quiet x.
Proof using LIT.
  intros Hx Hq. destruct (LIT x Hx) as (H1 & H2 & H3).
  destruct Hq as [Hq|[Hq|[Hq|Hq]]]; try done; apply H1;
    [apply (page_program 200 32 x)|apply (page_program 20 264 x)]; done.
Qed.

Lemma literals_effect P s s' :
  effect P s s' → (∀ x, P x → ¬ literal x) → literals_ok s → literals_ok s'.
Proof.
  intros E HP [H1 H2 H3]. split; (apply (effect_cstr P s); [done..|]); intros x Hx Hp; apply (HP x Hp).
  - by left.
  - right; left. exact Hx.
  - right; right. exact Hx.
Qed.

(** The session goes on when the kernel's own memory is kept. *)
Lemma session_effect P b b' s s' :
  Session b s → effect P s s' → (∀ x, P x → user x) → budget b' s' → 0 ≤ b' → Session b' s'.
Proof using GO AP.
  intros SE [K [w V]] HP Hb Hb0. apply (session_keeps disk device F fs g GO vfs scheduler process path text cwd user AP P b b'
    (set_vars (set_sstatus w (vars s)) s)); try done; [by apply session_sstatus|]. by rewrite <- V.
Qed.

Lemma shell_frame P b b' s s' :
  shell_state b s → effect P s s' → (∀ x, P x → quiet x) → Session b' s' → shell_state b' s'.
Proof using AP PM LA LIT.
  intros [SE PR AR FR LI] E HP SE'. pose proof E as [K _]. split; [done| | | |].
  - apply (printf_ready_keeps _ P (vars s') s); [done|apply PR| |done]. intros x Hx Hp. by destruct (quiet_variables x (HP x Hp)).
  - split.
    + by apply (effect_owned P s), AR.
    + rewrite <- (ar_first _ _ _ AR). apply (effect_vload 8 P); [done|]. intros x Hx. split; [by apply owned_stable, AR|].
      intros Hp. by destruct (quiet_variables x (HP x Hp)).
    + rewrite <- (ar_size _ _ _ AR). apply (effect_vload 8 P); [done|]. intros x Hx. split.
      * by apply owned_stable, (user_owned b), (page_program 8 284).
      * intros Hp. by apply (quiet_page 284 8 x Hx), HP.
  - intros x Hx. rewrite (effect_byte P s s'); [by apply FR|done| |].
    + apply owned_stable, (user_owned b); [done|]. by apply (page_program 40 316); unfold next_item, range in *; lia.
    + intros Hp. apply (quiet_page 316 40 x); [unfold next_item, range in *; lia|lia..|]. by apply HP.
  - apply (literals_effect P s); [done| |done]. intros x Hp Hx. by apply (quiet_literal x Hx), HP.
Qed.
(** ** The statements *)

Lemma wp_say b s str fmt args out (Q : Z → kstate → Prop) :
  shell_state b s → Z.of_nat (length out) + 17 ≤ b → strings_apart s print_buffer str →
  render str fmt args = Some out → Z.of_nat (length out) ≤ 200 →
  (∀ s', shell_state (b - Z.of_nat (length out) - 17) s' → effect (range print_buffer 200) s s' → shown [until_nul out] s s' →
     console_in s' = console_in s → Q 0 s') →
  wp (user_printf fmt args) Q s.
Proof using GO AP PM LA LIT SC.
  intros SS Hle ST Er Hl HQ. pose proof (ss_session _ _ SS) as SE.
  apply (wp_user_printf b s print_buffer str fmt args out); try done; [apply SE|apply SS|].
  intros s' [B' _ I' [o O'] K' V']. pose proof (effect_return _ _ _ K' V') as E.
  assert (effect quiet s s') as Eq by (apply (effect_mono _ _ _ _ (λ x Hx, or_introl Hx) E)).
  apply HQ; [|done|by apply (shown_text s s' o)|done].
  apply (shell_frame quiet b _ s); [done|done|done|]. apply (session_effect (range print_buffer 200) b _ s); try done; [|lia].
  intros x Hx. by apply PM, (page_program 200 32).
Qed.

(** open, whose result is what the kernel has left in a0. *)
Lemma wp_user_open b s (Q : Z → kstate → Prop) :
  shell_state b s → open_cost disk device g names ≤ b →
  (∀ s', shell_state (b - open_cost disk device g names) s' → console_more s s' → Q (s32 left_in_a0) s') →
  wp (user_open home 0 0) Q s.
Proof using All.
  intros SS Hle HQ. pose proof SS as [SE _ _ _ LI]. pose proof SE as [Hb Hb0 RN M Ei [n V] _].
  unfold user_open, syscall. set (params := Build_SyscallParameters _ _ _ _ _ _ _).
  destruct (syscall_open_opens disk device F fs g GO b s params vfs n leading trailing names r) as (s1 & E & O);
    try done; [apply AP|apply LI|intros x Hx; by destruct (LIT x (or_introl Hx)) as (_ & H & _)|].
  assert (grows s s1) as [CM _].
  { assert (Prints (handle_syscall params)) as P1 by exact (prints_open_call HD params eq_refl).
    pose proof (P1 s) as G. by rewrite E in G. }
  apply wp_bind, wp_served_call. eapply wp_done; [exact E|]. apply wp_ret.
  pose proof (effect_call _ _ _ (op_keeps _ _ _ _ _ _ _ _ _ _ _ O)) as Ef.
  assert (effect quiet s (in_user_mode s1)) as Eq.
  { apply (effect_mono (λ x, driver x ∨ counter_of vfs x) quiet); [|done].
    intros x [Hx|Hx]; [right; right; by left|by do 3 right]. }
  apply HQ; [|done]. apply (shell_frame quiet b _ s); [done..|].
  apply session_sstatus. by apply (session_opened disk device F fs g vfs scheduler process path text cwd user AP b s s1 names n).
Qed.

Definition say_cost (t : list Z) : Z := Z.of_nat (length t) + 17.
Definition ls_cost : Z := open_cost disk device g names + say_cost (fd_text (s32 left_in_a0)).
Definition ls_text : list Z := until_nul (fd_text (s32 left_in_a0)).

Lemma wp_ls b s (Q : () → kstate → Prop) :
  shell_state b s → ls_cost ≤ b →
  (∀ s', shell_state (b - ls_cost) s' → shown [ls_text] s s' → console_in s' = console_in s → Q () s') →
  wp (ls home) Q s.
Proof using All.
  intros SS Hle HQ. unfold ls, ls_cost, say_cost in *. set (fd := s32 left_in_a0) in *.
  destruct (fd_text_spec fd) as [Er Hl].
  apply wp_bind, (wp_user_open b); [done|lia|]. intros s1 SS1 [I1 [o O1]]. fold fd.
  apply wp_bind, (wp_say (b - open_cost disk device g names) s1 (λ _, None) fd_format [fd] (fd_text fd)); try done; [lia|lia|].
  intros s2 SS2 _ S2 I2. apply wp_ret, HQ.
  - by replace (b - (open_cost disk device g names + (Z.of_nat (length (fd_text fd)) + 17)))
      with (b - open_cost disk device g names - Z.of_nat (length (fd_text fd)) - 17) by lia.
  - apply (shown_trans [] [_] s s1); [|done]. apply shown_nothing. split; [done|by exists o].
  - congruence.
Qed.

(** read of one line. *)
Definition typed_char (c : Z) : Prop := 0 < c < 256 ∧ c ≠ c_cr.

Lemma wp_read_input b s line rest (Q : Z → kstate → Prop) :
  shell_state b s → console_in s = line ++ c_cr :: rest → Forall typed_char line → Z.of_nat (length line) < 20 →
  (∀ s', shell_state b s' → shown [line ++ [c_nl]] s s' → cstr s' line_buffer line → Q 0 s') →
  wp (user_read 0 line_buffer 20) Q s.
Proof using GO AP PM LA LIT SC.
  intros SS Ein HF Hl HQ. pose proof (ss_session _ _ SS) as SE. pose proof (se_pos _ _ _ _ _ _ _ _ _ _ _ _ _ _ SE) as Hb0.
  unfold user_read, syscall. apply wp_bind, wp_served_call.
  apply (wp_handle_read b s _ line rest (c_cr :: rest) (line ++ [0]) (line ++ [c_nl])); try done.
  - apply SE.
  - intros x Hx. by apply (user_owned b), (page_program 20 264).
  - eapply Forall_impl; [exact HF|]. intros c [Hc Hr']. split; [lia|done].
  - by constructor.
  - intros s1 o [B1 _ O1 L1 K1]. apply wp_ret.
    assert (keeps (range line_buffer 20) s s1) as K.
    { apply (keeps_mono (range line_buffer (Z.of_nat (length (line ++ [0]))))); [|done].
      intros x Hx. rewrite length_app in Hx. cbn [length] in Hx. cbn in Hx. unfold range in *. lia. }
    pose proof (effect_call _ _ _ K) as E. apply HQ.
    + apply (shell_frame (range line_buffer 20) b _ s); [done|done|by right; left|].
      apply session_sstatus, (session_keeps disk device F fs g GO vfs scheduler process path text cwd user AP _ b b s _ SE K); [|done|done].
      intros x Hx. by apply PM, (page_program 20 264).
    + apply (shown_text s _ o). exact O1.
    + apply cstr_vars, line_cstr; [exact L1|]. eapply Forall_impl; [exact HF|]. intros c [Hc _]. lia.
Qed.

(** The program of main as malloc finds it. *)
Record ready_for_main (b : Z) (s : kstate) : Prop := ReadyForMain {
  rm_session : Session b s;
  rm_printf : printf_ready print_buffer s;
  rm_arena : arena s (heap + 232) (MAGIC_STRING - (200 + 32));
  rm_fresh : fresh_block s;
  rm_literals : literals_ok s
}.

Lemma malloc_program size f x :
  malloc_writes f size x → heap ≤ f → f + size + 40 ≤ heap + 4096 → 0 ≤ size → program_memory x.
Proof.
  intros Hx H1 H2 H3. unfold malloc_writes, program_memory, range in *. lia.
Qed.

Lemma wp_first_malloc b s (Q : Z → kstate → Prop) :
  ready_for_main b s → (∀ s', shell_state b s' → console_more s s' → Q line_buffer s') → wp (malloc 20) Q s.
Proof using GO AP PM LA LIT.
  intros [SE PR AR FR LI] HQ. pose proof SE as [Hb Hb0 _ _ _ _ _].
  apply (wp_malloc b Hb0 s (heap + 232) (MAGIC_STRING - (200 + 32)) 20); [done|done|by vm_compute| | |].
  { intros x Hx. by apply (user_owned b), (page_program 60 232). }
  { intros x Hx Hp. apply (la_first_page _ LA x Hx). unfold range in *. lia. }
  intros s1 B1 A1 K1 M1. replace (heap + 232 + 32) with line_buffer by (unfold line_buffer; lia).
  pose proof (effect_keeps _ _ _ K1) as E1. pose proof (λ x Hx, malloc_program 20 (heap + 232) x Hx ltac:(lia) ltac:(lia) ltac:(lia)) as Hw.
  apply HQ; [|by apply only_mem_more]. split.
  - apply (session_effect (malloc_writes (heap + 232) 20) b b s); try done. intros x Hx. by apply PM, Hw.
  - apply (printf_ready_keeps _ (malloc_writes (heap + 232) 20) (vars s1) s); [apply E1|apply PR| |done].
    intros x Hx Hw'. unfold malloc_writes in Hw'. destruct Hw' as [Hp|[Hp|Hp]].
    + apply (la_buffer_page _ LA x Hx). unfold range in *. lia.
    + apply (la_buffer_page _ LA x Hx). unfold range in *. lia.
    + by apply (la_first_buffer _ LA x Hp).
  - by replace next_item with (heap + 232 + 32 + 20) by (unfold next_item; lia).
  - intros x Hx. rewrite (effect_byte _ s s1 x E1); [by apply FR| |].
    + apply owned_stable, (user_owned b); [done|]. apply (page_program 40 316); unfold next_item, range in *; lia.
    + intros Hp. unfold malloc_writes, next_item, range in *. destruct Hp as [Hp|[Hp|Hp]]; [lia|lia|].
      apply (la_first_page _ LA x Hp). unfold range. lia.
  - apply (literals_effect (malloc_writes (heap + 232) 20) s); [done| |done].
    intros x Hx Hl. destruct (LIT x Hl) as [Hn _]. by apply Hn, Hw.
Qed.

(** What the kernel's start of a process and crt0 give main. *)
Lemma wp_library b s (Q : () → kstate → Prop) :
  Session b s → literals_ok s → fresh_block s →
  (∀ s', ready_for_main b s' → shown [] s s' → console_in s' = console_in s → Q () s') →
  wp (initialize_standard_library heap) Q s.
Proof using All.
  intros SE LI FR HQ. pose proof SE as [Hb Hb0 _ _ _ _ _].
  assert (library_memory s heap) as LM.
  { split; intros x Hx; apply (user_owned b s x SE); unfold program_memory; tauto. }
  apply prints_wp; [apply _|]. apply (wp_initialize b Hb0 s heap); try done. intros s1 B1 PR AR K1 [[I1 O1] _].
  pose proof (effect_keeps _ _ _ K1) as E1.
  assert (∀ x, library_writes heap x → program_memory x) as Hw.
  { intros x Hx. unfold library_writes, program_memory, range in *. lia. }
  apply HQ; [|by apply shown_nothing|done]. split; [| |done| |].
  - apply (session_effect (library_writes heap) b b s); try done. intros x Hx. by apply PM, Hw.
  - done.
  - intros x Hx. rewrite (effect_byte _ s s1 x E1); [by apply FR| |].
    + apply owned_stable, (user_owned b); [done|]. apply (page_program 40 316); unfold next_item, range in *; lia.
    + assert (range heap 4096 x) as Hpage by (unfold next_item, range in *; lia). destruct LV as [LV1 LV2].
      intros [Hp|[Hp|[Hp|[Hp|Hp]]]]; [by apply (LV1 x)|by apply (LV2 x)|by apply (la_first_page _ LA x)|by apply (la_buffer_page _ LA x)|].
      unfold next_item, range in *. lia.
  - apply (literals_effect (library_writes heap) s); [done| |done]. intros x Hx Hl. destruct (LIT x Hl) as [Hn _]. by apply Hn, Hw.
Qed.

(** ** pwd *)

Lemma wp_shell_pwd b s line (Q : () → kstate → Prop) :
  shell_state b s → cstr s line_buffer line → Z.of_nat (length line) < 20 → Z.of_nat (length cwd) < 40 → say_cost cwd ≤ b →
  (∀ s', budget 0 s' → cstr s' line_buffer line → literals_ok s' → shown [cwd] s s' → Q () s') →
  wp pwd Q s.
Proof using GO AP PM LA LIT SC.
  intros [SE PR AR FR LI] C Hl Hc Hle HQ. pose proof SE as [Hb Hb0 RN _ _ _ _]. unfold say_cost in Hle.
  assert (∀ x, range next_item 80 x → program_memory x) as Hn by (intros x Hx; by apply (page_program 80 284)).
  apply (wp_pwd b s next_item item_size print_buffer scheduler process path text cwd Hb Hb0 AR); try done.
  - split.
    + intros x Hx. by apply (user_owned b), Hn.
    + done.
    + intros x Hx Hp. apply (la_first_page _ LA x Hx). unfold next_item, range in *. lia.
    + intros x Hx Hp. by apply (la_first_buffer _ LA x Hp).
    + intros x Hx Hp. apply (la_buffer_page _ LA x Hx). unfold next_item, range in *. lia.
    + intros x Hx Hp. unfold print_buffer, next_item, range in *. lia.
    + intros x Hk. split; intros Hp; (assert (program_memory x) as Hx by (try (by apply Hn); right; right; by left));
        by destruct (ap_user _ _ _ _ _ _ _ _ _ _ AP x (PM x Hx)) as (_ & _ & _ & H).
  - intros s1 [B1 V1 K1 [o O1]]. pose proof (effect_return _ _ _ K1 V1) as E1.
    assert (∀ x, range next_item 80 x ∨ range first_item 8 x ∨ range print_buffer 200 x → program_memory x) as Hw.
    { intros x [Hx|[Hx|Hx]]; [by apply Hn|by right; right; left|by apply (page_program 200 32)]. }
    apply HQ.
    + apply (budget_0 _ _ B1). lia.
    + apply (effect_cstr _ s s1 _ _ E1); [done|]. intros x Hx [Hp|[Hp|Hp]].
      * unfold line_buffer, next_item, range in *. lia.
      * apply (la_first_page _ LA x Hp). unfold line_buffer, range in *. lia.
      * unfold line_buffer, print_buffer, range in *. lia.
    + apply (literals_effect _ s s1 E1); [|done]. intros x Hx Hlx. destruct (LIT x Hlx) as [Hnx _]. by apply Hnx, Hw.
    + by apply (shown_text s s1 o).
Qed.

(** ** main *)

#[local] Abbreviation line_of t := (chars t ++ newline).

(** What a run of the shell prints for a typed line. *)
Definition shell_texts (line : list Z) : list (list Z) :=
  [line_of "test from userspace"; line_of "second test, lets see if this works"; line_of "and a third time";
   line_of "calling ls"; ls_text; line_of "after ls"; line ++ [c_nl]; input_text line] ++
  (if decide (line = chars "pwd") then [cwd] else []) ++ (if decide (line = chars "ls") then [ls_text] else []).

Definition shell_cost (line : list Z) : Z :=
  say_cost (line_of "test from userspace") + say_cost (line_of "second test, lets see if this works") +
  say_cost (line_of "and a third time") + say_cost (line_of "calling ls") + ls_cost + say_cost (line_of "after ls") +
  say_cost (input_text line) + say_cost cwd + ls_cost.

Lemma wp_line b s (t : string) (Q : Z → kstate → Prop) :
  shell_state b s → render (λ _, None) (line_of t) [] = Some (line_of t) → until_nul (line_of t) = line_of t →
  Z.of_nat (length (line_of t)) ≤ 200 → say_cost (line_of t) ≤ b →
  (∀ s', shell_state (b - say_cost (line_of t)) s' → shown [line_of t] s s' → console_in s' = console_in s → Q 0 s') →
  wp (user_printf (line_of t) []) Q s.
Proof using GO AP PM LA LIT SC.
  intros SS Er Eu Hl Hle HQ. unfold say_cost in *. apply (wp_say b s (λ _, None) _ _ (line_of t)); try done.
  intros s' SS' _ S' I'. rewrite Eu in S'. apply HQ; [|done|done].
  by replace (b - (Z.of_nat (length (line_of t)) + 17)) with (b - Z.of_nat (length (line_of t)) - 17) by lia.
Qed.

Lemma ls_cost_pos : 0 ≤ ls_cost.
Proof using DL GO.
  pose proof (walk_cost_pos disk device g GO names). pose proof (read_cost_pos (DiskLaws := DL) 256).
  unfold ls_cost, say_cost, open_cost. lia.
Qed.

(** The end of main, from the line in the buffer on. *)
#[local] Abbreviation main_end := (
  user_printf (chars "got input in userspace: %s" ++ newline) [line_buffer] ≫= λ _,
  strcmp line_buffer lit_pwd ≫= λ r,
  (if r =? 0 then pwd else mret ()) ≫= λ _,
  strcmp line_buffer lit_ls ≫= λ r,
  (if r =? 0 then ls home else mret ()) ≫= λ _,
  (spin : K ())).

Lemma main_end_spins b s line :
  shell_state b s → cstr s line_buffer line → Forall typed_char line → Z.of_nat (length line) < 20 →
  Z.of_nat (length cwd) < 40 → say_cost (input_text line) + say_cost cwd + ls_cost ≤ b →
  spins (main_end : K ()) (shown ([input_text line] ++ (if decide (line = chars "pwd") then [cwd] else []) ++
    (if decide (line = chars "ls") then [ls_text] else [])) s) s.
Proof using All.
  intros SS C HF Hl Hc Hle. pose proof ls_cost_pos as Hls.
  assert (Forall (λ c, c ≠ 0) line) as Hnz by (eapply Forall_impl; [exact HF|]; intros c [Hc' _]; lia).
  assert (map to_char line = line) as Hmap by by apply (cstr_plain s line_buffer).
  set (str q := if decide (q = line_buffer) then Some line else None).
  assert (Z.of_nat (length (input_text line)) ≤ 60) as Hi.
  { unfold input_text. rewrite !length_app. change (length (chars "got input in userspace: ")) with 24%nat.
    change (length newline) with 1%nat. lia. }
  unfold say_cost in Hle.
  apply spins_bind, (wp_say b s str input_format _ (input_text line)); [done|lia| | |lia|].
  { intros q k. unfold str. case_decide as Hq; [|done]. intros [= <-]. subst q. split; [done|].
    intros x Hx Hp. unfold line_buffer, print_buffer, range in *. lia. }
  { apply input_text_render; [|done]. unfold str. by rewrite decide_True. }
  intros s1 SS1 E1 S1 _. rewrite input_text_plain in S1 by done.
  assert (cstr s1 line_buffer line) as C1.
  { apply (effect_cstr _ s s1 _ _ E1 C). intros x Hx Hp. unfold line_buffer, print_buffer, range in *. lia. }
  pose proof SS1 as [SE1 _ _ _ LI1]. pose proof SE1 as [Hb1 Hb01 _ _ _ _ _].
  apply spins_bind, (wp_strcmp s1 line_buffer lit_pwd line (chars "pwd")); [by apply (budget_0 _ _ Hb1)|done|apply LI1|].
  rewrite compare_zero. case_decide as Hpwd; [rewrite bool_decide_true by done|rewrite bool_decide_false by done].
  - apply spins_bind, (wp_shell_pwd _ s1 line _ SS1 C1); [done|done|unfold say_cost; lia|].
    intros s2 B2 C2 LI2 S2. apply spins_bind, (wp_strcmp s2 line_buffer lit_ls line (chars "ls")); [done|done|apply LI2|].
    rewrite compare_zero, decide_False, bool_decide_false by (by rewrite Hpwd). apply spins_bind, wp_ret, spins_spin.
    by apply (shown_trans [_] [_] s s1).
  - apply spins_bind, wp_ret. apply spins_bind, (wp_strcmp s1 line_buffer lit_ls line (chars "ls")); [by apply (budget_0 _ _ Hb1)|done|apply LI1|].
    rewrite compare_zero. case_decide as Hl'; [rewrite bool_decide_true by done|rewrite bool_decide_false by done].
    + apply spins_bind, (wp_ls _ s1 _ SS1); [lia|]. intros s2 _ S2 _. apply spins_spin. by apply (shown_trans [_] [_] s s1).
    + apply spins_bind, wp_ret, spins_spin. exact S1.
Qed.

Lemma say_cost_pos t : 0 ≤ say_cost t.
Proof. unfold say_cost. lia. Qed.
#[local] Opaque say_cost ls_cost.

Lemma main_spins b s line rest :
  ready_for_main b s → console_in s = line ++ c_cr :: rest → Forall typed_char line → Z.of_nat (length line) < 20 →
  Z.of_nat (length cwd) < 40 → shell_cost line ≤ b →
  spins (main home lit_pwd lit_ls) (shown (shell_texts line) s) s.
Proof using All.
  intros RM Ein HF Hl Hc Hle. pose proof ls_cost_pos as Hls. unfold main, shell_cost in *.
  pose proof (say_cost_pos (line_of "after ls")). pose proof (say_cost_pos (input_text line)). pose proof (say_cost_pos cwd).
  pose proof (say_cost_pos (line_of "test from userspace")). pose proof (say_cost_pos (line_of "and a third time")).
  pose proof (say_cost_pos (line_of "second test, lets see if this works")). pose proof (say_cost_pos (line_of "calling ls")).
  apply spins_bind, (wp_first_malloc b s); [done|]. intros s0 SS0 [I0 [o0 O0]].
  assert (shown [] s s0) as S0 by (apply shown_nothing; split; [done|by exists o0]).
  apply spins_bind, (wp_line _ s0 "test from userspace" _ SS0); [by vm_compute..|lia|]. intros s1 SS1 S1 I1.
  apply spins_bind, (wp_line _ s1 "second test, lets see if this works" _ SS1); [by vm_compute..|lia|]. intros s2 SS2 S2 I2.
  apply spins_bind, (wp_line _ s2 "and a third time" _ SS2); [by vm_compute..|lia|]. intros s3 SS3 S3 I3.
  apply spins_bind, (wp_line _ s3 "calling ls" _ SS3); [by vm_compute..|lia|]. intros s4 SS4 S4 I4.
  apply spins_bind, (wp_ls _ s4 _ SS4); [lia|]. intros s5 SS5 S5 I5.
  apply spins_bind, (wp_line _ s5 "after ls" _ SS5); [by vm_compute..|lia|]. intros s6 SS6 S6 I6.
  apply spins_bind, (wp_read_input _ s6 line rest _ SS6); [congruence|done|done|]. intros s7 SS7 S7 C7.
  destruct (main_end_spins _ s7 line SS7 C7 HF Hl Hc) as (s8 & E8 & S8).
  { lia. }
  exists s8. split; [exact E8|].
  exact (shown_trans _ _ _ _ _ S0 (shown_trans _ _ _ _ _ S1 (shown_trans _ _ _ _ _ S2 (shown_trans _ _ _ _ _ S3
    (shown_trans _ _ _ _ _ S4 (shown_trans _ _ _ _ _ S5 (shown_trans _ _ _ _ _ S6 (shown_trans _ _ _ _ _ S7 S8)))))))).
Qed.

(** The shell in an environment that serves its calls, from its first instruction: in a
    session in which it owns its variables and a heap page that is zero behind the first
    allocations, with its string literals in memory nothing writes and a line waiting on
    the console, it prints its greetings, the result of open, the echo and the line it has
    read, then for the line pwd the working directory of the process and for ls the
    result of open again, in this order, and spins. *)
Theorem shell_runs b s line rest :
  Session b s → literals_ok s → fresh_block s →
  console_in s = line ++ c_cr :: rest → Forall typed_char line → Z.of_nat (length line) < 20 →
  Z.of_nat (length cwd) < 40 → shell_cost line ≤ b →
  ∃ s', Shell._start heap home lit_pwd lit_ls s = Fault NeverReturns s' ∧ shown (shell_texts line) s s'.
Proof using All.
  intros SE LI FR Ein HF Hl Hc Hle. apply (spins_bind (initialize_standard_library heap)).
  apply (wp_library b s _ SE LI FR). intros s1 RM S1 I1.
  destruct (main_spins b s1 line rest RM) as (s2 & E2 & S2); try done; [congruence|].
  exists s2. split; [exact E2|]. by apply (shown_trans [] _ s s1).
Qed.
End shell.

(** * The shell behind the trap entry of this code *)

(** The way of an ecall through boot.s and exception.cpp and back, for a program that is
    at the ecall with the registers [at_ecall]. *)
Definition trap_path `{PhysicalMap} `{BlockDevice} (handler left : Z) (at_ecall : SyscallParameters → hart) : Environment :=
  λ params,
    h ← jump_to_machine_exception_handler handler (at_ecall params);
    r ← machine_exception_handler left (trap_of h params);
    mret (rs_a0 r).

Section stopped.
Context `{A : Allocator} `{U : UserProgram} `{E : Environment}.

(** The shell comes to its first printf with printf's buffer ready. *)
Lemma wp_first_statements b s heap (Q : () → kstate → Prop) :
  0 ≤ b → budget b s → library_memory s heap → library_apart heap → 0 ≤ heap < 2 ^ 64 →
  (∀ s', budget b s' → printf_ready (heap + 32) s' → keeps (program_memory heap) s s' →
     console_out s' = console_out s → Q () s') →
  wp (initialize_standard_library heap;; malloc 20 ≫= λ _, mret ()) Q s.
Proof.
  intros Hb0 Hb LM LA Hh HQ.
  apply wp_bind, silent_wp; [apply _|]. apply (wp_initialize b Hb0 s heap); [done..|]. intros s1 B1 PR1 AR1 K1 O1.
  pose proof (library_memory_keeps _ _ _ _ K1 LM) as LM1.
  apply wp_bind, silent_wp; [apply _|].
  apply (wp_malloc b Hb0 s1 (heap + 232) (0xDEADBEEF - 232) 20); [done|done|by vm_compute| | |].
  { intros x Hx. apply (lm_page _ _ LM1). unfold range in *. lia. }
  { intros x Hx Hp. apply (la_first_page _ LA x Hx). unfold range in *. lia. }
  intros s2 B2 _ K2 _ O2. apply wp_ret, HQ; [done| | |congruence].
  - apply (printf_ready_keeps _ (malloc_writes (heap + 232) 20) (vars s1) s1); [by destruct s1|apply PR1| |done].
    intros x Hx [Hp|[Hp|Hp]]; [apply (la_buffer_page _ LA x Hx)|apply (la_buffer_page _ LA x Hx)|];
      [unfold range in *; lia..|]. by apply (la_first_buffer _ LA x Hp).
  - apply (keeps_comp _ _ _ _ _ _ K1 K2). intros x _. unfold library_writes, malloc_writes, program_memory, range. lia.
Qed.
End stopped.

(** C11: the shell on the code as it is, from its first instruction, in any state in which
    it owns its variables and its heap page: it sets up its library, takes a block for
    the line and formats its greeting, and stops there with nothing printed: the ecall
    of its first write faults at the first store of the trap entry, at the stack pointer
    that switch_to_process has left in sscratch taken as a physical address.  Only the
    library's variables and the heap page have changed. *)
Theorem shell_stops_at_first_call `{A : Allocator} `{U : UserProgram} `{D : BlockDevice} `{PhysicalMap} `{BootLabels}
    b s heap home lit_pwd lit_ls mst depth handler left entry stack h0 at_ecall :
  0 ≤ b → budget b s → library_memory s heap → library_apart heap → 0 ≤ heap < 2 ^ 64 →
  RAM_ORIGIN ≤ stacks → stacks + STACK_SIZE ≤ RAM_ORIGIN + RAM_LENGTH → 0 ≤ depth ≤ STACK_SIZE →
  h_sp h0 = sp (boot_entry mst) - depth →
  (∀ params, runs_until_trap (switch_registers entry stack heap h0) (at_ecall params)) →
  ∃ s', Shell._start (E := trap_path handler left at_ecall) heap home lit_pwd lit_ls s =
      Fault (AccessFault (h_sp h0 - 96)) s' ∧
    bytes_at s' (heap + 32) (chars "test from userspace" ++ newline) ∧ console_out s' = console_out s ∧
    keeps (program_memory heap) s s'.
Proof.
  intros Hb0 Hb LM LA Hh Hlo Hhi Hd E0 RT. set (out := chars "test from userspace" ++ newline).
  destruct (wp_inv _ _ _ (wp_first_statements b s heap (λ _ s', budget b s' ∧ printf_ready (heap + 32) s' ∧
    keeps (program_memory heap) s s' ∧ console_out s' = console_out s) Hb0 Hb LM LA Hh ltac:(done)))
    as ([] & s1 & E1 & B1 & PR1 & K1 & O1).
  destruct (printf_formats (E := trap_path handler left at_ecall) b s1 (heap + 32) (λ _, None) out [] out)
    as (s2 & E2 & [[B2 _ K2 L2] _ O2] & _); [done..|by vm_compute|by vm_compute|].
  exists s2. split_and!; [|done|congruence|].
  - assert (user_printf (E := trap_path handler left at_ecall) out [] s1 = Fault (AccessFault (h_sp h0 - 96)) s2) as E3.
    { rewrite E2. apply bind_fault, bind_fault. by apply (first_store_faults mst depth handler entry stack heap). }
    unfold Shell._start, main. revert E1. unfold mbind at 1 2, M_bind.
    destruct (initialize_standard_library heap s) as [[] t|] eqn:Ei; [|done]. destruct (malloc 20 t) as [p t'|] eqn:Em; [|done].
    intros [= ->]. rewrite (bind_done _ _ _ _ _ Ei), (bind_done _ _ _ _ _ Em). exact (bind_fault _ _ _ _ _ E3).
  - apply (keeps_comp _ _ _ _ _ _ K1 K2). intros x _ [Hx|Hx]; [done|]. change (Z.of_nat (length out)) with 20 in Hx.
    unfold program_memory, range in *. lia.
Qed.

(** * Witness: a shell in its home directory *)

#[local] Abbreviation MD := (memory_read sample_disk).
#[local] Abbreviation ML A := (memory_laws (A := A) sample_disk sample_disk_byte 0).
#[local] Abbreviation sample_g := (disk_geometry sample_disk).

#[local] Instance prints_memory_read disk d o l b : Prints (memory_read disk d o l b).
Proof. unfold memory_read. prints. Qed.

(** The sample image mounted for a program with the memory [user]. *)
Lemma make_session `{A : Allocator} (user : Z → Prop) b s cwd :
  budget b s → Z.of_nat (length cwd) + 1000 ≤ b → Forall (λ c, 0 < c < 256) cwd → (∀ s x, user x → owned s x) →
  ∃ s' F fs vfs scheduler process path text,
    session (D := MD) sample_disk 0 (DL := ML A) F fs sample_g vfs scheduler process path text cwd user
      (b - Z.of_nat (length cwd) - 541) s' ∧
    apart (D := MD) sample_disk 0 (DL := ML A) F vfs scheduler process path text cwd user ∧
    ∀ x, user x → vbyte s' x = vbyte s x.
Proof.
  intros Hb Hle Hcwd HU. pose proof (disk_geometry_ok (D := MD) sample_disk 0 (DL := ML A) sample_disk_ok) as GO.
  destruct (kalloc_fresh b 32 s Hb) as (fs & s1 & _ & B1 & F1); [lia|lia|].
  pose proof (fr_keeps _ _ _ _ F1) as K1. replace (b - 32 - 16) with (b - 48) in B1 by lia.
  assert (wp (EXT2_ctor (H := MD) fs 0) (λ _ s', ∃ F, mounted (D := MD) sample_disk 0 (DL := ML A) F fs sample_g s' ∧
    ext2_instance (vars s') = fs ∧ budget (b - 284) s' ∧ ∀ x, stable s x → stable s' x ∧ vbyte s' x = vbyte s x ∧ ¬ F x) s1) as W.
  { eapply wp_mono; [apply (wp_mount (D := MD) sample_disk 0 (DL := ML A) fs _ s1 B1 I (fr_owned _ _ _ _ F1))|].
    - by intros x _ [].
    - done.
    - exact sample_disk_ok.
    - change (236 ≤ b - 48). lia.
    - intros _ s2 (F & M & Ei & B2 & U & HF). exists F. split_and!; [done|done| |].
      + change (budget (b - 48 - 236) s2) in B2. by replace (b - 284) with (b - 48 - 236) by lia.
      + intros x Hx. pose proof (kp_stable _ _ _ K1 x Hx) as Hx1.
        assert (stable s1 x ∧ ¬ range fs 32 x ∧ ¬ False) as HW.
        { split_and!; [done|intros Hr; by apply (fr_new _ _ _ _ F1 x Hr)|tauto]. }
        destruct (U x HW) as [S V]. split_and!; [done| |by intros Hf; apply (HF x Hf)].
        rewrite V. by apply (kp_byte _ _ _ K1); [|intros []]. }
  destruct (wp_inv _ _ _ W) as ([] & s2 & _ & F & M2 & Ei2 & B2 & U2).
  destruct (wp_inv _ _ _ (wp_new_vfs _ s2 (λ vfs s3, budget (b - 396) s3 ∧ vfs_at s3 vfs 3 ∧
    keeps nowhere (set_vars (set_vfs_instance vfs (vars s2)) s2) s3 ∧ ∀ x, range vfs sizeof_VFS x → ¬ stable s2 x)
    B2 ltac:(lia) ltac:(intros; replace (b - 396) with (b - 284 - 112) by lia; done))) as (vfs & s3 & _ & B3 & V3 & K3 & N3).
  destruct (make_running _ s3 cwd B3) as (s4 & scheduler & process & path & text & B4 & RN & K4 & N4); [lia|done|].
  assert (∀ x, stable s2 x → stable s3 x ∧ vbyte s3 x = vbyte s2 x) as U3 by (intros x; by apply (kept_vars _ _ _ _ K3)).
  assert (∀ x, stable s3 x → stable s4 x ∧ vbyte s4 x = vbyte s3 x) as U4 by (intros x; by apply (kept_vars _ _ _ _ K4)).
  assert (∀ x, range vfs sizeof_VFS x → stable s3 x) as Hvfs by (intros x Hx; by apply owned_stable, (va_object _ _ _ V3)).
  assert (∀ x, user x → stable s x) as Hus by (intros x Hx; by apply owned_stable, HU).
  exists s4, F, fs, vfs, scheduler, process, path, text. split; [split|split; [split|]].
  - by replace (b - Z.of_nat (length cwd) - 541) with (b - 396 - Z.of_nat (length cwd) - 145) by lia.
  - lia.
  - exact RN.
  - apply (mounted_keeps (D := MD) sample_disk 0 (DL := ML A) F fs _ GO nowhere _ s4 K4); [by intros ? []|].
    apply mounted_vars, (mounted_keeps (D := MD) sample_disk 0 (DL := ML A) F fs _ GO nowhere _ s3 K3); [by intros ? []|].
    by apply mounted_vars.
  - by rewrite (kp_vars _ _ _ K4), (kp_vars _ _ _ K3).
  - exists 3. apply (vfs_at_keeps nowhere _ s4 vfs 3 K4); [by intros ? ? []|by apply vfs_at_vars].
  - intros x. apply HU.
  - intros x Hx. split; [|by intros []]. intros Hf. by apply (N3 x Hx), (ea_stable _ _ _ _ _ (mo_object _ _ _ _ _ _ M2)).
  - intros x Hx. split; [by intros []|]. intros Hr. by apply (N4 x Hx), Hvfs.
  - intros x Hx. destruct (U2 x (Hus x Hx)) as (S2 & _ & Hf). destruct (U3 x S2) as [S3 _].
    split_and!; [done|by intros []|intros Hr; by apply (N3 x Hr)|intros Hr; by apply (N4 x Hr)].
  - intros x Hx. destruct (U2 x (Hus x Hx)) as (S2 & V2 & _). destruct (U3 x S2) as [S3 E3]. destruct (U4 x S3) as [_ E4]. congruence.
Qed.

(** Its three string literals. *)
Lemma make_literals `{A : Allocator} b s t1 t2 t3 :
  budget b s → Z.of_nat (length t1) + Z.of_nat (length t2) + Z.of_nat (length t3) + 51 ≤ b →
  Forall (λ c, 0 < c < 256) t1 → Forall (λ c, 0 < c < 256) t2 → Forall (λ c, 0 < c < 256) t3 →
  ∃ p1 p2 p3 s', budget (b - Z.of_nat (length t1) - Z.of_nat (length t2) - Z.of_nat (length t3) - 51) s' ∧
    cstr s' p1 t1 ∧ cstr s' p2 t2 ∧ cstr s' p3 t3 ∧ keeps nowhere s s' ∧
    ∀ x, range p1 (Z.of_nat (length t1) + 1) x ∨ range p2 (Z.of_nat (length t2) + 1) x ∨ range p3 (Z.of_nat (length t3) + 1) x →
      ¬ stable s x.
Proof.
  intros Hb Hle H1 H2 H3.
  destruct (make_cstr b s t1 Hb) as (p1 & s1 & B1 & C1 & K1 & _ & N1); [lia|done|].
  destruct (make_cstr _ s1 t2 B1) as (p2 & s2 & B2 & C2 & K2 & _ & N2); [lia|done|].
  destruct (make_cstr _ s2 t3 B2) as (p3 & s3 & B3 & C3 & K3 & _ & N3); [lia|done|].
  exists p1, p2, p3, s3. split_and!; [| | |done| |].
  - by replace (_ - 51) with (b - Z.of_nat (length t1) - 17 - Z.of_nat (length t2) - 17 - Z.of_nat (length t3) - 17) by lia.
  - apply (cstr_keeps nowhere s2); [done| |by intros ? ? []]. apply (cstr_keeps nowhere s1); [done..|by intros ? ? []].
  - apply (cstr_keeps nowhere s2); [done..|by intros ? ? []].
  - apply (keeps_trans _ _ s1); [done|]. by apply (keeps_trans _ _ s2).
  - intros x [Hx|[Hx|Hx]] Hs; [by apply (N1 x)|apply (N2 x Hx)|apply (N3 x Hx)].
    + by apply (kp_stable _ _ _ K1).
    + by apply (kp_stable _ _ _ K2), (kp_stable _ _ _ K1).
Qed.

#[local] Abbreviation UA := (user_heap 64 0x80208000 2 sample_pages).
#[local] Abbreviation P := sample_program.
#[local] Abbreviation home_names := [chars "home"; chars "user"].

(** The line "ls" is typed. *)
Lemma shell_runs_witness :
  ∃ s s' home lit_pwd lit_ls, Shell._start (U := P) (E := sample_environment) 0x11000 home lit_pwd lit_ls s = Fault NeverReturns s' ∧
    shown (shell_texts (SC := sample_served) (chars "/home/user/") (chars "ls")) s s'.
Proof.
  destruct two_pages as (s0 & B0 & Z0).
  destruct (make_session (A := UA) (range 0x10000 0x2000) _ s0 (chars "/home/user/") B0)
    as (s1 & F & fs & vfs & scheduler & process & path & text & SE & AP & V1); [by vm_compute|by repeat constructor| |].
  { intros s x Hx. by apply (sample_owned s 0x10000 0x2000). }
  pose proof (disk_geometry_ok (A := UA) (D := MD) sample_disk 0 (DL := ML UA) sample_disk_ok) as GO.
  destruct (make_literals (A := UA) _ s1 (path_text true true home_names) (chars "pwd") (chars "ls")
    (se_budget _ _ _ _ _ _ _ _ _ _ _ _ _ _ SE)) as (home & p2 & p3 & s2 & B2 & C1 & C2 & C3 & K2 & N2);
    [by vm_compute|by repeat constructor..|].
  pose proof (keeps_trans (A := UA) _ _ _ _ K2 (keeps_console nowhere (console_out s2) (chars "ls" ++ [c_cr]) s2)) as K3.
  set (s3 := set_console _ _ s2) in K3.
  assert (∀ p l, cstr (A := UA) s2 p l → cstr (A := UA) s3 p l) as HC.
  { intros p l C. apply (cstr_keeps (A := UA) nowhere s2); [apply keeps_console|exact C|by intros ? ? []]. }
  assert (∀ x, range 0x10000 0x2000 x → stable (Allocator := UA) s1 x) as Hst.
  { intros x Hx. by apply (owned_stable (Allocator := UA)), (sample_owned s1 0x10000 0x2000). }
  assert (∀ x, program_memory (U := P) 0x11000 x → range 0x10000 0x2000 x) as PM.
  { intros x. unfold program_memory. cbn. unfold range. lia. }
  destruct (shell_runs (A := UA) (U := P) (SC := sample_served) sample_disk 0 (DL := ML UA) (prints_memory_read sample_disk)
    F fs sample_g GO vfs scheduler process path text (chars "/home/user/") (range 0x10000 0x2000) AP 0x11000 home p2 p3
    true true home_names None) with (b := 15000) (s := s3) (line := chars "ls") (rest := @nil Z) as (s' & E & S').
  - done.
  - repeat constructor; try done; apply (bool_decide_unpack _); by vm_compute.
  - by vm_compute.
  - exact sample_apart.
  - lia.
  - split; intros x; cbn; unfold range; lia.
  - exact PM.
  - intros x Hx. pose proof (N2 x Hx) as Hn. split_and!; [|by intros []|].
    + intros Hp. by apply Hn, Hst, PM.
    + destruct (se_vfs _ _ _ _ _ _ _ _ _ _ _ _ _ _ SE) as [n V]. intros Hc.
      apply Hn, (owned_stable (Allocator := UA)), (va_object _ _ _ V). unfold counter_of, range, sizeof_VFS in *. lia.
  - apply (session_keeps (A := UA) (D := MD) sample_disk 0 (DL := ML UA) F fs _ GO vfs scheduler process path text _ _ AP
      nowhere _ 15000 s1 s3 SE K3); [by intros x []| |lia].
    apply (budget_proper (Allocator := UA) _ _ _ (same_mem_console (console_out s2) (chars "ls" ++ [c_cr]) s2)).
    apply (budget_weaken (Allocator := UA) _ _ _ B2). by vm_compute.
  - split; apply HC; [exact C1|exact C2|exact C3].
  - intros x Hx. assert (range 0x10000 0x2000 x) as Hu by (unfold next_item, range in *; lia).
    rewrite (kp_byte _ _ _ K3 x (Hst x Hu)) by (by intros []). rewrite V1 by done. apply Z0.
    unfold page_of, next_item, range in *. zlia.
  - done.
  - by repeat constructor.
  - by vm_compute.
  - by vm_compute.
  - by vm_compute.
  - by exists s3, s', home, p2, p3.
Defined.

(** The kernel's stack is empty but for 256 bytes when the shell is started. *)
Lemma shell_stops_at_first_call_witness :
  ∃ s s', Shell._start (U := P) (E := trap_path (H0 := MD) 0x80004000 0
      (λ _, Hart (replicate 12 7) 0x12000 (VIRTUAL_OFFSET + 0x80002F00) 1 2 3 4 5 8 0x10078 0 0x10078))
      0x11000 0x13000 0x13020 0x13028 s = Fault (AccessFault (VIRTUAL_OFFSET + 0x80002F00 - 96)) s' ∧
    bytes_at (A := UA) s' 0x11020 (chars "test from userspace" ++ newline).
Proof.
  destruct two_pages as (s & B & _).
  destruct (shell_stops_at_first_call (A := UA) (U := P) (D := MD) (H0 := labels) 16000 s 0x11000 0x13000 0x13020 0x13028
    0 256 0x80004000 0 0x10000 0x12000 (zero_hart (VIRTUAL_OFFSET + 0x80002F00))
    (λ _, Hart (replicate 12 7) 0x12000 (VIRTUAL_OFFSET + 0x80002F00) 1 2 3 4 5 8 0x10078 0 0x10078))
    as (s' & E & L & _); [lia|exact B|apply sample_library|exact sample_apart|lia|by vm_compute..|by intros ?|].
  exists s, s'. split; [exact E|exact L].
Defined.
