(* ===== verification/Boot.v ===== *)
(** os_start (kernel/os.cpp): how the kernel comes up, and that the parts fit together.

    The theorems of the other files are proved against interfaces; here the memory
    start-up establishes the heap's ([LinearHeap]), the block device's initialisation the
    driver's ([DiskDriver]), and mounting the file system's, one after the other, from
    memory in which nothing but the kernel image has been loaded. *)

From S2P Require Import Prelude Monad Memory Sv48 Machine Layout Stdio PhysAlloc Paging AddressSpace Heap KAlloc Allocator Client Dma LinearHeap Process Virtio VirtioDevice VirtioInit VirtioBlk Ext2 Ext2Walk Ext2Mount Ext2Files DiskDriver Console Loader Programs Vfs.

(** * The code *)

(** The levels os_start turns on. *)
Definition boot_log_level : Z := foldr Z.lor 0 (LogLevel.bits <$>
  [LogLevel.SYSCALL; LogLevel.EXCEPTION; LogLevel.SYSTEM; LogLevel.ERROR; LogLevel.WARNING;
   LogLevel.PROCESS; LogLevel.FS]).

(** [for (size_t i = 0; i < size; i++) printf("%c", *(buffer + i));] *)
Definition print_chars (buffer size : Z) : K () :=
  loop (λ i,
    if i <? size then
      c ← load8 (buffer ⊞ i);
      printf (chars "%c") [c];;
      mret (inl (i ⊞ 1))
    else mret (inr ())) 0.

(** The statements of os_start up to the start of the heap. *)
Definition boot_memory `{Layout} : K () :=
  set_log_level boot_log_level;;
  log LogLevel.SYSTEM (chars "Booted to OS") [];;
  physical_allocator_init;;
  paging_init;;
  virtual_allocator_init.

(** The two files it shows: [testfile_size] and [buffer1] are used for both. *)
Definition show_first `{BlockDevice} (testfile : Z) : K (Z * Z) :=
  testfile_size ← get_file_size testfile;
  buffer1 ← kalloc testfile_size;
  read_file testfile testfile_size buffer1;;
  print_chars buffer1 testfile_size;;
  mret (testfile_size, buffer1).

Definition show_second `{BlockDevice} (file testfile_size buffer1 : Z) : K () :=
  testfile2_size ← get_file_size file;
  _ ← kalloc testfile2_size;
  read_file file testfile_size buffer1;;
  print_chars buffer1 testfile_size.

Section boot.
Context `{Mmio}.

(** The block device and the file system on it; the result of init is not looked at. *)
Definition boot_disk : K (option Z) :=
  block_device ← get_block_device;
  if block_device =? 0x0 then
    log LogLevel.ERROR (chars "Did not find a block device.") [];;
    mret None
  else
    _ ← VirtIOBlockDevice_init block_device;
    ext2 ← operator_new sizeof_EXT2;
    EXT2_ctor ext2 block_device;;
    mret (Some ext2).

(** [new VFS()]. *)
Definition new_vfs : K Z :=
  vfs ← operator_new sizeof_VFS;
  VFS_ctor vfs;;
  mret vfs.

(** os_start up to the scheduler. *)
Definition boot_system `{Layout} (testfile file : Z) : K (option Z) :=
  boot_memory;;
  ext2 ← boot_disk;
  match ext2 with
  | None => mret None
  | Some _ =>
      '(testfile_size, buffer1) ← show_first testfile;
      show_second file testfile_size buffer1;;
      _ ← new_vfs;
      scheduler ← Scheduler_get_instance;
      mret (Some scheduler)
  end.

(** os_start, with the addresses of the string literals "/testfile.txt",
    "/folder1/folder2/folder3/file.txt" and "/usr/bin/shell" and of the literal of the
    home directory.  It returns -1, or enters the first process. *)
Definition os_start `{Layout} (testfile file shell home : Z) : K (Z + user_context) :=
  scheduler ← boot_system testfile file;
  match scheduler with
  | None => mret (inl (-1))
  | Some scheduler =>
      context ← start_program home scheduler shell;
      mret (inr context)
  end.
End boot.

(** * Memory *)

Section memory.
Context `{LO : LayoutOk}.

(** RAM behind the kernel image is zero, and there is enough of it for the budget. *)
Record loaded (s : kstate) : Prop := Loaded {
  lo_zero : ∀ a, PHYSICAL_HEAP_START ≤ a < PHYSICAL_MEMORY_END → rd8 (pmem s) a = 0;
  lo_frames : 2050 ≤ init_num_frames
}.

(** What is left for allocations: the first 2 MiB of the heap but one page. *)
Definition boot_budget : Z := 511 * 4096.

Record memory_ready (N : nat) (root : Z) (s s' : kstate) : Prop := MemoryReady {
  mr_budget : linear_budget N root boot_budget s';
  mr_list : free_list s' = VIRTUAL_HEAP_START;
  mr_end : virtual_alloc_end s' = VIRTUAL_HEAP_START + 4096;
  mr_flags : flags_base s' = align_up PHYSICAL_HEAP_START;
  mr_image : ∀ a, 0 ≤ a < PHYSICAL_HEAP_START → rd8 (pmem s') a = rd8 (pmem s) a;
  mr_vars : vars s' = vars s;
  mr_log : logLevel s' = boot_log_level
}.

Lemma heap_start_aligned : PHYSICAL_HEAP_START ≤ align_up PHYSICAL_HEAP_START ∧ RAM_ORIGIN ≤ PHYSICAL_HEAP_START.
Proof using LO.
  pose proof heap_start_bounds as [H1 H2]. unfold align_up. split; [zlia|done].
Qed.

Lemma boot_memory_done s :
  loaded s → ∃ N root s', boot_memory s = Done () s' ∧ memory_ready N root s s'.
Proof using LO.
  intros [Hz Hn]. pose proof heap_start_aligned as [Ha Hr]. pose proof init_places as (Hb & Hm & _ & _).
  set (N := Z.to_nat (Z.min 32768 init_num_frames)). assert (2050 ≤ Z.of_nat N ∧ Z.of_nat N ≤ 32768 ∧ Z.of_nat N ≤ init_num_frames) as (HN & HN1 & HN2) by lia.
  assert (wp boot_memory (λ _ s', ∃ root, memory_ready N root s s') s) as W.
  2:{ destruct (wp_inv _ _ _ W) as ([] & s' & E & root & H). by exists N, root, s'. }
  unfold boot_memory. apply wp_bind, wp_modify. apply wp_bind, wp_log; [done|]. intros o.
  set (s0 := emit o _). assert (pmem s0 = pmem s) as E0 by done.
  destruct (physical_allocator_init_done s0) as (s1 & E1 & Hf1 & _ & _ & Hl1 & Hv1 & Hfree & A1 & FR1).
  assert (frames_ok N s1) as FR.
  { apply FR1; [|done|done]. intros a Hx. rewrite E0. apply Hz. lia. }
  clear FR1. eapply wp_bind_done; [exact E1|].
  assert (in_order N 0 s1) as O1 by (split; [lia|lia|intros j Hj; apply Hfree; lia]).
  pose proof (in_order_nfree N 0 s1 O1) as Hn1.
  destruct (paging_init_spec N s1 FR) as (i & j & s2 & E2 & PS); [lia|].
  eapply wp_bind_done; [exact E2|]. pose proof (ps_nfree _ _ _ _ _ PS) as Hn2.
  destruct (ps_order _ _ _ _ _ PS 0 O1) as [k2 O2].
  destruct (virtual_allocator_init_spec N (frame_at s1 i) s2) as (s3 & E3 & HS);
    [apply PS|by apply (setup_kernel_space N _ (frame_at s1 j)), PS|lia|].
  eapply wp_done; [exact E3|]. exists (frame_at s1 i). pose proof (hs_free _ _ _ _ HS) as Hn3.
  assert (managed_frames_address_start s2 = managed_frames_address_start s1) as Em2
    by apply (only_mem_fields _ _ (ps_vars _ _ _ _ _ PS)).
  assert (managed_frames_address_start s3 = managed_frames_address_start s2) as Em3
    by apply (only_mem_fields _ _ (hs_mem _ _ _ _ HS)).
  assert (flags_base s3 = flags_base s1) as Hf3 by (unfold flags_base; congruence).
  assert (vars s3 = vars s2 ∧ vars s2 = vars s1) as [Hv3 Hv2].
  { split; [apply (only_mem_fields _ _ (hs_mem _ _ _ _ HS))|apply (only_mem_fields _ _ (ps_vars _ _ _ _ _ PS))]. }
  assert (logLevel s3 = logLevel s2 ∧ logLevel s2 = logLevel s1) as [Hl3 Hl2].
  { split; [apply (only_mem_fields _ _ (hs_mem _ _ _ _ HS))|apply (only_mem_fields _ _ (ps_vars _ _ _ _ _ PS))]. }
  split; [|apply HS|apply HS|congruence| |by rewrite Hv3, Hv2, Hv1|by rewrite Hl3, Hl2, Hl1].
  - apply (linear_started N _ k2 _ s2); [done|done|lia|by unfold boot_budget|lia].
  - intros a Hx. assert (0 ≤ a < flags_base s3) as Hx3 by lia.
    rewrite (hs_out _ _ _ _ HS a (static_outside N _ s3 (hs_ok _ _ _ _ HS) a Hx3)).
    destruct (fo_bounds _ _ FR) as (_ & B2 & _). destruct (ps_i _ _ _ _ _ PS), (ps_j _ _ _ _ _ PS).
    rewrite (ps_agree _ _ _ _ _ PS).
    + rewrite <- E0. apply A1. lia.
    + unfold in_flags, in_frame, frame_at, FRAME_SIZE in *. lia.
Qed.

(** C12: the start of memory management in os_start works from zeroed RAM: the frame
    allocator, the page tables and the heap come up one on the other, for any kernel
    image that leaves room for 2050 frames.  Afterwards the heap is empty, 2 MiB less a
    page of it can be allocated, every block behind its first page is contiguous in
    physical memory (the invariant [linear_budget]), and the image is unchanged. *)
Theorem memory_starts (s : kstate) :
  loaded s → ∃ N root s', boot_memory s = Done () s' ∧ linear_budget N root boot_budget s' ∧
    free_list s' = VIRTUAL_HEAP_START ∧ (∀ a, 0 ≤ a < PHYSICAL_HEAP_START → rd8 (pmem s') a = rd8 (pmem s) a) ∧
    logLevel s' = boot_log_level.
Proof using LO.
  intros Hl. destruct (boot_memory_done s Hl) as (N & root & s' & E & [B Ef _ _ I _ G]). by exists N, root, s'.
Qed.
End memory.

(** * Showing a file *)

Section files.
Context `{A : Allocator} `{D : BlockDevice} (disk : Z → Z) (device : Z).
Context {DL : DiskLaws disk device} (HD : ∀ d o l b, Prints (block_read d o l b)).
Context (F : Z → Prop) (fs : Z) (g : geometry) (GO : geometry_ok g).

(** The first [n] bytes of the first block of the file [names] leads to. *)
Definition file_bytes (names : list (list Z)) (n : Z) : list Z :=
  disk <$> zseq (first_block disk g (reached disk g (root_inode g) names)) (Z.to_nat n).
Definition file_size (names : list (list Z)) : Z := dload disk 4 (reached disk g (root_inode g) names + 4).

Lemma print_char_done c s : 0 ≤ c < 256 → printf (chars "%c") [c] s = Done () (emit [c] s).
Proof using Type.
  intros Hc. change (printf (chars "%c") [c] s) with (Done () (emit [to_char (to_char (s32 c))] s)).
  unfold to_char, s32. rewrite u32_small by lia. rewrite (proj2 (Z.ltb_lt _ _)) by lia. by rewrite !(u8_small c).
Qed.

Lemma wp_print_chars b s buffer size a (Q : () → kstate → Prop) :
  budget b s → 0 ≤ b → 0 ≤ size → holds_disk disk s buffer size a →
  Q () (emit (disk <$> zseq a (Z.to_nat size)) s) → wp (print_chars buffer size) Q s.
Proof using DL.
  intros Hb Hb0 Hs Hh HQ. unfold print_chars. pose proof (budget_0 b s Hb Hb0) as Hz.
  apply (wp_loop_left _ (λ n i s', i = size - Z.of_nat n ∧ 0 ≤ i ∧
    s' = emit (disk <$> zseq a (Z.to_nat i)) s) _ (Z.to_nat size)).
  2:{ rewrite Z2Nat.id by lia. rewrite Z.sub_diag. split_and!; [done|lia|]. cbn. symmetry. apply emit_nil. }
  2:{ destruct (decide (size = 0)) as [->|Hne]; [done|].
      assert (buffer + (size - 1) < 2 ^ 64 - 1) as H1.
      { destruct (Hh (size - 1)) as [H1 _]; [lia|]. pose proof (stable_range s _ Hz H1). simpl in *; lia. }
      destruct (Hh 0) as [H2 _]; [lia|]. pose proof (stable_range s _ Hz H2). simpl in *; lia. }
  intros n i s' (-> & Hi & ->). set (i := size - Z.of_nat n) in *.
  destruct n as [|n].
  { assert (i = size) as E by lia. rewrite E, Z.ltb_irrefl. by apply wp_ret. }
  rewrite (proj2 (Z.ltb_lt _ _)) by lia. destruct (Hh i) as [Si Vi]; [lia|].
  set (s1 := emit _ s).
  assert (budget 0 s1) as Hz1 by by apply budget_emit.
  assert (stable s1 (buffer + i)) as Si1 by (by apply (stable_proper _ _ (same_mem_emit _ s) _ _ eq_refl)).
  destruct (Hh 0) as [S0 _]; [lia|]. rewrite Z.add_0_r in S0.
  rewrite (stable_add s buffer i) by done.
  eapply wp_bind_done; [by apply stable_load|].
  assert (vbyte s1 (buffer + i) = disk (a + i)) as ->.
  { rewrite <- Vi. symmetry. apply vbyte_proper; [apply same_mem_emit|done]. }
  eapply wp_bind_done; [apply print_char_done, disk_byte|]. apply wp_ret.
  assert (i < 2 ^ 64 - 1) as Hlt.
  { pose proof (stable_range s _ Hz Si). pose proof (stable_range s _ Hz S0). lia. }
  rewrite u64_small by (simpl in *; lia). exists n. split; [done|]. split; [lia|]. split; [lia|].
  unfold s1. rewrite emit_emit. f_equal. replace (Z.to_nat (i + 1)) with (Z.to_nat i + 1)%nat by lia.
  rewrite zseq_app, fmap_app, Z2Nat.id by lia. by rewrite zseq_S.
Qed.
Section path.
Context (path : Z) (leading trailing : bool) (names : list (list Z)) (r : option Z).
Let text := path_text leading trailing names.
Context (Hp : ∀ x, range path (Z.of_nat (length text) + 1) x → ¬ driver x).
Context (Hne : names ≠ []) (HN : Forall component names).
Context (Hr : lookup_names disk g (root_inode g) names = Some r).

(** The file system's instance is in place and the path is in memory. *)
Record can_open (b : Z) (s : kstate) : Prop := CanOpen {
  co_budget : budget b s;
  co_mounted : mounted disk device F fs g s;
  co_instance : ext2_instance (vars s) = fs;
  co_path : cstr s path text
}.

Lemma can_open_keeps P b b' s s' :
  keeps P s s' → budget b' s' → mounted disk device F fs g s' →
  (∀ x, range path (Z.of_nat (length text) + 1) x → ¬ P x) → can_open b s → can_open b' s'.
Proof using Type.
  intros K Hb M HP [_ _ I C]. split; [done|done|by rewrite (kp_vars _ _ _ K)|by apply (cstr_keeps P s)].
Qed.

(** What is printed at the end. *)
Definition printed (s : kstate) (l : list Z) (s' : kstate) : Prop := ∃ o, console_out s' = console_out s ++ o ++ l.

(** The contents of a file, read into a buffer and printed. *)
Lemma wp_read_and_print b s size buffer (Q : () → kstate → Prop) :
  can_open b s → open_cost disk device g names + read_cost size ≤ b → 0 ≤ size < 2 ^ 33 →
  owned_range s buffer size → client_mem disk device F buffer size →
  (∀ s', budget (b - open_cost disk device g names - read_cost size) s' → mounted disk device F fs g s' →
     keeps (λ x, range buffer size x ∨ driver x) s s' → printed s (file_bytes names size) s' → Q () s') →
  wp (read_file path size buffer;; print_chars buffer size) Q s.
Proof using All.
  intros [Hb M Ei C] Hle Hs Ho Hc HQ. apply wp_bind, prints_wp; [by apply prints_read_file|].
  unfold read_file, EXT2_get_instance. apply wp_bind, wp_gets. rewrite Ei.
  apply (wp_read_file disk device F fs g GO b s path leading trailing names r); try done.
  intros s1 Hb1 M1 K1 H1 [[_ [o Ho1]] _].
  apply (wp_print_chars (b - open_cost disk device g names - read_cost size) s1 buffer size
    (first_block disk g (reached disk g (root_inode g) names))); [done|lia|lia|done|].
  apply HQ.
  - by apply budget_emit.
  - apply (mounted_keeps disk device F fs g GO nowhere s1); [apply keeps_emit|by intros ? []|done].
  - eapply keeps_trans; [exact K1|apply keeps_emit].
  - exists o. cbn. by rewrite Ho1, app_assoc.
Qed.

Lemma wp_file_size b s (Q : Z → kstate → Prop) :
  can_open b s → open_cost disk device g names ≤ b →
  (∀ s', can_open (b - open_cost disk device g names) s' → keeps driver s s' → grows s s' → Q (file_size names) s') →
  wp (get_file_size path) Q s.
Proof using All.
  intros CO Hle HQ. pose proof CO as [Hb M Ei C]. apply prints_wp; [by apply prints_file_size|].
  unfold get_file_size, EXT2_get_instance. apply wp_bind, wp_gets. rewrite Ei.
  apply (wp_get_file_size disk device F fs g GO b s path leading trailing names r); try done.
  intros s1 Hb1 M1 K1 G1. apply HQ; [|done|done]. by apply (can_open_keeps driver b _ s).
Qed.

Lemma file_size_range : 0 ≤ file_size names < 2 ^ 32.
Proof using DL. apply (dload_range disk 4 _ disk_byte). Qed.

Definition first_cost : Z := 2 * open_cost disk device g names + file_size names + 16 + read_cost (file_size names).

(** What showing the first file leaves. *)
Record shown_first (b : Z) (s : kstate) (buffer : Z) (s' : kstate) : Prop := ShownFirst {
  sf_budget : budget (b - first_cost) s';
  sf_mounted : mounted disk device F fs g s';
  sf_keeps : keeps driver s s';
  sf_owned : owned_range s' buffer (file_size names);
  sf_client : client_mem disk device F buffer (file_size names);
  sf_new x : range buffer (file_size names) x → ¬ stable s x;
  sf_printed : printed s (file_bytes names (file_size names)) s'
}.

Lemma open_cost_pos : 0 ≤ open_cost disk device g names.
Proof using DL GO. pose proof (walk_cost_pos disk device g GO names). pose proof (read_cost_pos (DiskLaws := DL) 256). unfold open_cost. lia. Qed.

Lemma grows_printed s1 s2 s3 l : grows s1 s2 → printed s2 l s3 → printed s1 l s3.
Proof using Type. intros [[_ [o1 E1]] _] [o2 E2]. exists (o1 ++ o2). by rewrite E2, E1, !app_assoc. Qed.

Lemma wp_show_first b s (Q : Z * Z → kstate → Prop) :
  can_open b s → first_cost ≤ b →
  (∀ buffer s', shown_first b s buffer s' → Q (file_size names, buffer) s') → wp (show_first path) Q s.
Proof using All.
  intros CO Hle HQ. unfold first_cost in *. pose proof file_size_range as Hn. pose proof open_cost_pos as Hoc.
  set (n := file_size names) in *. set (c := open_cost disk device g names) in *.
  pose proof (read_cost_pos (DiskLaws := DL) n) as Hrc.
  unfold show_first. apply wp_bind, (wp_file_size b); [done|lia|]. intros s1 CO1 K1 G1. fold n c in CO1 |- *.
  apply wp_bind, prints_wp; [apply prints_kalloc|].
  apply (wp_kalloc (b - c)); [apply CO1|lia|lia|]. intros buffer s2 Hb2 F2 G2. pose proof (fr_keeps _ _ _ _ F2) as K2.
  assert (mounted disk device F fs g s2) as M2.
  { apply (mounted_keeps disk device F fs g GO nowhere s1); [done|by intros ? []|apply CO1]. }
  assert (∀ x, range buffer n x → ¬ stable s x) as Hnew.
  { intros x Hx Hst. apply (fr_new _ _ _ _ F2 x Hx). by apply (kp_stable _ _ _ K1). }
  assert (client_mem disk device F buffer n) as Hc.
  { intros x Hx. split; intros Hx'; apply (fr_new _ _ _ _ F2 x Hx).
    - by apply (ea_stable _ _ _ _ _ (mo_object _ _ _ _ _ _ (co_mounted _ _ CO1))).
    - by apply driver_stable; [apply (co_mounted _ _ CO1)|]. }
  assert (can_open (b - c - n - 16) s2) as CO2.
  { apply (can_open_keeps nowhere (b - c) _ s1); try done. by intros ? ? []. }
  apply wp_bind.
  assert (wp (read_file path n buffer;; print_chars buffer n) (λ _ s3, wp (mret (n, buffer)) Q s3) s2) as W.
  2:{ revert W. unfold wp, mbind, M_bind. destruct (read_file path n buffer s2); [|done].
      destruct (print_chars buffer n s0); done. }
  apply (wp_read_and_print (b - c - n - 16)); [done|fold c; lia|lia|exact (fr_owned _ _ _ _ F2)|done|].
  intros s3 Hb3 M3 K3 P3. apply wp_ret, HQ. split.
  - fold c in Hb3. replace (b - first_cost) with (b - c - n - 16 - c - read_cost n); [done|].
    unfold first_cost. fold n c. lia.
  - done.
  - eapply (keeps_comp driver (λ x, range buffer n x ∨ driver x) driver s s2 s3); [|exact K3|].
    + eapply keeps_trans; [exact K1|]. by eapply keeps_mono; [|exact K2].
    + intros x Hx [Hd|[Hb'|Hd]]; [done|by destruct (Hnew x Hb')|done].
  - apply (owned_range_keeps _ _ _ _ _ K3). exact (fr_owned _ _ _ _ F2).
  - done.
  - done.
  - apply (grows_printed s s2); [by etrans|exact P3].
Qed.

Definition second_cost (size : Z) : Z := 2 * open_cost disk device g names + file_size names + 16 + read_cost size.

Lemma wp_show_second b s size buffer (Q : () → kstate → Prop) :
  can_open b s → second_cost size ≤ b → 0 ≤ size < 2 ^ 33 →
  owned_range s buffer size → client_mem disk device F buffer size →
  (∀ x, range path (Z.of_nat (length text) + 1) x → ¬ range buffer size x) →
  (∀ s', budget (b - second_cost size) s' → mounted disk device F fs g s' →
     keeps (λ x, range buffer size x ∨ driver x) s s' → printed s (file_bytes names size) s' → Q () s') →
  wp (show_second path size buffer) Q s.
Proof using All.
  intros CO Hle Hs Ho Hc Hpb HQ. unfold second_cost in *. pose proof file_size_range as Hn. pose proof open_cost_pos as Hoc.
  set (n := file_size names) in *. set (c := open_cost disk device g names) in *.
  pose proof (read_cost_pos (DiskLaws := DL) size) as Hrc.
  unfold show_second. apply wp_bind, (wp_file_size b); [done|lia|]. intros s1 CO1 K1 G1. fold n c in CO1 |- *.
  apply wp_bind, prints_wp; [apply prints_kalloc|].
  apply (wp_kalloc (b - c)); [apply CO1|lia|lia|]. intros p s2 Hb2 F2 G2. pose proof (fr_keeps _ _ _ _ F2) as K2.
  assert (can_open (b - c - n - 16) s2) as CO2.
  { apply (can_open_keeps nowhere (b - c) _ s1); try done; [|by intros ? ? []].
    apply (mounted_keeps disk device F fs g GO nowhere s1); [done|by intros ? []|apply CO1]. }
  apply (wp_read_and_print (b - c - n - 16)); [done|fold c; lia|done| |done|].
  { apply (owned_range_keeps _ _ _ _ _ K2), (owned_range_keeps _ _ _ _ _ K1), Ho. }
  intros s3 Hb3 M3 K3 P3. fold c in Hb3. apply HQ; [|done| |].
  - replace (b - (2 * c + n + 16 + read_cost size)) with (b - c - n - 16 - c - read_cost size) by lia. done.
  - eapply keeps_trans; [eapply keeps_mono; [|exact K1]; by right|].
    eapply keeps_trans; [eapply keeps_mono; [|exact K2]; by intros ? []|exact K3].
  - apply (grows_printed s s2); [by etrans|exact P3].
Qed.
End path.
End files.

(** * The block device and the file system *)

(** The text, read-only and data sections in the direct map. *)
Definition in_image `{Layout} (x : Z) : Prop :=
  VIRTUAL_OFFSET + RAM_ORIGIN ≤ x < VIRTUAL_OFFSET + PHYSICAL_HEAP_START.

Lemma image_device `{Layout} x : in_image x → ¬ device_va x.
Proof. unfold in_image, device_va, device_addr, RAM_ORIGIN. lia. Qed.

Lemma unchanged_trans {A : Allocator} W s1 s2 s3 :
  unchanged (A := A) s1 W s2 → unchanged (A := A) s2 W s3 → unchanged (A := A) s1 W s3.
Proof. intros U1 U2 x Hx. destruct (U1 x Hx) as [_ V1], (U2 x Hx) as [S2 V2]. split; [done|congruence]. Qed.

Section disk.
Context `{LO : LayoutOk} {H : Mmio} (devs : Z → vdevice).
Context {VRs : ∀ i, 0 ≤ i < 8 → VirtioRegisters H (slot i) (devs i)} (i : Z) (Hi : 0 ≤ i < 8).
Context (disk : Z → Z) (capacity : Z) {VD : VirtioDisk H (slot i) (devs i) (VRs i Hi) disk capacity}.
Context (Hdisk : ∀ x, 0 ≤ disk x < 256) (Hcap : 2 ^ 34 + 2 ^ 21 ≤ capacity).
Context (Hfirst : first_slot devs 2 = Some i) (Hsup : supported (devs i) = true).
Context (N : nat) (root : Z).

#[local] Abbreviation A := (linear_heap N root).
#[local] Abbreviation ready_at := (driver_ready (A := A) (slot i) (devs i) (VR := VRs i Hi)).
#[local] Abbreviation laws p q := (driver_laws (A := A) (slot i) (devs i) (VR := VRs i Hi) disk capacity Hdisk Hcap p q).
#[local] Abbreviation geo := (disk_geometry (partition disk)).

Lemma image_stable b s :
  budget (Allocator := A) b s → PHYSICAL_HEAP_START ≤ flags_base s → ∀ x, in_image x → stable (Allocator := A) s x.
Proof using Type. intros _ Hf x Hx. left. unfold in_image, static, RAM_ORIGIN in *. lia. Qed.

(** The queue lies at the end of the first page and in the second. *)
Lemma queue_live this q b s s' :
  budget (Allocator := A) b s → 6688 ≤ b → owned_range (A := A) s this 24 →
  block_ready (A := A) (slot i) (devs i) (VR := VRs i Hi) this q b s s' → q = VIRTUAL_HEAP_START + 56 →
  ready_at this q s'.
Proof using Type.
  intros Hb Hle Ho BR Eq. pose proof BR as [Hb' _ _ Hoq [_ Efl] _ _ _ _].
  pose proof Hb' as [[OK' HB'] _]. pose proof (ho_hi _ _ _ OK') as Hend.
  assert (∀ o n, 4040 ≤ o → o + n ≤ 6672 → ∃ pa, contiguous s' (q + o) n pa) as Hc.
  { intros o n H1 H2. apply (linear_range N root (b - 6688)); [done|unfold SECOND_PAGE; lia|lia]. }
  split.
  - exists 0. eapply (block_ready_live (A := A)); [exact Hb|done|done|exact BR|..].
    + apply (heap_contiguous N root (b - 6688)); [apply Hb'| |done|by subst q; vm_compute].
      intros x Hx. apply Hoq. unfold range in *. lia.
    + apply Hc; unfold avail_offset; lia.
    + apply Hc; unfold used_offset, USED_SIZE; lia.
  - right. unfold frontier, linear_contiguous, SECOND_PAGE, in_heap. lia.
  - intros x Hx. apply (device_apart (A := A) s' x); [|done]. apply (budget_0 (b - 6688)); [done|lia].
Qed.

Lemma image_heap hi x : in_image x → ¬ in_heap hi x.
Proof using LO.
  pose proof heap_start_bounds as [_ Hh].
  unfold in_image, in_heap, VIRTUAL_HEAP_START, WINDOW_SIZE, RAM_ORIGIN, RAM_LENGTH, VIRTUAL_OFFSET in *. lia.
Qed.

Lemma image_driver p q s x : ready_at p q s → in_image x → ¬ driver_memory p q x.
Proof using LO.
  intros [[seen BL] _ _] Hx [Hd|[Hr|Hr]]; [by apply (image_device x)|..].
  - apply (image_heap (free_list s) x Hx). by apply (bo_owned _ _ _ (bl_object _ _ _ _ _ _ BL)).
  - apply (image_heap (free_list s) x Hx). by apply (bl_owned _ _ _ _ _ _ BL).
Qed.

(** Get_block_device and init give a driver that is ready. *)
Lemma disk_ready s :
  budget (Allocator := A) boot_budget s → free_list s = VIRTUAL_HEAP_START → PHYSICAL_HEAP_START ≤ flags_base s →
  ∃ p q s1 s2, get_block_device s = Done p s1 ∧ VirtIOBlockDevice_init p s1 = Done 0 s2 ∧
    0 < p < 2 ^ 64 ∧ ready_at p q s2 ∧ budget (Allocator := A) (boot_budget - 6728) s2 ∧
    unchanged (A := A) s in_image s2.
Proof using Hfirst Hsup LO.
  intros Hb Hf Hfl.
  assert (wp get_block_device (λ p s1, budget (Allocator := A) (boot_budget - 40) s1 ∧
    block_object (A := A) (slot i) p s1 ∧ keeps (A := A) nowhere (with_block_device p s) s1 ∧
    p = free_list s + 16 ∧ free_list s1 = p + 24) s) as W.
  { apply (wp_get_block_device (A := A) devs boot_budget); [done|done|by rewrite Hfirst|].
    rewrite Hfirst. intros i' [= <-] p s1 Hb1 BO _ K Hp. done. }
  destruct (wp_inv _ _ _ W) as (p & s1 & E1 & Hb1 & BO & K1 & Ep & Ef1). clear W.
  assert (wp (VirtIOBlockDevice_init p) (λ r s2, r = 0 ∧
    ∃ q, block_ready (A := A) (slot i) (devs i) (VR := VRs i Hi) p q (boot_budget - 40) s1 s2) s1) as W.
  { apply (wp_init (A := A) (slot i) (devs i) (VR := VRs i Hi) (boot_budget - 40)); [done|done|done|by rewrite Hsup|].
    intros _ q s2 BR. split; [done|by exists q]. }
  destruct (wp_inv _ _ _ W) as (r & s2 & E2 & -> & q & BR). clear W.
  assert (q = VIRTUAL_HEAP_START + 56) as Eq by (destruct (br_place _ _ _ _ _ _ _ BR); lia).
  exists p, q, s1, s2. split; [done|]. split; [done|]. split.
  { rewrite Ep, Hf. by vm_compute. }
  split; [|split].
  - apply (queue_live p q (boot_budget - 40) s1 s2); [done|done|apply BO|done|done].
  - pose proof (br_budget _ _ _ _ _ _ _ BR) as Hb2. by replace (boot_budget - 6728) with (boot_budget - 40 - 6688) by lia.
  - intros x Hx. pose proof (image_stable _ s Hb Hfl x Hx) as Hs.
    assert (stable (Allocator := A) s1 x ∧ vbyte s1 x = vbyte s x) as [Hs1 V1].
    { split; [by apply (kp_stable _ _ _ K1)|]. rewrite (kp_byte _ _ _ K1); [done|done|by intros []]. }
    pose proof (br_keeps _ _ _ _ _ _ _ BR) as K2. split; [by apply (kp_stable _ _ _ K2)|].
    rewrite (kp_byte _ _ _ K2); [done|done|]. intros [Hd|Hr]; [by apply (image_device x)|].
    apply (image_heap (free_list s1) x Hx). apply (bo_owned _ _ _ BO). unfold range in *. lia.
Qed.

Lemma boot_disk_done s :
  budget (Allocator := A) boot_budget s → free_list s = VIRTUAL_HEAP_START → PHYSICAL_HEAP_START ≤ flags_base s →
  disk_ok (partition disk) → 6776 + mount_cost (DL := laws 0 0) (partition disk) 0 ≤ boot_budget →
  wp boot_disk (λ r s', ∃ p q fs F, r = Some fs ∧
    mounted (A := A) (DL := laws p q) (partition disk) p F fs geo s' ∧ ext2_instance (vars s') = fs ∧
    budget (Allocator := A) (boot_budget - 6776 - mount_cost (DL := laws 0 0) (partition disk) 0) s' ∧
    unchanged (A := A) s in_image s') s.
Proof using Hfirst Hsup LO.
  intros Hb Hf Hfl DO Hle. destruct (disk_ready s Hb Hf Hfl) as (p & q & s1 & s2 & E1 & E2 & Hp & DR & Hb2 & U2).
  unfold boot_disk. eapply wp_bind_done; [exact E1|]. rewrite (proj2 (Z.eqb_neq _ _)) by lia.
  eapply wp_bind_done; [exact E2|]. unfold operator_new.
  assert (0 ≤ mount_cost (DL := laws 0 0) (partition disk) 0) as Hm.
  { pose proof (do_groups _ DO) as [_ Hg]. unfold mount_cost. cbn [read_cost driver_laws].
    assert (∀ n, 0 ≤ driver_cost n) as Hc by (intros n; unfold driver_cost; lia).
    pose proof (Hc 92). pose proof (Hc 32). nia. }
  apply wp_bind, (wp_kalloc (A := A) (boot_budget - 6728)); [done|done|unfold sizeof_EXT2; lia|]. intros fs s3 Hb3 F3.
  change sizeof_EXT2 with 32 in *. pose proof (fr_keeps _ _ _ _ F3) as K3.
  assert (ready_at p q s3) as DR3.
  { apply (ready_keeps' (A := A) (slot i) (devs i) p q nowhere s2); [done|by intros ? ? []|done]. }
  assert (∀ x, range fs 32 x → ¬ driver_memory p q x) as Hd.
  { intros x Hx Hd. apply (fr_new _ _ _ _ F3 x Hx). by apply (driver_stable (DiskLaws := laws p q)). }
  apply wp_bind. eapply wp_mono.
  { apply (wp_mount (A := A) (partition disk) p (DL := laws p q) fs (boot_budget - 6776)); try done.
    - exact (fr_owned _ _ _ _ F3).
    - lia.
    - change (mount_cost (DL := laws p q) (partition disk) p) with (mount_cost (DL := laws 0 0) (partition disk) 0). lia. }
  intros [] s4 (F & M & Ei & Hb4 & U4 & _). apply wp_ret. exists p, q, fs, F. split_and!; try done.
  apply (unchanged_trans _ s s2); [done|]. intros x Hx. destruct (U2 x Hx) as [Hs2 _].
  pose proof (kp_stable _ _ _ K3 x Hs2) as Hs3. rewrite <- (kp_byte _ _ _ K3 x Hs2 ltac:(by intros [])).
  apply U4. split; [done|]. split; [intros Hr; by apply (fr_new _ _ _ _ F3 x Hr)|].
  by apply (image_driver p q s3).
Qed.

(** * All of it *)

(** A string literal in the image. *)
Record literal (m : mem) (p : Z) (l : list Z) : Prop := Literal {
  li_image : ∀ x, range p (Z.of_nat (length l) + 1) x → in_image x;
  li_chars : ∀ j c, l !! j = Some c → rd8 m (p + Z.of_nat j - VIRTUAL_OFFSET) = c ∧ c ≠ 0;
  li_nul : rd8 m (p + Z.of_nat (length l) - VIRTUAL_OFFSET) = 0
}.

Lemma image_byte s x : in_image x → vbyte s x = rd8 (pmem s) (x - VIRTUAL_OFFSET).
Proof using LO.
  intros Hx. pose proof heap_start_bounds as [_ Hh]. unfold vbyte, in_image, WINDOW_SIZE, RAM_ORIGIN in *.
  by rewrite resolve_window by (unfold WINDOW_SIZE; lia).
Qed.

Lemma literal_cstr s s1 s' p l :
  memory_ready N root s s1 → unchanged (A := A) s1 in_image s' → literal (pmem s) p l → cstr (A := A) s' p l.
Proof using LO.
  intros MR U [Li Lc Ln].
  assert (∀ x, range p (Z.of_nat (length l) + 1) x → vbyte s' x = rd8 (pmem s) (x - VIRTUAL_OFFSET)) as Hb.
  { intros x Hx. pose proof (Li x Hx) as Hi'. destruct (U x Hi') as [_ ->]. rewrite image_byte by done.
    apply (mr_image _ _ _ _ MR). unfold in_image, RAM_ORIGIN in Hi'. lia. }
  split.
  - intros x Hx. by apply U, Li.
  - intros j c Hj. pose proof (lookup_lt_Some _ _ _ Hj). rewrite Hb by (unfold range; lia). by apply Lc.
  - rewrite Hb by (unfold range; lia). done.
Qed.

#[local] Abbreviation contents names n := (file_bytes (partition disk) geo names n).
#[local] Abbreviation size_of names := (file_size (partition disk) geo names).

Definition boot_cost (names1 names2 : list (list Z)) : Z :=
  6776 + mount_cost (DL := laws 0 0) (partition disk) 0 + first_cost (DL := laws 0 0) (partition disk) 0 geo names1 +
  second_cost (DL := laws 0 0) (partition disk) 0 geo names2 (size_of names1) + 152.

(** The kernel before its first process: the file system is mounted over the block
    device, the VFS and the scheduler exist, and the two files are on the terminal. *)
Record system_up (names1 names2 : list (list Z)) (s : kstate) (sched : Z) (s' : kstate) : Prop := SystemUp {
  su_budget : budget (Allocator := A) (boot_budget - boot_cost names1 names2) s';
  su_mounted : ∃ p q F, mounted (A := A) (DL := laws p q) (partition disk) p F (ext2_instance (vars s')) geo s' ∧
    (∀ x, range (vfs_instance (vars s')) sizeof_VFS x ∨ range sched 24 x → ¬ F x ∧ ¬ driver_memory p q x);
  su_vfs : vfs_at (A := A) s' (vfs_instance (vars s')) 3;
  su_sched : scheduled (A := A) s' sched [] 0 [] ∧ scheduler_instance (vars s') = sched;
  su_apart : disjoint_range (vfs_instance (vars s')) sizeof_VFS sched 24;
  su_image p l : literal (pmem s) p l → cstr (A := A) s' p l;
  su_output : ∃ o1 o2 o3, console_out s' = console_out s ++ o1 ++ contents names1 (size_of names1) ++
    o2 ++ contents names2 (size_of names1) ++ o3
}.

(** A path the kernel names, and where it leads. *)
Record boot_path (m : mem) (p : Z) (leading trailing : bool) (names : list (list Z)) : Prop := BootPath {
  bp_literal : literal m p (path_text leading trailing names);
  bp_names : names ≠ [] ∧ Forall component names;
  bp_leads : ∃ r, lookup_names (partition disk) geo (root_inode geo) names = Some r
}.

(** The last statements before the first process. *)
Lemma wp_vfs_scheduler b s p q F fs (Q : option Z → kstate → Prop) :
  budget (Allocator := A) b s → 152 ≤ b → created (vars s) = false →
  mounted (A := A) (DL := laws p q) (partition disk) p F fs geo s → ext2_instance (vars s) = fs →
  geometry_ok geo →
  (∀ sched s', budget (Allocator := A) (b - 152) s' → mounted (A := A) (DL := laws p q) (partition disk) p F fs geo s' →
     ext2_instance (vars s') = fs → vfs_at (A := A) s' (vfs_instance (vars s')) 3 → scheduled (A := A) s' sched [] 0 [] →
     scheduler_instance (vars s') = sched → (∃ o, console_out s' = console_out s ++ o) →
     (∀ x, stable (Allocator := A) s x → stable (Allocator := A) s' x ∧ vbyte s' x = vbyte s x ∧
        ¬ range (vfs_instance (vars s')) sizeof_VFS x ∧ ¬ range sched 24 x) →
     disjoint_range (vfs_instance (vars s')) sizeof_VFS sched 24 → Q (Some sched) s') →
  wp (_ ← new_vfs; scheduler ← Scheduler_get_instance; mret (Some scheduler)) Q s.
Proof using Type.
  intros Hb Hle Hc M Ei GO HQ. apply wp_bind. unfold new_vfs.
  assert (Prints (vfs ← operator_new sizeof_VFS; VFS_ctor vfs;; mret vfs)) as HP.
  { unfold VFS_ctor. prints. }
  apply prints_wp; [done|]. apply (wp_new_vfs (A := A) b); [done|lia|].
  intros vfs s1 Hb1 V1 K1 Hnew [[_ [o1 E1]] C1]. set (v1 := set_vfs_instance vfs (vars s)) in *.
  assert (mounted (A := A) (DL := laws p q) (partition disk) p F fs geo s1) as M1.
  { apply (mounted_keeps (partition disk) p (DL := laws p q) F fs geo GO nowhere (set_vars v1 s)); [done|by intros ? []|].
    by apply (mounted_vars (partition disk) p (DL := laws p q)). }
  assert (vars s1 = v1) as Ev1 by apply (kp_vars _ _ _ K1).
  apply wp_bind, (wp_first_instance (A := A) (b - 112)); [done|lia|by rewrite C1|].
  intros sched s2 Hb2 SC Es K2 [_ [o2 E2]] Hnew2. apply wp_ret.
  set (v2 := set_scheduler_instance sched (vars s1)) in *. assert (vars s2 = v2) as Ev2 by apply (kp_vars _ _ _ K2).
  assert (vfs_instance (vars s2) = vfs) as Evfs by (rewrite Ev2; unfold v2; by rewrite Ev1).
  assert (∀ x, stable (Allocator := A) s x → stable (Allocator := A) s1 x ∧ vbyte s1 x = vbyte s x) as U1
    by (intros x; apply (kept_vars (A := A) _ _ _ _ K1)).
  assert (∀ x, stable (Allocator := A) s1 x → stable (Allocator := A) s2 x ∧ vbyte s2 x = vbyte s1 x) as U2
    by (intros x; apply (kept_vars (A := A) _ _ _ _ K2)).
  apply HQ; try done.
  - by replace (b - 152) with (b - 112 - 40) by lia.
  - apply (mounted_keeps (partition disk) p (DL := laws p q) F fs geo GO nowhere (set_vars v2 s1)); [done|by intros ? []|].
    by apply (mounted_vars (partition disk) p (DL := laws p q)).
  - rewrite Ev2. unfold v2. by rewrite Ev1.
  - rewrite Ev2. assert (vfs_instance v2 = vfs) as -> by (unfold v2; by rewrite Ev1).
    apply (vfs_at_keeps (A := A) nowhere (set_vars v2 s1)); [done|by intros ? ? []|].
    destruct V1 as [O1 N1 I1]. pose proof (same_mem_vars v2 s1) as SM. split.
    + intros x Hx. rewrite <- (owned_proper _ _ SM x x eq_refl). by apply O1.
    + rewrite <- N1. apply vload_ext. intros j _. symmetry. by apply vbyte_proper.
    + unfold v2. by rewrite Ev1.
  - exists (o1 ++ o2). by rewrite E2, E1, app_assoc.
  - intros x Hx. destruct (U1 x Hx) as [S1 B1], (U2 x (proj1 (U1 x Hx))) as [S2 B2]. rewrite Evfs.
    split_and!; [done|congruence|by intros Hr; apply (Hnew x Hr)|by intros Hr; apply (Hnew2 x Hr)].
  - rewrite Evfs. intros x Hx Hr. apply (Hnew2 x Hr), owned_stable, (va_object _ _ _ V1 x Hx).
Qed.

Section paths.
Context (s0 s1 : kstate) (MR : memory_ready N root s0 s1) (DO : disk_ok (partition disk)).

(** A path stays in the image. *)
Lemma boot_path_cstr s' m p leading trailing names :
  m = pmem s0 → boot_path m p leading trailing names → unchanged (A := A) s1 in_image s' →
  cstr (A := A) s' p (path_text leading trailing names).
Proof using LO MR. intros -> [Li _ _] U. by apply (literal_cstr s0 s1). Qed.

Lemma image_path d q s m p leading trailing names :
  boot_path m p leading trailing names → ready_at d q s →
  ∀ x, range p (Z.of_nat (length (path_text leading trailing names)) + 1) x → ¬ driver_memory d q x.
Proof using LO. intros BP DR x Hx. apply (image_driver d q s x DR). by apply (li_image _ _ _ (bp_literal _ _ _ _ _ BP)). Qed.

Lemma show_files_done testfile file l1 t1 names1 l2 t2 names2 d q F fs s2 b (k : K (option Z)) (Q : option Z → kstate → Prop) :
  boot_path (pmem s0) testfile l1 t1 names1 → boot_path (pmem s0) file l2 t2 names2 →
  budget (Allocator := A) b s2 → mounted (A := A) (DL := laws d q) (partition disk) d F fs geo s2 →
  ext2_instance (vars s2) = fs → unchanged (A := A) s1 in_image s2 →
  first_cost (DL := laws 0 0) (partition disk) 0 geo names1 +
    second_cost (DL := laws 0 0) (partition disk) 0 geo names2 (size_of names1) ≤ b →
  (∀ s', budget (Allocator := A) (b - first_cost (DL := laws 0 0) (partition disk) 0 geo names1 -
       second_cost (DL := laws 0 0) (partition disk) 0 geo names2 (size_of names1)) s' →
     mounted (A := A) (DL := laws d q) (partition disk) d F fs geo s' → vars s' = vars s2 →
     (∃ o1 o2, console_out s' = console_out s2 ++ o1 ++ contents names1 (size_of names1) ++
        o2 ++ contents names2 (size_of names1)) → unchanged (A := A) s1 in_image s' → wp k Q s') →
  wp ('(testfile_size, buffer1) ← show_first testfile; show_second file testfile_size buffer1;; k) Q s2.
Proof using LO MR DO Hfirst.
  intros BP1 BP2 Hb M Ei U Hle HQ. pose proof (disk_geometry_ok (partition disk) d (DL := laws d q) DO) as GO.
  assert (∀ d o l b, Prints (block_read d o l b)) as HD by (intros; apply prints_blk_read).
  pose proof (mo_ready _ _ _ _ _ _ M) as DR.
  destruct (bp_names _ _ _ _ _ BP1) as [Hne1 HC1], (bp_leads _ _ _ _ _ BP1) as [r1 Hr1].
  destruct (bp_names _ _ _ _ _ BP2) as [Hne2 HC2], (bp_leads _ _ _ _ _ BP2) as [r2 Hr2].
  pose proof (image_path d q s2 _ _ _ _ _ BP1 DR) as D1. pose proof (image_path d q s2 _ _ _ _ _ BP2 DR) as D2.
  pose proof (boot_path_cstr s2 _ _ _ _ _ eq_refl BP1 U) as C1. pose proof (boot_path_cstr s2 _ _ _ _ _ eq_refl BP2 U) as C2.
  set (c1 := first_cost (DL := laws 0 0) (partition disk) 0 geo names1) in *.
  set (c2 := second_cost (DL := laws 0 0) (partition disk) 0 geo names2 (size_of names1)) in *.
  assert (0 ≤ c2) as Hc2.
  { pose proof (open_cost_pos (A := A) (DL := laws d q) (partition disk) d geo GO names2) as H1.
    pose proof (file_size_range (A := A) (DL := laws d q) (partition disk) d geo names2) as H2.
    pose proof (read_cost_pos (DiskLaws := laws d q) (size_of names1)) as H3.
    change (open_cost (DL := laws d q) (partition disk) d geo names2) with (open_cost (DL := laws 0 0) (partition disk) 0 geo names2) in H1.
    change (read_cost (DiskLaws := laws d q) (size_of names1)) with (read_cost (DiskLaws := laws 0 0) (size_of names1)) in H3.
    unfold c2, second_cost. lia. }
  apply wp_bind, (wp_show_first (A := A) (DL := laws d q) (partition disk) d HD F fs geo GO testfile l1 t1 names1 r1 D1 Hne1 HC1 Hr1 b);
    [by split|change (c1 ≤ b); lia|].
  intros buffer s3 [Hb3 M3 K3 O3 Cl3 N3 P3]. change (budget (Allocator := A) (b - c1) s3) in Hb3.
  pose proof (file_size_range (A := A) (DL := laws d q) (partition disk) d geo names1) as Hsz.
  apply wp_bind, (wp_show_second (A := A) (DL := laws d q) (partition disk) d HD F fs geo GO file l2 t2 names2 r2 D2 Hne2 HC2 Hr2 (b - c1)).
  - split; [done|done|by rewrite (kp_vars _ _ _ K3)|by apply (cstr_keeps _ _ _ _ _ K3 C2)].
  - change (c2 ≤ b - c1). lia.
  - lia.
  - done.
  - done.
  - intros x Hx Hb'. apply (N3 x Hb'). by apply (cs_stable _ _ _ C2).
  - intros s4 Hb4 M4 K4 P4. apply HQ; [exact Hb4|done| | |].
    + by rewrite (kp_vars _ _ _ K4), (kp_vars _ _ _ K3).
    + destruct P3 as [o1 E1], P4 as [o2 E2]. exists o1, o2. by rewrite E2, E1, !app_assoc.
    + apply (unchanged_trans _ s1 s2 s4 U). intros x Hx. destruct (U x Hx) as [S2 _].
      pose proof (image_driver d q s2 x DR Hx) as Hnd. pose proof (kp_stable _ _ _ K3 x S2) as S3.
      split; [by apply (kp_stable _ _ _ K4)|]. rewrite (kp_byte _ _ _ K4 x S3), (kp_byte _ _ _ K3 x S2); [done|done|].
      intros [Hb'|Hd]; [by apply (N3 x Hb')|done].
Qed.
End paths.

#[local] Instance prints_boot_disk : Prints boot_disk.
Proof. unfold boot_disk. prints. Qed.

(** After the start of memory. *)
Lemma wp_after_memory s s1 testfile file l1 t1 names1 l2 t2 names2 :
  memory_ready N root s s1 → grows s s1 → created (vars s) = false → disk_ok (partition disk) →
  boot_path (pmem s) testfile l1 t1 names1 → boot_path (pmem s) file l2 t2 names2 →
  boot_cost names1 names2 ≤ boot_budget →
  wp (ext2 ← boot_disk;
      match ext2 with
      | None => mret None
      | Some _ =>
          '(testfile_size, buffer1) ← show_first testfile;
          show_second file testfile_size buffer1;;
          _ ← new_vfs;
          scheduler ← Scheduler_get_instance;
          mret (Some scheduler)
      end) (λ r s', ∃ sched, r = Some sched ∧ system_up names1 names2 s sched s') s1.
Proof using LO Hfirst Hsup.
  intros MR [[_ [o1 E1]] C1] Hc DO BP1 BP2 Hle. unfold boot_cost in Hle.
  assert (geometry_ok geo) as GO by apply (disk_geometry_ok (partition disk) 0 (DL := laws 0 0) DO).
  set (cm := mount_cost (DL := laws 0 0) (partition disk) 0) in *.
  set (c1 := first_cost (DL := laws 0 0) (partition disk) 0 geo names1) in *.
  set (c2 := second_cost (DL := laws 0 0) (partition disk) 0 geo names2 (size_of names1)) in *.
  assert (0 ≤ c1 + c2) as Hc12.
  { pose proof (open_cost_pos (A := A) (DL := laws 0 0) (partition disk) 0 geo GO) as H1.
    pose proof (file_size_range (A := A) (DL := laws 0 0) (partition disk) 0 geo) as H2.
    pose proof (read_cost_pos (DiskLaws := laws 0 0)) as H3. pose proof (H1 names1). pose proof (H1 names2).
    pose proof (H2 names1). pose proof (H2 names2). pose proof (H3 (size_of names1)).
    unfold c1, c2, first_cost, second_cost. lia. }
  apply wp_bind, prints_wp; [apply _|]. eapply wp_mono.
  { apply (boot_disk_done s1 (mr_budget _ _ _ _ MR) (mr_list _ _ _ _ MR)); [|done|fold cm; lia].
    rewrite (mr_flags _ _ _ _ MR). apply heap_start_aligned. }
  intros r s2 (d & q & fs & F & -> & M2 & Ei2 & Hb2 & U2) [[_ [o2 E2]] C2]. fold cm in Hb2.
  apply (show_files_done s s1 MR DO testfile file l1 t1 names1 l2 t2 names2 d q F fs s2 (boot_budget - 6776 - cm));
    try done; [fold c1 c2; lia|].
  fold c1 c2. intros s3 Hb3 M3 Ev3 (o3 & o4 & E3) U3.
  apply (wp_vfs_scheduler (boot_budget - 6776 - cm - c1 - c2) s3 d q F fs); [done|lia| |done|by rewrite Ev3|done|].
  { by rewrite Ev3, C2, C1. }
  intros sched s4 Hb4 M4 Ei4 V4 SC4 Es4 [o5 E4] U4 Hap. exists sched. split; [done|]. split; [| |done|done|done| |].
  - unfold boot_cost. fold cm c1 c2. by replace (boot_budget - (6776 + cm + c1 + c2 + 152))
      with (boot_budget - 6776 - cm - c1 - c2 - 152) by lia.
  - exists d, q, F. rewrite Ei4. split; [done|]. intros x Hx. split; intros Hf.
    + pose proof (ea_stable _ _ _ _ _ (mo_object _ _ _ _ _ _ M3) x Hf) as S3. destruct (U4 x S3) as (_ & _ & ? & ?). tauto.
    + pose proof (driver_stable (DiskLaws := laws d q) s3 x (mo_ready _ _ _ _ _ _ M3) Hf) as S3.
      destruct (U4 x S3) as (_ & _ & ? & ?). tauto.
  - intros p l. apply (literal_cstr s s1 s4 p l MR). apply (unchanged_trans _ s1 s3 s4 U3). intros x Hx.
    destruct (U3 x Hx) as [S3 _]. by destruct (U4 x S3) as (? & ? & _).
  - exists (o1 ++ o2 ++ o3), o4, o5. by rewrite E4, E3, E2, E1, <- !app_assoc.
Qed.
End disk.

Section system.
Context `{LO : LayoutOk} {H : Mmio} (devs : Z → vdevice).
Context {VRs : ∀ i, 0 ≤ i < 8 → VirtioRegisters H (slot i) (devs i)}.

#[local] Instance prints_boot_memory : Prints boot_memory.
Proof.
  unfold boot_memory, set_log_level. apply prints_bind; [|intros; apply _].
  apply prints_modify. intros s0. by apply grows_same.
Qed.

Section block_device.
Context (i : Z) (Hi : 0 ≤ i < 8).
Context (disk : Z → Z) (capacity : Z) {VD : VirtioDisk H (slot i) (devs i) (VRs i Hi) disk capacity}.
Context (Hdisk : ∀ x, 0 ≤ disk x < 256) (Hcap : 2 ^ 34 + 2 ^ 21 ≤ capacity).
Context (Hfirst : first_slot devs 2 = Some i) (Hsup : supported (devs i) = true).

(** C1: os_start brings the kernel up to the submission of its first process.  From zeroed
    RAM, with a block device that serves requests and an ext2 file system on its
    partition, memory, the VirtIO driver, the file system, the VFS and the scheduler are
    set up one on the other, the invariants of each hold at the end and their memory is
    disjoint; /testfile.txt has been printed, and of the second file as many bytes as the
    first one has.  What is left of os_start is start_program with the path of the shell
    and the home directory, both strings in memory, on the scheduler, which has no process
    yet. *)
Theorem os_start_boots s testfile file shell home l1 t1 names1 l2 t2 names2 shell_text home_text :
  loaded s → created (vars s) = false → disk_ok (partition disk) →
  boot_path disk (pmem s) testfile l1 t1 names1 → boot_path disk (pmem s) file l2 t2 names2 →
  literal (pmem s) shell shell_text → literal (pmem s) home home_text →
  boot_cost devs i Hi disk capacity Hdisk Hcap 0 0 names1 names2 ≤ boot_budget →
  ∃ N root sched s', system_up devs i Hi disk capacity Hdisk Hcap N root names1 names2 s sched s' ∧
    cstr (A := linear_heap N root) s' shell shell_text ∧ cstr (A := linear_heap N root) s' home home_text ∧
    os_start testfile file shell home s = (context ← start_program home sched shell; mret (inr context)) s'.
Proof using All.
  intros Hl Hc DO BP1 BP2 Hsh Hho Hle. destruct (boot_memory_done s Hl) as (N & root & s1 & E1 & MR).
  pose proof (prints_grows (m := boot_memory) s) as G. rewrite E1 in G. cbn [final] in G.
  destruct (wp_inv _ _ _ (wp_after_memory devs i Hi disk capacity Hdisk Hcap Hfirst Hsup N root s s1 testfile file
    l1 t1 names1 l2 t2 names2 MR G Hc DO BP1 BP2 Hle)) as (r & s' & E & sched & -> & U).
  exists N, root, sched, s'. pose proof (su_image _ _ _ _ _ _ _ _ _ _ _ _ _ _ U) as SI. split_and!; [done|by apply SI..|].
  assert (boot_system testfile file s = Done (Some sched) s') as Es.
  { unfold boot_system. rewrite (bind_done _ _ _ _ _ E1). exact E. }
  unfold os_start. by rewrite (bind_done _ _ _ _ _ Es).
Qed.
End block_device.

(** C30: without a block device os_start says so and returns -1; nothing behind that
    point runs. *)
Theorem os_start_without_disk s testfile file shell home :
  loaded s → first_slot devs 2 = None →
  ∃ s' o, os_start testfile file shell home s = Done (inl (-1)) s' ∧
    console_out s' = console_out s ++ o ++ log_prefix LogLevel.ERROR ++
      chars " Did not find a block device." ++ newline.
Proof using All.
  intros Hl Hno. destruct (boot_memory_done s Hl) as (N & root & s1 & E1 & MR).
  pose proof (prints_grows (m := boot_memory) s) as [[_ [o1 O1]] _]. rewrite E1 in O1. cbn [final] in O1.
  assert (wp get_block_device (λ p s2, p = 0 ∧ s2 = s1) s1) as W.
  { apply (wp_get_block_device (A := linear_heap N root) devs boot_budget); [apply MR|done|done|]. by rewrite Hno. }
  destruct (wp_inv _ _ _ W) as (p & s2 & E2 & -> & ->).
  eexists _, o1. split.
  - unfold os_start, boot_system, boot_disk. unfold mbind, M_bind. rewrite E1, E2. cbn -[log boot_log_level].
    rewrite (log_done (λ _, None) _ _ _ (log_prefix LogLevel.ERROR ++ chars " Did not find a block device." ++ newline)).
    + done.
    + apply strings_at_none.
    + unfold log_text. by rewrite (mr_log _ _ _ _ MR).
  - unfold emit, set_console. cbn [console_out]. by rewrite O1, <- !app_assoc.
Qed.
End system.
