(* ===== verification/BootSample.v ===== *)
(** A concrete machine for the theorems of Boot.v: RAM of which only a path in the kernel
    image is not zero, and the VirtIO device of VirtioSample.v with the disk image of
    Ext2Mount.v behind the first MiB. *)

From S2P Require Import Prelude Monad Memory Sv48 Machine Layout Samples Stdio PhysAlloc Paging AddressSpace Heap KAlloc Allocator Client Dma LinearHeap UserSpace FrameGap Process Virtio VirtioDevice VirtioInit VirtioBlk VirtioSample Ext2 Ext2Walk Ext2Mount Ext2Files DiskDriver Console Loader Programs Boot.

(** The literals "/a.txt", "/usr/bin/shell" and "/home/user/", one behind the other, at
    0x80001000. *)
Definition path_bytes : list Z :=
  chars "/a.txt" ++ [0] ++ chars "/usr/bin/shell" ++ [0] ++ chars "/home/user/" ++ [0].
Definition path_byte (x : Z) : Z := default 0 (path_bytes !! Z.to_nat x).
Definition image_memory : mem := write_disk path_byte 0 0x80001000 34 ∅.
Definition path_literal : Z := VIRTUAL_OFFSET + 0x80001000.
Definition shell_literal : Z := path_literal + 7.
Definition home_literal : Z := path_literal + 22.

Definition power_on : kstate := KState image_memory 0 0 0 0 0 0 0 [] [] no_statics.

Lemma path_byte_range x : 0 ≤ path_byte x < 256.
Proof.
  unfold path_byte. destruct (path_bytes !! Z.to_nat x) as [c|] eqn:E; cbn; [|lia].
  apply list_elem_of_lookup_2 in E. revert c E. apply Forall_forall. by repeat constructor.
Qed.

Lemma image_memory_byte a :
  rd8 image_memory a = if decide (0x80001000 ≤ a < 0x80001000 + 34) then path_byte (a - 0x80001000) else 0.
Proof. unfold image_memory. by rewrite (write_disk_byte path_byte path_byte_range) by lia. Qed.

Lemma power_on_loaded : loaded (L := link) power_on.
Proof.
  split; [|by vm_compute]. intros a Ha. change (@PHYSICAL_HEAP_START link) with 0x80200000 in Ha.
  cbn [pmem power_on]. rewrite image_memory_byte. by rewrite decide_False by lia.
Qed.

(** The disk: the file system's image is the partition that begins at 1 MiB. *)
Definition boot_disk_bytes (y : Z) : Z := sample_disk (y - 512 * 2048).
Lemma boot_disk_range x : 0 ≤ boot_disk_bytes x < 256.
Proof. apply sample_disk_byte. Qed.
Definition boot_capacity : Z := 2 ^ 35.
Lemma boot_capacity_ok : 2 ^ 34 + 2 ^ 21 ≤ boot_capacity.
Proof. done. Qed.

#[local] Abbreviation MM := (sample_mmio boot_disk_bytes sample_devs).
#[local] Abbreviation VR := (λ i H, sample_registers boot_disk_bytes sample_devs i H).
#[local] Abbreviation VD := (sample_disk_laws boot_disk_bytes boot_disk_range boot_capacity slot_0).

Lemma first_device : first_slot sample_devs 2 = Some 0.
Proof. reflexivity. Qed.
Lemma device_supported : supported (sample_devs 0) = true.
Proof. reflexivity. Qed.

Lemma boot_partition_ok : disk_ok (partition boot_disk_bytes).
Proof. split; by vm_compute. Qed.

Definition a_txt_name : list Z := chars "a.txt".

(** The characters of a literal at the offset [n]. *)
Lemma sample_literal n l :
  0 ≤ n → n + Z.of_nat (length l) < 34 → l ++ [0] = take (length l + 1) (drop (Z.to_nat n) path_bytes) →
  Forall (λ c, c ≠ 0) l → literal (L := link) (pmem power_on) (path_literal + n) l.
Proof.
  intros Hn Hl E Hnz.
  assert (∀ j c, (l ++ [0]) !! j = Some c → rd8 (pmem power_on) (path_literal + n + Z.of_nat j - VIRTUAL_OFFSET) = c) as Hb.
  { intros j c Hj. pose proof (lookup_lt_Some _ _ _ Hj) as Hlj. rewrite length_app in Hlj. cbn [length] in Hlj.
    rewrite E, lookup_take_lt in Hj by lia. rewrite lookup_drop in Hj.
    cbn [pmem power_on]. rewrite image_memory_byte. unfold path_literal. rewrite decide_True by lia. unfold path_byte.
    replace (Z.to_nat _) with (Z.to_nat n + j)%nat by lia. by rewrite Hj. }
  split.
  - intros x Hx. unfold in_image. change (@PHYSICAL_HEAP_START link) with 0x80200000.
    unfold path_literal, RAM_ORIGIN, range in *. lia.
  - intros j c Hj. split; [|by apply (Forall_lookup_1 _ _ _ _ Hnz Hj)]. apply Hb. by apply lookup_app_l_Some.
  - apply Hb. by apply list_lookup_middle.
Qed.

Lemma power_on_path : boot_path (L := link) boot_disk_bytes (pmem power_on) path_literal true false [a_txt_name].
Proof.
  split; [apply (sample_literal 0); [done..|by vm_compute|by repeat constructor]| |by exists (Some 13056); vm_compute]. split; [done|].
  repeat constructor; [done|apply (bool_decide_unpack _); by vm_compute|apply (bool_decide_unpack _); by vm_compute].
Qed.

Lemma memory_starts_witness :
  ∃ N root s', boot_memory (H := link) power_on = Done () s' ∧ linear_budget N root boot_budget s' ∧
    free_list s' = VIRTUAL_HEAP_START ∧
    (∀ a, 0 ≤ a < @PHYSICAL_HEAP_START link → rd8 (pmem s') a = rd8 (pmem power_on) a) ∧ logLevel s' = boot_log_level.
Proof. apply (memory_starts (LO := link_ok) power_on), power_on_loaded. Defined.

(** "hello" is printed twice on the way to the shell. *)
Lemma os_start_boots_witness :
  ∃ N root sched s' o1 o2 o3,
    os_start (H := MM) (H0 := link) path_literal path_literal shell_literal home_literal power_on =
      (context ← start_program (H := block_driver (H := MM)) home_literal sched shell_literal; mret (inr context)) s' ∧
    console_out s' = o1 ++ chars "hello" ++ o2 ++ chars "hello" ++ o3 ∧
    cstr (A := linear_heap N root) s' shell_literal (chars "/usr/bin/shell").
Proof.
  destruct (os_start_boots (LO := link_ok) (H := MM) sample_devs (VRs := VR) 0 slot_0 boot_disk_bytes boot_capacity
    (VD := VD) boot_disk_range boot_capacity_ok first_device device_supported power_on path_literal path_literal
    shell_literal home_literal true false [a_txt_name] true false [a_txt_name] (chars "/usr/bin/shell") (chars "/home/user/")
    power_on_loaded eq_refl boot_partition_ok power_on_path power_on_path)
    as (N & root & sched & s' & U & C & _ & E);
    [apply (sample_literal 7); [done..|by vm_compute|by repeat constructor]|
     apply (sample_literal 22); [done..|by vm_compute|by repeat constructor]|by vm_compute|].
  destruct (su_output _ _ _ _ _ _ _ _ _ _ _ _ _ _ U) as (o1 & o2 & o3 & Eo).
  exists N, root, sched, s', o1, o2, o3. split; [exact E|]. split; [exact Eo|exact C].
Defined.

(** A machine whose slots are empty. *)
Definition empty_slots (i : Z) : vdevice := VDevice 0 (λ _, 0) (λ _ _, true) 0.

Lemma os_start_without_disk_witness :
  ∃ s' o, os_start (H := sample_mmio boot_disk_bytes empty_slots) (H0 := link) path_literal path_literal 0 0 power_on =
      Done (inl (-1)) s' ∧
    console_out s' = o ++ log_prefix LogLevel.ERROR ++ chars " Did not find a block device." ++ newline.
Proof.
  apply (os_start_without_disk (LO := link_ok) (H := sample_mmio boot_disk_bytes empty_slots) empty_slots
    (VRs := λ i H, sample_registers boot_disk_bytes empty_slots i H) power_on path_literal path_literal 0 0 power_on_loaded).
  reflexivity.
Defined.

(** The driver after its initialisation on this machine, and a buffer of five bytes. *)
#[local] Abbreviation LH N root := (linear_heap N root).

Lemma sample_driver :
  ∃ N root p q buffer s, budget (Allocator := LH N root) 60000 s ∧
    driver_ready (A := LH N root) (slot 0) (sample_devs 0) (VR := VR 0 slot_0) p q s ∧
    owned_range (A := LH N root) s buffer 5 ∧ ∀ x, range buffer 5 x → ¬ driver_memory p q x.
Proof.
  destruct (boot_memory_done (LO := link_ok) power_on power_on_loaded) as (N & root & s1 & _ & MR).
  destruct (disk_ready (LO := link_ok) (H := MM) sample_devs (VRs := VR) 0 slot_0
    first_device device_supported N root s1 (mr_budget _ _ _ _ MR) (mr_list _ _ _ _ MR))
    as (p & q & s2 & s3 & _ & _ & _ & DR & Hb & _).
  { rewrite (mr_flags _ _ _ _ MR). apply (heap_start_aligned (LO := link_ok)). }
  destruct (kalloc_fresh (A := LH N root) _ 5 s3 Hb) as (buffer & s4 & _ & Hb4 & F4); [lia|by vm_compute|].
  exists N, root, p, q, buffer, s4. split; [|split; [|split]].
  - apply (budget_weaken (Allocator := LH N root) _ _ _ Hb4). by vm_compute.
  - apply (ready_keeps' (A := LH N root) (slot 0) (sample_devs 0) p q nowhere s3 s4 (fr_keeps _ _ _ _ F4)); [by intros ? ? []|done].
  - exact (fr_owned _ _ _ _ F4).
  - intros x Hx Hd. apply (fr_new _ _ _ _ F4 x Hx). destruct DR as [[seen BL] _ DV]. destruct Hd as [Hd|[Hd|Hd]].
    + by apply DV.
    + apply (owned_stable (Allocator := LH N root)). by apply (bo_owned _ _ _ (bl_object _ _ _ _ _ _ BL)).
    + apply (owned_stable (Allocator := LH N root)). by apply (bl_owned _ _ _ _ _ _ BL).
Qed.

(** The five bytes at offset 18432 of the partition are "hello". *)
Lemma virtio_read_correct_witness :
  ∃ p buffer s s', VirtIOBlockDevice_read (H := MM) p 18432 5 buffer s = Done 0 s' ∧
    vbyte s' (buffer + 0) = 104 ∧ vbyte s' (buffer + 4) = 111.
Proof.
  destruct sample_driver as (N & root & p & q & buffer & s & Hb & DR & Ho & Hd). exists p, buffer, s.
  destruct (virtio_read_correct (A := LH N root) (H := MM) (slot 0) (sample_devs 0) (VR := VR 0 slot_0)
    boot_disk_bytes boot_capacity (VD := VD) boot_disk_range boot_capacity_ok p q 60000 s 18432 5 buffer)
    as (s' & E & _ & _ & _ & V); [exact Hb|exact DR|lia|by vm_compute|lia|by vm_compute|by vm_compute|exact Ho|exact Hd|].
  exists s'. split; [exact E|]. split; [rewrite (V 0) by lia|rewrite (V 4) by lia]; by vm_compute.
Defined.

(** Two pages of the heap are in use when a frame is taken; the next block, which does
    not fit into them, is not contiguous. *)
Lemma sample_two_pages :
  ∃ N root s, linear_budget N root 60000 s ∧ free_list s = VIRTUAL_HEAP_START + 5016 ∧
    virtual_alloc_end s = VIRTUAL_HEAP_START + 8192 ∧ 2000 ≤ Z.of_nat (nfree N s).
Proof.
  destruct (boot_memory_done (LO := link_ok) power_on power_on_loaded) as (N & root & s & _ & [B Ef Ee _ _ _ _]).
  destruct (kalloc_fresh (A := LH N root) boot_budget 5000 s B) as (p & s1 & E & B1 & [_ _ _ _ _ [Hp Ef1]]); [lia|by vm_compute|].
  assert (virtual_alloc_end s1 = VIRTUAL_HEAP_START + 8192) as Ee1.
  { destruct B as ((OK & _ & Hn & _) & k & L).
    assert (pages_needed s 5000 = 1) as Hp1 by (unfold pages_needed, free_size; by rewrite Ef, Ee).
    assert (pages_needed s boot_budget = 511) as Hpb by (unfold pages_needed, free_size; by rewrite Ef, Ee).
    destruct (kalloc_done N root s 5000 OK) as (s2 & E2 & AB); [lia|lia|].
    assert (s2 = s1) as -> by congruence. rewrite (ab_end _ _ _ _ _ AB). lia. }
  exists N, root, s1. split; [|split; [lia|split; [done|]]].
  - apply (budget_weaken (Allocator := LH N root) _ _ _ B1). by vm_compute.
  - destruct B1 as ((_ & _ & Hn & _) & _). assert (free_list s1 = VIRTUAL_HEAP_START + 5016) as Ef2 by lia.
    assert (pages_needed s1 (boot_budget - 5000 - 16) = 510) as Hp2
      by (unfold pages_needed, free_size; by rewrite Ef2, Ee1). lia.
Qed.

Lemma taken_frame_breaks_contiguity_witness :
  ∃ f s s1 p s2, kalloc_frame s = Done f s1 ∧ kalloc 4608 s1 = Done p s2 ∧
    resolve s2 (VIRTUAL_HEAP_START + 8191) = Some (f - 1) ∧ ¬ ∃ pa, contiguous s2 p 4608 pa.
Proof.
  destruct sample_two_pages as (N & root & s & B & Ef & Ee & Hn).
  destruct (taken_frame_breaks_contiguity N root 60000 s 4608 B) as (f & s1 & p & s2 & E1 & E2 & Hr & _ & Hc).
  - rewrite Ee. unfold SECOND_PAGE. lia.
  - lia.
  - assert (pages_needed s 4608 = 1) as -> by (unfold pages_needed, free_size; by rewrite Ef, Ee). lia.
  - rewrite Ef, Ee. lia.
  - exists f, s, s1, p, s2. rewrite Ee in Hr. split_and!; [done|done| |done].
    by replace (VIRTUAL_HEAP_START + 8191) with (VIRTUAL_HEAP_START + 8192 - 1) by lia.
Defined.
